(* ===== verification/_CoqProject ===== *)
-Q . S2P
Prelude.v
Crypto.v
Keys.v
IpAlloc.v
Json.v
State.v
StateFacts.v
StateSpec.v
StateLife.v
StateSamples.v
Netmap.v
Dns.v
Socket.v
Http1.v
Noise.v
Http2.v
Coordinator.v
CoordFacts.v
TickFacts.v
ConnFacts.v
CoordSamples.v
Lifecycle.v
Races.v
MapRaces.v
Minted.v
CApi.v
Cli.v
Handlers.v
Handles.v
