(* ===== verification/Prelude.v ===== *)
(** * wirebone.cpp: a verification development

    wirebone is a control server for a Tailscale-like mesh: machines register
    with a preauth key over Noise and HTTP/2, get an address, and receive the map
    of the peers they may see. This library models the C++ program (src/src and
    src/include/wirebone) and proves what its parts promise.

    ** The program and the files that model it

    From the bottom up, with the code each file models; a definition has the
    name of the function, method or type it translates where Rocq allows it.

    - Prelude: the result type [res] (a value, a C++ exception [Throw], undefined
      behaviour [Ub]), the state and error monad [M S A] in which code with
      effects is written (the state of a computation that throws is kept, as
      mutations before an exception are), fixed-width integers, byte strings,
      std::stoi and std::to_string, and the relation [pres R m]: whatever [m]
      ends with, the state it leaves is related by the preorder [R] to its start.
    - Crypto (crypto.cpp), Keys (keys.cpp), IpAlloc (ip_alloc.cpp), Json (the
      interface to nlohmann::json), Netmap (netmap.cpp), Dns (dns.cpp), Socket
      (recv, send and close on a connected socket), Http1 (http1.cpp), Noise
      (noise.cpp), Http2 (http2_session.cpp): one file per source file, each with
      its definitions, lemmas, theorems and samples.
    - State (state.cpp): the [Store] with its [World] (disk, clock, random source,
      callback) and every method. StateFacts: its lemmas. StateSpec: operations
      as data, the abstract [Registry] and the refinement, identities.
      StateLife: preauth keys, restart, export.
      Minted: a key from its creation to its use. Races: uses of one key by
      several threads. StateSamples: runs on concrete inputs.
    - Coordinator (coordinator.cpp): [Co] is Coordinator::Impl without its
      listener, [Serve] what serve_h2 works on, [Client] a connection.
      Handlers: what every request is answered with, also when a save fails.
      CoordFacts: what a connection
      can do to the registry. TickFacts: the map
      streams and the event loop. ConnFacts: a connection from accept to close.
      MapRaces: map streams while other connections change the registry.
      CoordSamples: whole connections on concrete inputs.
    - Lifecycle (coordinator.cpp, dns.cpp): the listener, the responder's socket
      and the threads: start, stop, destruction.
    - CApi (c_api.cpp, wirebone.h): the C interface over a heap. Handles: its
      calls on many coordinators in one process, among the connections they
      accept. Cli (main.cpp): the command line.

    The code below a coordinator is called as the code calls it: a client thread
    reads an HTTP/1.1 request (Http1), upgrades to Noise (Noise), runs the HTTP/2
    loop (Http2) whose requests are handled by Coordinator, which calls the
    store (State) and builds maps (Netmap) from its nodes.

    ** Code that is not in the repository

    OpenSSL, inet_pton and inet_ntop, nlohmann::json, zstd and nghttp2 are the
    classes [OpenSSL], [InetLib], [JsonLib], [Zstd] and [Nghttp2]; what their
    documentation promises and the code relies on are the classes [...Laws],
    taken as hypotheses only where a proof needs them. Each has a concrete sample
    instance that satisfies its laws, so the definitions evaluate and every
    theorem with hypotheses has a witness.

    ** What is proved

    - Joining: a one-shot key is granted at most once through any operations
      and file-system faults, imports of a state that has it unused excepted
      (one_shot_key_once), through any interleaving of
      threads outside one window (one_shot_interleaved), and twice inside it
      (one_shot_race); a use of a key is decided as consume_preauth_spec says; a
      machine enters the registry only with a valid key and gets the group of
      that key (request_admission); what a register request is answered with on
      every branch (register_spec); a connection changes only its own machine's
      node (connection_confined); keys minted by the C interface and by the
      command line are usable as their arguments say (c_key_usable,
      preauth_create_usable).
    - The registry: every operation refines a step on an abstract map
      (exec_op_refines), identities and addresses stay unique
      (run_identities_unique, address_for_spec), and a restart, an import or the
      list command finds what was saved (restart_preserves, export_import,
      nodes_list_shows).
    - The map: exactly the visible peers, a filter that follows them, no
      dependence on invisible nodes, a framing that decodes (full_map_peers_exact,
      full_map_packet_filter, full_map_noninterference, map_frame_round_trip);
      a tick brings every stream up to date, also when others interfere, while a
      change made while a stream opens is missed (tick_up_to_date,
      tick_no_lost_change, map_stream_misses_change); what a map request is
      answered with on every branch (map_request_spec).
    - Transport: the handshake agrees on keys, records round trip through any
      fragmentation, write errors are reported (handshake_agreement,
      record_round_trip, write_reports), HTTP/2 streams are never used after they
      are freed and never mixed (h2_memory_safe, h2_request_isolated,
      response_queue), the loop never sleeps on decrypted data
      (poll_sees_everything), HTTP/1.1 requests are read as a reference reader
      does and the reader returns (read_http_request_spec,
      read_http_request_total), HKDF is RFC 5869's.
    - Descriptors, threads and memory: nothing leaks or is closed twice through
      any starts and stops, of one coordinator or of many in one process with the
      connections they accept (descriptors_balanced, handles_balanced), stop
      wakes the threads it joins and returns (stop_returns), a connection's descriptor is closed
      once or, after an exception, twice (client_thread_closes), the responder
      survives every datagram (dns_loop_survives, answer_query), the C interface
      frees what it allocated whichever allocations fail (list_then_free).
    - Failures that are part of the behaviour: non_object_body_escapes,
      failed_start_sticks, export_escapes.

    ** Bounds and fuel

    Loops over data recurse on it. The reader of an HTTP/1.1 head and the Noise
    loops recurse on a number of steps that the theorems show to be enough for
    any input (read_http_request_total, read_total); the decoder of a DNS name has
    the 16 hops of the code. The event loop of HTTP/2, the responder's loop and
    the accept loop, which the code runs until something ends them, are taken
    over the list of their rounds or as a step relation, and the theorems hold
    for every such list or run.

    ** What is not modelled

    The mutexes themselves: a method of the store or of the coordinator's
    generation counter runs under its lock and is one step; Races, MapRaces and
    Lifecycle take the steps of several threads in any order, and Lifecycle shows
    that a detached client thread may outlive its coordinator, after which the
    C++ behaviour is undefined. A wait in accept or recvfrom ends when its socket
    is shut down, as Linux does also for the unconnected responder. Signals: a
    send on a connection whose peer has closed fails in the model, while the
    program, which neither ignores SIGPIPE nor passes MSG_NOSIGNAL, is ended by
    the signal on Linux. A failed creation of a client thread, which ends the
    process. Reuse of a descriptor's number, so a second close is seen as one
    of a descriptor that is not open. Failures of a stream after it has been opened
    (short writes to the state file), bad_alloc outside the C interface, socket
    options, logging to standard error, time zones of the clock. In a connection's
    rounds nghttp2 chooses the callbacks; only the order and data it promises are
    assumed. The tests, the interop tools, the examples and the build files. *)

From Stdlib Require Import Strings.Byte Strings.Ascii.
From Stdlib Require Export ZArith Lia.
From stdpp Require Export base gmap strings list numbers pretty.
Export (notations) Stdlib.Strings.Ascii.

Declare Scope wb_scope.
Delimit Scope wb_scope with wb.
Open Scope wb_scope.
#[export] Set Default Goal Selector "!".
#[global] Arguments String.append !_ _ /.

(** ** Fixed-width integers

    A C++ integer is a [Z] inside its range; a conversion that C++20 defines
    as reduction modulo [2 ^ w] is written out with one of these wraps. *)

Definition wrap_u8 (z : Z) : Z := z mod 2 ^ 8.
Definition wrap_u16 (z : Z) : Z := z mod 2 ^ 16.
Definition wrap_u32 (z : Z) : Z := z mod 2 ^ 32.
Definition wrap_u64 (z : Z) : Z := z mod 2 ^ 64.
Definition wrap_i32 (z : Z) : Z := (z + 2 ^ 31) mod 2 ^ 32 - 2 ^ 31.
Definition wrap_i64 (z : Z) : Z := (z + 2 ^ 63) mod 2 ^ 64 - 2 ^ 63.

Definition INT_MIN : Z := - 2 ^ 31.
Definition INT_MAX : Z := 2 ^ 31 - 1.

(** ** Bytes: [std::uint8_t] *)

Abbreviation byte := Byte.byte.

(** The value of a byte, and the conversion [static_cast<std::uint8_t>]. *)
Definition bz (b : byte) : Z := Z.of_N (Byte.to_N b).
Definition u8 (z : Z) : byte :=
  match Byte.of_N (Z.to_N (wrap_u8 z)) with Some b => b | None => Byte.x00 end.

#[export] Instance byte_eq_decision : EqDecision byte := Byte.byte_eq_dec.
#[export] Instance byte_inhabited : Inhabited byte := populate Byte.x00.
#[export] Program Instance byte_countable : Countable byte :=
  inj_countable Byte.to_N Byte.of_N _.
Next Obligation. intros b. apply Byte.of_to_N. Qed.

(** The code of a character of a [std::string] and back. *)
Definition char_code (c : Ascii.ascii) : Z := bz (Ascii.byte_of_ascii c).
Definition code_char (z : Z) : Ascii.ascii := Ascii.ascii_of_byte (u8 z).
Definition bytes_of_string (s : string) : list byte := String.list_byte_of_string s.
Definition string_of_bytes (l : list byte) : string := String.string_of_list_byte l.

(** ** Network byte order *)

(** The bytes of a 16-, 32- or 64-bit integer, most significant first, as the
    code's shifts and truncations produce them. *)
Definition be16 (v : Z) : list byte := [u8 (Z.shiftr v 8); u8 v].
Definition be32 (v : Z) : list byte :=
  [u8 (Z.shiftr v 24); u8 (Z.shiftr v 16); u8 (Z.shiftr v 8); u8 v].

(** The integer a big-endian byte sequence stands for. *)
Definition be_value (l : list byte) : Z := fold_left (fun a b => a * 256 + bz b)%Z l 0%Z.

(** ** Outcomes

    A C++ call returns, throws, or has undefined behaviour; the third
    outcome is kept so that memory safety can be stated and proved. *)

Inductive exn :=
  | RuntimeError (what : string)
  | TypeError
  | ParseError
  | InvalidArgument
  | OutOfRange.

Inductive res (A : Type) :=
  | Ok (a : A)
  | Throw (e : exn)
  | Ub.
Arguments Ok {A} a.
Arguments Throw {A} e.
Arguments Ub {A}.

#[export] Instance res_ret : MRet res := fun A a => Ok a.
#[export] Instance res_bind : MBind res := fun A B f m =>
  match m with Ok a => f a | Throw e => Throw e | Ub => Ub end.
#[export] Instance res_fmap : FMap res := fun A B f m =>
  match m with Ok a => Ok (f a) | Throw e => Throw e | Ub => Ub end.

Definition is_ok {A} (r : res A) : bool :=
  match r with Ok _ => true | _ => false end.

Definition from_option_or {A} (e : exn) (o : option A) : res A :=
  match o with Some a => Ok a | None => Throw e end.

(** ** State and outcome: a method that mutates an object of type [S].
    A mutation made before an exception stays. *)

Definition M (S A : Type) : Type := S -> res A * S.

#[export] Instance M_ret {S} : MRet (M S) := fun A a s => (Ok a, s).
#[export] Instance M_bind {S} : MBind (M S) := fun A B f m s =>
  match m s with
  | (Ok a, s') => f a s'
  | (Throw e, s') => (Throw e, s')
  | (Ub, s') => (Ub, s')
  end.

Definition get {S} : M S S := fun s => (Ok s, s).
Definition put {S} (s : S) : M S unit := fun _ => (Ok tt, s).
Definition modify {S} (f : S -> S) : M S unit := fun s => (Ok tt, f s).
Definition gets {S A} (f : S -> A) : M S A := fun s => (Ok (f s), s).
Definition throw {S A} (e : exn) : M S A := fun s => (Throw e, s).
Definition lift {S A} (r : res A) : M S A := fun s => (r, s).

(** Run a method of a sub-object. *)
Definition zoom {S T A} (get_ : S -> T) (set_ : T -> S -> S) (m : M T A) : M S A :=
  fun s => let '(r, t) := m (get_ s) in (r, set_ t s).

(** [for (x : l) body(x)] *)
Fixpoint for_each {S A} (l : list A) (body : A -> M S unit) : M S unit :=
  match l with
  | [] => mret ()
  | x :: l => _ ← body x; for_each l body
  end.

(** ** Strings: the members of [std::string] the code uses *)

Definition str_empty (s : string) : bool :=
  match s with EmptyString => true | _ => false end.

(** [s.find(c)] *)
Fixpoint str_find (c : Ascii.ascii) (s : string) : option nat :=
  match s with
  | EmptyString => None
  | String d s => if decide (d = c) then Some O else S <$> str_find c s
  end.

(** [s.substr(0, n)] and [s.substr(n)] for [n <= s.size()] *)
Fixpoint str_take (n : nat) (s : string) : string :=
  match n, s with
  | S n, String c s => String c (str_take n s)
  | _, _ => EmptyString
  end.

Fixpoint str_drop (n : nat) (s : string) : string :=
  match n, s with
  | S n, String _ s => str_drop n s
  | _, _ => s
  end.

(** [s.rfind(c)] *)
Fixpoint str_rfind (c : Ascii.ascii) (s : string) : option nat :=
  match s with
  | EmptyString => None
  | String d s =>
      match str_rfind c s with
      | Some n => Some (S n)
      | None => if decide (d = c) then Some O else None
      end
  end.

(** [s.back()] *)
Fixpoint str_back (s : string) : option Ascii.ascii :=
  match s with
  | EmptyString => None
  | String c EmptyString => Some c
  | String _ s => str_back s
  end.

(** The pieces of [s] between the occurrences of [c], and their inverse. *)
Fixpoint str_split (c : Ascii.ascii) (s : string) : list string :=
  match s with
  | EmptyString => [EmptyString]
  | String d s =>
      if decide (d = c) then EmptyString :: str_split c s
      else
        match str_split c s with
        | p :: ps => String d p :: ps
        | [] => [String d EmptyString]
        end
  end.

Fixpoint str_join (c : Ascii.ascii) (ps : list string) : string :=
  match ps with
  | [] => EmptyString
  | [p] => p
  | p :: ps => p +:+ String c (str_join c ps)
  end.

(** [std::tolower] in the "C" locale, on one character. *)
Definition tolower (c : Ascii.ascii) : Ascii.ascii :=
  let z := char_code c in
  if (65 <=? z)%Z && (z <=? 90)%Z then code_char (z + 32) else c.

Fixpoint str_lower (s : string) : string :=
  match s with
  | EmptyString => EmptyString
  | String c s => String (tolower c) (str_lower s)
  end.

(** [std::to_string] of a non-negative integer. *)
Definition to_string (z : Z) : string := pretty z.

(** ** [std::stoi] *)

Definition is_space (c : Ascii.ascii) : bool :=
  let z := char_code c in (z =? 32)%Z || ((9 <=? z)%Z && (z <=? 13)%Z).
Definition digit_value (c : Ascii.ascii) : option Z :=
  let z := char_code c in
  if (48 <=? z)%Z && (z <=? 57)%Z then Some (z - 48)%Z else None.

Fixpoint skip_spaces (s : string) : string :=
  match s with
  | String c s' => if is_space c then skip_spaces s' else s
  | EmptyString => EmptyString
  end.

Fixpoint read_digits (acc : Z) (s : string) : Z :=
  match s with
  | String c s' =>
      match digit_value c with
      | Some d => read_digits (acc * 10 + d) s'
      | None => acc
      end
  | EmptyString => acc
  end.

Definition stoi_digits (neg : bool) (s : string) : res Z :=
  match s with
  | String c _ =>
      match digit_value c with
      | Some _ =>
          let v := read_digits 0 s in
          let v := if neg then (- v)%Z else v in
          if (INT_MIN <=? v)%Z && (v <=? INT_MAX)%Z then Ok v else Throw OutOfRange
      | None => Throw InvalidArgument
      end
  | EmptyString => Throw InvalidArgument
  end.

Definition stoi (s : string) : res Z :=
  match skip_spaces s with
  | String c s' =>
      if decide (c = "-"%char) then stoi_digits true s'
      else if decide (c = "+"%char) then stoi_digits false s'
      else stoi_digits false (String c s')
  | EmptyString => Throw InvalidArgument
  end.

(** ** Automation *)

Create HintDb wb.
Create Rewrite HintDb wb.


(** Decide the boolean guards of the code in the goal and the context. *)
Ltac solve_guards :=
  repeat match goal with
  | H : (_ && _)%bool = true |- _ => apply andb_true_iff in H as [? ?]
  | H : (_ || _)%bool = false |- _ => apply orb_false_iff in H as [? ?]
  | H : negb _ = true |- _ => apply negb_true_iff in H
  | H : negb _ = false |- _ => apply negb_false_iff in H
  | H : bool_decide _ = true |- _ => apply bool_decide_eq_true in H
  | H : bool_decide _ = false |- _ => apply bool_decide_eq_false in H
  | H : (_ <=? _)%Z = true |- _ => apply Z.leb_le in H
  | H : (_ <=? _)%Z = false |- _ => apply Z.leb_gt in H
  | H : (_ <? _)%Z = true |- _ => apply Z.ltb_lt in H
  | H : (_ <? _)%Z = false |- _ => apply Z.ltb_ge in H
  | H : (_ =? _)%Z = true |- _ => apply Z.eqb_eq in H
  | H : (_ =? _)%Z = false |- _ => apply Z.eqb_neq in H
  | H : (_ =? _)%nat = true |- _ => apply Nat.eqb_eq in H
  | H : (_ =? _)%nat = false |- _ => apply Nat.eqb_neq in H
  | H : (_ <? _)%nat = true |- _ => apply Nat.ltb_lt in H
  | H : (_ <? _)%nat = false |- _ => apply Nat.ltb_ge in H
  | H : (_ <=? _)%nat = true |- _ => apply Nat.leb_le in H
  | H : (_ <=? _)%nat = false |- _ => apply Nat.leb_gt in H
  end.

(** Unfold the wrap-arounds and leave linear arithmetic with [mod]. *)
Ltac wrap_lia :=
  unfold wrap_u8, wrap_u16, wrap_u32, wrap_u64, wrap_i32, wrap_i64,
    INT_MIN, INT_MAX in *;
  Z.to_euclidean_division_equations; lia.

(** Reduce the monads of this file one step at a time. *)
Ltac mstep :=
  unfold mbind, M_bind, res_bind, mret, M_ret, res_ret, get, put, modify, gets,
    throw, lift, zoom; simpl.

(** ** Integer lemmas *)

Lemma wrap_u8_range z : (0 <= wrap_u8 z < 256)%Z.
Proof. wrap_lia. Qed.

Lemma wrap_u8_small z : (0 <= z < 256)%Z -> wrap_u8 z = z.
Proof. intros. by apply Z.mod_small. Qed.

Lemma wrap_u16_small z : (0 <= z < 2 ^ 16)%Z -> wrap_u16 z = z.
Proof. intros. by apply Z.mod_small. Qed.

Lemma wrap_u32_small z : (0 <= z < 2 ^ 32)%Z -> wrap_u32 z = z.
Proof. intros. by apply Z.mod_small. Qed.

Lemma wrap_u64_small z : (0 <= z < 2 ^ 64)%Z -> wrap_u64 z = z.
Proof. intros. by apply Z.mod_small. Qed.

Lemma wrap_i32_small z : (- 2 ^ 31 <= z < 2 ^ 31)%Z -> wrap_i32 z = z.
Proof. wrap_lia. Qed.

(** Joining a high part and a low part of [n] bits. *)
Lemma lor_shiftl_add a b n : (0 <= n)%Z -> (0 <= b < 2 ^ n)%Z ->
  Z.lor (Z.shiftl a n) b = (a * 2 ^ n + b)%Z.
Proof.
  intros Hn Hb. rewrite Z.shiftl_mul_pow2 by lia.
  assert (Hland : Z.land (a * 2 ^ n) b = 0%Z).
  { destruct (decide (b = 0%Z)) as [->|]; [apply Z.land_0_r |].
    apply Z.bits_inj'. intros k Hk. rewrite Z.land_spec, Z.bits_0.
    destruct (Z_lt_dec k n).
    - by rewrite Z.mul_pow2_bits_low.
    - rewrite (Z.bits_above_log2 b), andb_false_r; [done | lia |].
      apply Z.log2_lt_pow2; [lia |].
      apply Z.lt_le_trans with (2 ^ n)%Z; [lia | apply Z.pow_le_mono_r; lia]. }
  rewrite <-Z.lxor_lor by done. by rewrite Z.add_nocarry_lxor.
Qed.

#[export] Hint Rewrite wrap_u8_small wrap_u16_small wrap_u32_small wrap_u64_small
  wrap_i32_small using lia : wb.

(** ** Byte lemmas *)

Lemma bz_range b : (0 <= bz b < 256)%Z.
Proof. unfold bz. pose proof (Byte.to_N_bounded b). lia. Qed.

Lemma bz_u8 z : bz (u8 z) = wrap_u8 z.
Proof.
  unfold bz, u8. pose proof (wrap_u8_range z) as Hr.
  destruct (Byte.of_N (Z.to_N (wrap_u8 z))) as [b|] eqn:E.
  - apply Byte.to_of_N in E. rewrite E. lia.
  - apply Byte.of_N_None_iff in E. lia.
Qed.

Lemma bz_inj b1 b2 : bz b1 = bz b2 -> b1 = b2.
Proof.
  unfold bz. intros H. apply N2Z.inj in H.
  pose proof (Byte.of_to_N b1). pose proof (Byte.of_to_N b2). congruence.
Qed.

Lemma u8_bz b : u8 (bz b) = b.
Proof. apply bz_inj. rewrite bz_u8. apply wrap_u8_small, bz_range. Qed.

Lemma u8_wrap z : u8 (wrap_u8 z) = u8 z.
Proof. apply bz_inj. rewrite !bz_u8. wrap_lia. Qed.

#[export] Hint Rewrite bz_u8 u8_bz : wb.

Lemma length_be16 v : length (be16 v) = 2.
Proof. done. Qed.

Lemma length_be32 v : length (be32 v) = 4.
Proof. done. Qed.

Lemma be_value_be16 v : be_value (be16 v) = wrap_u16 v.
Proof.
  unfold be_value, be16. simpl. rewrite !bz_u8, Z.shiftr_div_pow2 by lia. wrap_lia.
Qed.

Lemma be_value_be32 v : be_value (be32 v) = wrap_u32 v.
Proof.
  unfold be_value, be32. simpl. rewrite !bz_u8, !Z.shiftr_div_pow2 by lia.
  unfold wrap_u8, wrap_u32.
  change (2 ^ 24)%Z with (2 ^ 8 * 2 ^ 8 * 2 ^ 8)%Z. change (2 ^ 16)%Z with (2 ^ 8 * 2 ^ 8)%Z.
  rewrite <-!Z.div_div by lia. change (2 ^ 32)%Z with (2 ^ 8 * 2 ^ 24)%Z.
  Z.to_euclidean_division_equations. lia.
Qed.

Lemma be_value_snoc l b : be_value (l ++ [b]) = (be_value l * 256 + bz b)%Z.
Proof. unfold be_value. by rewrite fold_left_app. Qed.

Lemma be32_inj v w : (0 <= v < 2 ^ 32)%Z -> (0 <= w < 2 ^ 32)%Z -> be32 v = be32 w -> v = w.
Proof.
  intros Hv Hw H. apply (f_equal be_value) in H. rewrite !be_value_be32 in H.
  by rewrite !wrap_u32_small in H.
Qed.

Lemma string_of_bytes_of_string s : string_of_bytes (bytes_of_string s) = s.
Proof. apply String.string_of_list_byte_of_string. Qed.

Lemma bytes_of_string_of_bytes l : bytes_of_string (string_of_bytes l) = l.
Proof. apply String.list_byte_of_string_of_list_byte. Qed.

Lemma char_code_range c : (0 <= char_code c < 256)%Z.
Proof. apply bz_range. Qed.

Lemma char_code_inj c d : char_code c = char_code d -> c = d.
Proof.
  unfold char_code. intros H%bz_inj.
  rewrite <-(Ascii.ascii_of_byte_of_ascii c), H. apply Ascii.ascii_of_byte_of_ascii.
Qed.

Lemma char_code_code_char z : char_code (code_char z) = wrap_u8 z.
Proof.
  unfold char_code, code_char. rewrite Ascii.byte_of_ascii_of_byte. apply bz_u8.
Qed.

(** ** String lemmas *)

Lemma length_str_app s t : String.length (s +:+ t) = (String.length s + String.length t)%nat.
Proof. induction s; simpl; [done | by rewrite IHs]. Qed.

Lemma str_app_nil_r s : s +:+ "" = s.
Proof. induction s; simpl; [done | by rewrite IHs]. Qed.

Lemma str_app_assoc s t u : (s +:+ t) +:+ u = s +:+ (t +:+ u).
Proof. induction s; simpl; [done | by rewrite IHs]. Qed.

Lemma str_take_app s t : str_take (String.length s) (s +:+ t) = s.
Proof. induction s; simpl; [by destruct t | by rewrite IHs]. Qed.

Lemma str_drop_app s t : str_drop (String.length s) (s +:+ t) = t.
Proof. induction s; simpl; [by destruct t | done]. Qed.

Lemma str_app_inj_l s t u : s +:+ t = s +:+ u -> t = u.
Proof. induction s; simpl; [done | intros [=]; auto]. Qed.

Lemma str_take_length n s : (n <= String.length s)%nat -> String.length (str_take n s) = n.
Proof. revert n. induction s; intros [|n]; simpl; auto with lia. Qed.

Lemma str_drop_length n s : String.length (str_drop n s) = (String.length s - n)%nat.
Proof. revert n. induction s; intros [|n]; simpl; auto. Qed.

Lemma str_take_drop n s : str_take n s +:+ str_drop n s = s.
Proof.
  revert n. induction s as [|c s IH]; intros [|n]; simpl; try done. by rewrite IH.
Qed.

Lemma str_find_app c s t :
  str_find c s = None -> str_find c (s +:+ String c t) = Some (String.length s).
Proof.
  induction s as [|d s IH]; simpl.
  - by rewrite decide_True.
  - case_decide; [done |]. destruct (str_find c s); [done |].
    intros _. by rewrite IH.
Qed.

Lemma str_find_Some c s n :
  str_find c s = Some n ->
  s = str_take n s +:+ String c (str_drop (S n) s) /\ str_find c (str_take n s) = None.
Proof.
  revert n. induction s as [|d s IH]; simpl; [done |]. intros n.
  case_decide as Hd.
  - intros [= <-]. subst. simpl. by destruct s.
  - destruct (str_find c s) as [m|]; [| done]. simpl. intros [= <-].
    destruct (IH m eq_refl) as [Heq Hn]. simpl in *. rewrite decide_False by done.
    rewrite Hn. split; [by f_equal | done].
Qed.

Lemma str_find_lt c s n : str_find c s = Some n -> (n < String.length s)%nat.
Proof.
  revert n. induction s as [|d s IH]; simpl; [done |]. intros n. case_decide.
  - intros [= <-]. lia.
  - destruct (str_find c s) as [m|]; [| done]. intros [= <-].
    specialize (IH m eq_refl). lia.
Qed.

Lemma str_find_None_cons c d s :
  str_find c (String d s) = None -> d <> c /\ str_find c s = None.
Proof.
  simpl. case_decide; [done |]. by destruct (str_find c s).
Qed.

Lemma str_split_no_sep c s : str_find c s = None -> str_split c s = [s].
Proof.
  induction s as [|d s IH]; [done |]. intros [Hd Hs]%str_find_None_cons. simpl.
  by rewrite decide_False, IH by done.
Qed.

Lemma str_split_sep c s t :
  str_find c s = None -> str_split c (s +:+ String c t) = s :: str_split c t.
Proof.
  induction s as [|d s IH]; simpl.
  - by rewrite decide_True.
  - intros [Hd Hs]%str_find_None_cons. by rewrite decide_False, IH by done.
Qed.

Lemma str_split_join c ps :
  ps <> [] -> Forall (fun p => str_find c p = None) ps -> str_split c (str_join c ps) = ps.
Proof.
  intros Hne Hps. induction Hps as [|p ps Hp Hps IH]; [done |]. destruct ps as [|q ps].
  - by apply str_split_no_sep.
  - change (str_join c (p :: q :: ps)) with (p +:+ String c (str_join c (q :: ps))).
    rewrite str_split_sep by done. by rewrite IH.
Qed.

Lemma str_lower_app s t : str_lower (s +:+ t) = str_lower s +:+ str_lower t.
Proof. induction s; simpl; [done | by rewrite IHs]. Qed.

Lemma tolower_idemp c : tolower (tolower c) = tolower c.
Proof.
  destruct (Ascii.ascii_dec (tolower (tolower c)) (tolower c)) as [|n]; [done |].
  exfalso. apply n. clear n. destruct c as [[] [] [] [] [] [] [] []]; vm_compute; done.
Qed.

Lemma str_lower_idemp s : str_lower (str_lower s) = str_lower s.
Proof. induction s; simpl; [done | by rewrite tolower_idemp, IHs]. Qed.

(** ** Loops *)

Lemma for_each_app {S A} (l1 l2 : list A) (body : A -> M S unit) s :
  for_each (l1 ++ l2) body s = (_ ← for_each l1 body; for_each l2 body) s.
Proof.
  revert s. induction l1 as [|x l1 IH]; intros s; [done |]. simpl.
  mstep. destruct (body x s) as [[] s']; [apply IH | done | done].
Qed.

(** A loop whose body always returns is a fold over the state. *)
Lemma for_each_fold {S A} (l : list A) (body : A -> M S unit) (f : A -> S -> S) s :
  (forall x s, body x s = (Ok tt, f x s)) ->
  for_each l body s = (Ok tt, fold_left (fun s x => f x s) l s).
Proof.
  intros Hb. revert s. induction l as [|x l IH]; intros s; [done |]. simpl.
  unfold mbind, M_bind. rewrite Hb. apply IH.
Qed.

(** The outcome of a bind that returned: both parts returned. *)
Lemma bind_Ok_inv {S A B} (m : M S A) (k : A -> M S B) s b s' :
  (x ← m; k x) s = (Ok b, s') ->
  exists a s1, m s = (Ok a, s1) /\ k a s1 = (Ok b, s').
Proof.
  unfold mbind, M_bind. destruct (m s) as [[a|e|] s1] eqn:E; [| done | done].
  intros H. by exists a, s1.
Qed.

Lemma bind_Ok {S A B} (m : M S A) (k : A -> M S B) s a s1 :
  m s = (Ok a, s1) -> (x ← m; k x) s = k a s1.
Proof. unfold mbind, M_bind. by intros ->. Qed.

Lemma bind_Throw {S A B} (m : M S A) (k : A -> M S B) s e s1 :
  m s = (Throw e, s1) -> (x ← m; k x) s = (Throw e, s1).
Proof. unfold mbind, M_bind. by intros ->. Qed.

(** ** Lists *)

Lemma NoDup_fmap_eq {A B} (f : A -> B) (l : list A) x y :
  NoDup (f <$> l) -> x ∈ l -> y ∈ l -> f x = f y -> x = y.
Proof.
  induction l as [|z l IH]; [by intros _ ?%elem_of_nil |].
  rewrite fmap_cons, NoDup_cons. intros [Hz Hl] Hx Hy Hxy.
  apply elem_of_cons in Hx as [->|Hx], Hy as [->|Hy]; try done.
  - destruct Hz. rewrite Hxy. by apply list_elem_of_fmap_2.
  - destruct Hz. rewrite <-Hxy. by apply list_elem_of_fmap_2.
  - by apply IH.
Qed.

(** ** Decimal text *)

(** Every character is a decimal digit. *)
Fixpoint all_digits (s : string) : Prop :=
  match s with
  | EmptyString => True
  | String c s => digit_value c <> None /\ all_digits s
  end.

Lemma digit_value_pretty x : (x < 10)%N -> digit_value (pretty_N_char x) = Some (Z.of_N x).
Proof.
  intros Hx.
  assert (x = 0 \/ x = 1 \/ x = 2 \/ x = 3 \/ x = 4 \/ x = 5 \/ x = 6 \/ x = 7 \/ x = 8 \/ x = 9)%N
    as Hc by lia.
  by destruct Hc as [->|[->|[->|[->|[->|[->|[->|[->|[->| ->]]]]]]]]].
Qed.

Lemma pretty_N_go_digits x s :
  read_digits 0 (pretty_N_go x s) = read_digits (Z.of_N x) s /\
  (all_digits s -> all_digits (pretty_N_go x s)) /\
  ((0 < x)%N \/ s <> "" -> pretty_N_go x s <> "").
Proof.
  revert s. induction (N.lt_wf_0 x) as [x _ IH]; intros s.
  destruct (decide (x = 0%N)) as [->|Hx]; [rewrite pretty_N_go_0; naive_solver lia |].
  rewrite pretty_N_go_step by lia.
  destruct (IH (x / 10)%N ltac:(apply N.div_lt; lia)
    (String (pretty_N_char (x mod 10)) s)) as (H1 & H2 & H3).
  assert (x mod 10 < 10)%N as Hm by (apply N.mod_lt; lia).
  rewrite H1. cbn [read_digits all_digits] in *. rewrite digit_value_pretty in * by done.
  split; [f_equal; pose proof (N.div_mod x 10); lia |].
  split; [intros; apply H2; done | intros _; apply H3; by right].
Qed.

Lemma to_string_digits z : (0 <= z)%Z ->
  all_digits (to_string z) /\ to_string z <> "" /\ read_digits 0 (to_string z) = z.
Proof.
  intros Hz. unfold to_string. destruct z as [|p|p]; [by repeat split | | lia].
  change (pretty (Z.pos p)) with (pretty_N_go (N.pos p) "").
  destruct (pretty_N_go_digits (N.pos p) "") as (H1 & H2 & H3).
  split; [by apply H2 |]. split; [apply H3; by left | exact H1].
Qed.

Lemma digit_not_space c : digit_value c <> None ->
  is_space c = false /\ c <> "-"%char /\ c <> "+"%char.
Proof.
  unfold digit_value, is_space. intros H. destruct (_ && _)%bool eqn:E; [| done]. solve_guards.
  split; [apply orb_false_iff; split; lia |]. split; intros ->; vm_compute in H0; by destruct H0.
Qed.

(** [std::stoi] reads back what [std::to_string] printed. *)
Lemma stoi_to_string z : (0 <= z <= INT_MAX)%Z -> stoi (to_string z) = Ok z.
Proof.
  intros Hz. destruct (to_string_digits z) as (Hd & Hne & Hr); [lia |].
  destruct (to_string z) as [|c s]; [done |]. destruct Hd as [Hc Hs].
  destruct (digit_not_space c Hc) as (Hsp & Hm & Hp). unfold stoi. cbn [skip_spaces].
  rewrite Hsp, !decide_False by done. unfold stoi_digits.
  destruct (digit_value c); [| done]. rewrite Hr.
  replace (INT_MIN <=? z)%Z with true by (symmetry; unfold INT_MIN; lia).
  by replace (z <=? INT_MAX)%Z with true by lia.
Qed.

Lemma all_digits_rfind c s : all_digits s -> digit_value c = None -> str_rfind c s = None.
Proof.
  intros Hs Hc. induction s as [|d s IH]; [done |]. destruct Hs as [Hd Hs]. cbn [str_rfind].
  rewrite IH by done. apply decide_False. by intros ->.
Qed.

#[export] Hint Resolve stoi_to_string to_string_digits : wb.

(** ** Strings as bytes *)

Lemma length_bytes_of_string s : length (bytes_of_string s) = String.length s.
Proof.
  unfold bytes_of_string, String.list_byte_of_string. rewrite length_map.
  induction s as [|c s IH]; [done |]. simpl. by rewrite IH.
Qed.

Lemma string_of_bytes_app l1 l2 :
  string_of_bytes (l1 ++ l2) = string_of_bytes l1 +:+ string_of_bytes l2.
Proof.
  unfold string_of_bytes, String.string_of_list_byte. rewrite map_app.
  induction (map Ascii.ascii_of_byte l1) as [|c l IH]; [done |]. simpl. by rewrite IH.
Qed.

Lemma length_string_of_bytes l : String.length (string_of_bytes l) = length l.
Proof. by rewrite <-length_bytes_of_string, bytes_of_string_of_bytes. Qed.

(** ** Stepping over pure steps *)

Lemma bind_lift {S A B} (r : res A) a (k : A -> M S B) s :
  r = Ok a -> (x ← lift r; k x) s = k a s.
Proof. by intros ->. Qed.

(** ** Computations that respect a relation

    [pres R m]: whatever [m] returns or throws, the state it leaves is related
    to the one it started from. A preorder [R] is respected by a composition
    of computations that respect it. *)

Definition pres {S A} (R : S -> S -> Prop) (m : M S A) : Prop := forall s, R s (m s).2.

Section Pres.
  Context {S : Type} {R : S -> S -> Prop} `{!PreOrder R}.

Lemma pres_ret {A} (a : A) : pres R (mret a).
Proof. intros s. reflexivity. Qed.

Lemma pres_lift {A} (r : res A) : pres R (lift r).
Proof. intros s. reflexivity. Qed.

Lemma pres_get : pres R get.
Proof. intros s. reflexivity. Qed.

Lemma pres_gets {A} (f : S -> A) : pres R (gets f).
Proof. intros s. reflexivity. Qed.

Lemma pres_bind {A B} (m : M S A) (k : A -> M S B) :
  pres R m -> (forall a, pres R (k a)) -> pres R (x ← m; k x).
Proof.
  intros Hm Hk s. unfold mbind, M_bind. specialize (Hm s).
  destruct (m s) as [[a|e|] s1]; [| done | done]. etransitivity; [exact Hm | apply Hk].
Qed.

Lemma pres_modify (f : S -> S) : (forall s, R s (f s)) -> pres R (modify f).
Proof. intros H s. apply H. Qed.

Lemma pres_for_each {A} (l : list A) (body : A -> M S unit) :
  (forall a, pres R (body a)) -> pres R (for_each l body).
Proof.
  intros Hb. induction l as [|a l IH]; [apply pres_ret |]. cbn [for_each]. by apply pres_bind.
Qed.

(** A method of a part respects what the whole makes of its relation. *)
Lemma pres_zoom {T A} (get_ : S -> T) (set_ : T -> S -> S) (Q : T -> T -> Prop) (m : M T A) :
  (forall s t, Q (get_ s) t -> R s (set_ t s)) -> pres Q m -> pres R (zoom get_ set_ m).
Proof.
  intros HQ Hm s. unfold zoom. specialize (Hm (get_ s)). destruct (m (get_ s)) as [r t].
  by apply HQ.
Qed.
End Pres.

#[export] Hint Resolve pres_ret pres_lift pres_get pres_gets : wb.
#[export] Hint Extern 1 (PreOrder _) => apply _ : wb.

(** Take a computation apart into its steps. *)
Ltac pres_steps :=
  repeat first [ by auto with wb | apply pres_bind; [| intros ?] | case_match ].

(** Where the final state of a composition comes from. *)
Lemma bind_state_inv {S A B} (m : M S A) (k : A -> M S B) s :
  (exists a s1, m s = (Ok a, s1) /\ (x ← m; k x) s = k a s1) \/ ((x ← m; k x) s).2 = (m s).2.
Proof.
  unfold mbind, M_bind. destruct (m s) as [[a|e|] s1]; [left; by exists a, s1 | by right..].
Qed.

(** An outcome computed apart from its final state. *)
Lemma outcome_eq {S A} (p : res A * S) r : p.1 = r -> p = (r, p.2).
Proof. by destruct p as [? ?]; intros <-. Qed.
