(* ===== verification/Crypto.v ===== *)
(** * Crypto: the wrappers of crypto.cpp

    The primitives of libcrypto are the operations of the class [OpenSSL];
    [OpenSSLLaws] states what their documentation promises and the code relies
    on.  Everything the repository builds on top of them (the HMAC and HKDF
    over BLAKE2s, the AEAD wrappers, key clamping, the hexadecimal codec) is a
    definition here, with its error paths. *)

From S2P Require Import Prelude.

Abbreviation Bytes32 := (list byte).

(** [Bytes32{}]: value-initialised. *)
Definition zero32 : Bytes32 := replicate 32 Byte.x00.

(** ** libcrypto *)

(** [None] is a failure return of the library. [rand_bytes c n] is what the
    [c]-th call of RAND_bytes writes into a buffer of [n] bytes. *)
Class OpenSSL := {
  evp_blake2s256 : list byte -> option (list byte);
  rand_bytes : nat -> nat -> option (list byte);
  evp_x25519_public : list byte -> option (list byte);
  evp_x25519_derive : list byte -> list byte -> option (list byte);
  evp_chacha_encrypt :
    list byte -> list byte -> list byte -> list byte -> option (list byte * list byte);
  evp_chacha_decrypt :
    list byte -> list byte -> list byte -> list byte -> list byte -> option (list byte);
  bio_base64_encode : list byte -> list byte;
  bio_base64_decode : list byte -> option (list byte);
}.

(** Documented behaviour: digests and keys are 32 bytes, Diffie-Hellman
    agrees on both sides, a sealed message opens under the same key, nonce and
    associated data, and a ChaCha20-Poly1305 ciphertext has the plaintext's
    length plus a 16-byte tag. *)
Class OpenSSLLaws `{!OpenSSL} := {
  blake2s_digest m : exists d, evp_blake2s256 m = Some d /\ length d = 32;
  rand_length c n r : rand_bytes c n = Some r -> length r = n;
  x25519_public_ok k : length k = 32 ->
    exists p, evp_x25519_public k = Some p /\ length p = 32;
  x25519_agree a b pa pb :
    evp_x25519_public a = Some pa -> evp_x25519_public b = Some pb ->
    evp_x25519_derive a pb = evp_x25519_derive b pa;
  x25519_derive_length a p s : evp_x25519_derive a p = Some s -> length s = 32;
  chacha_encrypt_ok k n ad pt : length k = 32 -> length n = 12 ->
    exists ct tag, evp_chacha_encrypt k n ad pt = Some (ct, tag) /\
      length ct = length pt /\ length tag = 16 /\
      evp_chacha_decrypt k n ad ct tag = Some pt;
  chacha_decrypt_length k n ad ct tag pt :
    evp_chacha_decrypt k n ad ct tag = Some pt -> length pt = length ct;
}.

(** ** Hexadecimal *)

Definition kHex : string := "0123456789abcdef".

Definition kHex_at (z : Z) : Ascii.ascii :=
  default Ascii.zero (String.get (Z.to_nat z) kHex).

(** Two characters per byte: the high nibble, then the low one. *)
Fixpoint hex_encode (bytes : list byte) : string :=
  match bytes with
  | [] => ""
  | b :: bytes =>
      String (kHex_at (Z.shiftr (bz b) 4))
        (String (kHex_at (Z.land (bz b) 15)) (hex_encode bytes))
  end.

Definition nibble (c : Ascii.ascii) : Z :=
  let z := char_code c in
  if (48 <=? z)%Z && (z <=? 57)%Z then z - 48
  else if (97 <=? z)%Z && (z <=? 102)%Z then z - 97 + 10
  else if (65 <=? z)%Z && (z <=? 70)%Z then z - 65 + 10
  else -1.

Fixpoint hex_decode_loop (hex : string) (n : nat) : option (list byte) :=
  match n, hex with
  | S n, String c (String d hex) =>
      let hi := nibble c in
      let lo := nibble d in
      if (hi <? 0)%Z || (lo <? 0)%Z then None
      else cons (u8 (Z.lor (Z.shiftl hi 4) lo)) <$> hex_decode_loop hex n
  | _, _ => Some []
  end.

(** [hex_decode(hex, out)] with [out.size() = n]: [Some] is true with the
    bytes written to [out], [None] is false. *)
Definition hex_decode (hex : string) (n : nat) : option (list byte) :=
  if negb (String.length hex =? n * 2)%nat then None
  else hex_decode_loop hex n.

Section Crypto.
  Context `{OSSL : !OpenSSL}.

(** ** Randomness: the state is the number of RAND_bytes calls so far *)

Definition random_bytes (n : nat) : M nat (list byte) :=
  if (n =? 0)%nat then mret []
  else
    c ← get;
    _ ← put (S c);
    lift (from_option_or (RuntimeError "RAND_bytes") (rand_bytes c n)).

Definition clamp (priv : Bytes32) : Bytes32 :=
  let priv := alter (fun b => u8 (Z.land (bz b) 248)) 0 priv in
  let priv := alter (fun b => u8 (Z.land (bz b) 127)) 31 priv in
  alter (fun b => u8 (Z.lor (bz b) 64)) 31 priv.

Definition generate_x25519_private : M nat Bytes32 :=
  priv ← random_bytes 32;
  mret (clamp priv).

(** ** Hash, HMAC, HKDF *)

Definition blake2s256 (a b : list byte) : res Bytes32 :=
  match evp_blake2s256 (a ++ b) with
  | Some out =>
      if (length out =? 32)%nat then Ok out else Throw (RuntimeError "blake2s256 final")
  | None => Throw (RuntimeError "blake2s256")
  end.

Definition hmac_block : nat := 64.

Definition xor_pad (kpad : list byte) (v : Z) : list byte :=
  (fun b => u8 (Z.lxor (bz b) v)) <$> kpad.

Definition hmac_blake2s (key data : list byte) : res Bytes32 :=
  kpad ← (if (hmac_block <? length key)%nat
          then kh ← blake2s256 key []; mret (kh ++ replicate 32 Byte.x00)
          else mret (key ++ replicate (hmac_block - length key) Byte.x00));
  let ipad := xor_pad kpad 0x36 in
  let opad := xor_pad kpad 0x5c in
  inner_hash ← blake2s256 (ipad ++ data) [];
  blake2s256 (opad ++ inner_hash) [].

(** One run of the loop body per unit of fuel; running out is [Ub]. *)
Fixpoint hkdf_loop (fuel : nat) (prk : Bytes32) (prev : option Bytes32)
    (counter : Z) (size : nat) (out : list byte) : res (list byte) :=
  if (length out <? size)%nat then
    match fuel with
    | O => Ub
    | S fuel =>
        let msg := default [] prev ++ [u8 counter] in
        prev ← hmac_blake2s prk msg;
        let n := Nat.min 32 (size - length out) in
        hkdf_loop fuel prk (Some prev) (wrap_u8 (counter + 1)) size (out ++ take n prev)
    end
  else mret out.

Definition hkdf_blake2s (ikm salt : list byte) (size : nat) : res (list byte) :=
  prk ← hmac_blake2s salt ikm;
  hkdf_loop size prk None 1 size [].

(** ** X25519 *)

Definition x25519_public (priv : Bytes32) : res Bytes32 :=
  from_option_or (RuntimeError "EVP_PKEY_get_raw_public_key") (evp_x25519_public priv).

Definition x25519_shared (priv pub : Bytes32) : res Bytes32 :=
  match evp_x25519_derive priv pub with
  | Some out => if (length out =? 32)%nat then Ok out else Throw (RuntimeError "x25519 derive")
  | None => Throw (RuntimeError "x25519 derive")
  end.

(** ** ChaCha20-Poly1305: the ciphertext is the stream output and the tag *)

Definition aead_seal (key nonce12 ad plaintext : list byte) : res (list byte) :=
  if negb (length nonce12 =? 12)%nat
  then Throw (RuntimeError "chacha20poly1305 nonce must be 12 bytes")
  else
    match evp_chacha_encrypt key nonce12 ad plaintext with
    | Some (ct, tag) => Ok (ct ++ tag)
    | None => Throw (RuntimeError "aead_seal")
    end.

Definition aead_open (key nonce12 ad ciphertext : list byte) : option (list byte) :=
  if negb (length nonce12 =? 12)%nat || (length ciphertext <? 16)%nat then None
  else
    let pt_len := (length ciphertext - 16)%nat in
    evp_chacha_decrypt key nonce12 ad (take pt_len ciphertext) (drop pt_len ciphertext).

(** ** Base64 (libcrypto's BIO filter) *)

Definition b64_encode (bytes : list byte) : string :=
  match bytes with [] => "" | _ => string_of_bytes (bio_base64_encode bytes) end.

Definition b64_decode (s : string) : res (list byte) :=
  if str_empty s then mret []
  else from_option_or (RuntimeError "base64 decode") (bio_base64_decode (bytes_of_string s)).

End Crypto.

(** ** Reference definitions: RFC 2104 and RFC 5869 over the digest *)

Section Reference.
  Context `{OSSL : !OpenSSL}.

Definition digest (m : list byte) : list byte := default [] (evp_blake2s256 m).

(** HMAC: the key is hashed when it is longer than a block, zero-padded to the
    block, and the two padded keys are hashed around the message. *)
Definition hmac_spec (key data : list byte) : list byte :=
  let k0 := if (hmac_block <? length key)%nat then digest key else key in
  let k0 := k0 ++ replicate (hmac_block - length k0) Byte.x00 in
  digest (xor_pad k0 0x5c ++ digest (xor_pad k0 0x36 ++ data)).

(** T(i) of RFC 5869 with an empty info. *)
Fixpoint okm_block (prk : list byte) (i : nat) : list byte :=
  match i with
  | O => []
  | S j => hmac_spec prk (okm_block prk j ++ [u8 (Z.of_nat i)])
  end.

Definition okm (prk : list byte) (n : nat) : list byte :=
  concat (okm_block prk <$> seq 1 n).

Definition hkdf_spec (ikm salt : list byte) (size : nat) : list byte :=
  take size (okm (hmac_spec salt ikm) ((size + 31) / 32)).

End Reference.

(** ** Hexadecimal: lemmas *)

Ltac all_ascii c :=
  destruct c as [[] [] [] [] [] [] [] []]; vm_compute; try done; try lia.

Lemma nibble_tolower c : nibble (tolower c) = nibble c.
Proof. all_ascii c. Qed.

Lemma nibble_range c : (-1 <= nibble c < 16)%Z.
Proof. all_ascii c. Qed.

Lemma kHex_at_nibble c : (0 <= nibble c)%Z -> kHex_at (nibble c) = tolower c.
Proof. all_ascii c. Qed.

Lemma nibble_kHex_at z : (0 <= z < 16)%Z -> nibble (kHex_at z) = z.
Proof.
  intros [H1 H2]. assert (Hz : z = Z.of_nat (Z.to_nat z)) by lia. rewrite Hz.
  assert (Hn : (Z.to_nat z < 16)%nat) by lia. revert Hn.
  generalize (Z.to_nat z) as n. intros n Hn.
  do 16 (destruct n as [|n]; [reflexivity |]). lia.
Qed.

Lemma hex_byte_high b : nibble (kHex_at (Z.shiftr (bz b) 4)) = Z.shiftr (bz b) 4.
Proof.
  apply nibble_kHex_at. rewrite Z.shiftr_div_pow2 by lia.
  pose proof (bz_range b). wrap_lia.
Qed.

Lemma hex_byte_low b : nibble (kHex_at (Z.land (bz b) 15)) = Z.land (bz b) 15.
Proof.
  apply nibble_kHex_at. change 15%Z with (Z.ones 4). rewrite Z.land_ones by lia.
  pose proof (bz_range b). wrap_lia.
Qed.

Lemma hex_byte_join b :
  u8 (Z.lor (Z.shiftl (Z.shiftr (bz b) 4) 4) (Z.land (bz b) 15)) = b.
Proof.
  change 15%Z with (Z.ones 4). rewrite Z.land_ones by lia.
  rewrite lor_shiftl_add by (try apply Z.mod_pos_bound; lia).
  rewrite Z.shiftr_div_pow2 by lia.
  rewrite <-(u8_bz b) at 3. f_equal. pose proof (bz_range b). wrap_lia.
Qed.

Lemma hex_nibbles_split c d : (0 <= nibble c)%Z -> (0 <= nibble d)%Z ->
  let b := u8 (Z.lor (Z.shiftl (nibble c) 4) (nibble d)) in
  Z.shiftr (bz b) 4 = nibble c /\ Z.land (bz b) 15 = nibble d.
Proof.
  intros Hc Hd b. pose proof (nibble_range c). pose proof (nibble_range d).
  assert (Hb : bz b = (nibble c * 2 ^ 4 + nibble d)%Z).
  { unfold b. rewrite lor_shiftl_add, bz_u8 by lia. wrap_lia. }
  rewrite Hb, Z.shiftr_div_pow2 by lia. change 15%Z with (Z.ones 4).
  rewrite Z.land_ones by lia. split; wrap_lia.
Qed.

Lemma hex_encode_length b : String.length (hex_encode b) = (length b * 2)%nat.
Proof. induction b; simpl; [done | by rewrite IHb]. Qed.

Lemma hex_encode_lower b : str_lower (hex_encode b) = hex_encode b.
Proof.
  induction b as [|b bs IH]; simpl; [done |]. rewrite IH.
  rewrite <-(hex_byte_high b), <-(hex_byte_low b).
  pose proof (nibble_range (kHex_at (Z.shiftr (bz b) 4))) as Hh.
  pose proof (nibble_range (kHex_at (Z.land (bz b) 15))) as Hl.
  rewrite hex_byte_high in Hh |- *. rewrite hex_byte_low in Hl |- *.
  rewrite <-(hex_byte_high b), <-(hex_byte_low b).
  rewrite !kHex_at_nibble, !tolower_idemp; [done | |];
    rewrite ?hex_byte_low, ?hex_byte_high; [apply Z.land_nonneg | apply Z.shiftr_nonneg];
    pose proof (bz_range b); lia.
Qed.

Lemma hex_decode_loop_encode bs : hex_decode_loop (hex_encode bs) (length bs) = Some bs.
Proof.
  induction bs as [|b bs IH]; simpl; [done |].
  rewrite hex_byte_high, hex_byte_low, hex_byte_join, IH.
  assert ((Z.shiftr (bz b) 4 <? 0)%Z = false) as ->.
  { apply Z.ltb_ge, Z.shiftr_nonneg. pose proof (bz_range b). lia. }
  assert ((Z.land (bz b) 15 <? 0)%Z = false) as ->; [| done].
  apply Z.ltb_ge, Z.land_nonneg. lia.
Qed.

Lemma hex_decode_loop_lower s n : hex_decode_loop (str_lower s) n = hex_decode_loop s n.
Proof.
  revert s. induction n as [|n IH]; intros [|c [|d s]]; simpl; try done.
  by rewrite !nibble_tolower, IH.
Qed.

Lemma hex_decode_loop_sound n s bs :
  String.length s = (n * 2)%nat -> hex_decode_loop s n = Some bs ->
  length bs = n /\ hex_encode bs = str_lower s.
Proof.
  revert s bs. induction n as [|n IH]; intros [|c [|d s]] bs Hlen; simpl in *; try lia.
  - by intros [= <-].
  - destruct ((nibble c <? 0)%Z || (nibble d <? 0)%Z) eqn:Hneg; [done |]. solve_guards.
    destruct (hex_decode_loop s n) as [bs'|] eqn:E; [| done]. intros [= <-].
    destruct (IH s bs') as [Hl He]; [lia | done |].
    destruct (hex_nibbles_split c d) as [H1 H2]; [done | done |].
    simpl. rewrite Hl, He, H1, H2, !kHex_at_nibble by done. done.
Qed.

Lemma str_lower_length s : String.length (str_lower s) = String.length s.
Proof. induction s; simpl; auto. Qed.

Lemma hex_decode_encode bs : hex_decode (hex_encode bs) (length bs) = Some bs.
Proof.
  unfold hex_decode. rewrite hex_encode_length, Nat.eqb_refl. apply hex_decode_loop_encode.
Qed.

(** Hex_decode succeeds exactly on the hexadecimal texts of its output
    size: it returns the bytes [bs] for a text [s] and an output span of [n]
    bytes if and only if [bs] has [n] bytes and [s] is the encoding of [bs] up
    to the case of the letters. In particular it inverts hex_encode, and every
    text of another length or with another character is refused. *)
Theorem hex_decode_iff s n bs :
  hex_decode s n = Some bs <-> length bs = n /\ hex_encode bs = str_lower s.
Proof.
  unfold hex_decode. split.
  - destruct (String.length s =? n * 2)%nat eqn:E; simpl; [| done]. solve_guards.
    by apply hex_decode_loop_sound.
  - intros [<- He]. rewrite <-str_lower_length, <-He, hex_encode_length, Nat.eqb_refl.
    simpl. rewrite <-hex_decode_loop_lower, <-He. apply hex_decode_loop_encode.
Qed.

(** ** Hash, HMAC, HKDF, AEAD: lemmas *)

Section CryptoFacts.
  Context `{OSSL : !OpenSSL} `{OLaws : !OpenSSLLaws}.

Lemma digest_length m : length (digest m) = 32.
Proof. unfold digest. destruct (blake2s_digest m) as (d & -> & Hd). done. Qed.

Lemma blake2s256_digest a b : blake2s256 a b = Ok (digest (a ++ b)).
Proof.
  unfold blake2s256, digest. destruct (blake2s_digest (a ++ b)) as (d & -> & Hd).
  by rewrite Hd.
Qed.

Lemma hmac_blake2s_spec key data : hmac_blake2s key data = Ok (hmac_spec key data).
Proof.
  unfold hmac_blake2s, hmac_spec, mbind, mret, res_bind, res_ret, hmac_block.
  destruct (64 <? length key)%nat;
    rewrite !blake2s256_digest, ?app_nil_r, ?digest_length; done.
Qed.

Lemma hmac_spec_length key data : length (hmac_spec key data) = 32.
Proof. apply digest_length. Qed.

Lemma okm_S prk n : okm prk (S n) = okm prk n ++ okm_block prk (S n).
Proof.
  unfold okm. rewrite seq_S, fmap_app, concat_app. simpl. by rewrite app_nil_r.
Qed.

Lemma okm_length prk n : length (okm prk n) = (32 * n)%nat.
Proof.
  induction n as [|n IH]; [done |].
  rewrite okm_S, length_app, IH. simpl okm_block. rewrite hmac_spec_length. lia.
Qed.

Lemma okm_prefix prk n k : (n <= k)%nat -> take (32 * n) (okm prk k) = okm prk n.
Proof.
  induction 1 as [|k Hk IH].
  - apply take_ge. rewrite okm_length. lia.
  - rewrite okm_S, take_app_le by (rewrite okm_length; lia). done.
Qed.

Lemma hkdf_loop_spec fuel prk i size prev :
  (size <= 32 * (i + fuel))%nat -> default [] prev = okm_block prk i ->
  hkdf_loop fuel prk prev (wrap_u8 (Z.of_nat i + 1)) size (take size (okm prk i)) =
  Ok (take size (okm prk (i + fuel))).
Proof.
  revert i prev. induction fuel as [|fuel IH]; intros i prev Hsize Hprev; cbn [hkdf_loop];
    rewrite length_take, okm_length; destruct (Nat.min size (32 * i) <? size)%nat eqn:E;
    solve_guards; try lia.
  - by rewrite Nat.add_0_r.
  - rewrite hmac_blake2s_spec. unfold mbind, res_bind.
    rewrite Hprev, u8_wrap. replace (Z.of_nat i + 1)%Z with (Z.of_nat (S i)) by lia.
    change (hmac_spec prk (okm_block prk i ++ [u8 (Z.of_nat (S i))]))
      with (okm_block prk (S i)).
    replace (i + S fuel)%nat with (S i + fuel)%nat by lia.
    rewrite <-(IH (S i) (Some (okm_block prk (S i)))) by (done || lia). f_equal.
    + wrap_lia.
    + rewrite okm_S, take_app, okm_length, !(take_ge (okm prk i)) by (rewrite okm_length; lia).
      apply (f_equal (app _)). replace (Nat.min size (32 * i)) with (32 * i)%nat by lia.
      assert (length (okm_block prk (S i)) = 32) as Hb by apply hmac_spec_length.
      destruct (decide (size - 32 * i < 32))%nat.
      * by rewrite Nat.min_r by lia.
      * by rewrite Nat.min_l, !take_ge by lia.
  - unfold mret, res_ret. f_equal.
    rewrite <-(okm_prefix prk i (i + S fuel)) by lia.
    rewrite take_take. f_equal. lia.
Qed.

Lemma hkdf_blake2s_ok ikm salt size : hkdf_blake2s ikm salt size = Ok (hkdf_spec ikm salt size).
Proof.
  unfold hkdf_blake2s, hkdf_spec. rewrite hmac_blake2s_spec.
  unfold mbind, res_bind. cbn beta iota.
  pose proof (hkdf_loop_spec size (hmac_spec salt ikm) 0 size None) as H.
  assert (take size (okm (hmac_spec salt ikm) 0) = []) as Hnil by (by destruct size).
  rewrite Hnil in H. change (wrap_u8 (Z.of_nat 0 + 1)) with 1%Z in H.
  rewrite H by (done || lia). f_equal. rewrite Nat.add_0_l.
  set (k := ((size + 31) / 32)%nat).
  assert (size <= 32 * k)%nat.
  { unfold k. pose proof (Nat.div_mod_eq (size + 31) 32).
    pose proof (Nat.mod_upper_bound (size + 31) 32). lia. }
  destruct (decide (k <= size)%nat).
  - rewrite <-(okm_prefix _ k size), take_take by done. f_equal. lia.
  - exfalso. unfold k in *. destruct size as [|size]; [done |].
    pose proof (Nat.Div0.div_le_upper_bound (S size + 31) 32 (S size)). lia.
Qed.

(** C40: hkdf_blake2s terminates, never throws while the digest works, and
    writes exactly the output keying material of RFC 5869 (HMAC-BLAKE2s, empty
    info) for every input, salt and output size; past the RFC's limit of 255
    blocks the one-byte block counter wraps, as [okm_block] says. *)
Theorem hkdf_blake2s_rfc5869 ikm salt size :
  hkdf_blake2s ikm salt size = Ok (hkdf_spec ikm salt size).
Proof. apply hkdf_blake2s_ok. Qed.

Lemma hkdf_spec_length ikm salt size : length (hkdf_spec ikm salt size) = size.
Proof.
  unfold hkdf_spec. rewrite length_take, okm_length.
  pose proof (Nat.div_mod_eq (size + 31) 32).
  pose proof (Nat.mod_upper_bound (size + 31) 32). lia.
Qed.

Lemma x25519_public_length k p : length k = 32 -> x25519_public k = Ok p -> length p = 32.
Proof.
  intros Hk. unfold x25519_public. destruct (x25519_public_ok k Hk) as (p' & -> & Hp).
  by intros [= <-].
Qed.

(** An AEAD ciphertext is 16 bytes longer than the plaintext and opens to it
    under the same key, nonce and associated data. *)
Lemma aead_seal_open k n ad pt : length k = 32 -> length n = 12 ->
  exists ct, aead_seal k n ad pt = Ok ct /\ length ct = (length pt + 16)%nat /\
    aead_open k n ad ct = Some pt.
Proof.
  intros Hk Hn. destruct (chacha_encrypt_ok k n ad pt Hk Hn) as (c & t & He & Hc & Ht & Hd).
  exists (c ++ t). unfold aead_seal, aead_open. rewrite Hn, He, length_app, Hc, Ht. simpl.
  split; [done |]. split; [done |].
  destruct (length pt + 16 <? 16)%nat eqn:E; solve_guards; [lia |].
  rewrite Nat.add_sub, <-Hc, take_app_length, drop_app_length. done.
Qed.

Lemma random_bytes_length n c r c' : random_bytes n c = (Ok r, c') -> length r = n.
Proof.
  unfold random_bytes. destruct (n =? 0)%nat eqn:E; solve_guards; mstep.
  - by intros [= <- _].
  - destruct (rand_bytes c n) eqn:Hr; simpl; [| done]. intros [= <- _].
    by eapply rand_length.
Qed.

Lemma clamp_low_byte b : (bz (u8 (Z.land (bz b) 248)) mod 8 = 0)%Z.
Proof. by destruct b. Qed.

Lemma clamp_high_byte b :
  (64 <= bz (u8 (Z.lor (bz (u8 (Z.land (bz b) 127))) 64)) < 128)%Z.
Proof. by destruct b; vm_compute. Qed.

Lemma clamp_length p : length (clamp p) = length p.
Proof. unfold clamp. by rewrite !length_alter. Qed.

Lemma generate_x25519_private_length c priv c' :
  generate_x25519_private c = (Ok priv, c') -> length priv = 32.
Proof.
  unfold generate_x25519_private. intros (raw & c1 & Hr & H)%bind_Ok_inv.
  mstep. injection H as <- <-. rewrite clamp_length. by eapply random_bytes_length.
Qed.

(** Every private key the server generates is 32 bytes and clamped as
    X25519 requires: the first byte is a multiple of 8 and the last one lies
    in 64..127, whatever the random bytes were. *)
Theorem generate_x25519_private_clamped c priv c' :
  generate_x25519_private c = (Ok priv, c') ->
  length priv = 32 /\
  (exists b, priv !! 0 = Some b /\ (bz b mod 8 = 0)%Z) /\
  (exists b, priv !! 31 = Some b /\ (64 <= bz b < 128)%Z).
Proof.
  unfold generate_x25519_private. intros (raw & c1 & Hr & H)%bind_Ok_inv.
  mstep. injection H as <- <-. apply random_bytes_length in Hr.
  split; [by rewrite clamp_length |].
  destruct (lookup_lt_is_Some_2 raw 0) as [b0 Hb0]; [lia |].
  destruct (lookup_lt_is_Some_2 raw 31) as [b31 Hb31]; [lia |].
  unfold clamp. split.
  - rewrite !list_lookup_alter_ne, list_lookup_alter_eq, Hb0 by lia.
    eexists. split; [done | apply clamp_low_byte].
  - rewrite !list_lookup_alter_eq, list_lookup_alter_ne, Hb31 by lia.
    eexists. split; [done | apply clamp_high_byte].
Qed.

End CryptoFacts.

(** ** A sample libcrypto

    Concrete functions that satisfy [OpenSSLLaws]: they show that the laws can
    hold together and let the definitions be evaluated on concrete inputs. *)

Module SampleCrypto.

Definition pad32 (m : list byte) : list byte := take 32 (m ++ replicate 32 Byte.x00).

Definition sample_digest (m : list byte) : list byte :=
  pad32 (u8 (Z.of_nat (length m)) :: reverse m).

Definition sample_tag (k n ad ct : list byte) : list byte :=
  take 16 (sample_digest (k ++ n ++ ad ++ ct)).

#[export] Instance sample_openssl : OpenSSL := {|
  evp_blake2s256 m := Some (sample_digest m);
  rand_bytes c n := Some (replicate n (u8 (Z.of_nat c + 1)));
  evp_x25519_public k := if (length k =? 32)%nat then Some k else None;
  evp_x25519_derive a p :=
    if (length a =? 32)%nat && (length p =? 32)%nat
    then Some (zip_with (fun x y => u8 (Z.lxor (bz x) (bz y))) a p) else None;
  evp_chacha_encrypt k n ad pt := Some (pt, sample_tag k n ad pt);
  evp_chacha_decrypt k n ad ct tag :=
    if decide (tag = sample_tag k n ad ct) then Some ct else None;
  bio_base64_encode b := bytes_of_string (hex_encode b);
  bio_base64_decode b := hex_decode (string_of_bytes b) (length b / 2);
|}.

Lemma sample_digest_length m : length (sample_digest m) = 32.
Proof.
  unfold sample_digest, pad32. rewrite length_take, length_app, length_replicate. lia.
Qed.

#[export] Instance sample_laws : OpenSSLLaws.
Proof.
  split; cbn -[Nat.eqb sample_digest sample_tag].
  - intros m. exists (sample_digest m). split; [done | apply sample_digest_length].
  - intros c n r [= <-]. apply length_replicate.
  - intros k Hk. exists k. by rewrite Hk.
  - intros a b pa pb. destruct (length a =? 32)%nat eqn:Ha; [| done].
    destruct (length b =? 32)%nat eqn:Hb; [| done]. intros [= <-] [= <-].
    rewrite Ha, Hb. cbn [andb]. f_equal. rewrite <-zip_with_flip.
    apply zip_with_ext; [| done | done]. intros x y. unfold flip. by rewrite Z.lxor_comm.
  - intros a p s. destruct ((length a =? 32)%nat && (length p =? 32)%nat) eqn:E; [| done].
    intros [= <-]. solve_guards.
    rewrite length_zip_with. lia.
  - intros k n ad pt Hk Hn. exists pt, (sample_tag k n ad pt).
    rewrite decide_True by done. split; [done |]. split; [done |]. split; [| done].
    unfold sample_tag. rewrite length_take, sample_digest_length. lia.
  - intros k n ad ct tag pt. destruct (decide _); [by intros [= <-] | done].
Qed.

Lemma hkdf_blake2s_rfc5869_witness :
  hkdf_blake2s [u8 1] [u8 2] 64 = Ok (hkdf_spec [u8 1] [u8 2] 64).
Proof. exact (hkdf_blake2s_rfc5869 [u8 1] [u8 2] 64). Defined.

Lemma generate_x25519_private_clamped_witness :
  let p := alter (fun _ => u8 67) 31 (alter (fun _ => u8 0) 0 (replicate 32 (u8 3))) in
  generate_x25519_private 2 = (Ok p, 3) /\ length p = 32.
Proof.
  assert (H : generate_x25519_private 2 =
    (Ok (alter (fun _ => u8 67) 31 (alter (fun _ => u8 0) 0 (replicate 32 (u8 3)))), 3))
    by (vm_compute; reflexivity).
  split; [exact H | exact (proj1 (generate_x25519_private_clamped 2 _ 3 H))].
Defined.

End SampleCrypto.
