(* ===== verification/Keys.v ===== *)
(** * Keys: the textual keys of keys.hpp and keys.cpp

    A key is a kind prefix followed by the hexadecimal text of 32 bytes. *)

From S2P Require Import Prelude.
From S2P Require Import Crypto.

Inductive KeyKind := Machine | Node | Disco.

#[export] Instance KeyKind_eq_dec : EqDecision KeyKind.
Proof. solve_decision. Defined.

Definition prefix_for (kind : KeyKind) : string :=
  match kind with
  | Machine => "mkey:"
  | Node => "nodekey:"
  | Disco => "discokey:"
  end.

Definition format_key (kind : KeyKind) (raw : Bytes32) : string :=
  prefix_for kind +:+ hex_encode raw.

(** [Some raw] is true with [out = raw]; [None] is false. *)
Definition parse_key (kind : KeyKind) (text : string) : option Bytes32 :=
  let prefix := prefix_for kind in
  if (String.length text <? String.length prefix)%nat
     || negb (bool_decide (str_take (String.length prefix) text = prefix))
  then None
  else hex_decode (str_drop (String.length prefix) text) 32.

Definition zero_machine_key : string := format_key Machine zero32.

(** ** Lemmas *)

Lemma parse_key_prefix kind s :
  parse_key kind (prefix_for kind +:+ s) = hex_decode s 32.
Proof.
  unfold parse_key. rewrite str_take_app, str_drop_app, length_str_app.
  rewrite bool_decide_true by done.
  destruct (_ <? _)%nat eqn:E; [solve_guards; lia | done].
Qed.

Lemma parse_key_no_prefix kind s :
  str_take (String.length (prefix_for kind)) s <> prefix_for kind ->
  parse_key kind s = None.
Proof.
  intros H. unfold parse_key. by rewrite bool_decide_false, orb_true_r.
Qed.

(** The prefixes are told apart by their first bytes. *)
Lemma prefix_for_distinct k1 k2 s :
  k1 <> k2 -> str_take (String.length (prefix_for k1)) (prefix_for k2 +:+ s) <> prefix_for k1.
Proof. destruct k1, k2; intros H; try congruence; destruct s; simpl; congruence. Qed.

(** Parse_key inverts format_key exactly for the same kind: a formatted
    32-byte key is read back unchanged by its own kind, and a key formatted as
    one kind is refused by every other kind. *)
Theorem parse_format_key k1 k2 raw :
  length raw = 32 ->
  parse_key k1 (format_key k2 raw) = if decide (k1 = k2) then Some raw else None.
Proof.
  intros Hlen. unfold format_key. case_decide as Hk.
  - subst. rewrite parse_key_prefix, <-Hlen. apply hex_decode_encode.
  - by apply parse_key_no_prefix, prefix_for_distinct.
Qed.

Lemma parse_format_key_witness :
  parse_key Machine (format_key Machine zero32) = Some zero32 /\
  parse_key Node (format_key Machine zero32) = None.
Proof.
  split; [exact (parse_format_key Machine Machine zero32 eq_refl)
         | exact (parse_format_key Node Machine zero32 eq_refl)].
Defined.

(** Formatting is injective, so machines are told apart by their key text. *)
Lemma format_key_inj kind raw1 raw2 :
  format_key kind raw1 = format_key kind raw2 -> length raw1 = 32 -> length raw2 = 32 ->
  raw1 = raw2.
Proof.
  intros H H1 H2. unfold format_key in H. apply str_app_inj_l in H.
  assert (Some raw1 = Some raw2); [| congruence].
  rewrite <-(hex_decode_encode raw1), <-(hex_decode_encode raw2), H. by rewrite H1, H2.
Qed.
