(* ===== verification/IpAlloc.v ===== *)
(** * IpAlloc: the address allocator of ip_alloc.hpp and ip_alloc.cpp

    The C library's text conversions of addresses are the operations of the
    class [InetLib]; [InetLaws] states the round trip POSIX documents. *)

From S2P Require Import Prelude.
From S2P Require Import Crypto.

(** Addresses are in network byte order; [None] is a return other than 1. *)
Class InetLib := {
  inet_pton4 : string -> option (list byte);
  inet_ntop4 : list byte -> string;
  inet_pton6 : string -> option (list byte);
  inet_ntop6 : list byte -> string;
}.

Class InetLaws `{!InetLib} := {
  pton4_length s a : inet_pton4 s = Some a -> length a = 4;
  pton6_length s a : inet_pton6 s = Some a -> length a = 16;
  pton4_ntop4 a : length a = 4 -> inet_pton4 (inet_ntop4 a) = Some a;
  pton6_ntop6 a : length a = 16 -> inet_pton6 (inet_ntop6 a) = Some a;
  pton4_empty : inet_pton4 "" = None;
  pton6_empty : inet_pton6 "" = None;
}.

Record IpAllocator := mkIpAllocator {
  ipv4_cidr : string;
  ipv6_cidr : string;
  ipv4_base : Z;
  ipv4_prefix : Z;
  ipv4_hosts : Z;
  ipv6_base : list byte;
  ipv6_prefix : Z;
}.

Section IpAlloc.
  Context `{Inet : !InetLib}.

(** [Ok None] is the return of false; std::stoi may throw. *)
Definition parse_cidr (cidr : string) : res (option (list byte * Z)) :=
  match str_find "/"%char cidr with
  | None => Ok None
  | Some slash =>
      let ip := str_take slash cidr in
      prefix ← stoi (str_drop (slash + 1) cidr);
      if (prefix <? 0)%Z || (32 <? prefix)%Z then Ok None
      else Ok ((fun addr => (addr, prefix)) <$> inet_pton4 ip)
  end.

Definition parse_cidr6 (cidr : string) : res (option (list byte * Z)) :=
  match str_find "/"%char cidr with
  | None => Ok None
  | Some slash =>
      let ip := str_take slash cidr in
      prefix ← stoi (str_drop (slash + 1) cidr);
      if (prefix <? 0)%Z || (128 <? prefix)%Z then Ok None
      else Ok ((fun addr => (addr, prefix)) <$> inet_pton6 ip)
  end.

Definition ipv4_to_string (host_order : Z) : string := inet_ntop4 (be32 host_order).
Definition ipv6_to_string (raw : list byte) : string := inet_ntop6 raw.

(** [~0u << (32 - prefix)], with the test for a prefix of 0. *)
Definition ipv4_mask (prefix : Z) : Z :=
  if (prefix =? 0)%Z then 0 else wrap_u32 (Z.shiftl (2 ^ 32 - 1) (32 - prefix)).

(** [(1u << (32 - prefix)) - 1]: shifting a 32-bit integer by 32 is undefined. *)
Definition ipv4_host_count (prefix : Z) : res Z :=
  if (32 <=? prefix)%Z then Ok 0%Z
  else if (prefix =? 0)%Z then Ub
  else Ok (wrap_u32 (Z.shiftl 1 (32 - prefix)) - 1)%Z.

Definition IpAllocator_new (ipv4_cidr ipv6_cidr : string) : res IpAllocator :=
  r4 ← parse_cidr ipv4_cidr;
  match r4 with
  | None => Throw (RuntimeError ("invalid ipv4 prefix: " +:+ ipv4_cidr))
  | Some (a4, prefix4) =>
      let base := Z.land (be_value a4) (ipv4_mask prefix4) in
      hosts ← ipv4_host_count prefix4;
      r6 ← parse_cidr6 ipv6_cidr;
      match r6 with
      | None => Throw (RuntimeError ("invalid ipv6 prefix: " +:+ ipv6_cidr))
      | Some (a6, prefix6) =>
          Ok (mkIpAllocator ipv4_cidr ipv6_cidr base prefix4 hosts a6 prefix6)
      end
  end.

Definition max_index (a : IpAllocator) : Z := ipv4_hosts a.

(** The IPv6 bytes: the base with the index in its last four bytes. *)
Definition ipv6_for (a : IpAllocator) (index : Z) : list byte :=
  let v6 := ipv6_base a in
  let v6 := <[12%nat := u8 (Z.shiftr index 24)]> v6 in
  let v6 := <[13%nat := u8 (Z.shiftr index 16)]> v6 in
  let v6 := <[14%nat := u8 (Z.shiftr index 8)]> v6 in
  <[15%nat := u8 index]> v6.

Definition address_for (a : IpAllocator) (index : Z) : res (string * string) :=
  if (index =? 0)%Z || (ipv4_hosts a <? index)%Z
  then Throw (RuntimeError "ip index out of range")
  else
    let v4 := ipv4_to_string (wrap_u32 (ipv4_base a + index)) in
    Ok (v4, ipv6_to_string (ipv6_for a index)).

End IpAlloc.

(** ** What the constructor establishes *)

Record alloc_wf (a : IpAllocator) : Prop := {
  wf_prefix : (1 <= ipv4_prefix a <= 32)%Z;
  wf_hosts : ipv4_hosts a = (if (ipv4_prefix a =? 32)%Z then 0 else 2 ^ (32 - ipv4_prefix a) - 1)%Z;
  wf_base : (0 <= ipv4_base a < 2 ^ 32)%Z;
  wf_aligned : (ipv4_base a mod 2 ^ (32 - ipv4_prefix a) = 0)%Z;
  wf_base6 : length (ipv6_base a) = 16;
}.

Lemma be_value_range l : (0 <= be_value l < 256 ^ Z.of_nat (length l))%Z.
Proof.
  induction l as [|b l IH] using rev_ind; [done |].
  rewrite be_value_snoc, length_app, Nat2Z.inj_add, Z.pow_add_r by (simpl; lia).
  change (256 ^ Z.of_nat (length [b]))%Z with 256%Z. pose proof (bz_range b). nia.
Qed.

(** The mask clears the low [32 - p] bits of a 32-bit integer. *)
Lemma land_ipv4_mask z p :
  (0 <= z < 2 ^ 32)%Z -> (0 <= p <= 32)%Z ->
  (Z.land z (ipv4_mask p) = z - z mod 2 ^ (32 - p))%Z.
Proof.
  intros Hz Hp. unfold ipv4_mask. destruct (p =? 0)%Z eqn:E; solve_guards.
  { subst. rewrite Z.land_0_r. change (32 - 0)%Z with 32%Z. rewrite Z.mod_small; lia. }
  assert (Hmask : wrap_u32 (Z.shiftl (2 ^ 32 - 1) (32 - p)) =
    Z.land (Z.shiftl (Z.ones 32) (32 - p)) (Z.ones 32)).
  { unfold wrap_u32. rewrite Z.land_ones by lia. f_equal. }
  rewrite Hmask. rewrite <-Z.land_ones by lia.
  assert (Hsplit : Z.land z (Z.land (Z.shiftl (Z.ones 32) (32 - p)) (Z.ones 32)) =
    Z.ldiff z (Z.ones (32 - p))).
  { apply Z.bits_inj'. intros n Hn. rewrite !Z.land_spec, Z.ldiff_spec, Z.shiftl_spec by lia.
    destruct (Z_lt_dec n 32).
    - rewrite (Z.ones_spec_low 32 n) by lia. destruct (Z_lt_dec n (32 - p)).
      + rewrite (Z.ones_spec_low (32 - p) n), (Z.testbit_neg_r _ (n - (32 - p))) by lia.
        by rewrite !andb_false_r.
      + rewrite (Z.ones_spec_high (32 - p) n), Z.ones_spec_low by lia. by rewrite !andb_true_r.
    - destruct (decide (z = 0%Z)) as [->|]; [by rewrite Z.testbit_0_l |].
      rewrite (Z.bits_above_log2 z n); [done | lia |].
      apply Z.log2_lt_pow2; [lia |].
      apply Z.lt_le_trans with (2 ^ 32)%Z; [lia | apply Z.pow_le_mono_r; lia]. }
  rewrite Hsplit, Z.ldiff_ones_r, Z.shiftl_mul_pow2, Z.shiftr_div_pow2, Z.land_ones by lia.
  rewrite Z.mod_eq by (apply Z.pow_nonzero; lia). ring.
Qed.

Lemma pow2_32_split p : (0 <= p <= 32)%Z -> (2 ^ (32 - p) * 2 ^ p = 2 ^ 32)%Z.
Proof. intros. rewrite <-Z.pow_add_r by lia. f_equal. lia. Qed.

Section IpAllocFacts.
  Context `{Inet : !InetLib} `{InetL : !InetLaws}.

Lemma parse_cidr_Some cidr a p :
  parse_cidr cidr = Ok (Some (a, p)) -> (0 <= p <= 32)%Z /\ length a = 4.
Proof.
  unfold parse_cidr. destruct (str_find _ _) as [n|]; [| done].
  destruct (stoi _) as [q|e|]; simpl; [| done | done]. unfold mbind, res_bind.
  destruct ((q <? 0)%Z || (32 <? q)%Z) eqn:E; [done |]. solve_guards.
  destruct (inet_pton4 _) eqn:Ha; simpl; [| done]. intros [= -> ->].
  split; [lia | by eapply pton4_length].
Qed.

Lemma parse_cidr6_Some cidr a p :
  parse_cidr6 cidr = Ok (Some (a, p)) -> (0 <= p <= 128)%Z /\ length a = 16.
Proof.
  unfold parse_cidr6. destruct (str_find _ _) as [n|]; [| done].
  destruct (stoi _) as [q|e|]; simpl; [| done | done]. unfold mbind, res_bind.
  destruct ((q <? 0)%Z || (128 <? q)%Z) eqn:E; [done |]. solve_guards.
  destruct (inet_pton6 _) eqn:Ha; simpl; [| done]. intros [= -> ->].
  split; [lia | by eapply pton6_length].
Qed.

Lemma ipv4_host_count_Ok p h : (0 <= p <= 32)%Z -> ipv4_host_count p = Ok h ->
  (1 <= p)%Z /\ h = (if (p =? 32)%Z then 0 else 2 ^ (32 - p) - 1)%Z.
Proof.
  intros Hp. unfold ipv4_host_count.
  destruct (32 <=? p)%Z eqn:E1; solve_guards.
  { intros [= <-]. assert (p = 32%Z) as -> by lia. done. }
  destruct (p =? 0)%Z eqn:E2; solve_guards; [done |]. intros [= <-].
  destruct (p =? 32)%Z eqn:E3; solve_guards; [lia |]. split; [lia |].
  rewrite Z.shiftl_1_l, wrap_u32_small; [done |]. split; [lia |].
  apply Z.pow_lt_mono_r; lia.
Qed.

Lemma IpAllocator_new_wf c4 c6 a : IpAllocator_new c4 c6 = Ok a -> alloc_wf a.
Proof.
  unfold IpAllocator_new, mbind, res_bind.
  destruct (parse_cidr c4) as [[[a4 p4]|]|e|] eqn:E4; try done.
  destruct (ipv4_host_count p4) as [h|e|] eqn:Eh; try done.
  destruct (parse_cidr6 c6) as [[[a6 p6]|]|e|] eqn:E6; try done. intros [= <-].
  apply parse_cidr_Some in E4 as [Hp Ha4]. apply parse_cidr6_Some in E6 as [_ Ha6].
  apply ipv4_host_count_Ok in Eh as [Hp1 Hh]; [| done].
  pose proof (be_value_range a4) as Hr. rewrite Ha4 in Hr.
  change (256 ^ Z.of_nat 4)%Z with (2 ^ 32)%Z in Hr.
  pose proof (Z.mod_pos_bound (be_value a4) (2 ^ (32 - p4)) ltac:(apply Z.pow_pos_nonneg; lia)).
  split; simpl; rewrite ?land_ipv4_mask by lia.
  - lia.
  - done.
  - pose proof (Z.mod_le (be_value a4) (2 ^ (32 - p4)) ltac:(lia)
      ltac:(apply Z.pow_pos_nonneg; lia)). lia.
  - rewrite Zminus_mod_idemp_r, Z.sub_diag. apply Z.mod_0_l, Z.pow_nonzero; lia.
  - done.
Qed.

(** Adding an in-range index neither wraps nor leaves the network. *)
Lemma base_plus_index a i : alloc_wf a -> (1 <= i <= ipv4_hosts a)%Z ->
  (0 <= ipv4_base a + i < 2 ^ 32)%Z /\
  ((ipv4_base a + i) / 2 ^ (32 - ipv4_prefix a) = ipv4_base a / 2 ^ (32 - ipv4_prefix a))%Z.
Proof.
  intros [Hp Hh Hb Hal _] Hi. rewrite Hh in Hi.
  destruct (ipv4_prefix a =? 32)%Z eqn:E; solve_guards; [lia |].
  pose proof (pow2_32_split (ipv4_prefix a) ltac:(lia)) as Hsplit.
  set (m := (2 ^ (32 - ipv4_prefix a))%Z) in *.
  assert (0 < m)%Z by (apply Z.pow_pos_nonneg; lia).
  assert (Hdiv : (ipv4_base a = m * (ipv4_base a / m))%Z).
  { pose proof (Z.div_mod (ipv4_base a) m). lia. }
  set (q := (ipv4_base a / m)%Z) in *. rewrite Hdiv.
  assert (q < 2 ^ ipv4_prefix a)%Z by nia. split.
  - split; nia.
  - rewrite Z.mul_comm, Z.div_add_l, Z.div_small by lia. lia.
Qed.

Lemma ipv6_for_split a i : alloc_wf a ->
  ipv6_for a i = take 12 (ipv6_base a) ++ be32 i.
Proof.
  intros Hwf. pose proof (wf_base6 a Hwf) as Hl. unfold ipv6_for, be32.
  destruct (ipv6_base a) as [|b0 [|b1 [|b2 [|b3 [|b4 [|b5 [|b6 [|b7 [|b8 [|b9 [|b10 [|b11
    [|b12 [|b13 [|b14 [|b15 [|]]]]]]]]]]]]]]]]]; try discriminate Hl. done.
Qed.

Lemma address_for_sound c4 c6 a i :
  IpAllocator_new c4 c6 = Ok a -> (0 <= i < 2 ^ 32)%Z ->
  (is_ok (address_for a i) = false <-> i = 0 \/ max_index a < i)%Z /\
  (forall v4 v6, address_for a i = Ok (v4, v6) ->
    (exists b4, inet_pton4 v4 = Some b4 /\ be_value b4 = ipv4_base a + i /\
      be_value b4 / 2 ^ (32 - ipv4_prefix a) = ipv4_base a / 2 ^ (32 - ipv4_prefix a))%Z /\
    inet_pton6 v6 = Some (take 12 (ipv6_base a) ++ be32 i)).
Proof.
  intros Ha%IpAllocator_new_wf Hi. unfold address_for, max_index.
  destruct ((i =? 0)%Z || (ipv4_hosts a <? i)%Z) eqn:E; simpl.
  { split; [| done]. split; [| done]. intros _. apply orb_true_iff in E as [E|E]; solve_guards; auto. }
  solve_guards. split; [split; [done | lia] |]. intros v4 v6 [= <- <-].
  destruct (base_plus_index a i Ha) as [Hr Hnet]; [lia |]. split.
  - exists (be32 (ipv4_base a + i)). unfold ipv4_to_string.
    rewrite wrap_u32_small, pton4_ntop4, be_value_be32, wrap_u32_small by done. done.
  - unfold ipv6_to_string. rewrite ipv6_for_split, pton6_ntop6; [done | | done].
    rewrite length_app, length_take, (wf_base6 a Ha). done.
Qed.

(** C35: address_for on an allocator built from two CIDRs: it throws exactly
    when the index is 0 or above max_index, and otherwise the IPv4 text it
    returns reads back as base + index, inside the IPv4 network (no wrap-around
    past its end), and the IPv6 text as the first 12 bytes of the IPv6 base
    followed by the index. *)
Theorem address_for_spec c4 c6 a i :
  IpAllocator_new c4 c6 = Ok a -> (0 <= i < 2 ^ 32)%Z ->
  (is_ok (address_for a i) = false <-> i = 0 \/ max_index a < i)%Z /\
  (forall v4 v6, address_for a i = Ok (v4, v6) ->
    (exists b4, inet_pton4 v4 = Some b4 /\ be_value b4 = ipv4_base a + i /\
      be_value b4 / 2 ^ (32 - ipv4_prefix a) = ipv4_base a / 2 ^ (32 - ipv4_prefix a))%Z /\
    inet_pton6 v6 = Some (take 12 (ipv6_base a) ++ be32 i)).
Proof. apply address_for_sound. Qed.

Lemma address_for_same c4 c6 a i j v4 v6 w4 w6 :
  IpAllocator_new c4 c6 = Ok a -> (0 <= i < 2 ^ 32)%Z -> (0 <= j < 2 ^ 32)%Z ->
  address_for a i = Ok (v4, v6) -> address_for a j = Ok (w4, w6) ->
  v4 = w4 \/ v6 = w6 -> i = j.
Proof.
  intros Ha Hi Hj Hai Haj Heq.
  destruct (address_for_sound c4 c6 a i Ha Hi) as [_ Si].
  destruct (address_for_sound c4 c6 a j Ha Hj) as [_ Sj].
  destruct (Si v4 v6 Hai) as [(bi & Hbi & Hvi & _) H6i].
  destruct (Sj w4 w6 Haj) as [(bj & Hbj & Hvj & _) H6j].
  destruct Heq as [->| ->].
  - rewrite Hbi in Hbj. injection Hbj as ->. lia.
  - rewrite H6i in H6j. injection H6j as H6j. apply app_inv_head in H6j. by apply be32_inj.
Qed.

(** Two indices never share an address: for two different indices, both
    the IPv4 texts and the IPv6 texts that are returned differ. *)
Theorem address_for_inj c4 c6 a i j v4 v6 w4 w6 :
  IpAllocator_new c4 c6 = Ok a -> (0 <= i < 2 ^ 32)%Z -> (0 <= j < 2 ^ 32)%Z -> i <> j ->
  address_for a i = Ok (v4, v6) -> address_for a j = Ok (w4, w6) ->
  v4 <> w4 /\ v6 <> w6.
Proof.
  intros Ha Hi Hj Hne Hai Haj.
  split; intros Heq; apply Hne;
    eapply (address_for_same c4 c6 a i j); eauto.
Qed.

End IpAllocFacts.

(** ** A sample address library

    Dotted decimal, and eight groups of hexadecimal digits in which only a
    final double colon is abbreviated: enough to satisfy [InetLaws] and to run
    the allocator on the repository's default networks. *)

Module SampleInet.

Definition octet_text (b : byte) : string := to_string (bz b).
Definition octet_parse (s : string) : option byte :=
  let v := read_digits 0 s in
  if (v <? 256)%Z && bool_decide (to_string v = s) then Some (u8 v) else None.

Definition ntop4 (a : list byte) : string := str_join "."%char (octet_text <$> a).
Definition pton4 (s : string) : option (list byte) :=
  a ← mapM octet_parse (str_split "."%char s);
  if (length a =? 4)%nat then Some a else None.

(** A group is up to four hexadecimal digits, padded on the left. *)
Definition group_text (g : byte * byte) : string := hex_encode [g.1; g.2].
Definition group_parse (s : string) : option (byte * byte) :=
  let s := str_take (4 - String.length s) "0000" +:+ s in
  match hex_decode s 2 with Some [x; y] => Some (x, y) | _ => None end.

Fixpoint pairs (a : list byte) : list (byte * byte) :=
  match a with x :: y :: a => (x, y) :: pairs a | _ => [] end.
Definition unpairs (l : list (byte * byte)) : list byte := g ← l; [g.1; g.2].

Definition ntop6 (a : list byte) : string := str_join ":"%char (group_text <$> pairs a).

Definition expand (gs : list string) : list string :=
  let n := length gs in
  if bool_decide (drop (n - 2) gs = [""; ""]) && (n <=? 9)%nat
  then take (n - 2) gs ++ replicate (8 - (n - 2)) "0" else gs.

Definition pton6 (s : string) : option (list byte) :=
  l ← mapM group_parse (expand (str_split ":"%char s));
  if (length l =? 8)%nat then Some (unpairs l) else None.

#[export] Instance sample_inet : InetLib :=
  {| inet_pton4 := pton4; inet_ntop4 := ntop4; inet_pton6 := pton6; inet_ntop6 := ntop6 |}.

Lemma octet_parse_text b : octet_parse (octet_text b) = Some b.
Proof. by destruct b; vm_compute. Qed.

Lemma octet_text_no_dot b : str_find "."%char (octet_text b) = None.
Proof. by destruct b; vm_compute. Qed.

Lemma group_parse_text g : group_parse (group_text g) = Some g.
Proof.
  destruct g as [x y]. unfold group_parse, group_text. rewrite hex_encode_length.
  change (str_take _ "0000") with EmptyString.
  pose proof (hex_decode_encode [x; y]) as H. cbn [length] in H.
  change (EmptyString +:+ ?s) with s. cbn [fst snd]. by rewrite H.
Qed.

Lemma kHex_at_no_colon z : kHex_at z <> ":"%char.
Proof.
  unfold kHex_at. generalize (Z.to_nat z). intros n.
  do 16 (destruct n as [|n]; [done |]). by destruct n.
Qed.

Lemma hex_encode_no_colon l : str_find ":"%char (hex_encode l) = None.
Proof.
  induction l as [|b l IH]; [done |]. simpl.
  by rewrite !decide_False, IH by apply kHex_at_no_colon.
Qed.

Lemma mapM_map {A B} (f : A -> B) (g : B -> option A) l :
  (forall x, g (f x) = Some x) -> mapM g (f <$> l) = Some l.
Proof. apply mapM_fmap_Some. Qed.

Lemma pton4_ntop4_sample a : length a = 4 -> pton4 (ntop4 a) = Some a.
Proof.
  intros Ha. unfold pton4, ntop4. rewrite str_split_join.
  - rewrite mapM_map by apply octet_parse_text. simpl. by rewrite Ha.
  - by destruct a.
  - apply Forall_fmap, Forall_true. apply octet_text_no_dot.
Qed.

Lemma expand_groups gs : Forall (fun s => s <> "") gs -> expand gs = gs.
Proof.
  intros H. unfold expand. case_bool_decide as Hd; [| done]. exfalso.
  apply (Forall_drop _ (length gs - 2)) in H. rewrite Hd in H. by inv H.
Qed.

Lemma unpairs_pairs a : length a = 16 -> unpairs (pairs a) = a /\ length (pairs a) = 8.
Proof.
  intros H. do 16 (destruct a as [|? a]; [discriminate H |]).
  destruct a; [done | discriminate H].
Qed.

Lemma pton6_ntop6_sample a : length a = 16 -> pton6 (ntop6 a) = Some a.
Proof.
  intros Ha. destruct (unpairs_pairs a Ha) as [Hu Hl]. unfold pton6, ntop6.
  rewrite str_split_join, expand_groups.
  - rewrite mapM_map by apply group_parse_text. simpl. by rewrite Hl, Hu.
  - by apply Forall_fmap, Forall_true.
  - by destruct (pairs a).
  - apply Forall_fmap, Forall_true. intros [x y]. apply hex_encode_no_colon.
Qed.

#[export] Instance sample_inet_laws : InetLaws.
Proof.
  split.
  - intros s a. simpl. unfold pton4. destruct (mapM _ _) as [l|]; simpl; [| done].
    destruct (length l =? 4)%nat eqn:E; [| done]. intros [= <-]. by solve_guards.
  - intros s a. simpl. unfold pton6. destruct (mapM _ _) as [l|]; simpl; [| done].
    destruct (length l =? 8)%nat eqn:E; [| done]. intros [= <-]. solve_guards.
    do 8 (destruct l as [|? l]; [discriminate E |]). by destruct l.
  - apply pton4_ntop4_sample.
  - apply pton6_ntop6_sample.
  - done.
  - done.
Qed.

Definition default_alloc : IpAllocator :=
  match IpAllocator_new "100.64.0.0/16" "fd7a:115c:a1e0::/48" with
  | Ok a => a
  | _ => mkIpAllocator "" "" 0 0 0 [] 0
  end.

Lemma default_alloc_new :
  IpAllocator_new "100.64.0.0/16" "fd7a:115c:a1e0::/48" = Ok default_alloc.
Proof. vm_compute. reflexivity. Qed.

Lemma address_for_spec_witness :
  address_for default_alloc 1 = Ok ("100.64.0.1", "fd7a:115c:a1e0:0000:0000:0000:0000:0001") /\
  is_ok (address_for default_alloc 65536) = false.
Proof.
  split; [vm_compute; reflexivity |].
  apply (address_for_spec _ _ default_alloc 65536 default_alloc_new ltac:(lia)).
  right. vm_compute. reflexivity.
Defined.

Lemma address_for_inj_witness :
  "100.64.0.1" <> "100.64.0.2" /\
  "fd7a:115c:a1e0:0000:0000:0000:0000:0001" <> "fd7a:115c:a1e0:0000:0000:0000:0000:0002".
Proof.
  apply (address_for_inj _ _ default_alloc 1 2 _ _ _ _ default_alloc_new
    ltac:(lia) ltac:(lia) ltac:(lia)); vm_compute; reflexivity.
Defined.

End SampleInet.
