(* ===== verification/Json.v ===== *)
(** * Json: the interface of the JSON library

    The repository uses nlohmann::json. Its values and operations are the
    class [JsonLib]; [JsonLaws] states the documented behaviour the code relies
    on: construction, lookup, checked conversions (a [TypeError] is nlohmann's
    type_error), and that dumped text parses back. *)

From S2P Require Import Prelude.

Class JsonLib := {
  json : Type;
  jbool : bool -> json;
  (** a number constructed from a 64-bit integer *)
  jint : Z -> json;
  jstr : string -> json;
  jarr : list json -> json;
  jobj : list (string * json) -> json;
  (** [j.contains(k)] and then [j[k]]: [None] when [j] is not an object or
      lacks the key *)
  json_find : json -> string -> option json;
  json_is_object : json -> bool;
  json_is_array : json -> bool;
  json_is_string : json -> bool;
  (** what [for (const auto& e : j)] visits *)
  json_items : json -> list json;
  (** [get<std::string>], [get<bool>], [get<int>], [get<std::vector<std::string>>] *)
  json_get_string : json -> res string;
  json_get_bool : json -> res bool;
  json_get_int : json -> res Z;
  json_get_strings : json -> res (list string);
  (** [j.value(k, default)] for a string, boolean or int default *)
  json_value_string : json -> string -> string -> res string;
  json_value_bool : json -> string -> bool -> res bool;
  json_value_int : json -> string -> Z -> res Z;
  (** [j.dump()], [j.dump(2)], [json::parse(s)], [in >> j] *)
  json_dump : json -> res string;
  json_dump2 : json -> res string;
  json_parse : string -> res json;
  json_read : string -> res json;
}.

Fixpoint assoc {A} (k : string) (l : list (string * A)) : option A :=
  match l with
  | [] => None
  | (k', v) :: l => if String.eqb k k' then Some v else assoc k l
  end.

(** The documented meaning of [j.value(k, d)], for the conversion [conv]. *)
Definition value_spec `{!JsonLib} {A} (conv : json -> res A) (j : json) (k : string) (d : A)
    : res A :=
  if json_is_object j then
    match json_find j k with Some v => conv v | None => Ok d end
  else Throw TypeError.

(** Values without floating-point numbers or nulls: what the repository builds. *)
#[warnings="-register-all"]
Inductive plain `{!JsonLib} : json -> Prop :=
  | plain_bool b : plain (jbool b)
  | plain_int z : plain (jint z)
  | plain_str s : plain (jstr s)
  | plain_arr l : Forall plain l -> plain (jarr l)
  | plain_obj l : NoDup l.*1 -> Forall (fun kv => plain kv.2) l -> plain (jobj l).

Class JsonLaws `{JL : !JsonLib} := {
  find_jobj l k : NoDup l.*1 -> json_find (jobj l) k = assoc k l;
  is_object_jobj l : json_is_object (jobj l) = true;
  find_object j k v : json_find j k = Some v -> json_is_object j = true;
  items_jarr l : json_items (jarr l) = l;
  is_array_jarr l : json_is_array (jarr l) = true;
  is_string_jstr s : json_is_string (jstr s) = true;
  get_string_jstr s : json_get_string (jstr s) = Ok s;
  get_bool_jbool b : json_get_bool (jbool b) = Ok b;
  (** a conversion to [int] keeps the low 32 bits *)
  get_int_jint z : json_get_int (jint z) = Ok (wrap_i32 z);
  get_strings_jarr l : json_get_strings (jarr (jstr <$> l)) = Ok l;
  value_string_spec j k d : json_value_string j k d = value_spec json_get_string j k d;
  value_bool_spec j k d : json_value_bool j k d = value_spec json_get_bool j k d;
  value_int_spec j k d : json_value_int j k d = value_spec json_get_int j k d;
  parse_dump j s : plain j -> json_dump j = Ok s -> json_parse s = Ok j;
  read_dump2 j s : plain j -> json_dump2 j = Ok s -> json_read (s +:+ String (code_char 10) "") = Ok j;
  dump2_nonempty j s : json_dump2 j = Ok s -> s <> "";
  parse_empty_object : json_parse "{}" = Ok (jobj []);
}.

(** ** Reading back an object built from a literal list of fields *)

Section JsonFacts.
  Context `{JL : !JsonLib} `{JLaws : !JsonLaws}.

Lemma value_string_jobj l k d :
  NoDup l.*1 ->
  json_value_string (jobj l) k d =
    match assoc k l with Some v => json_get_string v | None => Ok d end.
Proof.
  intros H. rewrite value_string_spec. unfold value_spec. by rewrite is_object_jobj, find_jobj.
Qed.

Lemma value_bool_jobj l k d :
  NoDup l.*1 ->
  json_value_bool (jobj l) k d =
    match assoc k l with Some v => json_get_bool v | None => Ok d end.
Proof.
  intros H. rewrite value_bool_spec. unfold value_spec. by rewrite is_object_jobj, find_jobj.
Qed.

Lemma value_int_jobj l k d :
  NoDup l.*1 ->
  json_value_int (jobj l) k d =
    match assoc k l with Some v => json_get_int v | None => Ok d end.
Proof.
  intros H. rewrite value_int_spec. unfold value_spec. by rewrite is_object_jobj, find_jobj.
Qed.

Lemma find_None_not_object j k : json_is_object j = false -> json_find j k = None.
Proof.
  intros H. destruct (json_find j k) as [v|] eqn:E; [| done].
  apply find_object in E. congruence.
Qed.

End JsonFacts.

(** Discharge [NoDup] of a literal list of keys. *)
Ltac nodup_keys := apply (bool_decide_unpack _); vm_compute; exact I.

(** Read a field of a literal object in the goal. *)
Ltac json_fields :=
  repeat first
    [ rewrite value_string_jobj by nodup_keys
    | rewrite value_bool_jobj by nodup_keys
    | rewrite value_int_jobj by nodup_keys
    | rewrite find_jobj by nodup_keys ];
  cbn [assoc String.eqb Ascii.eqb Bool.eqb];
  repeat first
    [ rewrite get_string_jstr | rewrite get_bool_jbool | rewrite get_int_jint
    | rewrite get_strings_jarr | rewrite items_jarr ].

(** ** A sample JSON library

    Values are trees, and the text of a value is a binary encoding of it: a
    concrete instance in which the laws hold. *)

Module SampleJson.

#[warnings="-register-all"]
Inductive tree :=
  | TNull
  | TBool (b : bool)
  | TNum (z : Z)
  | TStr (s : string)
  | TArr (l : list tree)
  | TObj (l : list (string * tree)).

Fixpoint tree_rect_nested (P : tree -> Prop)
    (Hnull : P TNull) (Hbool : forall b, P (TBool b)) (Hnum : forall z, P (TNum z))
    (Hstr : forall s, P (TStr s)) (Harr : forall l, Forall P l -> P (TArr l))
    (Hobj : forall l, Forall (fun kv => P kv.2) l -> P (TObj l)) (t : tree) : P t :=
  let rec := tree_rect_nested P Hnull Hbool Hnum Hstr Harr Hobj in
  match t with
  | TNull => Hnull
  | TBool b => Hbool b
  | TNum z => Hnum z
  | TStr s => Hstr s
  | TArr l => Harr l ((fix go l := match l return Forall P l with
      | [] => Forall_nil_2 P | x :: l => Forall_cons_2 P x l (rec x) (go l) end) l)
  | TObj l => Hobj l ((fix go l := match l return Forall (fun kv => P kv.2) l with
      | [] => Forall_nil_2 _ | x :: l => Forall_cons_2 _ x l (rec x.2) (go l) end) l)
  end.

Abbreviation leaf := (bool + Z + string)%type.

Fixpoint enc (t : tree) : gen_tree leaf :=
  match t with
  | TNull => GenNode 0 []
  | TBool b => GenLeaf (inl (inl b))
  | TNum z => GenLeaf (inl (inr z))
  | TStr s => GenLeaf (inr s)
  | TArr l => GenNode 1 (map enc l)
  | TObj l => GenNode 2 (map (fun kv => GenNode 3 [GenLeaf (inr kv.1); enc kv.2]) l)
  end.

Fixpoint dec (g : gen_tree leaf) : tree :=
  match g with
  | GenLeaf (inl (inl b)) => TBool b
  | GenLeaf (inl (inr z)) => TNum z
  | GenLeaf (inr s) => TStr s
  | GenNode 1 l => TArr (map dec l)
  | GenNode 2 l =>
      TObj (map (fun g => match g with
                          | GenNode 3 [GenLeaf (inr k); v] => (k, dec v)
                          | _ => ("", TNull) end) l)
  | GenNode _ _ => TNull
  end.

Lemma dec_enc t : dec (enc t) = t.
Proof.
  induction t as [| | | |l IH|l IH] using tree_rect_nested; try done; simpl; f_equal;
    rewrite map_map; induction IH as [|x l Hx Hl IHl]; simpl; try done.
  - by rewrite Hx, IHl.
  - rewrite Hx, IHl. by destruct x.
Qed.

Fixpoint pos_text (p : positive) : string :=
  match p with
  | xH => ""
  | xO p => String "0"%char (pos_text p)
  | xI p => String "1"%char (pos_text p)
  end.

Fixpoint text_pos (s : string) : positive :=
  match s with
  | EmptyString => xH
  | String c s =>
      if decide (c = "0"%char) then xO (text_pos s)
      else if decide (c = "1"%char) then xI (text_pos s) else xH
  end.

Lemma text_pos_text p t : text_pos (pos_text p +:+ String (code_char 10) t) = p.
Proof. induction p; simpl; rewrite ?IHp; done. Qed.

Lemma text_pos_text_nil p : text_pos (pos_text p) = p.
Proof. induction p; simpl; rewrite ?IHp; done. Qed.

Definition tree_text (t : tree) : string := String "#"%char (pos_text (encode (enc t))).
Definition text_tree (s : string) : res tree :=
  match s with
  | String c s =>
      if decide (c = "#"%char) then
        match decode (text_pos s) with Some g => Ok (dec g) | None => Throw ParseError end
      else if decide (String c s = "{}") then Ok (TObj []) else Throw ParseError
  | EmptyString => Throw ParseError
  end.

Definition find (t : tree) (k : string) : option tree :=
  match t with TObj l => assoc k l | _ => None end.
Definition get_string (t : tree) : res string :=
  match t with TStr s => Ok s | _ => Throw TypeError end.
Definition get_bool (t : tree) : res bool :=
  match t with TBool b => Ok b | _ => Throw TypeError end.
Definition get_int (t : tree) : res Z :=
  match t with
  | TNum z => Ok (wrap_i32 z) | TBool b => Ok (if b then 1 else 0)%Z | _ => Throw TypeError
  end.
Fixpoint get_all (l : list tree) : res (list string) :=
  match l with
  | [] => Ok []
  | t :: l => s ← get_string t; ss ← get_all l; Ok (s :: ss)
  end.

Definition is_object (t : tree) : bool := match t with TObj _ => true | _ => false end.
Definition value {A} (conv : tree -> res A) (j : tree) (k : string) (d : A) : res A :=
  if is_object j then match find j k with Some v => conv v | None => Ok d end
  else Throw TypeError.

#[export] Instance sample_json : JsonLib := {|
  json := tree;
  jbool := TBool; jint := TNum; jstr := TStr; jarr := TArr; jobj := TObj;
  json_find := find;
  json_is_object := is_object;
  json_is_array t := match t with TArr _ => true | _ => false end;
  json_is_string t := match t with TStr _ => true | _ => false end;
  json_items t := match t with TArr l => l | TObj l => l.*2 | TNull => [] | _ => [t] end;
  json_get_string := get_string;
  json_get_bool := get_bool;
  json_get_int := get_int;
  json_get_strings t := match t with TArr l => get_all l | _ => Throw TypeError end;
  json_value_string := value get_string;
  json_value_bool := value get_bool;
  json_value_int := value get_int;
  json_dump t := Ok (tree_text t);
  json_dump2 t := Ok (tree_text t);
  json_parse := text_tree;
  json_read := text_tree;
|}.

Lemma get_all_map l : get_all (TStr <$> l) = Ok l.
Proof.
  induction l as [|s l IH]; [done |]. rewrite fmap_cons.
  cbn [get_all get_string]. unfold mbind, res_bind. by rewrite IH.
Qed.

#[export] Instance sample_json_laws : JsonLaws.
Proof.
  split; try done.
  - intros j k v. by destruct j.
  - intros l. apply get_all_map.
  - intros j s _ [= <-]. cbn [json_parse sample_json text_tree tree_text].
    by rewrite decide_True, text_pos_text_nil, decode_encode, dec_enc.
  - intros j s _ [= <-]. cbn [json_read sample_json text_tree tree_text String.append].
    by rewrite decide_True, text_pos_text, decode_encode, dec_enc.
  - by intros j s [= <-].
Qed.

End SampleJson.
