(* ===== verification/State.v ===== *)
(** * State: the store of state.hpp and state.cpp

    A [Store] is the object; [World] is what its methods reach outside: the
    file system, the clock, the random generator, the persist callback. A
    method is a computation of the monad [M St] on the pair of them, so a
    mutation made before an exception stays, as in the code. Each method runs
    under the store's mutex, so it is one atomic step; the one exception,
    reload_keys_from_disk, is split at its lock ([read_keys_file] and
    [replace_keys]) and its interleavings are studied in Races. *)

From S2P Require Import Prelude.
From S2P Require Import Crypto.
From S2P Require Import Keys.
From S2P Require Import IpAlloc.
From S2P Require Import Json.

(** ** Data *)

Record PreauthKey := mkPreauthKey {
  pk_key : string;
  pk_reusable : bool;
  pk_ephemeral : bool;
  pk_used : bool;
  pk_expires_unix : Z;
  pk_token : string;
  pk_shared : bool;
}.

Record PreauthClaim := mkPreauthClaim {
  pc_ephemeral : bool;
  pc_token : string;
  pc_shared : bool;
}.

Record NodeState := mkNodeState {
  ns_id : Z;
  ns_stable_id : string;
  ns_hostname : string;
  ns_machine_key : string;
  ns_node_key : string;
  ns_disco_key : string;
  ns_ipv4 : string;
  ns_ipv6 : string;
  ns_endpoints : list string;
  ns_online : bool;
  ns_ephemeral : bool;
  ns_token : string;
  ns_shared : bool;
}.

#[export] Instance PreauthKey_eq_dec : EqDecision PreauthKey.
Proof. solve_decision. Defined.
#[export] Instance PreauthClaim_eq_dec : EqDecision PreauthClaim.
Proof. solve_decision. Defined.
#[export] Instance NodeState_eq_dec : EqDecision NodeState.
Proof. solve_decision. Defined.

(** Outside the process: file contents by path, the wall clock in seconds, the
    number of random draws, which paths can be opened for writing and renamed,
    and the texts handed to the embedding program. *)
Record World := mkWorld {
  w_disk : gmap string string;
  w_now : Z;
  w_rng : nat;
  w_can_write : string -> bool;
  w_can_rename : string -> string -> bool;
  w_persisted : list string;
}.

Record Store := mkStore {
  st_persist_hook : option (string -> World -> World);
  st_path : string;
  st_alloc : IpAllocator;
  st_noise_private : Bytes32;
  st_next_node_id : Z;
  st_next_ip_index : Z;
  st_keys : list PreauthKey;
  st_nodes : list NodeState;
}.

Record St := mkSt { store : Store; world : World }.

(** *** Field updates *)

Definition set_pk_used (u : bool) (k : PreauthKey) : PreauthKey :=
  mkPreauthKey (pk_key k) (pk_reusable k) (pk_ephemeral k) u (pk_expires_unix k)
    (pk_token k) (pk_shared k).

Definition set_ns_online (b : bool) (n : NodeState) : NodeState :=
  mkNodeState (ns_id n) (ns_stable_id n) (ns_hostname n) (ns_machine_key n) (ns_node_key n)
    (ns_disco_key n) (ns_ipv4 n) (ns_ipv6 n) (ns_endpoints n) b (ns_ephemeral n)
    (ns_token n) (ns_shared n).

Definition set_keys (ks : list PreauthKey) (s : Store) : Store :=
  mkStore (st_persist_hook s) (st_path s) (st_alloc s) (st_noise_private s)
    (st_next_node_id s) (st_next_ip_index s) ks (st_nodes s).

Definition set_nodes (ns : list NodeState) (s : Store) : Store :=
  mkStore (st_persist_hook s) (st_path s) (st_alloc s) (st_noise_private s)
    (st_next_node_id s) (st_next_ip_index s) (st_keys s) ns.

Definition set_noise_private (b : Bytes32) (s : Store) : Store :=
  mkStore (st_persist_hook s) (st_path s) (st_alloc s) b
    (st_next_node_id s) (st_next_ip_index s) (st_keys s) (st_nodes s).

Definition set_counters (id ip : Z) (s : Store) : Store :=
  mkStore (st_persist_hook s) (st_path s) (st_alloc s) (st_noise_private s)
    id ip (st_keys s) (st_nodes s).

Definition set_hook (h : option (string -> World -> World)) (s : Store) : Store :=
  mkStore h (st_path s) (st_alloc s) (st_noise_private s)
    (st_next_node_id s) (st_next_ip_index s) (st_keys s) (st_nodes s).

Definition set_disk (d : gmap string string) (w : World) : World :=
  mkWorld d (w_now w) (w_rng w) (w_can_write w) (w_can_rename w) (w_persisted w).

Definition set_rng (c : nat) (w : World) : World :=
  mkWorld (w_disk w) (w_now w) c (w_can_write w) (w_can_rename w) (w_persisted w).

Definition on_store {A} (m : M Store A) : M St A :=
  zoom store (fun s st => mkSt s (world st)) m.
Definition on_rng {A} (m : M nat A) : M St A :=
  zoom (fun st => w_rng (world st)) (fun c st => mkSt (store st) (set_rng c (world st))) m.
Definition upd_store (f : Store -> Store) : M St unit :=
  modify (fun st => mkSt (f (store st)) (world st)).
Definition upd_disk (f : gmap string string -> gmap string string) : M St unit :=
  modify (fun st => mkSt (store st) (set_disk (f (w_disk (world st))) (world st))).

(** [for (auto& x : l) if (p(x)) { f(x); return x; }]: the list with the first
    match updated in place, and the updated element. *)
Fixpoint update_first {A} (p : A -> bool) (f : A -> A) (l : list A) : option (list A * A) :=
  match l with
  | [] => None
  | x :: l =>
      if p x then Some (f x :: l, f x)
      else match update_first p f l with
           | Some (l', y) => Some (x :: l', y)
           | None => None
           end
  end.

(** [for (const auto& x : l) if (p(x)) return x;] *)
Fixpoint find_first {A} (p : A -> bool) (l : list A) : option A :=
  match l with
  | [] => None
  | x :: l => if p x then Some x else find_first p l
  end.

Section State.
  Context `{OSSL : !OpenSSL} `{Inet : !InetLib} `{JL : !JsonLib}.

(** ** JSON forms *)

Definition key_from_json (k : json) : res PreauthKey :=
  key ← json_value_string k "key" "";
  reusable ← json_value_bool k "reusable" true;
  ephemeral ← json_value_bool k "ephemeral" false;
  used ← json_value_bool k "used" false;
  expires_unix ← json_value_int k "expires_unix" 0;
  token ← json_value_string k "token" "";
  shared ← json_value_bool k "shared" (str_empty token);
  mret (mkPreauthKey key reusable ephemeral used expires_unix token shared).

Definition node_from_json (n : json) : res NodeState :=
  id ← json_value_int n "id" 0;
  stable_id ← json_value_string n "stable_id" "";
  hostname ← json_value_string n "hostname" "";
  machine_key ← json_value_string n "machine_key" "";
  node_key ← json_value_string n "node_key" "";
  disco_key ← json_value_string n "disco_key" "";
  ipv4 ← json_value_string n "ipv4" "";
  ipv6 ← json_value_string n "ipv6" "";
  ephemeral ← json_value_bool n "ephemeral" false;
  online ← json_value_bool n "online" false;
  token ← json_value_string n "token" "";
  shared ← json_value_bool n "shared" (str_empty token);
  endpoints ← match json_find n "endpoints" with
              | Some e => json_get_strings e
              | None => mret []
              end;
  mret (mkNodeState (wrap_u64 id) stable_id hostname machine_key node_key disco_key
    ipv4 ipv6 endpoints online ephemeral token shared).

Definition key_to_json (k : PreauthKey) : json :=
  jobj [("key", jstr (pk_key k)); ("reusable", jbool (pk_reusable k));
        ("ephemeral", jbool (pk_ephemeral k)); ("used", jbool (pk_used k));
        ("expires_unix", jint (pk_expires_unix k)); ("token", jstr (pk_token k));
        ("shared", jbool (pk_shared k))].

Definition node_to_json (n : NodeState) : json :=
  jobj [("id", jint (ns_id n)); ("stable_id", jstr (ns_stable_id n));
        ("hostname", jstr (ns_hostname n)); ("machine_key", jstr (ns_machine_key n));
        ("node_key", jstr (ns_node_key n)); ("disco_key", jstr (ns_disco_key n));
        ("ipv4", jstr (ns_ipv4 n)); ("ipv6", jstr (ns_ipv6 n));
        ("endpoints", jarr (jstr <$> ns_endpoints n));
        ("ephemeral", jbool (ns_ephemeral n)); ("online", jbool (ns_online n));
        ("token", jstr (ns_token n)); ("shared", jbool (ns_shared n))].

Definition snapshot_locked (s : Store) : json :=
  jobj [("noise_private", jstr (hex_encode (st_noise_private s)));
        ("next_node_id", jint (st_next_node_id s));
        ("next_ip_index", jint (st_next_ip_index s));
        ("preauth_keys", jarr (key_to_json <$> st_keys s));
        ("nodes", jarr (node_to_json <$> st_nodes s))].

Definition user_profile : json :=
  jobj [("ID", jint 1); ("DisplayName", jstr "wirebone"); ("ProfilePicURL", jstr "")].

Definition login_profile : json :=
  jobj [("ID", jint 1); ("Provider", jstr "wirebone"); ("LoginName", jstr "wirebone@local");
        ("DisplayName", jstr "wirebone"); ("ProfilePicURL", jstr "")].

(** [keys_.clear(); for (k : j) keys_.push_back(key_from_json(k))] *)
Definition replace_keys (j : json) : M Store unit :=
  _ ← modify (set_keys []);
  for_each (json_items j) (fun k =>
    p ← lift (key_from_json k);
    modify (fun s => set_keys (st_keys s ++ [p]) s)).

Definition replace_nodes (j : json) : M Store unit :=
  for_each (json_items j) (fun n =>
    node ← lift (node_from_json n);
    modify (fun s => set_nodes (st_nodes s ++ [node]) s)).

Definition apply_snapshot_locked (j : json) : M Store unit :=
  _ ← (match json_find j "noise_private" with
       | Some v =>
           text ← lift (json_get_string v);
           match hex_decode text 32 with
           | Some priv => modify (set_noise_private priv)
           | None => mret ()
           end
       | None => mret ()
       end);
  next_node_id ← lift (json_value_int j "next_node_id" 1);
  _ ← modify (fun s => set_counters (wrap_u64 next_node_id) (st_next_ip_index s) s);
  next_ip_index ← lift (json_value_int j "next_ip_index" 1);
  _ ← modify (fun s => set_counters (st_next_node_id s) (wrap_u32 next_ip_index) s);
  _ ← (match json_find j "preauth_keys" with
       | Some ks => replace_keys ks
       | None => modify (set_keys [])
       end);
  _ ← modify (set_nodes []);
  match json_find j "nodes" with
  | Some ns => replace_nodes ns
  | None => mret ()
  end.

(** ** Persistence *)

Definition tmp_path (p : string) : string := p +:+ ".tmp".

(** The part of save_locked under [if (!path_.empty())]: write the temporary
    file, then rename it over the state file. *)
Definition write_state_file (j : json) : M St unit :=
  st ← get;
  let path := st_path (store st) in
  let tmp := tmp_path path in
  if negb (w_can_write (world st) tmp)
  then throw (RuntimeError ("cannot write state file " +:+ tmp))
  else
    _ ← upd_disk (fun d => <[tmp := ""]> d);
    text ← lift (json_dump2 j);
    let content := text +:+ String (code_char 10) "" in
    _ ← upd_disk (fun d => <[tmp := content]> d);
    if negb (w_can_rename (world st) tmp path)
    then throw (RuntimeError ("cannot replace state file " +:+ path))
    else upd_disk (fun d => <[path := content]> (delete tmp d)).

Definition save_locked : M St unit :=
  j ← gets (fun st => snapshot_locked (store st));
  path ← gets (fun st => st_path (store st));
  _ ← (if str_empty path then mret () else write_state_file j);
  hook ← gets (fun st => st_persist_hook (store st));
  match hook with
  | Some h =>
      text ← lift (json_dump j);
      modify (fun st => mkSt (store st) (h text (world st)))
  | None => mret ()
  end.

Definition persist : M St unit := save_locked.

(** ** Construction *)

Definition load_or_init : M St unit :=
  st ← get;
  let path := st_path (store st) in
  _ ← (if str_empty path then mret ()
       else match w_disk (world st) !! path with
            | None => mret ()
            | Some content =>
                if str_empty content then mret ()
                else j ← lift (json_read content); on_store (apply_snapshot_locked j)
            end);
  priv ← gets (fun st => st_noise_private (store st));
  if decide (priv = zero32) then
    priv ← on_rng generate_x25519_private;
    _ ← upd_store (set_noise_private priv);
    save_locked
  else mret ().

(** The members before load_or_init runs in the constructor's body. *)
Definition fresh_store (path : string) (a : IpAllocator) : Store :=
  mkStore None path a zero32 1 1 [] [].

(** The constructor: the store is discarded when it throws. *)
Definition Store_new (path ipv4_cidr ipv6_cidr : string) (w : World) : res Store * World :=
  match IpAllocator_new ipv4_cidr ipv6_cidr with
  | Ok a =>
      let '(r, st) := load_or_init (mkSt (fresh_store path a) w) in
      ((fun _ => store st) <$> r, world st)
  | Throw e => (Throw e, w)
  | Ub => (Ub, w)
  end.

(** ** Accessors, export and import *)

Definition noise_public_text : M St string :=
  priv ← gets (fun st => st_noise_private (store st));
  pub ← lift (x25519_public priv);
  mret (format_key Machine pub).

Definition preauth_keys : M St (list PreauthKey) := gets (fun st => st_keys (store st)).
Definition nodes : M St (list NodeState) := gets (fun st => st_nodes (store st)).

Definition dump_json : M St string :=
  s ← gets store;
  lift (json_dump (snapshot_locked s)).

Definition load_json (text : string) : M St unit :=
  j ← lift (json_parse (if str_empty text then "{}" else text));
  on_store (apply_snapshot_locked j).

Definition set_persist_hook (hook : option (string -> World -> World)) : M St unit :=
  upd_store (set_hook hook).

(** ** Preauth keys *)

Definition random_token : M St string :=
  raw ← on_rng (random_bytes 32);
  mret ("wbkey-" +:+ hex_encode raw).

Definition resolve_shared (token : string) (shared : option bool) : bool :=
  match shared with Some b => b | None => str_empty token end.

(** [now_unix() + expiration.count()]: a signed overflow is undefined. *)
Definition add_i64 (x y : Z) : res Z :=
  if (- 2 ^ 63 <=? x + y)%Z && (x + y <? 2 ^ 63)%Z then Ok (x + y)%Z else Ub.

Definition create_preauth_key (reusable ephemeral : bool) (expiration : Z)
    (token : string) (shared : option bool) : M St string :=
  key ← random_token;
  now ← gets (fun st => w_now (world st));
  expires ← lift (if (0 <? expiration)%Z then add_i64 now expiration else Ok 0%Z);
  let k := mkPreauthKey key reusable ephemeral false expires token
             (resolve_shared token shared) in
  _ ← upd_store (fun s => set_keys (st_keys s ++ [k]) s);
  _ ← save_locked;
  mret key.

(** reload_keys_from_disk before its lock: the array it will install, or
    [None] when it returns early. *)
Definition read_keys_file (st : St) : option json :=
  let path := st_path (store st) in
  if str_empty path then None
  else match w_disk (world st) !! path with
       | None => None
       | Some content =>
           match json_read content with
           | Ok j => json_find j "preauth_keys"
           | _ => None
           end
       end.

Definition reload_keys_from_disk : M St unit :=
  file ← gets read_keys_file;
  match file with
  | Some j => on_store (replace_keys j)
  | None => mret ()
  end.

(** The scan of consume_preauth: [None] is a return of false. *)
Fixpoint consume_scan (now : Z) (key : string) (ks : list PreauthKey)
    : option (list PreauthKey * PreauthClaim) :=
  match ks with
  | [] => None
  | k :: ks =>
      if negb (bool_decide (pk_key k = key)) then
        match consume_scan now key ks with
        | Some (ks', c) => Some (k :: ks', c)
        | None => None
        end
      else if negb (pk_expires_unix k =? 0)%Z && (pk_expires_unix k <? now)%Z then None
      else if negb (pk_reusable k) && pk_used k then None
      else Some (set_pk_used true k :: ks,
                 mkPreauthClaim (pk_ephemeral k) (pk_token k) (pk_shared k))
  end.

(** consume_preauth after the reload, under the lock. *)
Definition consume_locked (key : string) : M St (option PreauthClaim) :=
  st ← get;
  match consume_scan (w_now (world st)) key (st_keys (store st)) with
  | Some (ks, claim) =>
      _ ← upd_store (set_keys ks);
      _ ← save_locked;
      mret (Some claim)
  | None => mret None
  end.

Definition consume_preauth (key : string) : M St (option PreauthClaim) :=
  _ ← reload_keys_from_disk;
  consume_locked key.

(** The older overload: [Some ephemeral] is true. *)
Definition consume_preauth_ephemeral (key : string) : M St (option bool) :=
  c ← consume_preauth key;
  mret (pc_ephemeral <$> c).

(** ** Nodes *)

Definition is_machine (machine_key : string) (n : NodeState) : bool :=
  bool_decide (ns_machine_key n = machine_key).

Definition reregister (node_key hostname : string) (ephemeral : bool) (n : NodeState) : NodeState :=
  mkNodeState (ns_id n) (ns_stable_id n)
    (if str_empty hostname then ns_hostname n else hostname)
    (ns_machine_key n) node_key (ns_disco_key n) (ns_ipv4 n) (ns_ipv6 n) (ns_endpoints n)
    (ns_online n) ephemeral (ns_token n) (ns_shared n).

Definition register_node (machine_key node_key hostname : string) (ephemeral : bool)
    (token : string) (shared : bool) : M St NodeState :=
  st ← get;
  match update_first (is_machine machine_key) (reregister node_key hostname ephemeral)
          (st_nodes (store st)) with
  | Some (ns, n) =>
      _ ← upd_store (set_nodes ns);
      _ ← save_locked;
      mret n
  | None =>
      let id := st_next_node_id (store st) in
      let stable_id := to_string id in
      let index := st_next_ip_index (store st) in
      _ ← upd_store (set_counters (wrap_u64 (id + 1)) (wrap_u32 (index + 1)));
      addrs ← lift (address_for (st_alloc (store st)) index);
      let n := mkNodeState id stable_id
                 (if str_empty hostname then "node-" +:+ stable_id else hostname)
                 machine_key node_key "" addrs.1 addrs.2 [] false ephemeral token shared in
      _ ← upd_store (fun s => set_nodes (st_nodes s ++ [n]) s);
      _ ← save_locked;
      mret n
  end.

Definition find_by_machine (machine_key : string) : M St (option NodeState) :=
  gets (fun st => find_first (is_machine machine_key) (st_nodes (store st))).

Definition find_by_node (node_key : string) : M St (option NodeState) :=
  gets (fun st => find_first (fun n => bool_decide (ns_node_key n = node_key))
                    (st_nodes (store st))).

Definition map_info (node_key disco_key hostname : string) (endpoints : list string)
    (n : NodeState) : NodeState :=
  mkNodeState (ns_id n) (ns_stable_id n)
    (if str_empty hostname then ns_hostname n else hostname)
    (ns_machine_key n)
    (if str_empty node_key then ns_node_key n else node_key)
    (if str_empty disco_key then ns_disco_key n else disco_key)
    (ns_ipv4 n) (ns_ipv6 n) endpoints true (ns_ephemeral n) (ns_token n) (ns_shared n).

Definition update_map_info (machine_key node_key disco_key hostname : string)
    (endpoints : list string) : M St unit :=
  st ← get;
  match update_first (is_machine machine_key) (map_info node_key disco_key hostname endpoints)
          (st_nodes (store st)) with
  | Some (ns, _) => _ ← upd_store (set_nodes ns); save_locked
  | None => mret ()
  end.

(** No save: the flag is only in memory until the next durable mutation. *)
Definition set_online (machine_key : string) (online : bool) : M St unit :=
  st ← get;
  match update_first (is_machine machine_key) (set_ns_online online) (st_nodes (store st)) with
  | Some (ns, _) => upd_store (set_nodes ns)
  | None => mret ()
  end.

End State.
