(* ===== verification/StateFacts.v ===== *)
(** * StateFacts: the lemmas of the store

    Searches and in-place updates, the JSON round trip of keys, nodes and
    snapshots, and what a save leaves in memory and on disk. *)

From S2P Require Import Prelude.
From S2P Require Import Crypto.
From S2P Require Import Keys.
From S2P Require Import IpAlloc.
From S2P Require Import Json.
From S2P Require Import State.

(** ** Searches *)

Section Search.
  Context {A : Type}.
  Implicit Types (p : A -> bool) (f : A -> A) (l : list A).

Lemma update_first_None p f l :
  update_first p f l = None <-> Forall (fun x => p x = false) l.
Proof.
  induction l as [|x l IH]; simpl; [done |]. rewrite Forall_cons. destruct (p x) eqn:E.
  - split; [done | intros [? _]; congruence].
  - destruct (update_first p f l) as [[l' y]|]; [| naive_solver].
    split; [done |]. intros [_ H]. by apply IH in H.
Qed.

Lemma update_first_Some p f l l' y :
  update_first p f l = Some (l', y) <->
  exists l1 x l2, l = l1 ++ x :: l2 /\ Forall (fun x => p x = false) l1 /\ p x = true /\
    y = f x /\ l' = l1 ++ f x :: l2.
Proof.
  revert l'. induction l as [|x l IH]; intros l'; simpl.
  { split; [done |]. intros ([|] & ? & ? & ? & _); done. }
  destruct (p x) eqn:E.
  - split.
    + intros [= <- <-]. by exists [], x, l.
    + intros ([|x1 l1] & x2 & l2 & [= -> ->] & Hl1 & Hp & -> & ->); [done |].
      inv Hl1. congruence.
  - destruct (update_first p f l) as [[l'' y']|] eqn:U.
    + split.
      * intros [= <- <-]. destruct (proj1 (IH l'') eq_refl) as (l1 & x2 & l2 & -> & Hl1 & Hp & -> & ->).
        exists (x :: l1), x2, l2. naive_solver.
      * intros ([|x1 l1] & x2 & l2 & [= -> Hl] & Hl1 & Hp & -> & ->); [congruence |].
        inv Hl1. assert (Some (l'', y') = Some (l1 ++ f x2 :: l2, f x2)) as [= -> ->]; [| done].
        apply IH. naive_solver.
    + split; [done |].
      intros ([|x1 l1] & x2 & l2 & [= -> Hl] & Hl1 & Hp & -> & ->); [congruence |].
      inv Hl1. apply update_first_None in U. rewrite Forall_app, Forall_cons in U.
      destruct U as (_ & ? & _). congruence.
Qed.

Lemma find_first_Some p l x :
  find_first p l = Some x <->
  exists l1 l2, l = l1 ++ x :: l2 /\ Forall (fun x => p x = false) l1 /\ p x = true.
Proof.
  induction l as [|y l IH]; simpl.
  { split; [done |]. intros ([|] & ? & ? & _); done. }
  destruct (p y) eqn:E.
  - split.
    + intros [= <-]. by exists [], l.
    + intros ([|x1 l1] & l2 & [= -> ->] & Hl1 & Hp); [done |]. inv Hl1. congruence.
  - rewrite IH. split.
    + intros (l1 & l2 & -> & Hl1 & Hp). exists (y :: l1), l2. naive_solver.
    + intros ([|x1 l1] & l2 & [= -> ->] & Hl1 & Hp); [congruence |]. inv Hl1. eauto.
Qed.

Lemma find_first_None p l : find_first p l = None <-> Forall (fun x => p x = false) l.
Proof.
  induction l as [|x l IH]; simpl; [done |]. rewrite Forall_cons. destruct (p x) eqn:E.
  - split; [done | intros [? _]; congruence].
  - naive_solver.
Qed.

Lemma find_first_elem p l x : find_first p l = Some x -> x ∈ l /\ p x = true.
Proof. intros (l1 & l2 & -> & _ & Hp)%find_first_Some. split; [set_solver | done]. Qed.

Lemma find_first_app p l1 l2 :
  find_first p (l1 ++ l2) =
    match find_first p l1 with Some x => Some x | None => find_first p l2 end.
Proof. induction l1 as [|x l1 IH]; simpl; [done |]. by destruct (p x). Qed.

(** [update_first] and [find_first] stop at the same element. *)
Lemma update_first_find p f l :
  update_first p f l = None /\ find_first p l = None \/
  exists l' x, update_first p f l = Some (l', f x) /\ find_first p l = Some x.
Proof.
  destruct (update_first p f l) as [[l' y]|] eqn:E.
  - right. apply update_first_Some in E as (l1 & x & l2 & -> & Hl1 & Hp & -> & ->).
    exists (l1 ++ f x :: l2), x. split; [done |]. apply find_first_Some. eauto.
  - left. split; [done |]. by apply find_first_None, (update_first_None p f).
Qed.

(** An update that keeps [p] is found again. *)
Lemma find_first_update p f l l' y :
  update_first p f l = Some (l', y) -> (forall x, p (f x) = p x) ->
  find_first p l' = Some y.
Proof.
  intros (l1 & x & l2 & -> & Hl1 & Hp & -> & ->)%update_first_Some Hf.
  apply find_first_Some. exists l1, l2. by rewrite Hf.
Qed.

(** A projection the update keeps is kept for the whole list. *)
Lemma update_first_fmap {B} (g : A -> B) p f l l' y :
  update_first p f l = Some (l', y) -> (forall x, g (f x) = g x) -> g <$> l' = g <$> l.
Proof.
  intros (l1 & x & l2 & -> & _ & _ & -> & ->)%update_first_Some Hg.
  by rewrite !fmap_app, !fmap_cons, Hg.
Qed.

End Search.

(** ** JSON forms *)

Section JsonForms.
  Context `{OSSL : !OpenSSL} `{Inet : !InetLib} `{JLaws : JsonLaws}.

(** What a key and a node become when written and read back: the expiry and
    the id pass through a C++ [int]. *)
Definition norm_key (k : PreauthKey) : PreauthKey :=
  mkPreauthKey (pk_key k) (pk_reusable k) (pk_ephemeral k) (pk_used k)
    (wrap_i32 (pk_expires_unix k)) (pk_token k) (pk_shared k).

Definition norm_node (n : NodeState) : NodeState :=
  mkNodeState (wrap_u64 (wrap_i32 (ns_id n))) (ns_stable_id n) (ns_hostname n)
    (ns_machine_key n) (ns_node_key n) (ns_disco_key n) (ns_ipv4 n) (ns_ipv6 n)
    (ns_endpoints n) (ns_online n) (ns_ephemeral n) (ns_token n) (ns_shared n).

Lemma key_from_to_json k : key_from_json (key_to_json k) = Ok (norm_key k).
Proof.
  unfold key_from_json, key_to_json. unfold mbind, res_bind.
  repeat (json_fields; cbn beta iota). done.
Qed.

Lemma node_from_to_json n : node_from_json (node_to_json n) = Ok (norm_node n).
Proof.
  unfold node_from_json, node_to_json. unfold mbind, res_bind.
  repeat (json_fields; cbn beta iota). done.
Qed.

Lemma norm_key_small k :
  (- 2 ^ 31 <= pk_expires_unix k < 2 ^ 31)%Z -> norm_key k = k.
Proof. intros H. unfold norm_key. rewrite wrap_i32_small by done. by destruct k. Qed.

Lemma norm_node_small n : (0 <= ns_id n < 2 ^ 31)%Z -> norm_node n = n.
Proof.
  intros H. unfold norm_node. rewrite wrap_i32_small, wrap_u64_small by lia. by destruct n.
Qed.

Lemma replace_keys_loop ks s :
  for_each (key_to_json <$> ks) (fun k =>
    p ← lift (key_from_json k);
    modify (fun s => set_keys (st_keys s ++ [p]) s)) s =
  (Ok tt, set_keys (st_keys s ++ (norm_key <$> ks)) s).
Proof.
  revert s. induction ks as [|k ks IH]; intros s; simpl.
  - rewrite app_nil_r. by destruct s.
  - rewrite key_from_to_json. mstep. rewrite IH. simpl. by rewrite <-app_assoc.
Qed.

Lemma replace_keys_jarr ks s :
  replace_keys (jarr (key_to_json <$> ks)) s = (Ok tt, set_keys (norm_key <$> ks) s).
Proof.
  unfold replace_keys. erewrite bind_Ok by done. by rewrite items_jarr, replace_keys_loop.
Qed.

Lemma replace_nodes_jarr ns s :
  replace_nodes (jarr (node_to_json <$> ns)) s =
  (Ok tt, set_nodes (st_nodes s ++ (norm_node <$> ns)) s).
Proof.
  unfold replace_nodes. rewrite items_jarr.
  revert s. induction ns as [|n ns IH]; intros s; simpl.
  - rewrite app_nil_r. by destruct s.
  - rewrite node_from_to_json. mstep. rewrite IH. simpl. by rewrite <-app_assoc.
Qed.

(** What a store becomes when its snapshot is applied to another one. *)
Definition norm_store (s s0 : Store) : Store :=
  mkStore (st_persist_hook s0) (st_path s0) (st_alloc s0) (st_noise_private s)
    (wrap_u64 (wrap_i32 (st_next_node_id s))) (wrap_u32 (wrap_i32 (st_next_ip_index s)))
    (norm_key <$> st_keys s) (norm_node <$> st_nodes s).

Lemma apply_snapshot_snapshot s s0 :
  length (st_noise_private s) = 32 ->
  apply_snapshot_locked (snapshot_locked s) s0 = (Ok tt, norm_store s s0).
Proof.
  intros Hlen. unfold apply_snapshot_locked, snapshot_locked. json_fields.
  pose proof (hex_decode_encode (st_noise_private s)) as Hhex. rewrite Hlen in Hhex.
  mstep. rewrite Hhex. mstep. rewrite replace_keys_jarr. mstep.
  by rewrite replace_nodes_jarr.
Qed.

Lemma plain_key k : plain (key_to_json k).
Proof. apply plain_obj; [nodup_keys |]. repeat (constructor; [constructor |]). constructor. Qed.

Lemma plain_strings l : plain (jarr (jstr <$> l)).
Proof. apply plain_arr, Forall_fmap, Forall_true. constructor. Qed.

Lemma plain_node n : plain (node_to_json n).
Proof.
  apply plain_obj; [nodup_keys |].
  repeat (constructor; [first [apply plain_strings | constructor] |]). constructor.
Qed.

Lemma plain_snapshot s : plain (snapshot_locked s).
Proof.
  apply plain_obj; [nodup_keys |]. do 3 (constructor; [constructor |]).
  constructor; [apply plain_arr, Forall_fmap, Forall_true; apply plain_key |].
  constructor; [apply plain_arr, Forall_fmap, Forall_true; apply plain_node | constructor].
Qed.

Lemma find_snapshot_keys s :
  json_find (snapshot_locked s) "preauth_keys" = Some (jarr (key_to_json <$> st_keys s)).
Proof. unfold snapshot_locked. by json_fields. Qed.

(** ** Saving *)

Lemma str_app_length_ne s t : t <> "" -> s +:+ t <> s.
Proof.
  intros Ht H. apply (f_equal String.length) in H. rewrite length_str_app in H.
  destruct t; [done | simpl in H; lia].
Qed.

Lemma tmp_path_ne p : tmp_path p <> p.
Proof. by apply str_app_length_ne. Qed.

(** Saving does not touch the store, only the world. *)
Lemma write_state_file_store j st : store (write_state_file j st).2 = store st.
Proof.
  unfold write_state_file. mstep. destruct (negb _); [done |]. mstep.
  destruct (json_dump2 j); mstep; try done. by destruct (negb _).
Qed.

Lemma save_locked_store st : store (save_locked st).2 = store st.
Proof.
  unfold save_locked. mstep.
  destruct (str_empty (st_path (store st))); mstep.
  - destruct (st_persist_hook (store st)); mstep; [| done]. by destruct (json_dump _).
  - pose proof (write_state_file_store (snapshot_locked (store st)) st) as H.
    destruct (write_state_file _ st) as [[[]|e|] st1]; simpl in H |- *; try done.
    rewrite H. destruct (st_persist_hook (store st)); mstep; [| done]. by destruct (json_dump _).
Qed.

(** A failing write leaves the state file itself alone; a successful one
    replaces it with the dumped text. *)
Lemma write_state_file_disk j st r st' :
  write_state_file j st = (r, st') ->
  (exists text, json_dump2 j = Ok text /\ r = Ok tt /\
     w_disk (world st') !! st_path (store st) = Some (text +:+ String (code_char 10) "")) \/
  (is_ok r = false /\
     w_disk (world st') !! st_path (store st) = w_disk (world st) !! st_path (store st)).
Proof.
  pose proof (tmp_path_ne (st_path (store st))) as Hne.
  unfold write_state_file. mstep. destruct (negb (w_can_write _ _)); mstep.
  { intros [= <- <-]. by right. }
  destruct (json_dump2 j) as [text|e|]; mstep.
  - destruct (negb (w_can_rename _ _ _)); mstep.
    + intros [= <- <-]. right. split; [done |]. simpl. by rewrite !lookup_insert_ne by done.
    + intros [= <- <-]. left. exists text. simpl. by rewrite lookup_insert_eq.
  - intros [= <- <-]. right. split; [done |]. simpl. by rewrite lookup_insert_ne by done.
  - intros [= <- <-]. right. split; [done |]. simpl. by rewrite lookup_insert_ne by done.
Qed.

Lemma save_locked_no_hook st r st' :
  st_persist_hook (store st) = None -> st_path (store st) <> "" ->
  save_locked st = (r, st') ->
  (exists text, json_dump2 (snapshot_locked (store st)) = Ok text /\ r = Ok tt /\
     w_disk (world st') !! st_path (store st) = Some (text +:+ String (code_char 10) "")) \/
  (is_ok r = false /\
     w_disk (world st') !! st_path (store st) = w_disk (world st) !! st_path (store st)).
Proof.
  intros Hhook Hpath Hsave. apply (write_state_file_disk (snapshot_locked (store st))).
  revert Hsave. unfold save_locked. mstep. destruct (str_empty _) eqn:E.
  { by destruct (st_path (store st)). }
  pose proof (write_state_file_store (snapshot_locked (store st)) st) as H.
  destruct (write_state_file _ st) as [[[]|e|] st1]; simpl in H |- *; try done.
  by rewrite H, Hhook.
Qed.

(** A callback that leaves the files alone. *)
Definition quiet_hook (s : Store) : Prop :=
  match st_persist_hook s with
  | Some h => forall text w, w_disk (h text w) = w_disk w
  | None => True
  end.

Lemma no_hook_quiet s : st_persist_hook s = None -> quiet_hook s.
Proof. unfold quiet_hook. by intros ->. Qed.

(** With such a callback a save writes the file or leaves it alone, and it writes
    it when it returns. *)
Lemma save_locked_disk st r st' :
  quiet_hook (store st) -> st_path (store st) <> "" -> save_locked st = (r, st') ->
  (exists text, json_dump2 (snapshot_locked (store st)) = Ok text /\
     w_disk (world st') !! st_path (store st) = Some (text +:+ String (code_char 10) "")) \/
  (is_ok r = false /\
     w_disk (world st') !! st_path (store st) = w_disk (world st) !! st_path (store st)).
Proof.
  intros Hhook Hpath. unfold save_locked. mstep. destruct (str_empty _) eqn:E.
  { by destruct (st_path (store st)). }
  pose proof (write_state_file_store (snapshot_locked (store st)) st) as H.
  destruct (write_state_file _ st) as [r1 st1] eqn:Ew. simpl in H.
  destruct (write_state_file_disk _ _ _ _ Ew) as [(text & Hd & -> & Hw)|[Hr Hw]].
  2: { destruct r1 as [[]|e|]; [done | |]; simpl; intros [= <- <-]; by right. }
  simpl. rewrite H. unfold quiet_hook in Hhook.
  destruct (st_persist_hook (store st)) as [h|]; mstep; [destruct (json_dump _); mstep |];
    intros [= <- <-]; left; exists text; (split; [done |]); simpl; by rewrite ?Hhook.
Qed.

(** Without a hook the outcome of a save does not depend on the disk. *)
Lemma save_locked_again st st' :
  store st' = store st -> w_can_write (world st') = w_can_write (world st) ->
  w_can_rename (world st') = w_can_rename (world st) -> st_persist_hook (store st) = None ->
  (save_locked st').1 = (save_locked st).1.
Proof.
  destruct st as [s w], st' as [s' w']. simpl. intros -> Hw Hr Hh. unfold save_locked, write_state_file.
  mstep. destruct (str_empty (st_path s)); mstep; rewrite ?Hh; [done |].
  rewrite Hw. destruct (negb _); mstep; [done |].
  destruct (json_dump2 _); mstep; [| done | done]. rewrite Hr.
  destruct (negb _); mstep; [done |]. by rewrite Hh.
Qed.

(** Nor does it change the clock or the permissions. *)
Definition same_env (w w' : World) : Prop :=
  w_now w' = w_now w /\ w_can_write w' = w_can_write w /\ w_can_rename w' = w_can_rename w.

Lemma save_locked_env st :
  st_persist_hook (store st) = None -> same_env (world st) (world (save_locked st).2).
Proof.
  destruct st as [s w]. simpl. intros Hh. unfold save_locked, write_state_file.
  mstep. destruct (str_empty (st_path s)); mstep; rewrite ?Hh; [done |].
  destruct (negb _); mstep; [done |]. destruct (json_dump2 _); mstep; [| done | done].
  destruct (negb _); mstep; [done |]. by rewrite Hh.
Qed.

(** The keys in a written file. *)
Lemma read_keys_file_written s st text :
  st_path (store st) = st_path s -> st_path s <> "" -> json_dump2 (snapshot_locked s) = Ok text ->
  w_disk (world st) !! st_path s = Some (text +:+ String (code_char 10) "") ->
  read_keys_file st = Some (jarr (key_to_json <$> st_keys s)).
Proof.
  intros Hst Hp Hd Hdisk. unfold read_keys_file. rewrite Hst, Hdisk.
  rewrite (read_dump2 (snapshot_locked s)), find_snapshot_keys by (done || apply plain_snapshot).
  by destruct (st_path s).
Qed.

(** After a successful save the file holds the keys of the memory. *)
Lemma read_keys_file_saved st st' :
  quiet_hook (store st) -> st_path (store st) <> "" ->
  save_locked st = (Ok tt, st') ->
  read_keys_file st' = Some (jarr (key_to_json <$> st_keys (store st))).
Proof.
  intros Hhook Hpath Hsave. pose proof (save_locked_store st) as Hst. rewrite Hsave in Hst.
  simpl in Hst. destruct (save_locked_disk st _ st' Hhook Hpath Hsave)
    as [(text & Hd & Hdisk)|[? _]]; [| done].
  apply (read_keys_file_written (store st) st' text); by rewrite ?Hst.
Qed.

End JsonForms.
