(* ===== verification/StateSpec.v ===== *)
(** * StateSpec: what the store guarantees

    Operations as data and their runs, the abstract registry the store
    implements, and the invariants every run keeps. *)

From S2P Require Import Prelude.
From S2P Require Import Crypto.
From S2P Require Import Keys.
From S2P Require Import IpAlloc.
From S2P Require Import Json.
From S2P Require Import State.
From S2P Require Import StateFacts.

(** ** Operations as data *)

Inductive store_op :=
  | OpCreate (reusable ephemeral : bool) (expiration : Z) (token : string) (shared : option bool)
  | OpConsume (key : string)
  | OpReload
  | OpRegister (machine_key node_key hostname : string) (ephemeral : bool)
      (token : string) (shared : bool)
  | OpMapInfo (machine_key node_key disco_key hostname : string) (endpoints : list string)
  | OpOnline (machine_key : string) (online : bool)
  | OpPersist
  | OpImport (text : string)
  | OpSetHook (hook : option (string -> World -> World)).

(** One step of the process or of its environment (clock, disk, faults). *)
Inductive event :=
  | EvOp (op : store_op)
  | EvEnv (f : World -> World).

(** ** The abstract registry *)

Record Registry := mkRegistry {
  reg_nodes : gmap string NodeState;
  reg_next_id : Z;
  reg_next_ip : Z;
}.

Definition nodes_map (ns : list NodeState) : gmap string NodeState :=
  list_to_map ((fun n => (ns_machine_key n, n)) <$> ns).

Definition registry (s : Store) : Registry :=
  mkRegistry (nodes_map (st_nodes s)) (st_next_node_id s) (st_next_ip_index s).

(** The identity of a node: what no operation may change once it is set. *)
Definition node_core (n : NodeState) : Z * string * (string * string) :=
  (ns_id n, ns_machine_key n, (ns_ipv4 n, ns_ipv6 n)).

Section Spec.
  Context `{OSSL : !OpenSSL} `{Inet : !InetLib} `{JL : !JsonLib}.

Definition exec_op (op : store_op) : M St unit :=
  match op with
  | OpCreate r e x t s => _ ← create_preauth_key r e x t s; mret ()
  | OpConsume key => _ ← consume_preauth key; mret ()
  | OpReload => reload_keys_from_disk
  | OpRegister m n h e t s => _ ← register_node m n h e t s; mret ()
  | OpMapInfo m n d h es => update_map_info m n d h es
  | OpOnline m b => set_online m b
  | OpPersist => persist
  | OpImport text => load_json text
  | OpSetHook hook => set_persist_hook hook
  end.

(** An exception ends the operation, not the process. *)
Definition exec_event (st : St) (ev : event) : St :=
  match ev with
  | EvOp op => (exec_op op st).2
  | EvEnv f => mkSt (store st) (f (world st))
  end.

Definition run (evs : list event) (st : St) : St := fold_left exec_event evs st.

(** *** An import

    The document is read in the order noise key, node counter, address counter,
    preauth keys, nodes, and what was read before a member that cannot be read
    stays. *)

Definition noise_readable (j : json) : bool :=
  match json_find j "noise_private" with Some v => is_ok (json_get_string v) | None => true end.

Definition keys_readable (j : json) : bool :=
  match json_find j "preauth_keys" with
  | Some ks => forallb (fun k => is_ok (key_from_json k)) (json_items ks)
  | None => true
  end.

(** The nodes up to the first one that cannot be read. *)
Fixpoint nodes_read (l : list json) : list NodeState :=
  match l with
  | n :: l => match node_from_json n with Ok x => x :: nodes_read l | _ => [] end
  | [] => []
  end.

Definition imported_nodes (j : json) : list NodeState :=
  match json_find j "nodes" with Some ns => nodes_read (json_items ns) | None => [] end.

Definition registry_import (j : json) (g : Registry) : Registry :=
  match noise_readable j, json_value_int j "next_node_id" 1, json_value_int j "next_ip_index" 1 with
  | true, Ok id, Ok ip =>
      mkRegistry (if keys_readable j then nodes_map (imported_nodes j) else reg_nodes g)
        (wrap_u64 id) (wrap_u32 ip)
  | true, Ok id, _ => mkRegistry (reg_nodes g) (wrap_u64 id) (reg_next_ip g)
  | _, _, _ => g
  end.

(** What each operation means on the registry. *)
Definition registry_step (a : IpAllocator) (op : store_op) (g : Registry) : Registry :=
  match op with
  | OpRegister m nk h e t s =>
      match reg_nodes g !! m with
      | Some n => mkRegistry (<[m := reregister nk h e n]> (reg_nodes g)) (reg_next_id g) (reg_next_ip g)
      | None =>
          let id' := wrap_u64 (reg_next_id g + 1) in
          let ip' := wrap_u32 (reg_next_ip g + 1) in
          match address_for a (reg_next_ip g) with
          | Ok (v4, v6) =>
              let sid := to_string (reg_next_id g) in
              let n := mkNodeState (reg_next_id g) sid
                         (if str_empty h then "node-" +:+ sid else h)
                         m nk "" v4 v6 [] false e t s in
              mkRegistry (<[m := n]> (reg_nodes g)) id' ip'
          | _ => mkRegistry (reg_nodes g) id' ip'
          end
      end
  | OpMapInfo m nk dk h es =>
      mkRegistry (alter (map_info nk dk h es) m (reg_nodes g)) (reg_next_id g) (reg_next_ip g)
  | OpOnline m b =>
      mkRegistry (alter (set_ns_online b) m (reg_nodes g)) (reg_next_id g) (reg_next_ip g)
  | OpImport text =>
      match json_parse (if str_empty text then "{}" else text) with
      | Ok j => registry_import j g
      | _ => g
      end
  | OpCreate _ _ _ _ _ | OpConsume _ | OpReload | OpPersist | OpSetHook _ => g
  end.

(** ** The identity invariant

    Ids, machine keys and addresses are pairwise distinct, and every id and
    address index is below its counter. It only reads the node cores. *)

Record cores_inv (a : IpAllocator) (next_id next_ip : Z)
    (cs : list (Z * string * (string * string))) : Prop := {
  inv_ids : NoDup ((fun c => c.1.1) <$> cs);
  inv_id_range : Forall (fun c => 1 <= c.1.1 < next_id)%Z cs;
  inv_machines : NoDup ((fun c => c.1.2) <$> cs);
  inv_addrs : exists idx, NoDup idx /\ Forall (fun i => 1 <= i < next_ip)%Z idx /\
    Forall2 (fun c i => address_for a i = Ok c.2) cs idx;
}.

Definition store_inv (s : Store) : Prop :=
  cores_inv (st_alloc s) (st_next_node_id s) (st_next_ip_index s) (node_core <$> st_nodes s).

End Spec.

(** ** The registry: lemmas *)

Lemma nodes_map_lookup ns m : nodes_map ns !! m = find_first (is_machine m) ns.
Proof.
  unfold nodes_map. induction ns as [|n ns IH]; simpl; [done |].
  rewrite lookup_insert. unfold is_machine. case_decide as E; case_bool_decide as E';
    try done.
Qed.

Lemma nodes_map_cons n ns : nodes_map (n :: ns) = <[ns_machine_key n := n]> (nodes_map ns).
Proof. done. Qed.

Lemma nodes_map_update m f ns ns' n :
  (forall x, ns_machine_key (f x) = ns_machine_key x) ->
  update_first (is_machine m) f ns = Some (ns', n) ->
  nodes_map ns' = alter f m (nodes_map ns) /\ nodes_map ns' = <[m := n]> (nodes_map ns) /\
  exists n0, nodes_map ns !! m = Some n0 /\ n = f n0.
Proof.
  intros Hf (l1 & x & l2 & -> & Hl1 & Hp & -> & ->)%update_first_Some.
  assert (Hx : nodes_map (l1 ++ x :: l2) !! m = Some x).
  { rewrite nodes_map_lookup. apply find_first_Some. eauto. }
  assert (Hins : nodes_map (l1 ++ f x :: l2) = <[m := f x]> (nodes_map (l1 ++ x :: l2))).
  { unfold is_machine in *. apply bool_decide_eq_true in Hp. subst m.
    clear Hx. induction Hl1 as [|y l1 Hy Hl1 IH]; cbn [app]; rewrite !nodes_map_cons.
    - by rewrite Hf, insert_insert_eq.
    - rewrite IH. apply bool_decide_eq_false in Hy. by rewrite insert_insert_ne. }
  split; [| split; [done | eauto]].
  rewrite Hins. apply map_eq. intros k. rewrite lookup_insert, lookup_alter.
  case_decide; [by subst; rewrite Hx | done].
Qed.

Lemma nodes_map_alter_absent m (f : NodeState -> NodeState) ns :
  find_first (is_machine m) ns = None -> alter f m (nodes_map ns) = nodes_map ns.
Proof.
  rewrite <-nodes_map_lookup. intros H. apply map_eq. intros k. rewrite lookup_alter.
  case_decide; [by subst; rewrite H | done].
Qed.

Lemma nodes_map_snoc ns n :
  nodes_map ns !! ns_machine_key n = None ->
  nodes_map (ns ++ [n]) = <[ns_machine_key n := n]> (nodes_map ns).
Proof.
  intros H. apply map_eq. intros k. rewrite lookup_insert, !nodes_map_lookup, find_first_app.
  rewrite nodes_map_lookup in H. simpl. unfold is_machine at 2.
  case_decide as E; [subst; rewrite H; by rewrite bool_decide_true |].
  rewrite bool_decide_false by done. by destruct (find_first (is_machine k) ns).
Qed.

(** ** What each method does to the store *)

Section Effects.
  Context `{OSSL : !OpenSSL} `{Inet : !InetLib} `{JL : !JsonLib}.

(** A method that can only change the preauth keys. *)
Definition keys_only {A} (m : M St A) : Prop :=
  forall st, exists ks, store (m st).2 = set_keys ks (store st).

Lemma set_keys_same s : set_keys (st_keys s) s = s.
Proof. by destruct s. Qed.

Lemma set_keys_twice ks ks' s : set_keys ks (set_keys ks' s) = set_keys ks s.
Proof. done. Qed.

Lemma keys_only_same {A} (m : M St A) : (forall st, store (m st).2 = store st) -> keys_only m.
Proof. intros H st. exists (st_keys (store st)). by rewrite H, set_keys_same. Qed.

Lemma keys_only_bind {A B} (m : M St A) (k : A -> M St B) :
  keys_only m -> (forall a, keys_only (k a)) -> keys_only (x ← m; k x).
Proof.
  intros Hm Hk st. destruct (Hm st) as [ks Hks]. unfold mbind, M_bind.
  destruct (m st) as [[a|e|] st1]; simpl in *; [| by exists ks | by exists ks].
  destruct (Hk a st1) as [ks' Hks']. exists ks'. by rewrite Hks', Hks.
Qed.

Lemma keys_only_save : keys_only save_locked.
Proof. apply keys_only_same, save_locked_store. Qed.

Lemma keys_only_set ks : keys_only (upd_store (set_keys ks)).
Proof. intros st. by exists ks. Qed.

Lemma replace_keys_frame j s : exists ks, (replace_keys j s).2 = set_keys ks s.
Proof.
  unfold replace_keys. mstep. generalize (json_items j) as l. intros l.
  assert (Hloop : forall s0, exists ks,
    (for_each l (fun k => p ← lift (key_from_json k);
       modify (fun s => set_keys (st_keys s ++ [p]) s)) s0).2 = set_keys ks s0).
  { induction l as [|k l IH]; intros s0; simpl.
    - exists (st_keys s0). by rewrite set_keys_same.
    - mstep. destruct (key_from_json k) as [p|e|]; simpl.
      + destruct (IH (set_keys (st_keys s0 ++ [p]) s0)) as [ks Hks]. exists ks.
        revert Hks. mstep. by intros ->.
      + exists (st_keys s0). by rewrite set_keys_same.
      + exists (st_keys s0). by rewrite set_keys_same. }
  destruct (Hloop (set_keys [] s)) as [ks Hks]. exists ks. revert Hks. mstep. by intros ->.
Qed.

Lemma keys_only_reload : keys_only reload_keys_from_disk.
Proof.
  intros st. unfold reload_keys_from_disk. mstep.
  destruct (read_keys_file st) as [j|].
  - unfold on_store. mstep. destruct (replace_keys_frame j (store st)) as [ks Hks].
    exists ks. by destruct (replace_keys j (store st)).
  - exists (st_keys (store st)). by rewrite set_keys_same.
Qed.

Lemma keys_only_consume key : keys_only (consume_preauth key).
Proof.
  apply keys_only_bind; [apply keys_only_reload |]. intros [] st. unfold consume_locked. mstep.
  destruct (consume_scan _ _ _) as [[ks c]|].
  - exists ks. unfold upd_store. mstep.
    pose proof (save_locked_store (mkSt (set_keys ks (store st)) (world st))) as H.
    by destruct (save_locked _) as [[]].
  - exists (st_keys (store st)). by rewrite set_keys_same.
Qed.

Lemma on_rng_store {A} (m : M nat A) st : store (on_rng m st).2 = store st.
Proof. unfold on_rng. mstep. by destruct (m _). Qed.

Lemma keys_only_upd f : keys_only (upd_store (fun s => set_keys (f s) s)).
Proof. intros st. by exists (f (store st)). Qed.

Lemma keys_only_create r e x t sh : keys_only (create_preauth_key r e x t sh).
Proof.
  unfold create_preauth_key, random_token.
  apply keys_only_bind.
  { apply keys_only_bind; [apply keys_only_same, on_rng_store | by intros; apply keys_only_same]. }
  intros key. apply keys_only_bind; [by apply keys_only_same | intros now].
  apply keys_only_bind; [by apply keys_only_same | intros expires].
  apply keys_only_bind; [apply keys_only_upd | intros []].
  apply keys_only_bind; [apply keys_only_save | by intros; apply keys_only_same].
Qed.

(** Step over a save: it keeps the store, and its outcome does not matter. *)
Ltac save_frame :=
  match goal with
  | |- context [save_locked ?s] =>
      let H := fresh "Hsave" in
      pose proof (save_locked_store s) as H;
      destruct (save_locked s) as [[]]; simpl in H |- *
  end.

(** Update the store, save, return: the save may throw, the update stays. *)
Lemma upd_save_store {A} (f : Store -> Store) (a : A) st :
  store ((_ ← upd_store f; _ ← save_locked; mret a) st).2 = f (store st).
Proof.
  unfold upd_store. mstep.
  pose proof (save_locked_store (mkSt (f (store st)) (world st))) as H.
  by destruct (save_locked _) as [[]].
Qed.

Definition is_key_op (op : store_op) : bool :=
  match op with OpCreate _ _ _ _ _ | OpConsume _ | OpReload | OpPersist => true | _ => false end.

Lemma key_op_frame op st :
  is_key_op op = true -> exists ks, store (exec_op op st).2 = set_keys ks (store st).
Proof.
  intros Hop.
  assert (H : keys_only (exec_op op)); [| exact (H st)].
  destruct op; try discriminate Hop; simpl.
  - apply keys_only_bind; [apply keys_only_create | by intros; apply keys_only_same].
  - apply keys_only_bind; [apply keys_only_consume | by intros; apply keys_only_same].
  - apply keys_only_reload.
  - apply keys_only_save.
Qed.

Lemma map_info_store m nk dk h es st :
  store (update_map_info m nk dk h es st).2 =
    match update_first (is_machine m) (map_info nk dk h es) (st_nodes (store st)) with
    | Some (ns, _) => set_nodes ns (store st)
    | None => store st
    end.
Proof.
  unfold update_map_info. mstep. destruct (update_first _ _ _) as [[ns n]|]; [| done].
  unfold upd_store. mstep. by rewrite save_locked_store.
Qed.

Lemma set_online_store m b st :
  store (set_online m b st).2 =
    match update_first (is_machine m) (set_ns_online b) (st_nodes (store st)) with
    | Some (ns, _) => set_nodes ns (store st)
    | None => store st
    end.
Proof.
  unfold set_online. mstep. by destruct (update_first _ _ _) as [[ns n]|].
Qed.

Lemma register_store m nk h e t sh st :
  store (register_node m nk h e t sh st).2 =
    match update_first (is_machine m) (reregister nk h e) (st_nodes (store st)) with
    | Some (ns, _) => set_nodes ns (store st)
    | None =>
        let id := st_next_node_id (store st) in
        let index := st_next_ip_index (store st) in
        let s := set_counters (wrap_u64 (id + 1)) (wrap_u32 (index + 1)) (store st) in
        match address_for (st_alloc (store st)) index with
        | Ok (v4, v6) =>
            set_nodes (st_nodes s ++ [mkNodeState id (to_string id)
              (if str_empty h then "node-" +:+ to_string id else h)
              m nk "" v4 v6 [] false e t sh]) s
        | _ => s
        end
    end.
Proof.
  unfold register_node. mstep. destruct (update_first _ _ _) as [[ns n]|].
  - apply (upd_save_store (set_nodes ns) n).
  - destruct (address_for _ _) as [[v4 v6]|ex|]; [| done | done]. by save_frame.
Qed.

Lemma exec_register_store m nk h e t sh st :
  store (exec_op (OpRegister m nk h e t sh) st).2 =
  store (register_node m nk h e t sh st).2.
Proof. simpl. mstep. by destruct (register_node _ _ _ _ _ _ _) as [[]]. Qed.

End Effects.

(** ** Refinement: the store implements the registry *)

Section Refinement.
  Context `{OSSL : !OpenSSL} `{Inet : !InetLib} `{JL : !JsonLib}.

(** The loops of an import, whatever they end with. *)
Lemma replace_keys_ok j s :
  is_ok (replace_keys j s).1 = forallb (fun k => is_ok (key_from_json k)) (json_items j).
Proof.
  unfold replace_keys. mstep. generalize (set_keys [] s). induction (json_items j) as [|k l IH]; intros s0;
    [done |]. cbn [for_each forallb]. mstep.
  destruct (key_from_json k) as [p|e|]; mstep; [by rewrite IH | done..].
Qed.

Lemma replace_nodes_store j s :
  (replace_nodes j s).2 = set_nodes (st_nodes s ++ nodes_read (json_items j)) s.
Proof.
  unfold replace_nodes. revert s. induction (json_items j) as [|n l IH]; intros s;
    cbn [for_each nodes_read].
  { rewrite app_nil_r. by destruct s. }
  mstep. destruct (node_from_json n) as [x|e|]; mstep.
  - rewrite IH. simpl. by rewrite <-app_assoc.
  - rewrite app_nil_r. by destruct s.
  - rewrite app_nil_r. by destruct s.
Qed.

Lemma apply_snapshot_registry j s :
  registry (apply_snapshot_locked j s).2 = registry_import j (registry s).
Proof.
  unfold apply_snapshot_locked, registry_import, noise_readable.
  set (rest := fun _ : unit => mbind _ _). assert (forall s, registry (rest tt s).2 =
    match json_value_int j "next_node_id" 1, json_value_int j "next_ip_index" 1 with
    | Ok id, Ok ip =>
        mkRegistry (if keys_readable j then nodes_map (imported_nodes j) else reg_nodes (registry s))
          (wrap_u64 id) (wrap_u32 ip)
    | Ok id, _ => mkRegistry (reg_nodes (registry s)) (wrap_u64 id) (reg_next_ip (registry s))
    | _, _ => registry s
    end) as Hrest.
  { clear s. intros s. subst rest. mstep. destruct (json_value_int j "next_node_id" 1) as [id|e|];
    [| done..].
    mstep. destruct (json_value_int j "next_ip_index" 1) as [ip|e|]; [| done..]. mstep.
    unfold keys_readable, imported_nodes. set (s1 := set_counters _ _ _).
    destruct (json_find j "preauth_keys") as [ks|].
    2: { destruct (json_find j "nodes") as [ns|]; [by rewrite replace_nodes_store | done]. }
    pose proof (replace_keys_ok ks s1) as Hok. destruct (replace_keys_frame ks s1) as [ks' Hs].
    destruct (replace_keys ks s1) as [[[]|e|] s2]; simpl in Hok, Hs; rewrite <-Hok; subst s2;
      [| done..]. destruct (json_find j "nodes") as [ns|]; [by rewrite replace_nodes_store | done]. }
  destruct (json_find j "noise_private") as [v|]; [| apply Hrest].
  destruct (json_get_string v) as [text|e|]; [| done..].
  unfold mbind at 1 2, M_bind at 1 2. simpl. by destruct (hex_decode text 32) as [priv|]; simpl;
    rewrite Hrest.
Qed.


End Refinement.

(** ** Identities stay unique *)

Section Identity.
  Context `{OSSL : !OpenSSL} `{Inet : !InetLib} `{InetL : !InetLaws} `{JL : !JsonLib}.

Lemma cores_inv_weaken a i p cs i' p' :
  cores_inv a i p cs -> (i <= i')%Z -> (p <= p')%Z -> cores_inv a i' p' cs.
Proof.
  intros [H1 H2 H3 (idx & Hn & Hr & Ha)] Hi Hp. split; [done | | done |].
  - eapply Forall_impl; [exact H2 | simpl; lia].
  - exists idx. split; [done |]. split; [| done]. eapply Forall_impl; [exact Hr | simpl; lia].
Qed.

(** Registration of a new machine at the next id and index. *)
Lemma cores_inv_snoc a i p cs m v4 v6 :
  cores_inv a i p cs -> (1 <= i)%Z -> (1 <= p)%Z ->
  m ∉ ((fun c => c.1.2) <$> cs) -> address_for a p = Ok (v4, v6) ->
  cores_inv a (i + 1) (p + 1) (cs ++ [(i, m, (v4, v6))]).
Proof.
  intros [H1 H2 H3 (idx & Hn & Hr & Ha)] Hi Hp Hm Hv. split.
  - rewrite fmap_app. apply NoDup_app. split; [done |]. split; [| apply NoDup_singleton].
    intros x Hx Hx'. apply list_elem_of_singleton in Hx'. subst x. simpl in Hx.
    apply list_elem_of_fmap in Hx as (c & Hc & Hin).
    rewrite Forall_forall in H2. apply H2 in Hin. lia.
  - rewrite Forall_app, Forall_singleton. simpl.
    split; [eapply Forall_impl; [exact H2 | simpl; lia] | lia].
  - rewrite fmap_app. apply NoDup_app. split; [done |]. split; [| apply NoDup_singleton].
    intros x Hx Hx'. apply list_elem_of_singleton in Hx'. by subst x.
  - exists (idx ++ [p]). split; [| split].
    + apply NoDup_app. split; [done |]. split; [| apply NoDup_singleton].
      intros x Hx Hx'. apply list_elem_of_singleton in Hx'. subst x.
      rewrite Forall_forall in Hr. apply Hr in Hx. lia.
    + rewrite Forall_app, Forall_singleton.
      split; [eapply Forall_impl; [exact Hr | simpl; lia] | lia].
    + apply Forall2_app; [done |]. by constructor.
Qed.

Lemma update_first_cores p f l l' n :
  update_first p f l = Some (l', n) -> (forall x, node_core (f x) = node_core x) ->
  node_core <$> l' = node_core <$> l.
Proof. apply update_first_fmap. Qed.

(** The counters after [n] operations, and the invariant. *)
Definition counted (n : Z) (s : Store) : Prop :=
  (1 <= st_next_node_id s <= n + 1)%Z /\ (1 <= st_next_ip_index s <= n + 1)%Z /\ store_inv s.

Lemma counted_mono n n' s : counted n s -> (n <= n')%Z -> counted n' s.
Proof. intros (H1 & H2 & H3) Hn. split; [lia |]. split; [lia | done]. Qed.

Lemma counted_set_nodes n s ns :
  counted n s -> node_core <$> ns = node_core <$> st_nodes s -> counted n (set_nodes ns s).
Proof. intros (H1 & H2 & H3) Hc. split; [done |]. split; [done |]. unfold store_inv. simpl.
  by rewrite Hc. Qed.

(** An import may bring any identities. *)
Definition is_import (op : store_op) : bool := match op with OpImport _ => true | _ => false end.
Definition no_import (ev : event) : Prop :=
  match ev with EvOp op => is_import op = false | EvEnv _ => True end.

Lemma exec_op_counted n op st :
  is_import op = false -> counted n (store st) -> (0 <= n < 2 ^ 32 - 2)%Z ->
  counted (n + 1) (store (exec_op op st).2).
Proof.
  intros Himp Hc Hn. destruct (is_key_op op) eqn:Hkey.
  { destruct (key_op_frame op st Hkey) as [ks ->].
    apply (counted_mono n); [exact Hc | lia]. }
  destruct op as [| | |m nk h e t sh|m nk dk h es|m b| | |hook]; try discriminate Hkey;
    try discriminate Himp.
  - rewrite exec_register_store, register_store. cbv zeta.
    destruct (update_first _ _ _) as [[ns x]|] eqn:Hu.
    { apply (counted_mono n); [| lia]. apply counted_set_nodes; [done |].
      by apply update_first_cores in Hu. }
    destruct Hc as (Hid & Hip & Hinv). apply update_first_None in Hu. simpl.
    rewrite wrap_u64_small, wrap_u32_small by lia.
    destruct (address_for _ _) as [[v4 v6]|ex|] eqn:Ha.
    2-3: split; [simpl; lia |]; split; [simpl; lia |];
      eapply cores_inv_weaken; [exact Hinv | simpl; lia | simpl; lia].
    split; [simpl; lia |]. split; [simpl; lia |]. unfold store_inv. simpl.
    rewrite fmap_app. apply (cores_inv_snoc _ _ _ _ m v4 v6); [exact Hinv | lia | lia | | exact Ha].
    rewrite <-list_fmap_compose. intros (x & Hx & Hin)%list_elem_of_fmap.
    rewrite Forall_forall in Hu. apply Hu in Hin. simpl in Hx.
    unfold is_machine in Hin. apply bool_decide_eq_false in Hin. congruence.
  - apply (counted_mono n); [| lia]. simpl exec_op. rewrite map_info_store.
    destruct (update_first _ _ _) as [[ns x]|] eqn:Hu; [| done].
    apply counted_set_nodes; [done |]. by apply update_first_cores in Hu.
  - apply (counted_mono n); [| lia]. simpl exec_op. rewrite set_online_store.
    destruct (update_first _ _ _) as [[ns x]|] eqn:Hu; [| done].
    apply counted_set_nodes; [done |]. by apply update_first_cores in Hu.
  - apply (counted_mono n); [exact Hc | lia].
Qed.

Lemma run_counted evs n st :
  Forall no_import evs -> counted n (store st) -> (0 <= n)%Z ->
    (n + Z.of_nat (length evs) < 2 ^ 32 - 2)%Z ->
  counted (n + Z.of_nat (length evs)) (store (run evs st)).
Proof.
  intros Hevs. revert n st. induction Hevs as [|ev evs Hev Hevs IH]; intros n st Hc Hn Hlen;
    cbn [length] in *.
  { by rewrite Z.add_0_r. }
  unfold run. simpl. rewrite Nat2Z.inj_succ in *.
  replace (n + Z.succ (Z.of_nat (length evs)))%Z with ((n + 1) + Z.of_nat (length evs))%Z by lia.
  apply IH; [| lia | lia]. destruct ev as [op|f]; simpl.
  - apply exec_op_counted; [done | done | lia].
  - apply (counted_mono n); [done | lia].
Qed.

(** What the invariant is for: no two nodes share an id, a machine key or an
    address. *)
Lemma store_inv_unique c4 c6 s :
  IpAllocator_new c4 c6 = Ok (st_alloc s) -> (st_next_ip_index s < 2 ^ 32)%Z -> store_inv s ->
  NoDup (ns_id <$> st_nodes s) /\ NoDup (ns_machine_key <$> st_nodes s) /\
  NoDup (ns_ipv4 <$> st_nodes s) /\ NoDup (ns_ipv6 <$> st_nodes s).
Proof.
  intros Halloc Hip [H1 _ H3 (idx & Hn & Hr & Ha)].
  rewrite <-list_fmap_compose in H1, H3. split; [exact H1 |]. split; [exact H3 |].
  apply Forall2_fmap_l in Ha.
  assert (Hinj : forall i j x y xi yj, st_nodes s !! i = Some x -> st_nodes s !! j = Some y ->
    idx !! i = Some xi -> idx !! j = Some yj -> ns_ipv4 x = ns_ipv4 y \/ ns_ipv6 x = ns_ipv6 y ->
    i = j).
  { intros i j x y xi yj Hx Hy Hxi Hyj Heq.
    pose proof (Forall2_lookup_lr _ _ _ _ _ _ Ha Hx Hxi) as Ax.
    pose proof (Forall2_lookup_lr _ _ _ _ _ _ Ha Hy Hyj) as Ay.
    pose proof (Forall_lookup_1 _ _ _ _ Hr Hxi). pose proof (Forall_lookup_1 _ _ _ _ Hr Hyj).
    assert (xi = yj) as -> by (eapply address_for_same; [exact Halloc | | | exact Ax | exact Ay |
      exact Heq]; simpl in *; lia).
    by eapply NoDup_lookup. }
  pose proof (Forall2_length _ _ _ Ha) as Hlen.
  split; apply NoDup_alt; intros i j v; rewrite !list_lookup_fmap;
    (destruct (st_nodes s !! i) as [x|] eqn:Hx; [| done]);
    (destruct (st_nodes s !! j) as [y|] eqn:Hy; [| done]); simpl; intros [= Hi] [= Hj];
    (destruct (lookup_lt_is_Some_2 idx i) as [xi Hxi];
      [rewrite <-Hlen; by eapply lookup_lt_Some |]);
    (destruct (lookup_lt_is_Some_2 idx j) as [yj Hyj];
      [rewrite <-Hlen; by eapply lookup_lt_Some |]);
    eapply (Hinj i j); eauto; [left | right]; congruence.
Qed.

End Identity.

Section Identity2.
  Context `{OSSL : !OpenSSL} `{Inet : !InetLib} `{InetL : !InetLaws} `{JL : !JsonLib}.

(** The members no request can reach. *)
Definition fixed_part (s : Store) :=
  (st_persist_hook s, st_path s, st_alloc s, st_noise_private s).

(** Loading a document keeps the callback, the path and the networks. *)
Definition frame_of (s : Store) := (st_persist_hook s, st_path s, st_alloc s).
Definition same_frame (s s' : Store) : Prop := frame_of s' = frame_of s.

#[export] Instance same_frame_preorder : PreOrder same_frame.
Proof. split; [by intros s |]. intros s1 s2 s3 H1 H2. unfold same_frame in *. congruence. Qed.

Lemma frame_apply_snapshot j : pres same_frame (apply_snapshot_locked j).
Proof.
  assert (forall f, (forall s, frame_of (f s) = frame_of s) -> pres same_frame (modify f)) as Hmod.
  { intros f Hf s. apply Hf. }
  unfold apply_snapshot_locked, replace_keys, replace_nodes.
  pres_steps; try (by apply Hmod); apply pres_for_each; intros x; pres_steps; by apply Hmod.
Qed.

Lemma load_or_init_frame st : frame_of (store (load_or_init st).2) = frame_of (store st).
Proof.
  set (R := fun st st' => same_frame (store st) (store st')).
  assert (PreOrder R) as HR by (split; [by intros x | intros x y z H1 H2; unfold R; by etransitivity]).
  assert (pres R load_or_init) as H; [| exact (H st)]. unfold load_or_init.
  pres_steps.
  - apply (pres_zoom _ _ same_frame); [done | apply frame_apply_snapshot].
  - intros x. unfold R, same_frame. by rewrite on_rng_store.
Qed.

Lemma Store_new_frame path c4 c6 w s w' : Store_new path c4 c6 w = (Ok s, w') ->
  st_persist_hook s = None /\ st_path s = path /\ IpAllocator_new c4 c6 = Ok (st_alloc s).
Proof.
  unfold Store_new. destruct (IpAllocator_new c4 c6) as [a|e|]; [| done..].
  pose proof (load_or_init_frame (mkSt (fresh_store path a) w)) as H.
  destruct (load_or_init _) as [[[]|e|] st]; [| done..]. simpl in *. intros [= <- <-].
  injection H as H1 H2 H3. by rewrite H1, H2, H3.
Qed.

(** No operation changes the path or the networks. *)
Definition place (s : Store) := (st_path s, st_alloc s).

Lemma exec_op_place op st : place (store (exec_op op st).2) = place (store st).
Proof.
  destruct (is_key_op op) eqn:Hkey.
  { by destruct (key_op_frame op st Hkey) as [ks ->]. }
  destruct op as [| | |m nk h e t sh|m nk dk h es|m b| |text|hook]; try discriminate Hkey.
  - rewrite exec_register_store, register_store. cbv zeta.
    destruct (update_first _ _ _) as [[ns x]|]; [done |].
    by destruct (address_for _ _) as [[v4 v6]|ex|].
  - simpl exec_op. rewrite map_info_store. by destruct (update_first _ _ _) as [[ns x]|].
  - simpl exec_op. rewrite set_online_store. by destruct (update_first _ _ _) as [[ns x]|].
  - simpl. unfold load_json, on_store. mstep. destruct (json_parse _) as [j|e|]; [| done..].
    pose proof (frame_apply_snapshot j (store st)) as H. destruct (apply_snapshot_locked j (store st)).
    simpl in *. injection H as _ H1 H2. unfold place. by rewrite H1, H2.
  - done.
Qed.

Lemma run_place evs st : place (store (run evs st)) = place (store st).
Proof.
  revert st. induction evs as [|ev evs IH]; intros st; [done |]. unfold run in *. simpl.
  rewrite IH. destruct ev; simpl; [apply exec_op_place | done].
Qed.

(** A store opened where there is no state file starts empty. *)
Lemma load_or_init_fresh path a w :
  (path = "" \/ w_disk w !! path = None) ->
  load_or_init (mkSt (fresh_store path a) w) =
  (priv ← on_rng generate_x25519_private;
   _ ← upd_store (set_noise_private priv); save_locked) (mkSt (fresh_store path a) w).
Proof.
  intros Hfile. unfold load_or_init.
  erewrite bind_Ok by done. cbn [store world fresh_store st_path].
  destruct (str_empty path) eqn:Ep; [done |].
  destruct Hfile as [->| ->]; done.
Qed.

Lemma Store_new_no_file path c4 c6 w s w' :
  (path = "" \/ w_disk w !! path = None) -> Store_new path c4 c6 w = (Ok s, w') ->
  exists a priv, IpAllocator_new c4 c6 = Ok a /\
    s = set_noise_private priv (fresh_store path a).
Proof.
  intros Hfile. unfold Store_new. destruct (IpAllocator_new c4 c6) as [a|e|]; [| done | done].
  rewrite load_or_init_fresh by done. intros H. exists a.
  match type of H with context [mbind ?k ?m ?x] => destruct (mbind k m x) as [[[]|e|] st] eqn:El end;
    [| done | done].
  injection H as <- <-.
  apply bind_Ok_inv in El as (priv & st1 & H1 & H2).
  pose proof (on_rng_store generate_x25519_private (mkSt (fresh_store path a) w)) as Hs.
  rewrite H1 in Hs. simpl in Hs. exists priv. split; [done |].
  pose proof (upd_save_store (set_noise_private priv) tt st1) as Hu.
  revert Hu. unfold upd_store in *. revert H2. mstep.
  destruct (save_locked _) as [[[]|e|] st2]; intros [= <-]; simpl.
  intros ->. by rewrite Hs.
Qed.

(** C23: starting from a store with no state file, after any sequence of
    operations other than an import (returning or throwing) and any
    interference with the clock, the disk and the file-system faults, no two nodes share an id,
      a machine key,
    an IPv4 or an IPv6 address, as long as fewer than 2^32 - 2 steps have run
    (beyond that the 32-bit address counter wraps). *)
Theorem run_identities_unique path c4 c6 w s w' evs :
  Store_new path c4 c6 w = (Ok s, w') -> (path = "" \/ w_disk w !! path = None) ->
  Forall no_import evs -> (Z.of_nat (length evs) < 2 ^ 32 - 2)%Z ->
  let ns := st_nodes (store (run evs (mkSt s w'))) in
  NoDup (ns_id <$> ns) /\ NoDup (ns_machine_key <$> ns) /\
  NoDup (ns_ipv4 <$> ns) /\ NoDup (ns_ipv6 <$> ns).
Proof.
  intros Hnew Hfile Himp Hlen ns.
  destruct (Store_new_no_file path c4 c6 w s w' Hfile Hnew) as (a & priv & Ha & ->).
  assert (Hc : counted 0 (set_noise_private priv (fresh_store path a))).
  { split; [simpl; lia |]. split; [simpl; lia |]. split; simpl; try constructor.
    exists []. repeat split; constructor. }
  pose proof (run_counted evs 0 (mkSt _ w') Himp Hc ltac:(lia) ltac:(lia)) as (_ & Hip & Hinv).
  apply (store_inv_unique c4 c6); [| lia | done].
  pose proof (run_place evs (mkSt (set_noise_private priv (fresh_store path a)) w')) as Hf.
  injection Hf as _ Hal. by rewrite Hal.
Qed.

End Identity2.
