(* ===== verification/StateLife.v ===== *)
(** * StateLife: restarts, exports, and the life of a preauth key

    What survives a restart or an export, when a preauth key is accepted, that
    a one-shot key is accepted once, and two ways a valid key is lost. *)

From S2P Require Import Prelude.
From S2P Require Import Crypto.
From S2P Require Import Keys.
From S2P Require Import IpAlloc.
From S2P Require Import Json.
From S2P Require Import State.
From S2P Require Import StateFacts.
From S2P Require Import StateSpec.

(** ** Specifications *)

(** Integers that the snapshot writes and reads back through a C++ [int]. *)
Definition int_range (s : Store) : Prop :=
  (0 <= st_next_node_id s < 2 ^ 31)%Z /\ (0 <= st_next_ip_index s < 2 ^ 31)%Z /\
  Forall (fun k => - 2 ^ 31 <= pk_expires_unix k < 2 ^ 31)%Z (st_keys s) /\
  Forall (fun n => 0 <= ns_id n < 2 ^ 31)%Z (st_nodes s).

#[export] Instance int_range_dec s : Decision (int_range s).
Proof. unfold int_range. apply _. Defined.

Definition is_key (key : string) (k : PreauthKey) : bool := bool_decide (pk_key k = key).

(** A key is accepted when it has not expired and, if one-shot, is unused. *)
Definition key_valid (now : Z) (k : PreauthKey) : bool :=
  ((pk_expires_unix k =? 0)%Z || (now <=? pk_expires_unix k)%Z)
  && (pk_reusable k || negb (pk_used k)).

Definition claim_of (k : PreauthKey) : PreauthClaim :=
  mkPreauthClaim (pk_ephemeral k) (pk_token k) (pk_shared k).

(** A one-shot key that has been used. *)
Definition spent (key : string) (ks : list PreauthKey) : Prop :=
  exists k, find_first (is_key key) ks = Some k /\ pk_reusable k = false /\ pk_used k = true.

Lemma consume_scan_spec now key ks :
  consume_scan now key ks =
    match find_first (is_key key) ks with
    | Some k =>
        if key_valid now k then
          (fun u => (u.1, claim_of k)) <$> update_first (is_key key) (set_pk_used true) ks
        else None
    | None => None
    end.
Proof.
  induction ks as [|k ks IH]; [done |]. simpl. unfold is_key at 1 3.
  destruct (bool_decide (pk_key k = key)) eqn:Ek; simpl.
  - unfold key_valid. rewrite (Z.leb_antisym (pk_expires_unix k) now).
    destruct (pk_expires_unix k =? 0)%Z, (pk_expires_unix k <? now)%Z,
      (pk_reusable k), (pk_used k); done.
  - rewrite IH. destruct (update_first_find (is_key key) (set_pk_used true) ks)
      as [[Hu Hf]|(ks' & k' & Hu & Hf)]; rewrite Hu, Hf; [done |].
    by destruct (key_valid now k').
Qed.

Lemma spent_not_consumed now key ks : spent key ks -> consume_scan now key ks = None.
Proof.
  intros (k & Hk & Hr & Hu). rewrite consume_scan_spec, Hk. unfold key_valid.
  by rewrite Hr, Hu, andb_false_r.
Qed.

Lemma spent_app key ks l : spent key ks -> spent key (ks ++ l).
Proof. intros (k & Hk & H). exists k. by rewrite find_first_app, Hk. Qed.

Lemma find_first_norm key ks :
  find_first (is_key key) (norm_key <$> ks) = norm_key <$> find_first (is_key key) ks.
Proof.
  induction ks as [|k ks IH]; [done |]. rewrite fmap_cons. cbn [find_first].
  change (is_key key (norm_key k)) with (is_key key k). by destruct (is_key key k).
Qed.

Lemma spent_norm key ks : spent key ks -> spent key (norm_key <$> ks).
Proof. intros (k & Hk & H). exists (norm_key k). by rewrite find_first_norm, Hk. Qed.

Lemma find_first_update_used key key' ks ks' y :
  update_first (is_key key') (set_pk_used true) ks = Some (ks', y) ->
  find_first (is_key key) ks' =
    (fun k => if is_key key' k then set_pk_used true k else k) <$> find_first (is_key key) ks.
Proof.
  intros (l1 & x & l2 & -> & Hl1 & Hp & -> & ->)%update_first_Some.
  induction Hl1 as [|z l1 Hz Hl1 IH]; cbn [app find_first].
  - change (is_key key (set_pk_used true x)) with (is_key key x).
    destruct (is_key key x) eqn:E; simpl; [by rewrite Hp |].
    destruct (find_first (is_key key) l2) as [k|] eqn:Ek; [| done]. simpl.
    apply find_first_elem in Ek as [_ Ek]. unfold is_key in *.
    destruct (bool_decide (pk_key k = key')) eqn:E'; [| done]. solve_guards. congruence.
  - destruct (is_key key z); simpl; [by rewrite Hz | exact IH].
Qed.

Lemma spent_consume_scan now key key' ks ks' c :
  spent key ks -> consume_scan now key' ks = Some (ks', c) -> spent key ks'.
Proof.
  intros (k & Hk & Hr & Hu). rewrite consume_scan_spec.
  destruct (find_first (is_key key') ks) as [k'|]; [| done].
  destruct (key_valid now k'); [| done].
  destruct (update_first (is_key key') (set_pk_used true) ks) as [[ks1 y]|] eqn:E; [| done].
  intros [= <- _]. exists (if is_key key' k then set_pk_used true k else k).
  rewrite (find_first_update_used key key' _ _ _ E), Hk. split; [done |].
  by destruct (is_key key' k).
Qed.

(** A consumed one-shot key is spent afterwards. *)
Lemma consume_scan_spends now key ks ks' c k :
  consume_scan now key ks = Some (ks', c) -> find_first (is_key key) ks = Some k ->
  pk_reusable k = false -> spent key ks'.
Proof.
  rewrite consume_scan_spec. intros H Hk Hr. rewrite Hk in H.
  destruct (key_valid now k); [| done].
  destruct (update_first (is_key key) (set_pk_used true) ks) as [[ks1 y]|] eqn:E; [| done].
  injection H as <- _. exists (set_pk_used true k).
  rewrite (find_first_update_used key key _ _ _ E), Hk. simpl.
  apply find_first_elem in Hk as [_ ->]. done.
Qed.

Section Life.
  Context `{OSSL : !OpenSSL} `{Inet : !InetLib} `{JLaws : JsonLaws}.

(** ** Reloading *)

Lemma reload_None st :
  read_keys_file st = None -> reload_keys_from_disk st = (Ok tt, st).
Proof. intros H. unfold reload_keys_from_disk. mstep. by rewrite H. Qed.

Lemma reload_Some st ks :
  read_keys_file st = Some (jarr (key_to_json <$> ks)) ->
  reload_keys_from_disk st =
    (Ok tt, mkSt (set_keys (norm_key <$> ks) (store st)) (world st)).
Proof.
  intros H. unfold reload_keys_from_disk, on_store. mstep. rewrite H. mstep.
  by rewrite replace_keys_jarr.
Qed.

Lemma read_keys_file_ext st st' :
  st_path (store st') = st_path (store st) -> w_disk (world st') = w_disk (world st) ->
  read_keys_file st' = read_keys_file st.
Proof. intros Hp Hd. unfold read_keys_file. by rewrite Hp, Hd. Qed.

(** Memory and state file agree on the keys (or there is no state file path). *)
Definition in_sync (st : St) : Prop :=
  st_path (store st) = "" \/
  read_keys_file st = Some (jarr (key_to_json <$> st_keys (store st))).

(** Expiries that the file gives back as they are. *)
Definition expiries_fit (ks : list PreauthKey) : Prop :=
  Forall (fun k => - 2 ^ 31 <= pk_expires_unix k < 2 ^ 31)%Z ks.

Lemma reload_in_sync st :
  in_sync st -> expiries_fit (st_keys (store st)) -> reload_keys_from_disk st = (Ok tt, st).
Proof.
  intros Hsync Hks. destruct Hsync as [Hp|Hr].
  - apply reload_None. unfold read_keys_file. by rewrite Hp.
  - rewrite (reload_Some _ _ Hr).
    assert (norm_key <$> st_keys (store st) = st_keys (store st)) as ->.
    { rewrite <-(list_fmap_id (st_keys (store st))) at 2. apply list_fmap_ext.
      intros i k Hk. apply norm_key_small. by eapply Forall_lookup_1 in Hks. }
    destruct st as [s w]. simpl. by rewrite set_keys_same.
Qed.

(** C21: consume_preauth, when memory and state file agree and the expiry of
    every key fits a C++ int (before 2038; a later one is refused at its first
    use, long_expiry_refused): it looks up the first key with the given text;
      an unknown, expired or already used one-shot
    key is refused and nothing changes; a valid one is marked used and its
    ephemeral flag, token and shared flag are granted, provided the save
    succeeds; if the save throws, so does the call, with the mark in memory. *)
Theorem consume_preauth_spec key st :
  in_sync st -> expiries_fit (st_keys (store st)) ->
  match find_first (is_key key) (st_keys (store st)) with
  | Some k =>
      if key_valid (w_now (world st)) k then
        exists ks, update_first (is_key key) (set_pk_used true) (st_keys (store st))
                     = Some (ks, set_pk_used true k) /\
          let '(r, st') := consume_preauth key st in
          store st' = set_keys ks (store st) /\
          (r = Ok (Some (claim_of k)) <->
           is_ok (save_locked (mkSt (set_keys ks (store st)) (world st))).1 = true) /\
          (is_ok r = true -> r = Ok (Some (claim_of k)))
      else consume_preauth key st = (Ok None, st)
  | None => consume_preauth key st = (Ok None, st)
  end.
Proof.
  intros Hsync Hrange. unfold consume_preauth.
  rewrite (bind_Ok _ _ _ _ _ (reload_in_sync st Hsync Hrange)).
  unfold consume_locked. erewrite bind_Ok by done. rewrite consume_scan_spec.
  destruct (update_first_find (is_key key) (set_pk_used true) (st_keys (store st)))
    as [[Hu Hf]|(ks & k & Hu & Hf)]; rewrite Hu, Hf; [done |].
  destruct (key_valid _ k); [| done]. simpl. exists ks. split; [done |].
  unfold upd_store. mstep.
  pose proof (save_locked_store (mkSt (set_keys ks (store st)) (world st))) as Hs.
  destruct (save_locked _) as [[[]|e|] st']; simpl in *; naive_solver.
Qed.

(** ** One-shot keys are accepted once *)

(** A property of the keys that holds in memory and, when there is a state
    file, on disk. *)
Definition Held (P : list PreauthKey -> Prop) (st : St) : Prop :=
  quiet_hook (store st) /\ P (st_keys (store st)) /\
  (st_path (store st) = "" \/
   exists ks, read_keys_file st = Some (jarr (key_to_json <$> ks)) /\ P ks).

Definition Spent (key : string) : St -> Prop := Held (spent key).

Definition preserves {A} (P : St -> Prop) (m : M St A) : Prop := forall st, P st -> P (m st).2.

Lemma preserves_bind {A B} P (m : M St A) (k : A -> M St B) :
  preserves P m -> (forall a, preserves P (k a)) -> preserves P (x ← m; k x).
Proof.
  intros Hm Hk st Hst. apply Hm in Hst. unfold mbind, M_bind.
  destruct (m st) as [[a|e|] st1]; simpl in *; [by apply Hk | done | done].
Qed.

Lemma preserves_pure {A} P (m : M St A) : (forall st, (m st).2 = st) -> preserves P m.
Proof. intros H st Hst. by rewrite H. Qed.

Lemma Held_save P : preserves (Held P) save_locked.
Proof.
  intros st (Hh & Hm & Hd). pose proof (save_locked_store st) as Hs.
  destruct (save_locked st) as [r st'] eqn:E. simpl in *.
  split; [by rewrite Hs |]. split; [by rewrite Hs |].
  destruct Hd as [Hp|(ks & Hk & Hsp)]; [left; by rewrite Hs |].
  destruct (decide (st_path (store st) = "")) as [Hp|Hp]; [left; by rewrite Hs |]. right.
  destruct (save_locked_disk st r st' Hh Hp E) as [(text & Ht & Hdisk)|[_ Hdisk]].
  - exists (st_keys (store st)). split; [| done].
    apply (read_keys_file_written (store st) st' text); by rewrite ?Hs.
  - exists ks. split; [| done]. rewrite <-Hk. unfold read_keys_file. by rewrite Hs, Hdisk.
Qed.

Lemma Spent_upd key (f : Store -> Store) :
  (forall s, st_path (f s) = st_path s /\ st_persist_hook (f s) = st_persist_hook s) ->
  (forall s, spent key (st_keys s) -> spent key (st_keys (f s))) ->
  preserves (Spent key) (upd_store f).
Proof.
  intros Hf Hk st (Hh & Hm & Hd). destruct (Hf (store st)) as [Hp Hhook].
  split; [unfold quiet_hook in *; simpl; by rewrite Hhook |]. split; [by apply Hk |].
  simpl. rewrite Hp. destruct Hd as [Hd|(ks & Hks & Hsp)]; [by left | right].
  exists ks. split; [| done]. rewrite <-Hks. by apply read_keys_file_ext.
Qed.

(** The properties a reload and a use of a key keep. *)
Definition keys_closed (P : list PreauthKey -> Prop) : Prop :=
  (forall ks, P ks -> P (norm_key <$> ks)) /\
  (forall now key ks ks' c, P ks -> consume_scan now key ks = Some (ks', c) -> P ks').

Lemma spent_closed key : keys_closed (spent key).
Proof. split; [apply spent_norm | intros; by eapply spent_consume_scan]. Qed.

Lemma Held_reload P : keys_closed P -> preserves (Held P) reload_keys_from_disk.
Proof.
  intros HP st (Hh & Hm & Hd). destruct (decide (st_path (store st) = "")) as [Hp|Hp].
  - rewrite reload_None; [by split_and!; auto |]. unfold read_keys_file. by rewrite Hp.
  - destruct Hd as [?|(ks & Hks & Hsp)]; [done |]. rewrite (reload_Some _ _ Hks). simpl.
    split; [done |]. split; [by apply HP |]. right. exists ks. split; [| done].
    rewrite <-Hks. by apply read_keys_file_ext.
Qed.

Lemma Held_consume_locked P key : keys_closed P -> preserves (Held P) (consume_locked key).
Proof.
  intros HP st HS. unfold consume_locked. erewrite bind_Ok by done.
  destruct (consume_scan _ key _) as [[ks c]|] eqn:E; [| done].
  assert (Hupd : Held P (mkSt (set_keys ks (store st)) (world st))).
  { destruct HS as (Hh & Hm & Hd). split; [done |].
    split; [by eapply HP |]. destruct Hd as [Hd|(ks' & Hks & Hsp)]; [by left |].
    right. exists ks'. split; [| done]. rewrite <-Hks. by apply read_keys_file_ext. }
  apply (Held_save P) in Hupd. unfold upd_store. mstep.
  by destruct (save_locked _) as [[]].
Qed.

Lemma Spent_on_rng {A} key (m : M nat A) : preserves (Spent key) (on_rng m).
Proof.
  intros st (Hh & Hm & Hd). unfold on_rng. mstep. destruct (m _) as [r c]. simpl.
  split; [done |]. split; [done |]. destruct Hd as [Hd|(ks & Hks & Hsp)]; [by left | right].
  exists ks. split; [| done]. rewrite <-Hks. by apply read_keys_file_ext.
Qed.

Lemma Spent_create key r e x t sh : preserves (Spent key) (create_preauth_key r e x t sh).
Proof.
  unfold create_preauth_key, random_token.
  apply preserves_bind.
  { apply preserves_bind; [apply Spent_on_rng | by intros; apply preserves_pure]. }
  intros k. apply preserves_bind; [by apply preserves_pure | intros now].
  apply preserves_bind; [by apply preserves_pure | intros expires].
  apply preserves_bind; [apply Spent_upd; [done | intros; by apply spent_app] | intros []].
  apply preserves_bind; [apply Held_save | by intros; apply preserves_pure].
Qed.

Lemma Spent_set_nodes key ns : preserves (Spent key) (upd_store (set_nodes ns)).
Proof. by apply Spent_upd. Qed.

(** A document whose preauth keys have the key used up, such as a dump taken
    after its use. *)
Definition has_spent (key text : string) : Prop :=
  forall j, json_parse (if str_empty text then "{}" else text) = Ok j ->
  exists ks, json_find j "preauth_keys" = Some (jarr (key_to_json <$> ks)) /\ spent key ks.

(** The operations in question: any but an import that brings the key back and
    the installation of a callback that writes files. *)
Definition harmless (key : string) (op : store_op) : Prop :=
  match op with
  | OpImport text => has_spent key text
  | OpSetHook (Some h) => forall text w, w_disk (h text w) = w_disk w
  | _ => True
  end.

(** The keys after an import: those there were, or those of the document. *)
Lemma import_keys j ks s : json_find j "preauth_keys" = Some (jarr (key_to_json <$> ks)) ->
  let s' := (apply_snapshot_locked j s).2 in
  st_path s' = st_path s /\ st_persist_hook s' = st_persist_hook s /\
  (st_keys s' = st_keys s \/ st_keys s' = norm_key <$> ks).
Proof.
  intros Hj. set (R := fun s s' : Store => st_path s' = st_path s /\
    st_persist_hook s' = st_persist_hook s /\
    (st_keys s' = st_keys s \/ st_keys s' = norm_key <$> ks)).
  assert (PreOrder R) as HR.
  { split; [intros x; unfold R; tauto |]. intros x y z (H1 & H2 & H3) (K1 & K2 & K3). unfold R.
    rewrite K1, K2, H1, H2. intuition congruence. }
  assert (pres R (apply_snapshot_locked j)) as H; [| exact (H s)].
  assert (forall f, (forall s, R s (f s)) -> pres R (modify f)) as Hmod by (intros f Hf x; apply Hf).
  assert (pres R (replace_keys (jarr (key_to_json <$> ks)))) as Hks
    by (intros x; rewrite replace_keys_jarr; unfold R; simpl; tauto).
  unfold apply_snapshot_locked. rewrite Hj. unfold replace_nodes.
  pres_steps; try (apply Hmod; intros x; unfold R; simpl; tauto).
  apply pres_for_each. intros n. pres_steps. apply Hmod. intros x. unfold R. simpl. tauto.
Qed.

Lemma Spent_import key text : has_spent key text -> preserves (Spent key) (load_json text).
Proof.
  intros Ht st (Hh & Hm & Hd). unfold load_json, on_store. mstep.
  destruct (json_parse _) as [j|e|] eqn:Ej; [| done..]. destruct (Ht j Ej) as (ks & Hj & Hks). simpl.
  pose proof (import_keys j ks (store st) Hj) as (Hp & Hhook & Hk).
  destruct (apply_snapshot_locked j (store st)) as [r s']. simpl in *.
  split; [unfold quiet_hook in *; simpl; by rewrite Hhook |]. split.
  - simpl. destruct Hk as [-> | ->]; [done | by apply spent_norm].
  - simpl. rewrite Hp. destruct Hd as [Hd|(ks0 & Hks0 & Hsp)]; [by left | right].
    exists ks0. split; [| done]. rewrite <-Hks0. by apply read_keys_file_ext.
Qed.

Lemma Spent_exec_op key op : harmless key op -> preserves (Spent key) (exec_op op).
Proof.
  intros Hop. assert (Hsave : preserves (Spent key) save_locked) by apply Held_save.
  destruct op; simpl.
  - apply preserves_bind; [apply Spent_create | by intros; apply preserves_pure].
  - apply preserves_bind; [| by intros; apply preserves_pure].
    apply preserves_bind; [| intros; apply Held_consume_locked, spent_closed].
    apply Held_reload, spent_closed.
  - apply Held_reload, spent_closed.
  - apply preserves_bind; [| by intros; apply preserves_pure].
    apply preserves_bind; [by apply preserves_pure | intros st].
    destruct (update_first _ _ _) as [[ns n]|].
    + apply preserves_bind; [apply Spent_set_nodes | intros []].
      apply preserves_bind; [done | by intros; apply preserves_pure].
    + apply preserves_bind; [by apply Spent_upd | intros []].
      apply preserves_bind; [by apply preserves_pure | intros addrs].
      apply preserves_bind; [by apply Spent_upd | intros []].
      apply preserves_bind; [done | by intros; apply preserves_pure].
  - apply preserves_bind; [by apply preserves_pure | intros st].
    destruct (update_first _ _ _) as [[ns n]|]; [| by apply preserves_pure].
    apply preserves_bind; [apply Spent_set_nodes | done].
  - apply preserves_bind; [by apply preserves_pure | intros st].
    destruct (update_first _ _ _) as [[ns n]|]; [apply Spent_set_nodes | by apply preserves_pure].
  - done.
  - by apply Spent_import.
  - intros st (Hh & Hm & Hd). split; [by destruct hook |]. split; [done |].
    destruct Hd as [Hd|(ks & Hks & Hsp)]; [by left | right]. exists ks. split; [| done].
    rewrite <-Hks. by apply read_keys_file_ext.
Qed.

(** The environment may move the clock and inject faults, not edit the disk. *)
Definition keeps_spent (key : string) (ev : event) : Prop :=
  match ev with
  | EvOp op => harmless key op
  | EvEnv f => forall w, w_disk (f w) = w_disk w
  end.

Lemma Spent_run key evs st :
  Forall (keeps_spent key) evs -> Spent key st -> Spent key (run evs st).
Proof.
  intros Hevs. revert st. induction Hevs as [|ev evs Hev Hevs IH]; intros st HS; [done |].
  unfold run in *. simpl. apply IH. destruct ev as [op|f]; simpl.
  - by apply (Spent_exec_op key op).
  - destruct HS as (Hh & Hm & Hd). split; [done |]. split; [done |].
    destruct Hd as [Hd|(ks & Hks & Hsp)]; [by left | right]. exists ks. split; [| done].
    rewrite <-Hks. apply read_keys_file_ext; [done | apply Hev].
Qed.

Lemma Spent_refuses key st : Spent key st -> (consume_preauth key st).1 = Ok None.
Proof.
  intros HS. pose proof (Held_reload _ (spent_closed key) st HS) as HS'. unfold consume_preauth.
  destruct (reload_keys_from_disk st) as [r st'] eqn:E. simpl in HS'.
  assert (r = Ok tt) as ->.
  { destruct HS as (Hh & Hm & Hd). destruct (read_keys_file st) as [j|] eqn:Er.
    - destruct Hd as [Hp|(ks & Hks & Hsp)].
      + unfold read_keys_file in Er. by rewrite Hp in Er.
      + injection Hks as ->. rewrite (reload_Some _ _ Er) in E. by injection E.
    - rewrite (reload_None _ Er) in E. by injection E. }
  rewrite (bind_Ok _ _ _ _ _ E). unfold consume_locked. erewrite bind_Ok by done.
  destruct HS' as (_ & Hsp & _). by rewrite spent_not_consumed.
Qed.

(** The first key of the text before and after a use that is granted. *)
Lemma consume_locked_find key st c st1 :
  consume_locked key st = (Ok (Some c), st1) ->
  exists k, find_first (is_key key) (st_keys (store st)) = Some k /\
    find_first (is_key key) (st_keys (store st1)) = Some (set_pk_used true k).
Proof.
  intros Hc. unfold consume_locked in Hc. erewrite bind_Ok in Hc by done.
  rewrite consume_scan_spec in Hc.
  destruct (find_first (is_key key) (st_keys (store st))) as [k|] eqn:Hk; [| done].
  destruct (key_valid _ k); [| done]. exists k. split; [done |].
  destruct (update_first (is_key key) (set_pk_used true) _) as [[ks y]|] eqn:Eu; [| done].
  cbn [fmap option_fmap option_map fst] in Hc.
  erewrite bind_Ok in Hc by done. apply bind_Ok_inv in Hc as ([] & s2 & Hsave & [= _ <-]).
  pose proof (save_locked_store (mkSt (set_keys ks (store st)) (world st))) as Hs2.
  rewrite Hsave in Hs2. simpl in Hs2. rewrite Hs2. simpl.
  rewrite (find_first_update_used _ _ _ _ _ Eu), Hk. simpl.
  by apply find_first_elem in Hk as [_ ->].
Qed.

(** A use of a one-shot key that is granted leaves it spent. *)
Lemma consume_locked_spends key st c st1 :
  quiet_hook (store st) -> consume_locked key st = (Ok (Some c), st1) ->
  (forall k, find_first (is_key key) (st_keys (store st)) = Some k -> pk_reusable k = false) ->
  Spent key st1.
Proof.
  intros Hh Hc Hone. unfold consume_locked in Hc. erewrite bind_Ok in Hc by done.
  destruct (consume_scan _ _ _) as [[ks c']|] eqn:E; [| done].
  erewrite bind_Ok in Hc by done. apply bind_Ok_inv in Hc as ([] & s2 & Hsave & Hret).
  injection Hret as _ <-.
  pose proof (save_locked_store (mkSt (set_keys ks (store st)) (world st))) as Hs2.
  rewrite Hsave in Hs2. simpl in Hs2.
  assert (Hspent : spent key ks).
  { pose proof E as E2. rewrite consume_scan_spec in E2.
    destruct (find_first (is_key key) (st_keys (store st))) as [k|] eqn:Hk; [| done].
    by eapply consume_scan_spends; [exact E | exact Hk | apply Hone]. }
  split; [by rewrite Hs2 |]. split; [by rewrite Hs2 |].
  destruct (decide (st_path (store s2) = "")) as [Hp|Hp]; [by left | right].
  exists ks. split; [| done].
  eapply (read_keys_file_saved (mkSt (set_keys ks (store st)) (world st))); [done | | exact Hsave].
  by rewrite Hs2 in Hp.
Qed.

(** C1: a one-shot key is accepted at most once: after a consume_preauth that
    succeeded on a key that is not reusable, every later consume_preauth of the
    same key text returns false, after any sequence of store operations
    (including ones that throw because the disk is full, mints of new keys,
    reloads from disk, and imports of documents in which the key is used up, such
    as a dump taken since) and any clock changes and file-system faults. The
    persist callback, if there is one, must not write the state file; and an
    import of a document from before the use is excluded: it does bring the key
    back (import_revives_key). *)
Theorem one_shot_key_once key st c st1 k evs :
  quiet_hook (store st) ->
  consume_preauth key st = (Ok (Some c), st1) ->
  find_first (is_key key) (st_keys (store st1)) = Some k -> pk_reusable k = false ->
  Forall (keeps_spent key) evs ->
  (consume_preauth key (run evs st1)).1 = Ok None.
Proof.
  intros Hh Hc Hk Hr Hevs. apply Spent_refuses, Spent_run; [done |].
  unfold consume_preauth in Hc. apply bind_Ok_inv in Hc as ([] & sr & Hrel & Hc).
  destruct (keys_only_reload st) as [ks0 Hks0]. rewrite Hrel in Hks0. simpl in Hks0.
  eapply consume_locked_spends; [by rewrite Hks0 | exact Hc |]. intros k' Hk'.
  destruct (consume_locked_find _ _ _ _ Hc) as (k0 & Hk0 & Hk1).
  rewrite Hk0 in Hk'. rewrite Hk1 in Hk. injection Hk' as <-. injection Hk as <-. exact Hr.
Qed.

End Life.

(** ** Restart, export and import *)

Section Durability.
  Context `{OSSL : !OpenSSL} `{Inet : !InetLib} `{JLaws : JsonLaws}.

(** The store a process reopens: everything but the callback. *)
Definition reopened (s : Store) : Store := set_hook None s.

Lemma norm_store_in_range s s0 :
  int_range s -> st_path s0 = st_path s -> st_alloc s0 = st_alloc s ->
  norm_store s s0 = set_hook (st_persist_hook s0) s.
Proof.
  intros (Hid & Hip & Hks & Hns) Hp Ha. unfold norm_store, set_hook.
  rewrite Hp, Ha, wrap_i32_small, wrap_u64_small, wrap_i32_small, wrap_u32_small by lia.
  assert (norm_key <$> st_keys s = st_keys s) as ->.
  { rewrite <-(list_fmap_id (st_keys s)) at 2. apply list_fmap_ext.
    intros i k Hk. apply norm_key_small. by eapply Forall_lookup_1 in Hks. }
  assert (norm_node <$> st_nodes s = st_nodes s) as ->; [| done].
  rewrite <-(list_fmap_id (st_nodes s)) at 2. apply list_fmap_ext.
  intros i n Hn. apply norm_node_small. by eapply Forall_lookup_1 in Hns.
Qed.

(** A store opened on a file that was just saved. *)
Lemma reopen_saved c4 c6 st st' :
  IpAllocator_new c4 c6 = Ok (st_alloc (store st)) ->
  st_persist_hook (store st) = None -> st_path (store st) <> "" ->
  length (st_noise_private (store st)) = 32 -> st_noise_private (store st) <> zero32 ->
  int_range (store st) ->
  persist st = (Ok tt, st') ->
  Store_new (st_path (store st)) c4 c6 (world st') = (Ok (store st), world st').
Proof.
  intros Ha Hh Hp Hlen Hnz Hrange Hsave. unfold Store_new. rewrite Ha.
  destruct (save_locked_no_hook st _ st' Hh Hp Hsave) as [(text & Hd & _ & Hdisk)|[? _]]; [| done].
  unfold load_or_init. erewrite bind_Ok by done. cbn [store world fresh_store st_path].
  destruct (str_empty (st_path (store st))) eqn:Ep; [by destruct (st_path (store st)) |].
  rewrite Hdisk. destruct (str_empty (text +:+ _)) eqn:Et; [by destruct text |].
  rewrite (read_dump2 (snapshot_locked (store st))) by (apply plain_snapshot || done).
  unfold on_store. mstep. rewrite apply_snapshot_snapshot by done. mstep.
  rewrite norm_store_in_range by done. simpl. rewrite decide_False by done. mstep.
  by destruct (store st); simpl in *; subst.
Qed.

(** C25: a restart loses nothing: once a save has succeeded, opening a store on
    the same path and networks yields the same noise key, counters, preauth
    keys and nodes (every field of every node, the online flag included) and
    writes nothing, provided the ids, counters and expiries fit a C++ int. *)
Theorem restart_preserves c4 c6 st st' :
  IpAllocator_new c4 c6 = Ok (st_alloc (store st)) ->
  st_persist_hook (store st) = None -> st_path (store st) <> "" ->
  length (st_noise_private (store st)) = 32 -> st_noise_private (store st) <> zero32 ->
  int_range (store st) ->
  persist st = (Ok tt, st') ->
  Store_new (st_path (store st)) c4 c6 (world st') = (Ok (store st), world st').
Proof. apply reopen_saved. Qed.

(** Export then import moves the whole state to another store: importing a
    dump into any store replaces its noise key, counters, keys and nodes with
    those of the exporting one and keeps its own path, networks and callback. *)
Theorem export_import st text st0 :
  dump_json st = (Ok text, st) -> str_empty text = false ->
  length (st_noise_private (store st)) = 32 -> int_range (store st) ->
  let s0 := store st0 in
  load_json text st0 =
    (Ok tt, mkSt (mkStore (st_persist_hook s0) (st_path s0) (st_alloc s0)
                    (st_noise_private (store st)) (st_next_node_id (store st))
                    (st_next_ip_index (store st)) (st_keys (store st)) (st_nodes (store st)))
                 (world st0)).
Proof.
  unfold dump_json. mstep. intros [= Hd] Ht Hlen Hrange. unfold load_json. rewrite Ht. mstep.
  rewrite (parse_dump (snapshot_locked (store st))) by (apply plain_snapshot || done).
  unfold on_store. mstep. rewrite apply_snapshot_snapshot by done.
  set (s0' := mkStore (st_persist_hook (store st0)) (st_path (store st)) (st_alloc (store st))
    (st_noise_private (store st)) 0 0 [] []).
  pose proof (norm_store_in_range (store st) s0' Hrange eq_refl eq_refl) as H.
  unfold norm_store, set_hook in *. simpl in H. injection H as H1 H2 H3 H4.
  by rewrite H1, H2, H3, H4.
Qed.

(** An expiry past January 2038 is refused from the first use: the state
    file is read back through a C++ int, so an expiry between 2^31 and 2^32
    becomes negative, and consume_preauth, which always reloads from a state
    file, treats the key as expired however far in the future it is. *)
Theorem long_expiry_refused key st k :
  read_keys_file st = Some (jarr (key_to_json <$> st_keys (store st))) ->
  find_first (is_key key) (st_keys (store st)) = Some k ->
  (2 ^ 31 <= pk_expires_unix k < 2 ^ 32)%Z -> (0 <= w_now (world st))%Z ->
  (consume_preauth key st).1 = Ok None.
Proof.
  intros Hr Hk Hexp Hnow. unfold consume_preauth.
  rewrite (bind_Ok _ _ _ _ _ (reload_Some _ _ Hr)). unfold consume_locked.
  erewrite bind_Ok by done. simpl. rewrite consume_scan_spec, find_first_norm, Hk. simpl.
  assert (wrap_i32 (pk_expires_unix k) = pk_expires_unix k - 2 ^ 32)%Z as Hw by wrap_lia.
  unfold key_valid. simpl. rewrite Hw.
  destruct (pk_expires_unix k - 2 ^ 32 =? 0)%Z eqn:E1; solve_guards; [lia |].
  destruct (w_now (world st) <=? pk_expires_unix k - 2 ^ 32)%Z eqn:E2; solve_guards; [lia |].
  done.
Qed.

(** A key minted by another process is lost at the next save: while the
    state file holds a valid key this process has not loaded (as after
    [wirebone preauth create] beside a running server), consume_preauth would
    accept it, but a map request of a registered node saves this process's own
    keys over the file, and from then on the key is refused. *)
Theorem foreign_key_lost key st ks k m nk dk h es st' :
  st_persist_hook (store st) = None -> st_path (store st) <> "" ->
  read_keys_file st = Some (jarr (key_to_json <$> ks)) ->
  find_first (is_key key) ks = Some k ->
  key_valid (w_now (world st)) (norm_key k) = true ->
  find_first (is_key key) (st_keys (store st)) = None ->
  find_first (is_machine m) (st_nodes (store st)) <> None ->
  update_map_info m nk dk h es st = (Ok tt, st') ->
  (is_ok (consume_preauth key st).1 = true ->
     (consume_preauth key st).1 = Ok (Some (claim_of k))) /\
  (consume_preauth key st').1 = Ok None.
Proof.
  intros Hh Hp Hr Hk Hv Hmem Hm Hupd. split.
  - unfold consume_preauth. rewrite (bind_Ok _ _ _ _ _ (reload_Some _ _ Hr)).
    unfold consume_locked. erewrite bind_Ok by done. simpl.
    rewrite consume_scan_spec, find_first_norm, Hk. simpl. rewrite Hv.
    destruct (update_first_find (is_key key) (set_pk_used true) (norm_key <$> ks))
      as [[Hu Hf]|(ks' & k' & Hu & Hf)].
    { by rewrite find_first_norm, Hk in Hf. }
    rewrite Hu. simpl. unfold upd_store. mstep. by destruct (save_locked _) as [[]].
  - unfold update_map_info in Hupd. erewrite bind_Ok in Hupd by done.
    destruct (update_first_find (is_machine m) (map_info nk dk h es) (st_nodes (store st)))
      as [[_ ?]|(ns & n & Hu & _)]; [done |]. rewrite Hu in Hupd.
    erewrite bind_Ok in Hupd by done.
    pose proof (save_locked_store (mkSt (set_nodes ns (store st)) (world st))) as Hs.
    rewrite Hupd in Hs. simpl in Hs.
    pose proof (read_keys_file_saved (mkSt (set_nodes ns (store st)) (world st)) st' (no_hook_quiet
      _ Hh) Hp Hupd)
      as Hfile.
    unfold consume_preauth. rewrite (bind_Ok _ _ _ _ _ (reload_Some _ _ Hfile)).
    unfold consume_locked. erewrite bind_Ok by done. simpl.
    by rewrite consume_scan_spec, find_first_norm, Hmem.
Qed.

End Durability.
