(* ===== verification/StateSamples.v ===== *)
(** * StateSamples: the store run on concrete inputs

    The scenarios of tests/test_state.cpp on the sample libraries, and for each
    theorem of StateSpec and StateLife with hypotheses a concrete input where
    they hold. *)

From S2P Require Import Prelude.
From S2P Require Import Crypto.
From S2P Require Import Keys.
From S2P Require Import IpAlloc.
From S2P Require Import Json.
From S2P Require Import State.
From S2P Require Import StateFacts.
From S2P Require Import StateSpec.
From S2P Require Import StateLife.
Import SampleCrypto SampleInet SampleJson.

Definition v4_net : string := "100.64.0.0/16".
Definition v6_net : string := "fd7a:115c:a1e0::/48".

Definition sample_world : World :=
  mkWorld ∅ 1000 0 (fun _ => true) (fun _ _ => true) [].

(** The state of a run, or the fresh one if it threw. *)
Definition opened (path : string) : St :=
  match Store_new path v4_net v6_net sample_world with
  | (Ok s, w) => mkSt s w
  | (_, w) => mkSt (fresh_store path default_alloc) w
  end.

Definition after {A} (m : M St A) (st : St) : St := (m st).2.

Definition st_new : St := Eval vm_compute in opened "s".

(** A one-shot key for the group "beta", its use, and a registration. *)
Definition st_minted : St :=
  Eval vm_compute in after (create_preauth_key false true 0 "beta" None) st_new.
Definition minted_key : string :=
  Eval vm_compute in match st_keys (store st_minted) with k :: _ => pk_key k | [] => "" end.
Definition st_consumed : St := Eval vm_compute in after (consume_preauth minted_key) st_minted.
Definition st_registered : St :=
  Eval vm_compute in
    after (register_node "mkey:aa" "nodekey:bb" "alice" false "analytics" false) st_consumed.

Ltac in_range := apply (bool_decide_unpack _); vm_compute; exact I.

Example opened_ok : Store_new "s" v4_net v6_net sample_world = (Ok (store st_new), world st_new).
Proof. vm_compute. reflexivity. Qed.

(** tests/test_state.cpp: the first node gets the first address. *)
Example register_alice :
  match register_node "mkey:aa" "nodekey:bb" "alice" false "analytics" false st_consumed with
  | (Ok n, _) =>
      ns_ipv4 n = "100.64.0.1" /\ ns_hostname n = "alice" /\ ns_token n = "analytics" /\
      ns_shared n = false
  | _ => False
  end.
Proof. vm_compute. done. Qed.

(** tests/test_state.cpp: an untagged key is shared, a tagged one is not. *)
Example claims :
  (consume_preauth minted_key st_minted).1 = Ok (Some (mkPreauthClaim true "beta" false)) /\
  match create_preauth_key true false 0 "" None st_minted with
  | (Ok k, st) => (consume_preauth k st).1 = Ok (Some (mkPreauthClaim false "" true))
  | _ => False
  end.
Proof. vm_compute. done. Qed.

Definition two_registrations : list event :=
  [EvOp (OpRegister "mkey:aa" "n1" "alice" false "t" false);
   EvOp (OpRegister "mkey:bb" "n2" "bob" false "t" false)].

Lemma run_identities_unique_witness :
  length (st_nodes (store (run two_registrations (mkSt (store st_new) (world st_new))))) = 2 /\
  NoDup (ns_ipv4 <$> st_nodes (store (run two_registrations (mkSt (store st_new) (world st_new))))).
Proof.
  split; [vm_compute; reflexivity |].
  assert (Hlen : (Z.of_nat (length two_registrations) < 2 ^ 32 - 2)%Z)
    by (vm_compute; reflexivity).
  assert (Hfile : "s" = "" \/ w_disk sample_world !! "s" = None) by (right; reflexivity).
  apply (run_identities_unique "s" v4_net v6_net sample_world (store st_new) (world st_new)
    two_registrations opened_ok Hfile ltac:(repeat constructor) Hlen).
Defined.

Lemma restart_preserves_witness :
  exists st', persist st_registered = (Ok tt, st') /\
  Store_new "s" v4_net v6_net (world st') = (Ok (store st_registered), world st').
Proof.
  eexists. split; [vm_compute; reflexivity |].
  apply (restart_preserves v4_net v6_net st_registered).
  - vm_compute. reflexivity.
  - reflexivity.
  - discriminate.
  - reflexivity.
  - discriminate.
  - in_range.
  - vm_compute. reflexivity.
Defined.

Lemma export_import_witness :
  exists text, dump_json st_registered = (Ok text, st_registered) /\
  st_nodes (store (load_json text st_new).2) = st_nodes (store st_registered).
Proof.
  eexists. split; [vm_compute; reflexivity |].
  erewrite (export_import st_registered _ st_new).
  - reflexivity.
  - vm_compute. reflexivity.
  - reflexivity.
  - reflexivity.
  - in_range.
Defined.

Lemma consume_preauth_spec_witness :
  (consume_preauth "wbkey-none" st_minted) = (Ok None, st_minted) /\
  exists k, find_first (is_key minted_key) (st_keys (store st_minted)) = Some k /\
    key_valid (w_now (world st_minted)) k = true.
Proof.
  split.
  - exact (consume_preauth_spec "wbkey-none" st_minted
      ltac:(right; vm_compute; reflexivity)
      ltac:(in_range)).
  - eexists. split; vm_compute; reflexivity.
Defined.

(** The text of the state after the use, as export_state gives it. *)
Definition dump_after : string :=
  Eval vm_compute in match (dump_json st_consumed).1 with Ok t => t | _ => "" end.
Definition later_events : list event :=
  [EvOp OpReload; EvEnv (fun w => mkWorld (w_disk w) 5 (w_rng w) (w_can_write w) (w_can_rename w)
     (w_persisted w)); EvOp (OpSetHook (Some (fun _ w => w))); EvOp (OpImport dump_after); EvOp OpPersist].

Lemma one_shot_key_once_witness :
  (consume_preauth minted_key st_minted).1 = Ok (Some (mkPreauthClaim true "beta" false)) /\
  (consume_preauth minted_key (run later_events st_consumed)).1 = Ok None.
Proof.
  split; [vm_compute; reflexivity |].
  eapply (one_shot_key_once minted_key st_minted (mkPreauthClaim true "beta" false) st_consumed).
  - exact I.
  - vm_compute. reflexivity.
  - vm_compute. reflexivity.
  - reflexivity.
  - repeat constructor. intros j [= <-]. exists (st_keys (store st_consumed)).
    split; [vm_compute; reflexivity |]. eexists. split; [vm_compute; reflexivity | done].
Defined.

(** An import of a document from before the use makes the key usable again. *)
Example import_revives_key :
  match (dump_json st_minted).1 with
  | Ok dump =>
      let st := after persist (after (load_json dump) st_consumed) in
      (consume_preauth minted_key st_consumed).1 = Ok None /\
      (consume_preauth minted_key st).1 = Ok (Some (mkPreauthClaim true "beta" false))
  | _ => False
  end.
Proof. vm_compute. done. Qed.

(** A key that expires in 2040, minted in 2026. *)
Definition st_2040 : St :=
  Eval vm_compute in
    after (create_preauth_key true false 441763200 "" None)
      (mkSt (store st_new) (mkWorld (w_disk (world st_new)) 1767225600 5
         (fun _ => true) (fun _ _ => true) [])).

Definition key_2040 : PreauthKey :=
  Eval vm_compute in default (mkPreauthKey "" true true true 0 "" true)
    (head (st_keys (store st_2040))).

Lemma long_expiry_refused_witness :
  key_valid (w_now (world st_2040)) key_2040 = true /\ (consume_preauth (pk_key key_2040)
    st_2040).1 = Ok None.
Proof.
  split; [vm_compute; reflexivity |].
  apply (long_expiry_refused (pk_key key_2040) st_2040 key_2040).
  - vm_compute. reflexivity.
  - vm_compute. reflexivity.
  - vm_compute. split; congruence.
  - vm_compute. congruence.
Defined.

(** The server loaded its state before the second process minted the key. *)
Definition st_server : St :=
  Eval vm_compute in
    let st := after (register_node "mkey:aa" "nodekey:bb" "alice" false "" true) st_new in
    mkSt (store st) (world (after (create_preauth_key true false 0 "beta" None) st)).
Definition foreign_key : string :=
  Eval vm_compute in
    match st_keys (store (after reload_keys_from_disk st_server)) with
    | k :: _ => pk_key k | [] => "" end.

Lemma foreign_key_lost_witness :
  (consume_preauth foreign_key st_server).1 = Ok (Some (mkPreauthClaim false "beta" false)) /\
  (consume_preauth foreign_key (after (update_map_info "mkey:aa" "" "" "" []) st_server)).1
    = Ok None.
Proof.
  split; [vm_compute; reflexivity |].
  pose (ks := st_keys (store (after reload_keys_from_disk st_server))).
  pose (k := match ks with k :: _ => k | [] => mkPreauthKey "" true true true 0 "" true end).
  apply (foreign_key_lost foreign_key st_server ks k "mkey:aa" "" "" "" []);
    try (vm_compute; reflexivity); vm_compute; discriminate.
Defined.
