(* ===== verification/Netmap.v ===== *)
(** * Netmap: the map responses of netmap.cpp

    What a node sees of the mesh: the visibility rule, the JSON form of a
    node, the full map with its peers, packet filter and DNS records, the
    keep-alive and the framed, compressed encoding. The clock is a function
    from the number of readings so far to seconds, since one map reads it
    several times; zstd is the class [Zstd]. *)

From S2P Require Import Prelude.
From S2P Require Import Json.
From S2P Require Import Crypto.
From S2P Require Import State.

(** ** zstd: [None] is a result for which ZSTD_isError holds *)

Class Zstd := {
  zstd_compress : list byte -> option (list byte);
  zstd_decompress : list byte -> option (list byte);
}.

Class ZstdLaws `{!Zstd} := {
  zstd_round_trip p c : zstd_compress p = Some c -> zstd_decompress c = Some p;
}.

(** ** The calendar: gmtime_r and strftime on the fields the code prints *)

Record tm := mkTm {
  tm_year : Z; tm_mon : Z; tm_mday : Z; tm_hour : Z; tm_min : Z; tm_sec : Z }.

(** Days since 1970-01-01 to a date of the proleptic Gregorian calendar, with
    years counted from March. *)
Definition civil (days : Z) : Z * Z * Z :=
  let z := (days + 719468)%Z in
  let era := (z / 146097)%Z in
  let doe := (z mod 146097)%Z in
  let yoe := ((doe - doe / 1460 + doe / 36524 - doe / 146096) / 365)%Z in
  let doy := (doe - (365 * yoe + yoe / 4 - yoe / 100))%Z in
  let mp := ((5 * doy + 2) / 153)%Z in
  let d := (doy - (153 * mp + 2) / 5 + 1)%Z in
  let m := (if (mp <? 10)%Z then mp + 3 else mp - 9)%Z in
  ((yoe + era * 400 + (if (m <=? 2)%Z then 1 else 0))%Z, m, d).

Definition gmtime (t : Z) : tm :=
  let s := (t mod 86400)%Z in
  let '(y, m, d) := civil (t / 86400) in
  mkTm y m d (s / 3600) (s / 60 mod 60) (s mod 60).

Definition pad2 (z : Z) : string :=
  String (code_char (48 + z / 10 mod 10)) (String (code_char (48 + z mod 10)) "").

(** "%Y-%m-%dT%H:%M:%SZ" *)
Definition rfc3339 (t : Z) : string :=
  let g := gmtime t in
  to_string (tm_year g) +:+ "-" +:+ pad2 (tm_mon g) +:+ "-" +:+ pad2 (tm_mday g) +:+ "T" +:+
  pad2 (tm_hour g) +:+ ":" +:+ pad2 (tm_min g) +:+ ":" +:+ pad2 (tm_sec g) +:+ "Z".

(** ** Visibility *)

Definition node_visible_to (self peer : NodeState) : bool :=
  if (ns_id self =? ns_id peer)%Z then true
  else if ns_shared self || ns_shared peer then true
  else bool_decide (ns_token self = ns_token peer).

(** ** Names *)

Definition node_name (n : NodeState) : string :=
  if str_empty (ns_hostname n) then "node-" +:+ ns_stable_id n else ns_hostname n.

(** [name.back()] of an empty string would be undefined. *)
Definition full_name (n : NodeState) (domain : string) : res string :=
  let name := node_name n in
  match str_back name with
  | None => Ub
  | Some c => Ok (if decide (c = "."%char) then name else name +:+ "." +:+ domain +:+ ".")
  end.

Section Netmap.
  Context `{JL : !JsonLib} `{ZS : !Zstd}.
  Context (clock : nat -> Z).

(** The [c]-th reading of the clock, as text. *)
Definition rfc3339_now : M nat string := fun c => (Ok (rfc3339 (clock c)), S c).

Definition addresses (n : NodeState) : list json :=
  [jstr (ns_ipv4 n +:+ "/32"); jstr (ns_ipv6 n +:+ "/128")].

Definition tailcfg_node (node : NodeState) (name created : string) (self : bool) : json :=
  jobj (
    [("ID", jint (ns_id node)); ("StableID", jstr (ns_stable_id node)); ("Name", jstr name);
     ("User", jint 1); ("Key", jstr (ns_node_key node)); ("Machine", jstr (ns_machine_key node))]
    ++ (if str_empty (ns_disco_key node) then [] else [("DiscoKey", jstr (ns_disco_key node))])
    ++ [("Addresses", jarr (addresses node)); ("AllowedIPs", jarr (addresses node))]
    ++ (match ns_endpoints node with
        | [] => []
        | es => [("Endpoints", jarr (jstr <$> es))]
        end)
    ++ [("HomeDERP", jint 0); ("Created", jstr created); ("MachineAuthorized", jbool true);
        ("Online", jbool (ns_online node || self)); ("Cap", jint 131);
        ("Hostinfo", jobj [("Hostname", jstr (ns_hostname node))])]).

Definition node_to_tailcfg (node : NodeState) (domain : string) (self : bool) : M nat json :=
  name ← lift (full_name node domain);
  created ← rfc3339_now;
  mret (tailcfg_node node name created self).

Definition build_register_response : json :=
  jobj [("User", user_profile); ("Login", login_profile); ("NodeKeyExpired", jbool false);
        ("MachineAuthorized", jbool true); ("AuthURL", jstr ""); ("Error", jstr "")].

Definition derp_region (id : Z) (code name node host ipv4 : string) : json :=
  jobj [("RegionID", jint id); ("RegionCode", jstr code); ("RegionName", jstr name);
        ("Nodes", jarr [jobj [("Name", jstr node); ("RegionID", jint id);
                              ("HostName", jstr host); ("IPv4", jstr ipv4);
                              ("CanPort80", jbool true)]])].

Definition default_derp_map : json :=
  jobj [("omitDefaultRegions", jbool true);
        ("Regions", jobj
          [("1", derp_region 1 "nyc" "New York City" "1f" "derp1f.tailscale.com" "199.38.181.104");
           ("2", derp_region 2 "sfo" "San Francisco" "2d" "derp2d.tailscale.com" "192.73.252.65");
           ("4", derp_region 4 "fra" "Frankfurt" "4f" "derp4f.tailscale.com" "185.40.234.219");
           ("8", derp_region 8 "lhr" "London" "8e" "derp8e.tailscale.com" "176.58.92.144")])].

(** The entry of DstPorts for one address. *)
Definition dst_port (cidr : string) : json :=
  jobj [("IP", jstr cidr); ("Ports", jobj [("First", jint 0); ("Last", jint 65535)])].

(** The four arrays build_full_map fills: peers, DNS records, filter sources
    and filter destinations. *)
Record Lists := mkLists {
  ml_peers : list json; ml_extra : list json; ml_src : list json; ml_dst : list json }.

(** The strings add_filter_ips pushes for a node. *)
Definition filter_ips (n : NodeState) : list string :=
  (if str_empty (ns_ipv4 n) then [] else [ns_ipv4 n +:+ "/32"]) ++
  (if str_empty (ns_ipv6 n) then [] else [ns_ipv6 n +:+ "/128"]).

Definition add_filter_ips (n : NodeState) (l : Lists) : Lists :=
  if str_empty (ns_ipv4 n) && str_empty (ns_ipv6 n) then l
  else mkLists (ml_peers l) (ml_extra l)
         (ml_src l ++ (jstr <$> filter_ips n)) (ml_dst l ++ (dst_port <$> filter_ips n)).

Definition dns_records (domain : string) (n : NodeState) : list json :=
  let host := node_name n in
  [jobj [("Name", jstr (host +:+ "." +:+ domain)); ("Type", jstr "A"); ("Value", jstr (ns_ipv4 n))];
   jobj [("Name", jstr (host +:+ "." +:+ domain)); ("Type", jstr "AAAA");
         ("Value", jstr (ns_ipv6 n))]].

Definition add_dns (domain : string) (n : NodeState) (l : Lists) : Lists :=
  mkLists (ml_peers l) (ml_extra l ++ dns_records domain n) (ml_src l) (ml_dst l).

(** The loop over all nodes, with the clock readings of the peers. *)
Fixpoint map_loop (self : NodeState) (domain : string) (all : list NodeState) (l : Lists)
    : M nat Lists :=
  match all with
  | [] => mret l
  | n :: all =>
      if negb (node_visible_to self n) then map_loop self domain all l
      else
        let l := add_dns domain n (add_filter_ips n l) in
        if (ns_id n =? ns_id self)%Z then map_loop self domain all l
        else
          p ← node_to_tailcfg n domain false;
          map_loop self domain all
            (mkLists (ml_peers l ++ [p]) (ml_extra l) (ml_src l) (ml_dst l))
  end.

Definition or_default (l d : list json) : json := jarr (match l with [] => d | _ => l end).

Definition build_full_map (self : NodeState) (all : list NodeState) (domain : string)
    : M nat json :=
  l ← map_loop self domain all (mkLists [] [] [] []);
  let allow := jarr [jobj [("SrcIPs", or_default (ml_src l) [jstr "*"]);
                           ("DstPorts", or_default (ml_dst l) [dst_port "*"])]] in
  now ← rfc3339_now;
  node ← node_to_tailcfg self domain true;
  mret (jobj
    [("KeepAlive", jbool false); ("ControlTime", jstr now); ("Node", node);
     ("DERPMap", default_derp_map); ("Peers", jarr (ml_peers l));
     ("DNSConfig", jobj
        [("Resolvers", jarr []); ("FallbackResolvers", jarr []);
         ("Domains", jarr [jstr domain]); ("Proxied", jbool true);
         ("Routes", jobj [(domain, jarr [])]); ("ExtraRecords", jarr (ml_extra l))]);
     ("Domain", jstr domain); ("PacketFilter", allow);
     ("UserProfiles", jarr [jobj [("ID", jint 1); ("LoginName", jstr "wirebone@local");
                                  ("DisplayName", jstr "wirebone")]])]).

Definition build_keepalive : M nat json :=
  now ← rfc3339_now;
  mret (jobj [("KeepAlive", jbool true); ("ControlTime", jstr now)]).

(** The flag is ignored, as in the code: every frame is compressed. *)
Definition encode_map_frame (msg : json) (zstd : bool) : res (list byte) :=
  text ← json_dump msg;
  payload ← from_option_or (RuntimeError "zstd compress failed")
              (zstd_compress (bytes_of_string text));
  let len := wrap_u32 (Z.of_nat (length payload)) in
  mret ([u8 len; u8 (Z.shiftr len 8); u8 (Z.shiftr len 16); u8 (Z.shiftr len 24)] ++ payload).

End Netmap.

(** ** What a client reads off a map *)

Section Client.
  Context `{JL : !JsonLib} `{ZS : !Zstd}.

(** The map lists a peer with this machine key. *)
Definition has_peer (resp : json) (machine : string) : Prop :=
  exists ps p, json_find resp "Peers" = Some ps /\ p ∈ json_items ps /\
    json_find p "Machine" = Some (jstr machine).

(** The first packet-filter rule allows [s] as a source. *)
Definition src_allowed (resp : json) (s : string) : Prop :=
  exists pf rule l, json_find resp "PacketFilter" = Some pf /\ json_items pf = [rule] /\
    json_find rule "SrcIPs" = Some l /\ jstr s ∈ json_items l.

(** ... and as a destination, on all ports. *)
Definition dst_allowed (resp : json) (s : string) : Prop :=
  exists pf rule l, json_find resp "PacketFilter" = Some pf /\ json_items pf = [rule] /\
    json_find rule "DstPorts" = Some l /\ dst_port s ∈ json_items l.

(** The little-endian length of a frame, and its decoding by a client. *)
Definition le_value (l : list byte) : Z := fold_right (fun b a => bz b + 256 * a)%Z 0%Z l.

Definition decode_map_frame (frame : list byte) : option json :=
  let payload := drop 4 frame in
  if (le_value (take 4 frame) =? Z.of_nat (length payload))%Z then
    text ← zstd_decompress payload;
    match json_parse (string_of_bytes text) with Ok j => Some j | _ => None end
  else None.

(** The nodes a map shows, and those it lists as peers. *)
Definition visible (self : NodeState) (all : list NodeState) : list NodeState :=
  List.filter (node_visible_to self) all.

Definition map_peers (self : NodeState) (all : list NodeState) : list NodeState :=
  List.filter (fun n => negb (ns_id n =? ns_id self)%Z) (visible self all).

End Client.

(** ** Lemmas *)

Lemma str_back_Some s : s <> "" -> exists c, str_back s = Some c.
Proof.
  induction s as [|c s IH]; [done |]. intros _. destruct s as [|d s]; [by exists c |].
  apply IH. done.
Qed.

Lemma node_name_nonempty n : node_name n <> "".
Proof. unfold node_name. by destruct (ns_hostname n). Qed.

Lemma full_name_ok n domain : exists name, full_name n domain = Ok name.
Proof.
  unfold full_name. destruct (str_back_Some _ (node_name_nonempty n)) as [c ->]. eauto.
Qed.

Lemma node_visible_to_sym a b : node_visible_to a b = node_visible_to b a.
Proof.
  unfold node_visible_to. rewrite (Z.eqb_sym (ns_id a)), (orb_comm (ns_shared a)).
  destruct (ns_id b =? ns_id a)%Z, (ns_shared b || ns_shared a); try done.
  apply bool_decide_ext. split; by intros ->.
Qed.

Lemma node_visible_to_iff a b :
  node_visible_to a b = true <->
  ns_id a = ns_id b \/ ns_shared a = true \/ ns_shared b = true \/ ns_token a = ns_token b.
Proof.
  unfold node_visible_to.
  destruct (Z.eqb_spec (ns_id a) (ns_id b)); [tauto |].
  destruct (ns_shared a), (ns_shared b); simpl; try tauto.
  rewrite bool_decide_eq_true. intuition congruence.
Qed.

Lemma visible_visible self all : visible self (visible self all) = visible self all.
Proof.
  induction all as [|n all IH]; [done |]. unfold visible in *. simpl.
  destruct (node_visible_to self n) eqn:E; [| done]. simpl. by rewrite E, IH.
Qed.

Section NetmapFacts.
  Context `{JL : !JsonLib} `{JLaws : !JsonLaws}.
  Context (clock : nat -> Z).

(** The JSON of a peer, up to the instant it was built. *)
Definition peer_form (domain : string) (n : NodeState) (p : json) : Prop :=
  exists name c, full_name n domain = Ok name /\
    p = tailcfg_node n name (rfc3339 (clock c)) false.

Lemma node_to_tailcfg_eq n domain self c :
  exists name, full_name n domain = Ok name /\
    node_to_tailcfg clock n domain self c = (Ok (tailcfg_node n name (rfc3339 (clock c)) self), S c).
Proof.
  destruct (full_name_ok n domain) as [name E]. exists name. split; [done |].
  unfold node_to_tailcfg. mstep. by rewrite E.
Qed.

Lemma add_filter_ips_eq n l :
  add_filter_ips n l = mkLists (ml_peers l) (ml_extra l)
    (ml_src l ++ (jstr <$> filter_ips n)) (ml_dst l ++ (dst_port <$> filter_ips n)).
Proof.
  unfold add_filter_ips, filter_ips. destruct (str_empty (ns_ipv4 n)), (str_empty (ns_ipv6 n));
    simpl; rewrite ?app_nil_r; by destruct l.
Qed.

Lemma map_loop_spec self domain all l c :
  exists ps c',
    map_loop clock self domain all l c =
      (Ok (mkLists (ml_peers l ++ ps)
         (ml_extra l ++ (visible self all ≫= dns_records domain))
         (ml_src l ++ (jstr <$> (visible self all ≫= filter_ips)))
         (ml_dst l ++ (dst_port <$> (visible self all ≫= filter_ips)))), c') /\
    Forall2 (peer_form domain) (map_peers self all) ps.
Proof.
  revert l c. induction all as [|n all IH]; intros l c.
  - exists [], c. cbn. rewrite !app_nil_r. split; [by destruct l | constructor].
  - unfold map_peers, visible in *. cbn [map_loop List.filter].
    destruct (node_visible_to self n) eqn:Ev; simpl; [| apply IH].
    set (l1 := add_dns domain n (add_filter_ips n l)).
    destruct (ns_id n =? ns_id self)%Z eqn:Ei; simpl.
    + destruct (IH l1 c) as (ps & c' & Heq & Hps). exists ps, c'. rewrite Heq. subst l1.
      rewrite add_filter_ips_eq. unfold add_dns. cbn [ml_peers ml_extra ml_src ml_dst].
      by rewrite ?fmap_app, <-?app_assoc.
    + destruct (node_to_tailcfg_eq n domain false c) as (name & Hn & Ht).
      rewrite (bind_Ok _ _ _ _ _ Ht).
      destruct (IH (mkLists (ml_peers l1 ++ [tailcfg_node n name (rfc3339 (clock c)) false])
        (ml_extra l1) (ml_src l1) (ml_dst l1)) (S c)) as (ps & c' & Heq & Hps).
      eexists (_ :: ps), c'. split.
      { etransitivity; [exact Heq |]. subst l1. rewrite add_filter_ips_eq. unfold add_dns.
        cbn [ml_peers ml_extra ml_src ml_dst]. by rewrite ?fmap_app, <-?app_assoc. }
      constructor; [by exists name, c | done].
Qed.

Lemma map_loop_visible self domain all l c :
  map_loop clock self domain (visible self all) l c = map_loop clock self domain all l c.
Proof.
  revert l c. induction all as [|n all IH]; intros l c; [done |].
  unfold visible in *. cbn [map_loop List.filter].
  destruct (node_visible_to self n) eqn:Ev; cbn [map_loop]; [| apply IH]. rewrite Ev. simpl.
  destruct (_ =? _)%Z; [apply IH |]. unfold mbind, M_bind.
  by destruct (node_to_tailcfg _ _ _ _ _) as [[] ?].
Qed.

Lemma jstr_inj s t : jstr s = jstr t -> s = t.
Proof.
  intros H. apply (f_equal json_get_string) in H. rewrite !get_string_jstr in H. congruence.
Qed.

Lemma dst_port_inj s t : dst_port s = dst_port t -> s = t.
Proof.
  intros H. apply (f_equal (fun j => json_find j "IP")) in H.
  unfold dst_port in H. rewrite !find_jobj in H by nodup_keys. simpl in H.
  apply jstr_inj. congruence.
Qed.

Lemma tailcfg_node_machine n name t self :
  json_find (tailcfg_node n name t self) "Machine" = Some (jstr (ns_machine_key n)).
Proof.
  unfold tailcfg_node. destruct (str_empty (ns_disco_key n)), (ns_endpoints n);
    cbn [app]; by rewrite find_jobj by nodup_keys.
Qed.

(** The fields of a full map a client routes and filters by. *)
Lemma build_full_map_fields self all domain c :
  exists resp c' ps,
    build_full_map clock self all domain c = (Ok resp, c') /\
    Forall2 (peer_form domain) (map_peers self all) ps /\
    json_find resp "Peers" = Some (jarr ps) /\
    json_find resp "PacketFilter" = Some (jarr [jobj
      [("SrcIPs", or_default (jstr <$> (visible self all ≫= filter_ips)) [jstr "*"]);
       ("DstPorts", or_default (dst_port <$> (visible self all ≫= filter_ips))
          [dst_port "*"])]]).
Proof.
  destruct (map_loop_spec self domain all (mkLists [] [] [] []) c) as (ps & c1 & Hl & Hps).
  destruct (node_to_tailcfg_eq self domain true (S c1)) as (name & _ & Ht).
  do 2 eexists. exists ps. unfold build_full_map. rewrite (bind_Ok _ _ _ _ _ Hl). cbv zeta.
  erewrite bind_Ok by done. rewrite (bind_Ok _ _ _ _ _ Ht).
  split; [reflexivity | split; [exact Hps |]].
  split; by rewrite find_jobj by nodup_keys.
Qed.

Lemma elem_of_peers domain all self ps m :
  Forall2 (peer_form domain) (map_peers self all) ps ->
  (exists p, p ∈ ps /\ json_find p "Machine" = Some (jstr m)) <->
  (exists n, n ∈ map_peers self all /\ ns_machine_key n = m).
Proof.
  induction 1 as [|n p ns ps (name & c & _ & ->) _ IH].
  - split; intros (? & []%elem_of_nil & _).
  - split; intros (q & [->|Hq]%elem_of_cons & Hm).
    + exists n. rewrite tailcfg_node_machine in Hm. injection Hm as Hm%jstr_inj.
      split; [apply list_elem_of_here | done].
    + destruct IH as [IH _]. destruct IH as (n' & ? & ?); [eauto |].
      exists n'. by split; [apply list_elem_of_further |].
    + eexists. split; [apply list_elem_of_here |]. rewrite tailcfg_node_machine. by rewrite Hm.
    + destruct IH as [_ IH]. destruct IH as (p' & ? & ?); [eauto |].
      exists p'. by split; [apply list_elem_of_further |].
Qed.

Lemma elem_of_map_peers self all n :
  n ∈ map_peers self all <->
  n ∈ all /\ node_visible_to self n = true /\ ns_id n <> ns_id self.
Proof.
  unfold map_peers, visible. rewrite !list_elem_of_In, !filter_In, <-list_elem_of_In.
  rewrite negb_true_iff, Z.eqb_neq. tauto.
Qed.

Lemma elem_of_visible_ips self all s :
  s ∈ (visible self all ≫= filter_ips) <->
  exists n, n ∈ all /\ node_visible_to self n = true /\ s ∈ filter_ips n.
Proof.
  rewrite list_elem_of_bind. unfold visible. split.
  - intros (n & Hs & Hn). rewrite list_elem_of_In, filter_In, <-list_elem_of_In in Hn.
    exists n. tauto.
  - intros (n & Hn & Hv & Hs). exists n.
    rewrite (list_elem_of_In (List.filter _ _)), filter_In, <-list_elem_of_In. tauto.
Qed.

(** C22: a full map lists exactly the peers its owner may see: when machine keys
    are unique, another node's machine key occurs among the peers if and only
    if the two nodes have different ids and one of them is shared or they carry
    the same token. The right-hand side is symmetric, so peering is mutual, and
    nodes of different unshared groups never appear in each other's maps. The
    map is always built. *)
Theorem full_map_peers_exact self all domain c b :
  NoDup (ns_machine_key <$> all) -> b ∈ all ->
  exists resp c', build_full_map clock self all domain c = (Ok resp, c') /\
    (has_peer resp (ns_machine_key b) <->
       ns_id b <> ns_id self /\
       (ns_shared self = true \/ ns_shared b = true \/ ns_token self = ns_token b)).
Proof.
  intros Hnd Hb. destruct (build_full_map_fields self all domain c)
    as (resp & c' & ps & Heq & Hps & Hp & _).
  exists resp, c'. split; [done |]. unfold has_peer. rewrite Hp.
  transitivity (exists p, p ∈ ps /\ json_find p "Machine" = Some (jstr (ns_machine_key b))).
  { split.
    - intros (? & p & [= <-] & Hin & Hm). rewrite items_jarr in Hin. eauto.
    - intros (p & Hin & Hm). exists (jarr ps), p. by rewrite items_jarr. }
  rewrite (elem_of_peers domain all self) by done.
  transitivity (b ∈ map_peers self all).
  { split; [| by exists b]. intros (n & Hn & Hk).
    replace b with n; [done |]. apply elem_of_map_peers in Hn as [Hn _].
    by apply (NoDup_fmap_eq ns_machine_key all). }
  rewrite elem_of_map_peers, node_visible_to_iff. intuition congruence.
Qed.

(** C29: a node outside the owner's view does not influence the map at all: the
    full map built from every node is the one built from the visible nodes
    alone, with the same clock readings. *)
Theorem full_map_noninterference self all domain c :
  build_full_map clock self all domain c =
  build_full_map clock self (visible self all) domain c.
Proof. unfold build_full_map, mbind, M_bind. by rewrite map_loop_visible. Qed.

Lemma filter_ips_not_star n s : s ∈ filter_ips n -> s <> "*".
Proof.
  unfold filter_ips. intros [H|H]%elem_of_app ->.
  all: destruct (str_empty _); [by apply elem_of_nil in H |].
  all: apply list_elem_of_singleton, (f_equal String.length) in H.
  all: rewrite length_str_app in H; simpl in H; lia.
Qed.

Lemma allowed_iff resp ips :
  ips <> [] ->
  json_find resp "PacketFilter" = Some (jarr [jobj
    [("SrcIPs", or_default (jstr <$> ips) [jstr "*"]);
     ("DstPorts", or_default (dst_port <$> ips) [dst_port "*"])]]) ->
  forall s, (src_allowed resp s <-> s ∈ ips) /\ (dst_allowed resp s <-> s ∈ ips).
Proof.
  intros Hips Hpf s. unfold src_allowed, dst_allowed. rewrite Hpf.
  assert (Hfmap : forall f d, or_default (f <$> ips) d = jarr (f <$> ips)) by by destruct ips.
  rewrite !Hfmap.
  split; split.
  1, 3: intros (pf & rule & l & [= <-] & Hr & Hl & Hs); rewrite items_jarr in Hr;
    injection Hr as <-; rewrite find_jobj in Hl by nodup_keys; injection Hl as <-;
    rewrite items_jarr in Hs; apply list_elem_of_fmap in Hs as (t & Ht & Hin);
    try apply jstr_inj in Ht; try apply dst_port_inj in Ht; by subst.
  all: intros Hs; do 3 eexists; split; [done |]; rewrite items_jarr; split; [done |];
    rewrite find_jobj by nodup_keys; split; [reflexivity |]; rewrite items_jarr;
    by apply list_elem_of_fmap_2.
Qed.

(** The node has an address, and [s] is the prefix of that address alone. *)
Definition host_prefix (n : NodeState) (s : string) : Prop :=
  ns_ipv4 n <> "" /\ s = ns_ipv4 n +:+ "/32" \/ ns_ipv6 n <> "" /\ s = ns_ipv6 n +:+ "/128".

Lemma filter_ips_iff n s : s ∈ filter_ips n <-> host_prefix n s.
Proof.
  unfold filter_ips, host_prefix. rewrite elem_of_app.
  destruct (ns_ipv4 n) as [|c4 s4], (ns_ipv6 n) as [|c6 s6]; cbn [str_empty];
    rewrite ?list_elem_of_singleton, ?elem_of_nil; intuition congruence.
Qed.

Lemma host_prefix_not_star n s : host_prefix n s -> s <> "*".
Proof. rewrite <-filter_ips_iff. apply filter_ips_not_star. Qed.


Context `{ZS : !Zstd} `{ZLaws : !ZstdLaws}.

Lemma le_value_u32 v : (0 <= v < 2 ^ 32)%Z ->
  le_value [u8 v; u8 (Z.shiftr v 8); u8 (Z.shiftr v 16); u8 (Z.shiftr v 24)] = v.
Proof.
  intros Hv. unfold le_value. simpl. rewrite !bz_u8, !Z.shiftr_div_pow2 by lia.
  unfold wrap_u8. change (2 ^ 16)%Z with (2 ^ 8 * 2 ^ 8)%Z.
  change (2 ^ 24)%Z with (2 ^ 8 * 2 ^ 8 * 2 ^ 8)%Z. rewrite <-!Z.div_div by lia.
  Z.to_euclidean_division_equations. lia.
Qed.

(** C39: a client decodes every map frame back to the message: the four-byte
    little-endian length matches the payload, which decompresses to the dumped
    JSON, as long as the compressed payload is under 2^32 bytes. The zstd flag
    makes no difference. *)
Theorem map_frame_round_trip msg flag text payload :
  plain msg -> json_dump msg = Ok text ->
  zstd_compress (bytes_of_string text) = Some payload ->
  (Z.of_nat (length payload) < 2 ^ 32)%Z ->
  exists frame, encode_map_frame msg flag = Ok frame /\
    length frame = (4 + length payload)%nat /\ decode_map_frame frame = Some msg.
Proof.
  intros Hp Hd Hz Hlen. unfold encode_map_frame. rewrite Hd. mstep. rewrite Hz. mstep.
  rewrite wrap_u32_small by lia. eexists. split; [reflexivity |]. split; [done |].
  unfold decode_map_frame. cbn [take drop app]. rewrite le_value_u32 by lia. rewrite Z.eqb_refl.
  rewrite drop_0, (zstd_round_trip _ _ Hz). mstep. rewrite string_of_bytes_of_string.
  by rewrite (parse_dump _ _ Hp Hd).
Qed.


End NetmapFacts.

(** ** A concrete instance, and the theorems at concrete inputs *)

Module SampleZstd.

#[export] Instance sample_zstd : Zstd := {|
  zstd_compress p := Some (u8 40 :: p);
  zstd_decompress c := Some (tail c);
|}.

#[export] Instance sample_zstd_laws : ZstdLaws.
Proof. split. by intros p c [= <-]. Qed.

End SampleZstd.

Import SampleZstd SampleJson.

Example rfc3339_epoch : rfc3339 0 = "1970-01-01T00:00:00Z".
Proof. reflexivity. Qed.

Example rfc3339_leap : rfc3339 1709164799 = "2024-02-28T23:59:59Z" /\
  rfc3339 1709164800 = "2024-02-29T00:00:00Z".
Proof. split; reflexivity. Qed.

(** Three nodes: two groups and a shared hub. *)
Definition alice : NodeState :=
  mkNodeState 1 "1" "alice" "mkey:a" "nodekey:a" "" "100.64.0.1" "fd7a::1" [] true false "red" false.
Definition bob : NodeState :=
  mkNodeState 2 "2" "" "mkey:b" "nodekey:b" "disco" "100.64.0.2" "" ["1.2.3.4:5"] true false "blue" false.
Definition hub : NodeState :=
  mkNodeState 3 "3" "hub." "mkey:h" "nodekey:h" "" "100.64.0.3" "fd7a::3" [] true false "" true.

Lemma full_map_peers_exact_witness :
  NoDup (ns_machine_key <$> [alice; bob; hub]) /\
  exists resp c', build_full_map (fun _ => 0%Z) alice [alice; bob; hub] "wb.net" 0 = (Ok resp, c') /\
    (has_peer resp "mkey:b" <->
       2%Z <> 1%Z /\ (false = true \/ false = true \/ "red" = "blue")).
Proof.
  assert (NoDup (ns_machine_key <$> [alice; bob; hub])) as Hnd by nodup_keys.
  split; [exact Hnd |].
  apply (full_map_peers_exact (fun _ => 0%Z) alice [alice; bob; hub] "wb.net" 0 bob); [exact Hnd |].
  apply (bool_decide_unpack _). vm_compute. exact I.
Defined.


Definition sample_keepalive : json :=
  jobj [("KeepAlive", jbool true); ("ControlTime", jstr (rfc3339 0))].

Lemma map_frame_round_trip_witness :
  build_keepalive (fun _ => 0%Z) 0 = (Ok sample_keepalive, 1) /\
  exists frame, encode_map_frame sample_keepalive false = Ok frame /\
    decode_map_frame frame = Some sample_keepalive.
Proof.
  split; [reflexivity |].
  edestruct (map_frame_round_trip sample_keepalive false) as (f & Hf & _ & Hd).
  - apply plain_obj; [nodup_keys | repeat constructor].
  - reflexivity.
  - reflexivity.
  - vm_compute. reflexivity.
  - exists f. split; [exact Hf | exact Hd].
Defined.
