(* ===== verification/Dns.v ===== *)
(** * Dns: the MagicDNS responder of dns.cpp

    Decoding a query name with its compression pointers, answering a datagram
    from the node table, the receive loop, and parsing the listen address. The
    socket's start and stop are in Lifecycle. A read outside the
    datagram is the outcome [Ub], so memory safety is the absence of it. *)

From S2P Require Import Prelude.
From S2P Require Import Crypto.
From S2P Require Import IpAlloc.
From S2P Require Import Json.
From S2P Require Import State.
From S2P Require Import StateFacts.
From S2P Require Import Netmap.

Definition kTypeA : Z := 1.
Definition kTypeAAAA : Z := 28.
Definition kTypeAny : Z := 255.
Definition kClassIN : Z := 1.

Definition put16 (b : list byte) (v : Z) : list byte :=
  (b ++ [u8 (Z.shiftr v 8)]) ++ [u8 v].

Definition put32 (b : list byte) (v : Z) : list byte :=
  (((b ++ [u8 (Z.shiftr v 24)]) ++ [u8 (Z.shiftr v 16)]) ++ [u8 (Z.shiftr v 8)]) ++ [u8 v].

(** [msg[i]]: defined inside the datagram only. *)
Definition rd (msg : list byte) (i : nat) : res Z :=
  match msg !! i with Some b => Ok (bz b) | None => Ub end.

(** [name.append(msg + off, n)]: the bytes read must be inside the datagram. *)
Definition rd_range (msg : list byte) (off n : nat) : res string :=
  if (off + n <=? length msg)%nat then Ok (string_of_bytes (take n (drop off msg))) else Ub.

(** Remove one trailing dot. *)
Definition pop_dot (name : string) : string :=
  match str_back name with
  | Some c => if decide (c = "."%char) then str_take (String.length name - 1) name else name
  | None => name
  end.

(** The loop of parse_qname; [hops] iterations are left of its 16. [None] is a
    return of false, [Some (name, off)] a return of true. *)
Fixpoint parse_qname_loop (hops : nat) (msg : list byte) (off : nat) (jumped : bool) (end_ : nat)
    (name : string) : res (option (string * nat)) :=
  match hops with
  | O => Ok None
  | S hops =>
      if negb (off <? length msg)%nat then Ok None
      else
        lab ← rd msg off;
        if (lab =? 0)%Z then
          let off := S off in
          let end_ := if jumped then end_ else off in
          let off := if jumped then end_ else off in
          Ok (Some (pop_dot name, off))
        else if (Z.land lab 192 =? 192)%Z then
          if (length msg <=? off + 1)%nat then Ok None
          else
            lo ← rd msg (off + 1);
            let ptr := Z.lor (Z.shiftl (Z.land lab 63) 8) lo in
            let end_ := if jumped then end_ else (off + 2)%nat in
            parse_qname_loop hops msg (Z.to_nat ptr) true end_ name
        else
          let off := S off in
          let n := Z.to_nat lab in
          if (length msg <? off + n)%nat then Ok None
          else
            label ← rd_range msg off n;
            parse_qname_loop hops msg (off + n) jumped end_ (name +:+ label +:+ ".")
  end.

Definition parse_qname (msg : list byte) (off : nat) : res (option (string * nat)) :=
  parse_qname_loop 16 msg off false off "".

Definition lower_copy (s : string) : string := str_lower s.

(** The host and port of a listen address; std::stoi may throw, and the port
    keeps its low 16 bits. *)
Definition parse_hostport (s : string) : res (string * Z) :=
  match str_rfind ":"%char s with
  | None => port ← stoi s; Ok ("0.0.0.0", wrap_u16 port)
  | Some colon =>
      let host := str_take colon s in
      let host := if str_empty host then "0.0.0.0" else host in
      port ← stoi (str_drop (colon + 1) s);
      Ok (host, wrap_u16 port)
  end.

(** The comparison of a queried name with a node's names. *)
Definition dns_match (want domain : string) (n : NodeState) : bool :=
  let host := lower_copy (node_name n) in
  let fqdn := host +:+ "." +:+ domain in
  bool_decide (want = host) || bool_decide (want = fqdn) || bool_decide (want = fqdn +:+ ".").

(** A resource record appended to the response: a pointer to the question's
    name, type, class, a TTL of 30 seconds, length and data. *)
Definition add_rr (resp : list byte) (type : Z) (data : list byte) : list byte :=
  let resp := resp ++ [u8 192] ++ [u8 12] in
  let resp := put16 resp type in
  let resp := put16 resp kClassIN in
  let resp := put32 resp 30 in
  let resp := put16 resp (wrap_u16 (Z.of_nat (length data))) in
  resp ++ data.

(** The header of the response, before the answers are counted. *)
Definition answer_header (q : list byte) (found : bool) : list byte :=
  let resp := take 12 q in
  let resp := <[2%nat := u8 129]> resp in
  let resp := <[3%nat := u8 (if found then 128 else 131)]> resp in
  let resp := <[6%nat := u8 0]> (<[7%nat := u8 0]> resp) in
  let resp := <[8%nat := u8 0]> (<[9%nat := u8 0]> resp) in
  <[10%nat := u8 0]> (<[11%nat := u8 0]> resp).

Section Dns.
  Context `{Inet : !InetLib}.

(** The answers for a found record, with their number. *)
Definition add_answers (qtype : Z) (ipv4 ipv6 : string) (resp : list byte) : list byte * Z :=
  let '(resp, answers) :=
    if ((qtype =? kTypeA)%Z || (qtype =? kTypeAny)%Z) && negb (str_empty ipv4) then
      match inet_pton4 ipv4 with
      | Some a4 => (add_rr resp kTypeA a4, 1%Z)
      | None => (resp, 0%Z)
      end
    else (resp, 0%Z) in
  if ((qtype =? kTypeAAAA)%Z || (qtype =? kTypeAny)%Z) && negb (str_empty ipv6) then
    match inet_pton6 ipv6 with
    | Some a6 => (add_rr resp kTypeAAAA a6, (answers + 1)%Z)
    | None => (resp, answers)
    end
  else (resp, answers).

(** [None] is a return of false: nothing is sent. *)
Definition answer (domain_ : string) (nodes : list NodeState) (q : list byte)
    : res (option (list byte)) :=
  if (length q <? 12)%nat then Ok None
  else
    q2 ← rd q 2; q3 ← rd q 3;
    let flags := Z.lor (Z.shiftl q2 8) q3 in
    if negb (Z.land flags 32768 =? 0)%Z then Ok None
    else
      q4 ← rd q 4; q5 ← rd q 5;
      let qd := Z.lor (Z.shiftl q4 8) q5 in
      if (qd <? 1)%Z then Ok None
      else
        name ← parse_qname q 12;
        match name with
        | None => Ok None
        | Some (qname, off) =>
            if (length q <? off + 4)%nat then Ok None
            else
              t0 ← rd q off; t1 ← rd q (off + 1);
              let qtype := Z.lor (Z.shiftl t0 8) t1 in
              let off := (off + 4)%nat in
              let want := lower_copy qname in
              let domain := lower_copy domain_ in
              let found := find_first (dns_match want domain) nodes in
              let resp := answer_header q (match found with Some _ => true | None => false end)
                          ++ take (off - 12) (drop 12 q) in
              match found with
              | None => Ok (Some resp)
              | Some n =>
                  let '(resp, answers) := add_answers qtype (ns_ipv4 n) (ns_ipv6 n) resp in
                  let resp := <[6%nat := u8 (Z.shiftr answers 8)]> resp in
                  Ok (Some (<[7%nat := u8 answers]> resp))
              end
        end.

(** One round of the loop of MagicDns::loop: the datagram to send back, if
    any, for what recvfrom returned. *)
Definition dns_round (domain : string) (nodes : list NodeState) (n : Z) (buf : list byte)
    : res (option (list byte)) :=
  if (n <=? 0)%Z then Ok None
  else
    r ← answer domain nodes (take (Z.to_nat n) buf);
    match r with
    | Some resp => if decide (resp = []) then Ok None else Ok (Some resp)
    | None => Ok None
    end.

(** What a round of the loop meets: the flag at its head, what recvfrom returned
    and left in the buffer, the flag again after a failed receive, and the
    registry at the time of the answer. *)
Record Recv := mkRecv {
  rc_stop : bool;
  rc_n : Z;
  rc_buf : list byte;
  rc_stop_after : bool;
  rc_nodes : list NodeState;
}.

(** MagicDns::loop over its rounds: the datagrams it sends, and whether it has
    ended. *)
Fixpoint dns_loop (domain : string) (rounds : list Recv) : res (list (list byte) * bool) :=
  match rounds with
  | [] => Ok ([], false)
  | r :: rounds =>
      if rc_stop r then Ok ([], true)
      else if (rc_n r <=? 0)%Z && rc_stop_after r then Ok ([], true)
      else
        sent ← dns_round domain (rc_nodes r) (rc_n r) (rc_buf r);
        rest ← dns_loop domain rounds;
        Ok (match sent with Some d => d :: rest.1 | None => rest.1 end, rest.2)
  end.

(** The round sees the flag that stop sets. *)
Definition sees_stop (r : Recv) : bool := rc_stop r || ((rc_n r <=? 0)%Z && rc_stop_after r).

End Dns.

(** ** The wire format, as a reference *)

Definition encode_label (l : string) : list byte :=
  u8 (Z.of_nat (String.length l)) :: bytes_of_string l.

Definition encode_name (ls : list string) : list byte := (ls ≫= encode_label) ++ [u8 0].

(** A label a resolver may send: 1 to 63 bytes. *)
Definition label_ok (l : string) : Prop := (1 <= String.length l <= 63)%nat.

Definition encode_query (id : Z) (rd : bool) (ls : list string) (qtype : Z) : list byte :=
  be16 id ++ be16 (if rd then 256 else 0) ++ be16 1 ++ be16 0 ++ be16 0 ++ be16 0 ++
  encode_name ls ++ be16 qtype ++ be16 kClassIN.

Definition encode_rr (type : Z) (data : list byte) : list byte :=
  be16 49164 ++ be16 type ++ be16 kClassIN ++ be32 30 ++
  be16 (Z.of_nat (length data)) ++ data.

Definition encode_response (id rcode : Z) (ls : list string) (qtype : Z) (rrs : list (list byte))
    : list byte :=
  be16 id ++ be16 (33152 + rcode) ++ be16 1 ++ be16 (Z.of_nat (length rrs)) ++ be16 0 ++ be16 0 ++
  encode_name ls ++ be16 qtype ++ be16 kClassIN ++ concat rrs.

(** The records a node answers a query type with. *)
Definition answer_rrs `{Inet : !InetLib} (qtype : Z) (ipv4 ipv6 : string) : list (list byte) :=
  (if bool_decide (qtype ∈ [1; 255]%Z) then
     match inet_pton4 ipv4 with Some a => [encode_rr 1 a] | None => [] end
   else []) ++
  (if bool_decide (qtype ∈ [28; 255]%Z) then
     match inet_pton6 ipv6 with Some a => [encode_rr 28 a] | None => [] end
   else []).

(** ** Lemmas *)

Lemma rd_lt msg i : (i < length msg)%nat -> exists v, rd msg i = Ok v /\ (0 <= v < 256)%Z.
Proof.
  intros Hi. unfold rd. destruct (lookup_lt_is_Some_2 msg i Hi) as [b ->].
  eexists. split; [done | apply bz_range].
Qed.

Lemma rd_app pre b post : rd (pre ++ b :: post) (length pre) = Ok (bz b).
Proof. unfold rd. by rewrite list_lookup_middle. Qed.

(** Step over a read that is inside the datagram. *)
Ltac rd_step :=
  match goal with
  | |- context [rd ?m ?i] =>
      let v := fresh "v" in let Hv := fresh "Hv" in let E := fresh "E" in
      destruct (rd_lt m i) as (v & E & Hv); [lia |]; rewrite E; cbn [mbind res_bind]
  end.

Lemma rd_range_le msg off n : (off + n <= length msg)%nat ->
  rd_range msg off n = Ok (string_of_bytes (take n (drop off msg))).
Proof. intros H. unfold rd_range. by rewrite (proj2 (Nat.leb_le _ _) H). Qed.

(** Decoding a name stays inside the datagram, and the offset after it too. *)
Lemma parse_qname_loop_safe hops msg off jumped end_ name :
  (jumped = true -> end_ <= length msg)%nat ->
  exists r, parse_qname_loop hops msg off jumped end_ name = Ok r /\
    forall name' off', r = Some (name', off') ->
      (off' <= length msg /\ (if jumped then off' = end_ else off < off'))%nat.
Proof.
  revert off jumped end_ name. induction hops as [|hops IH]; intros off jumped end_ name Hend;
    [by exists None |]. cbn [parse_qname_loop].
  destruct (off <? length msg)%nat eqn:Eo; [| by exists None]. solve_guards. cbn [negb]. rd_step.
  destruct (v =? 0)%Z eqn:Ev; cbv zeta.
  { eexists. split; [reflexivity |]. intros ? ? [= <- <-]. destruct jumped; [auto | lia]. }
  destruct (Z.land v 192 =? 192)%Z.
  - destruct (length msg <=? off + 1)%nat eqn:E1; [by exists None |]. solve_guards. rd_step.
    edestruct (IH (Z.to_nat (Z.lor (Z.shiftl (Z.land v 63) 8) v0)) true
      (if jumped then end_ else (off + 2)%nat) name) as (r & -> & Hr).
    { intros _. destruct jumped; [auto | lia]. }
    exists r. split; [done |]. intros name' off' ->.
    destruct (Hr _ _ eq_refl) as [H1 ->]. destruct jumped; [done | lia].
  - destruct (length msg <? S off + Z.to_nat v)%nat eqn:E1; [by exists None |]. solve_guards.
    rewrite rd_range_le by lia. cbn [mbind res_bind].
    destruct (IH (S off + Z.to_nat v)%nat jumped end_
      (name +:+ string_of_bytes (take (Z.to_nat v) (drop (S off) msg)) +:+ ".")) as (r & -> & Hr);
      [done |].
    exists r. split; [done |]. intros name' off' ->.
    destruct (Hr _ _ eq_refl) as [H1 H2]. split; [done |]. destruct jumped; [done | lia].
Qed.

Lemma parse_qname_safe msg off :
  exists r, parse_qname msg off = Ok r /\
    forall name' off', r = Some (name', off') -> (off < off' <= length msg)%nat.
Proof.
  destruct (parse_qname_loop_safe 16 msg off false off "") as (r & Hr & H); [done |].
  exists r. split; [done |]. intros ? ? Hs. destruct (H _ _ Hs). lia.
Qed.

Lemma add_rr_eq resp type data :
  add_rr resp type data =
  resp ++ [u8 192; u8 12] ++ be16 type ++ be16 kClassIN ++ be32 30 ++
    be16 (wrap_u16 (Z.of_nat (length data))) ++ data.
Proof. unfold add_rr, put16, put32, be16, be32. cbv zeta. by rewrite <-!app_assoc. Qed.

Lemma length_add_rr resp type data :
  length (add_rr resp type data) = (length resp + 12 + length data)%nat.
Proof. rewrite add_rr_eq, !length_app. simpl. lia. Qed.

Lemma length_answer_header q found : (12 <= length q)%nat -> length (answer_header q found) = 12.
Proof. intros. unfold answer_header. rewrite !length_insert, length_take. lia. Qed.

Section DnsFacts.
  Context `{Inet : !InetLib} `{ILaws : !InetLaws}.

Lemma be16_wrap v : be16 (wrap_u16 v) = be16 v.
Proof.
  unfold be16. rewrite !Z.shiftr_div_pow2 by lia.
  f_equal; [|f_equal]; apply bz_inj; rewrite !bz_u8; wrap_lia.
Qed.

Lemma add_rr_encode resp type data : add_rr resp type data = resp ++ encode_rr type data.
Proof. rewrite add_rr_eq, be16_wrap. done. Qed.

Lemma qtype_in qtype t :
  ((qtype =? t)%Z || (qtype =? kTypeAny)%Z)%bool = bool_decide (qtype ∈ [t; 255]%Z).
Proof.
  unfold kTypeAny. symmetry. destruct (Z.eqb_spec qtype t), (Z.eqb_spec qtype 255); simpl;
    rewrite ?bool_decide_eq_true, ?bool_decide_eq_false, !elem_of_cons, elem_of_nil; tauto.
Qed.

Lemma add_answers_spec qtype ipv4 ipv6 resp :
  add_answers qtype ipv4 ipv6 resp =
    (resp ++ concat (answer_rrs qtype ipv4 ipv6),
     Z.of_nat (length (answer_rrs qtype ipv4 ipv6))).
Proof.
  unfold add_answers, answer_rrs. rewrite !qtype_in. change kTypeA with 1%Z.
  change kTypeAAAA with 28%Z.
  assert (Hne4 : str_empty ipv4 = true -> inet_pton4 ipv4 = None).
  { destruct ipv4; [intros _; apply pton4_empty | done]. }
  assert (Hne6 : str_empty ipv6 = true -> inet_pton6 ipv6 = None).
  { destruct ipv6; [intros _; apply pton6_empty | done]. }
  destruct (bool_decide (qtype ∈ [1; 255]%Z)), (bool_decide (qtype ∈ [28; 255]%Z)),
    (str_empty ipv4), (str_empty ipv6); cbn [andb negb];
    rewrite ?Hne4, ?Hne6 by done;
    try destruct (inet_pton4 ipv4); try destruct (inet_pton6 ipv6);
    cbn [app concat length]; rewrite ?add_rr_encode, ?app_nil_r, <-?app_assoc; done.
Qed.

Lemma length_encode_rr type data : length (encode_rr type data) = (12 + length data)%nat.
Proof. unfold encode_rr. rewrite !length_app. simpl. lia. Qed.

Lemma answer_rrs_bounds qtype ipv4 ipv6 :
  (length (answer_rrs qtype ipv4 ipv6) <= 2 /\
   length (concat (answer_rrs qtype ipv4 ipv6)) <= 44)%nat.
Proof.
  unfold answer_rrs. pose proof (pton4_length ipv4). pose proof (pton6_length ipv6).
  do 2 case_bool_decide; destruct (inet_pton4 ipv4) as [a4|], (inet_pton6 ipv6) as [a6|];
    cbn [app concat length]; rewrite ?app_nil_r, ?length_app, ?length_encode_rr; simpl;
    try pose proof (H _ eq_refl); try pose proof (H0 _ eq_refl); lia.
Qed.

Lemma answer_header_id q found : (12 <= length q)%nat ->
  take 3 (answer_header q found) = take 2 q ++ [u8 129].
Proof.
  intros Hq. do 3 (destruct q as [|? q]; [simpl in Hq; lia |]). reflexivity.
Qed.

(** No datagram, however malformed, makes the responder read outside it or
    throw. Whatever it answers repeats the query's id, is marked as a response,
    and is at most 44 bytes longer than the query. *)
Lemma answer_safe domain nodes q :
  exists r, answer domain nodes q = Ok r /\
    forall resp, r = Some resp ->
      take 3 resp = take 2 q ++ [u8 129] /\ (length resp <= length q + 44)%nat.
Proof.
  unfold answer. destruct (length q <? 12)%nat eqn:Eq; [by exists None |]. solve_guards.
  do 4 rd_step. case_match; [by exists None |]. case_match; [by exists None |].
  destruct (parse_qname_safe q 12) as ([[qname off]|] & -> & Hr); cbn [mbind res_bind];
    [| by exists None].
  specialize (Hr _ _ eq_refl).
  destruct (length q <? off + 4)%nat eqn:Eo; [by exists None |]. solve_guards.
  do 2 rd_step. cbv zeta.
  destruct (find_first _ nodes) as [n|].
  - rewrite add_answers_spec. eexists. split; [reflexivity |]. intros resp [= <-].
    rewrite !take_insert_ge by lia.
    rewrite !take_app_le by (rewrite ?length_app, ?length_answer_header by lia; lia).
    rewrite !length_insert, !length_app.
    rewrite answer_header_id, length_answer_header, length_take, length_drop by lia.
    split; [done |].
    match goal with |- context [answer_rrs ?t ?a ?b] => pose proof (answer_rrs_bounds t a b) end.
    lia.
  - eexists. split; [reflexivity |]. intros resp [= <-].
    rewrite take_app_le, answer_header_id, length_app, length_answer_header, length_take, length_drop
      by (rewrite ?length_answer_header by lia; lia).
    split; [done | lia].
Qed.

(** C33: the responder survives every datagram. Whatever is received, however
    malformed (compression pointers, label lengths and truncation are all
    checked), the loop neither reads outside the datagram nor throws, so its
    thread never dies; it ends in the first round that sees the stop flag and
    in no other; and every datagram it sends answers one it received: same id,
    marked as a response, and at most 44 bytes longer, so it amplifies little. *)
Theorem dns_loop_survives domain rounds : exists sent ended,
  dns_loop domain rounds = Ok (sent, ended) /\ ended = existsb sees_stop rounds /\
  Forall (fun resp => exists r, r ∈ rounds /\
    let q := take (Z.to_nat (rc_n r)) (rc_buf r) in
    take 3 resp = take 2 q ++ [u8 129] /\ (length resp <= length q + 44)%nat) sent.
Proof.
  induction rounds as [|r rounds (sent & ended & IH & -> & Hs)]; [by exists [], false |].
  cbn [dns_loop existsb]. unfold sees_stop at 1. destruct (rc_stop r); [by exists [], true |].
  cbn [orb]. destruct ((rc_n r <=? 0)%Z && rc_stop_after r) eqn:E; [by exists [], true |].
  assert (Forall (fun resp => exists r0, r0 ∈ r :: rounds /\
    let q := take (Z.to_nat (rc_n r0)) (rc_buf r0) in
    take 3 resp = take 2 q ++ [u8 129] /\ (length resp <= length q + 44)%nat) sent) as Hs'.
  { eapply Forall_impl; [exact Hs |]. intros resp (r0 & H0 & H). exists r0. split; [by right | exact H]. }
  unfold dns_round. destruct (rc_n r <=? 0)%Z; cbn [mbind res_bind]; rewrite ?IH;
    cbn [mbind res_bind fst snd].
  { by eexists _, _. }
  destruct (answer_safe domain (rc_nodes r) (take (Z.to_nat (rc_n r)) (rc_buf r))) as (a & -> & Ha).
  cbn [mbind res_bind]. destruct a as [resp|]; [destruct (decide (resp = [])) |];
    cbn [mbind res_bind]; rewrite ?IH; cbn [mbind res_bind fst snd]; eexists _, _; split; try reflexivity;
    (split; [done |]); try exact Hs'.
  constructor; [| exact Hs']. exists r. split; [by left |]. by apply Ha.
Qed.

(** *** Names on the wire *)

Lemma label_no_pointer l : label_ok l ->
  let lab := bz (u8 (Z.of_nat (String.length l))) in
  lab = Z.of_nat (String.length l) /\ (lab =? 0)%Z = false /\ (Z.land lab 192 =? 192)%Z = false.
Proof.
  intros Hl. unfold label_ok in Hl. cbv zeta. rewrite bz_u8, wrap_u8_small by lia.
  split; [done |]. split; [lia |]. apply Z.eqb_neq.
  replace (Z.land (Z.of_nat (String.length l)) 192) with 0%Z; [done |].
  apply Z.bits_inj'. intros k Hk. rewrite Z.land_spec, Z.bits_0.
  destruct (Z_lt_dec k 6).
  - replace (Z.testbit 192 k) with false; [by rewrite andb_false_r |].
    assert (k = 0 \/ k = 1 \/ k = 2 \/ k = 3 \/ k = 4 \/ k = 5)%Z as Hc by lia.
    by destruct Hc as [->|[->|[->|[->|[->| ->]]]]].
  - rewrite (Z.bits_above_log2 (Z.of_nat _)); [done | lia |].
    apply Z.log2_lt_pow2; [lia |].
    apply Z.lt_le_trans with (2 ^ 6)%Z; [lia | apply Z.pow_le_mono_r; lia].
Qed.

(** The labels, each followed by a dot. *)
Fixpoint dotted (ls : list string) : string :=
  match ls with [] => "" | l :: ls => l +:+ "." +:+ dotted ls end.

Lemma dotted_join ls : ls <> [] -> dotted ls = str_join "."%char ls +:+ ".".
Proof.
  induction ls as [|l ls IH]; [done |]. intros _. destruct ls as [|l2 ls]; [done |].
  change (dotted (l :: l2 :: ls)) with (l +:+ "." +:+ dotted (l2 :: ls)).
  rewrite IH by done.
  change (str_join "." (l :: l2 :: ls)) with (l +:+ String "." (str_join "." (l2 :: ls))).
  by rewrite str_app_assoc.
Qed.

Lemma str_back_snoc s c : str_back (s +:+ String c "") = Some c.
Proof.
  induction s as [|d s IH]; [done |]. simpl. rewrite IH. by destruct s.
Qed.

Lemma pop_dot_dotted ls : pop_dot (dotted ls) = str_join "."%char ls.
Proof.
  destruct ls as [|l ls]; [done |]. rewrite dotted_join by done. unfold pop_dot.
  rewrite str_back_snoc, decide_True by done. rewrite length_str_app. simpl.
  rewrite Nat.add_sub. apply str_take_app.
Qed.

Lemma drop_app_S {A} (pre : list A) x post : drop (S (length pre)) (pre ++ x :: post) = post.
Proof. induction pre; simpl; [by rewrite drop_0 | done]. Qed.

Lemma parse_label hops pre l post jumped end_ name :
  label_ok l ->
  parse_qname_loop (S hops) (pre ++ encode_label l ++ post) (length pre) jumped end_ name =
  parse_qname_loop hops ((pre ++ encode_label l) ++ post) (length (pre ++ encode_label l))
    jumped end_ (name +:+ l +:+ ".").
Proof.
  intros Hl. destruct (label_no_pointer l Hl) as (Hv & H0 & H192).
  cbn [parse_qname_loop]. unfold encode_label in *. cbn [app].
  assert (Hlen : length (pre ++ u8 (Z.of_nat (String.length l)) :: bytes_of_string l ++ post) =
    (length pre + S (String.length l + length post))%nat).
  { rewrite length_app. simpl. by rewrite length_app, length_bytes_of_string. }
  rewrite Hlen. replace (_ <? _)%nat with true by (symmetry; apply Nat.ltb_lt; lia). cbn [negb].
  rewrite rd_app.
  cbn [mbind res_bind]. rewrite H0, H192, Hv, Nat2Z.id. cbv zeta.
  replace (_ <? _)%nat with false by (symmetry; apply Nat.ltb_ge; lia).
  rewrite rd_range_le by (rewrite Hlen; lia). cbn [mbind res_bind].
  rewrite drop_app_S, <-length_bytes_of_string, take_app_length, string_of_bytes_of_string.
  rewrite <-app_assoc, length_app. cbn [length app]. rewrite length_bytes_of_string.
  by replace (S (length pre) + String.length l)%nat
    with (length pre + S (String.length l))%nat by lia.
Qed.

Lemma parse_name ls hops pre post end_ name :
  Forall label_ok ls ->
  parse_qname_loop hops (pre ++ encode_name ls ++ post) (length pre) false end_ name =
  Ok (if (length ls <? hops)%nat
      then Some (pop_dot (name +:+ dotted ls), (length pre + length (encode_name ls))%nat)
      else None).
Proof.
  intros Hls. revert hops pre name. induction Hls as [|l ls Hl Hls IH]; intros hops pre name.
  - destruct hops; [done |]. cbn [parse_qname_loop encode_name mbind list_bind app dotted].
    rewrite length_app, str_app_nil_r. cbn [length].
    replace (_ <? _)%nat with true by (symmetry; apply Nat.ltb_lt; lia). cbn [negb].
    rewrite rd_app.
    cbn [mbind res_bind]. do 3 f_equal. simpl. by rewrite Nat.add_1_r.
  - unfold encode_name in *. cbn [mbind list_bind]. rewrite <-!app_assoc.
    destruct hops as [|hops]; [done |]. rewrite parse_label by done.
    rewrite (app_assoc _ [u8 0] post), IH. rewrite !length_app. cbn [dotted].
    rewrite !str_app_assoc. cbn [length]. do 2 f_equal.
    destruct (length ls <? hops)%nat eqn:E1, (S (length ls) <? S hops)%nat eqn:E2;
      solve_guards; try lia; [| done].
    do 2 f_equal. lia.
Qed.

Lemma be16_read v :
  Z.lor (Z.shiftl (bz (u8 (Z.shiftr v 8))) 8) (bz (u8 v)) = wrap_u16 v.
Proof.
  rewrite !bz_u8, lor_shiftl_add by (try lia; apply wrap_u8_range).
  rewrite Z.shiftr_div_pow2 by lia. wrap_lia.
Qed.

(** A query is its header, the name at offset 12, and the type and class. *)
Lemma query_parts id rec ls qtype :
  exists h0 h1 h2, encode_query id rec ls qtype =
    ([h0; h1; h2; u8 0; u8 0; u8 1; u8 0; u8 0; u8 0; u8 0; u8 0; u8 0] ++
     encode_name ls ++ be16 qtype ++ be16 kClassIN) /\
    [h0; h1] = be16 id /\ (bz h2 = 0 \/ bz h2 = 1)%Z.
Proof.
  exists (u8 (Z.shiftr id 8)), (u8 id), (u8 (if rec then 1 else 0)). split; [| split; [done |]].
  - by destruct rec.
  - destruct rec; [by right | by left].
Qed.

Lemma query_question hdr ls qtype :
  length hdr = 12 -> Forall label_ok ls -> (length ls <= 15)%nat ->
  let q := hdr ++ encode_name ls ++ be16 qtype ++ be16 kClassIN in
  let off := (12 + length (encode_name ls))%nat in
  length q = (off + 4)%nat /\
  parse_qname q 12 = Ok (Some (str_join "."%char ls, off)) /\
  rd q off = Ok (bz (u8 (Z.shiftr qtype 8))) /\ rd q (off + 1) = Ok (bz (u8 qtype)) /\
  take (off + 4 - 12) (drop 12 q) = encode_name ls ++ be16 qtype ++ be16 kClassIN.
Proof.
  intros Hhdr Hls Hn. cbv zeta. rewrite <-Hhdr. repeat split.
  - rewrite !length_app. simpl. lia.
  - unfold parse_qname. rewrite (parse_name ls 16 hdr) by done.
    replace (_ <? 16)%nat with true by (symmetry; apply Nat.ltb_lt; lia).
    cbn [String.append]. by rewrite pop_dot_dotted.
  - rewrite app_assoc, <-length_app. apply rd_app.
  - transitivity (rd (((hdr ++ encode_name ls) ++ [u8 (Z.shiftr qtype 8)]) ++ u8 qtype :: be16 kClassIN)
      (length ((hdr ++ encode_name ls) ++ [u8 (Z.shiftr qtype 8)]))); [| apply rd_app].
    f_equal; [by rewrite <-!app_assoc | rewrite !length_app; simpl; lia].
  - rewrite drop_app_length. apply take_ge. rewrite !length_app. simpl. lia.
Qed.

(** The node found by the code's own comparison. *)
Lemma answer_found domain nodes id rec ls qtype :
  Forall label_ok ls -> (length ls <= 15)%nat -> (0 <= qtype < 65536)%Z ->
  answer domain nodes (encode_query id rec ls qtype) =
  Ok (Some (match find_first (dns_match (lower_copy (str_join "."%char ls)) (lower_copy domain)) nodes
            with
            | None => encode_response id 3 ls qtype []
            | Some n => encode_response id 0 ls qtype (answer_rrs qtype (ns_ipv4 n) (ns_ipv6 n))
            end)).
Proof.
  intros Hls Hn Hq. destruct (query_parts id rec ls qtype) as (h0 & h1 & h2 & Heq & Hid & Hh2).
  rewrite Heq.
  set (hdr := [h0; h1; h2; u8 0; u8 0; u8 1; u8 0; u8 0; u8 0; u8 0; u8 0; u8 0]).
  destruct (query_question hdr ls qtype) as (Hlen & Hpq & Ht0 & Ht1 & Htail); [done.. |].
  set (q := hdr ++ encode_name ls ++ be16 qtype ++ be16 kClassIN) in *.
  unfold answer. rewrite Hlen.
  replace (_ <? 12)%nat with false by (symmetry; apply Nat.ltb_ge; lia).
  change (rd q 2) with (Ok (bz h2)). change (rd q 3) with (Ok 0%Z).
  change (rd q 4) with (Ok 0%Z). change (rd q 5) with (Ok 1%Z).
  cbn [mbind res_bind]. cbv zeta.
  replace (negb _) with false by (destruct Hh2 as [-> | ->]; reflexivity).
  change (Z.lor (Z.shiftl 0 8) 1 <? 1)%Z with false. cbv iota.
  rewrite Hpq. cbn [mbind res_bind]. rewrite Nat.ltb_irrefl, Ht0, Ht1. cbn [mbind res_bind].
  rewrite be16_read, wrap_u16_small, Htail by lia.
  assert (forall f, answer_header q f = be16 id ++ be16 (33152 + (if f then 0 else 3)) ++
    be16 1 ++ be16 0 ++ be16 0 ++ be16 0) as Hh.
  { intros f. rewrite <-Hid. by destruct f. }
  rewrite Hh. destruct (find_first _ nodes) as [n|]; [| done].
  rewrite add_answers_spec. unfold encode_response. do 2 f_equal.
  unfold be16. rewrite <-!app_assoc. cbn [app insert list_insert]. done.
Qed.

(** *** Names up to case *)

(** Two characters are the same up to the case of an ASCII letter; names are
    compared character by character. *)
Definition alphabet : list (Ascii.ascii * Ascii.ascii) :=
  zip (String.list_ascii_of_string "ABCDEFGHIJKLMNOPQRSTUVWXYZ") (String.list_ascii_of_string
    "abcdefghijklmnopqrstuvwxyz").
Definition same_letter (a b : Ascii.ascii) : Prop := a = b \/ (a, b) ∈ alphabet \/ (b, a) ∈ alphabet.
Definition same_name (s t : string) : Prop :=
  Forall2 same_letter (String.list_ascii_of_string s) (String.list_ascii_of_string t).

#[export] Instance same_letter_dec a b : Decision (same_letter a b).
Proof. unfold same_letter. apply _. Defined.

Definition all_chars : list Ascii.ascii := Ascii.ascii_of_nat <$> seq 0 256.

Lemma all_chars_elem c : c ∈ all_chars.
Proof.
  apply list_elem_of_fmap. exists (Ascii.nat_of_ascii c). split; [by rewrite Ascii.ascii_nat_embedding |].
  apply elem_of_seq. pose proof (Ascii.nat_ascii_bounded c). lia.
Qed.

Lemma same_letter_table :
  forallb (fun a => forallb (fun b =>
    Bool.eqb (bool_decide (same_letter a b)) (bool_decide (tolower a = tolower b))) all_chars)
      all_chars = true.
Proof. vm_compute. reflexivity. Qed.

Lemma same_letter_tolower a b : same_letter a b <-> tolower a = tolower b.
Proof.
  pose proof same_letter_table as H. rewrite forallb_forall in H.
  specialize (H a (proj1 (list_elem_of_In _ _) (all_chars_elem a))). rewrite forallb_forall in H.
  specialize (H b (proj1 (list_elem_of_In _ _) (all_chars_elem b))). apply Bool.eqb_prop in H.
  split; intros Hp; eapply bool_decide_eq_true_1; [rewrite <-H | rewrite H];
    apply bool_decide_eq_true_2; exact Hp.
Qed.

Lemma same_name_lower s t : same_name s t <-> str_lower s = str_lower t.
Proof.
  unfold same_name. revert t. induction s as [|a s IH]; intros [|b t]; simpl; split; intros H; try done;
    try (by inv H).
  - inv H. f_equal; [by apply same_letter_tolower | by apply IH].
  - injection H as H1 H2. constructor; [by apply same_letter_tolower | by apply IH].
Qed.

(** The node answers to the name: its host name, alone or in the domain, with or
    without the final dot. *)
Definition answers_to (domain name : string) (n : NodeState) : Prop :=
  let host := if str_empty (ns_hostname n) then "node-" +:+ ns_stable_id n else ns_hostname n in
  same_name name host \/ same_name name (host +:+ "." +:+ domain) \/
  same_name name (host +:+ "." +:+ domain +:+ ".").

Lemma dns_match_spec domain name n :
  dns_match (lower_copy name) (lower_copy domain) n = true <-> answers_to domain name n.
Proof.
  unfold dns_match, lower_copy, answers_to. fold (node_name n). cbv zeta.
  rewrite !orb_true_iff, !bool_decide_eq_true, !same_name_lower, !str_lower_app.
  change (str_lower ".") with ".". rewrite !str_app_assoc. tauto.
Qed.

(** C32: a well-formed query for up to 15 labels is answered: the response
    repeats the id and the question, and carries the addresses of the first
    node that has the queried name, of the queried type (or both for ANY), or
    the NXDOMAIN code when no node has it. A node's names are its host name
    (node-<id> when it gave none) and the host name in the domain, with or
    without a final dot, each compared character by character up to the case
    of letters. *)
Theorem answer_query domain nodes id rec ls qtype :
  Forall label_ok ls -> (length ls <= 15)%nat -> (0 <= qtype < 65536)%Z ->
  let name := str_join "."%char ls in
  (exists before n after, nodes = before ++ n :: after /\ answers_to domain name n /\
     Forall (fun m => ~ answers_to domain name m) before /\
     answer domain nodes (encode_query id rec ls qtype) =
       Ok (Some (encode_response id 0 ls qtype (answer_rrs qtype (ns_ipv4 n) (ns_ipv6 n))))) \/
  (Forall (fun m => ~ answers_to domain name m) nodes /\
   answer domain nodes (encode_query id rec ls qtype) = Ok (Some (encode_response id 3 ls qtype []))).
Proof.
  intros Hls Hn Hq name. rewrite answer_found by done. fold name.
  assert (forall m, dns_match (lower_copy name) (lower_copy domain) m = false <->
    ~ answers_to domain name m) as Hno
    by (intros m; rewrite <-dns_match_spec; by destruct (dns_match _ _ m)).
  destruct (find_first _ nodes) as [n|] eqn:Ef.
  - apply find_first_Some in Ef as (l1 & l2 & -> & Hl1 & Hmatch). left. exists l1, n, l2.
    split; [done |]. split; [by apply dns_match_spec |]. split; [| done].
    eapply Forall_impl; [exact Hl1 |]. intros m. apply Hno.
  - apply find_first_None in Ef. right. split; [| done].
    eapply Forall_impl; [exact Ef |]. intros m. apply Hno.
Qed.

(** A query whose name has 16 labels or more is dropped without any
    response, since every label costs one of the 16 hops meant for compression
    pointers; DNS allows up to 127 labels. *)
Theorem answer_many_labels domain nodes id rec ls qtype :
  Forall label_ok ls -> (16 <= length ls)%nat ->
  answer domain nodes (encode_query id rec ls qtype) = Ok None.
Proof.
  intros Hls Hn. destruct (query_parts id rec ls qtype) as (h0 & h1 & h2 & Heq & Hid & Hh2).
  rewrite Heq.
  set (hdr := [h0; h1; h2; u8 0; u8 0; u8 1; u8 0; u8 0; u8 0; u8 0; u8 0; u8 0]).
  set (q := hdr ++ _). unfold answer.
  change (rd q 2) with (Ok (bz h2)). change (rd q 3) with (Ok 0%Z).
  change (rd q 4) with (Ok 0%Z). change (rd q 5) with (Ok 1%Z).
  cbn [mbind res_bind]. cbv zeta. case_match; [done |]. case_match; [done |]. case_match; [done |].
  unfold parse_qname, q. change 12%nat with (length hdr). rewrite parse_name by done.
  by replace (_ <? 16)%nat with false by (symmetry; apply Nat.ltb_ge; lia).
Qed.

(** *** Listen addresses *)

Lemma str_rfind_app c s t :
  str_rfind c t = None -> str_rfind c (s +:+ String c t) = Some (String.length s).
Proof.
  intros Ht. induction s as [|d s IH]; simpl.
  - by rewrite Ht, decide_True.
  - by rewrite IH.
Qed.

(** A listen address of a host, a colon and a decimal port is split at its
    last colon, so a host may contain colons; an empty host is 0.0.0.0, and a
    port above 65535 is not refused but reduced modulo 65536. *)
Theorem parse_hostport_format host port :
  (0 <= port <= INT_MAX)%Z ->
  parse_hostport (host +:+ ":" +:+ to_string port) =
  Ok (if str_empty host then "0.0.0.0" else host, port mod 2 ^ 16)%Z.
Proof.
  intros Hp. destruct (to_string_digits port) as (Hd & _ & _); [lia |].
  unfold parse_hostport.
  change (host +:+ ":" +:+ to_string port) with (host +:+ String ":"%char (to_string port)).
  rewrite str_rfind_app by (by apply all_digits_rfind). cbv zeta.
  rewrite str_take_app.
  replace (str_drop (String.length host + 1) (host +:+ String ":" (to_string port)))
    with (to_string port).
  - rewrite stoi_to_string by done. done.
  - change (String ":" (to_string port)) with (":" +:+ to_string port).
    rewrite <-str_app_assoc.
    replace (String.length host + 1)%nat with (String.length (host +:+ ":"))
      by (rewrite length_str_app; done).
    by rewrite str_drop_app.
Qed.

End DnsFacts.

(** ** The theorems at concrete inputs *)

Import SampleInet.

Definition dns_nodes : list NodeState := [alice; bob; hub].

Lemma answer_query_witness :
  answer "wb.net" dns_nodes (encode_query 4660 true ["ALICE"; "wb"; "net"] 1) =
  Ok (Some (encode_response 4660 0 ["ALICE"; "wb"; "net"] 1 [encode_rr 1 [u8 100; u8 64; u8 0; u8 1]])).
Proof.
  destruct (answer_query "wb.net" dns_nodes 4660 true ["ALICE"; "wb"; "net"] 1)
    as [(before & n & after & Hns & Hn & Hb & ->)|[Hno _]].
  - repeat constructor; vm_compute; lia.
  - simpl. lia.
  - lia.
  - destruct before as [|m before]; [by injection Hns as <- _ |].
    injection Hns as <- _. inv Hb. exfalso.
    match goal with H : ~ answers_to _ _ alice |- _ => apply H end.
    apply dns_match_spec. reflexivity.
  - inv Hno. exfalso.
    match goal with H : ~ answers_to _ _ alice |- _ => apply H end.
    apply dns_match_spec. reflexivity.
Defined.

Lemma answer_many_labels_witness :
  answer "wb.net" dns_nodes (encode_query 7 true (replicate 16 "a") 1) = Ok None.
Proof.
  apply answer_many_labels.
  - apply Forall_replicate. split; vm_compute; lia.
  - simpl. lia.
Defined.

Lemma parse_hostport_format_witness :
  parse_hostport "127.0.0.1:70000" = Ok ("127.0.0.1", 4464)%Z.
Proof.
  etransitivity; [apply (parse_hostport_format "127.0.0.1" 70000) | reflexivity].
  unfold INT_MAX. lia.
Defined.

(** The loop that a compression pointer to itself asks for ends after 16 hops. *)
Example self_pointer_dropped :
  answer "wb.net" dns_nodes
    (be16 1 ++ be16 0 ++ be16 1 ++ be16 0 ++ be16 0 ++ be16 0 ++ be16 49164 ++ be16 1 ++ be16 1)
  = Ok None.
Proof. reflexivity. Qed.

(** A truncated name whose last pointer points past the end, then the stop. *)
Lemma dns_loop_survives_witness :
  let q := be16 1 ++ be16 256 ++ be16 1 ++ be16 0 ++ be16 0 ++ be16 0 ++
           [u8 3; u8 97; u8 98; u8 99; u8 255; u8 255] ++ be16 1 ++ be16 1 in
  exists sent, dns_loop "wb.net"
    [mkRecv false (Z.of_nat (length q)) q false dns_nodes; mkRecv false (-1) q true []] = Ok (sent, true).
Proof.
  intros q. destruct (dns_loop_survives "wb.net"
    [mkRecv false (Z.of_nat (length q)) q false dns_nodes; mkRecv false (-1) q true []])
    as (sent & ended & H & He & _).
  exists sent. rewrite H, He. reflexivity.
Defined.
