(* ===== verification/Socket.v ===== *)
(** * Socket: a connected stream socket

    What the code sees of a TCP connection: the segments successive recv calls
    find, how much each send call takes, and the bytes sent so far. The peer
    and the kernel choose the segments and the sizes freely, so a theorem for
    every [sk_in] and every [sk_accept] covers every fragmentation. *)

From S2P Require Import Prelude.

(** [sk_in]: the segments still to arrive; an empty segment is a recv that
    returns 0 or an error, and so is an exhausted list. [sk_accept]: the most
    bytes each coming send takes, 0 being an error; an exhausted list takes
    everything. [sk_closes] and [sk_shutdowns] count ::close and ::shutdown on
    the descriptor. *)
Record Sock := mkSock {
  sk_in : list (list byte);
  sk_accept : list nat;
  sk_out : list byte;
  sk_closes : nat;
  sk_shutdowns : nat;
}.

Definition set_sk_in (i : list (list byte)) (s : Sock) : Sock :=
  mkSock i (sk_accept s) (sk_out s) (sk_closes s) (sk_shutdowns s).

(** [::recv(fd, buf, n, 0)]: the bytes read, [] for a result of 0 or less. *)
Definition sys_recv (n : nat) : M Sock (list byte) := fun s =>
  if (0 <? sk_closes s)%nat then (Ok [], s)
  else match sk_in s with
       | [] => (Ok [], s)
       | c :: cs =>
           (Ok (take n c),
            set_sk_in (match drop n c with [] => cs | rest => rest :: cs end) s)
       end.

(** [::send(fd, data, 0)]: the number of bytes taken, 0 for an error. The process
    is one that survives SIGPIPE, which a send to a closed peer raises. *)
Definition sys_send (data : list byte) : M Sock nat := fun s =>
  if (0 <? sk_closes s)%nat then (Ok 0, s)
  else
    let n := match sk_accept s with [] => length data | k :: _ => Nat.min k (length data) end in
    (Ok n, mkSock (sk_in s) (tail (sk_accept s)) (sk_out s ++ take n data)
             (sk_closes s) (sk_shutdowns s)).

Definition sys_shutdown : M Sock unit :=
  modify (fun s => mkSock (sk_in s) (sk_accept s) (sk_out s) (sk_closes s) (S (sk_shutdowns s))).

Definition sys_close : M Sock unit :=
  modify (fun s => mkSock (sk_in s) (sk_accept s) (sk_out s) (S (sk_closes s)) (sk_shutdowns s)).

(** A live socket whose peer keeps sending: the stream is what will arrive. *)
Definition live (s : Sock) : Prop := sk_closes s = 0 /\ Forall (fun c => c <> []) (sk_in s).
Definition stream (s : Sock) : list byte := concat (sk_in s).

(** ** Loops over send and recv

    [write_all] of http1.cpp and [write_full] of noise.cpp are the same loop,
    as is the reading loop; each iteration moves at least one byte, so the
    length is enough fuel. *)

Fixpoint send_loop (fuel : nat) (data : list byte) : M Sock bool :=
  match data, fuel with
  | [], _ => mret true
  | _, O => lift Ub
  | _, S fuel =>
      n ← sys_send data;
      if (n =? 0)%nat then mret false else send_loop fuel (drop n data)
  end.

Fixpoint recv_loop (fuel : nat) (n : nat) (got : list byte) : M Sock (option (list byte)) :=
  match (n - length got)%nat, fuel with
  | O, _ => mret (Some got)
  | _, O => lift Ub
  | want, S fuel =>
      r ← sys_recv want;
      match r with
      | [] => mret None
      | _ => recv_loop fuel n (got ++ r)
      end
  end.

(** ** Lemmas *)

Lemma sys_recv_live n s :
  live s -> stream s <> [] -> (0 < n)%nat ->
  exists r s', sys_recv n s = (Ok r, s') /\ r <> [] /\ (length r <= n)%nat /\
    stream s = r ++ stream s' /\ live s' /\ sk_out s' = sk_out s /\
    sk_accept s' = sk_accept s /\ sk_shutdowns s' = sk_shutdowns s.
Proof.
  intros [Ho Hne] Hs Hn. unfold sys_recv, stream in *. rewrite Ho. cbn [Nat.ltb Nat.leb].
  destruct (sk_in s) as [|c cs] eqn:Ei; [done |].
  apply Forall_cons in Hne as [Hc Hcs]. do 2 eexists. split; [reflexivity |].
  split; [by destruct c, n; try lia |]. split; [rewrite length_take; lia |].
  simpl. split.
  { rewrite <-(take_drop n c) at 1. rewrite <-app_assoc. f_equal. by destruct (drop n c). }
  split; [| done]. split; [done |]. simpl. destruct (drop n c); [done | by constructor].
Qed.

(** Reading exactly [n] bytes does not depend on how they are segmented. *)
Lemma recv_loop_spec fuel n got s :
  live s -> (length got <= n)%nat -> (n - length got <= fuel)%nat ->
  (n - length got <= length (stream s))%nat ->
  exists s', recv_loop fuel n got s = (Ok (Some (got ++ take (n - length got) (stream s))), s') /\
    stream s' = drop (n - length got) (stream s) /\ live s' /\
    sk_out s' = sk_out s /\ sk_accept s' = sk_accept s /\ sk_shutdowns s' = sk_shutdowns s.
Proof.
  revert got s. induction fuel as [|fuel IH]; intros got s Hl Hg Hf Hs; cbn [recv_loop];
    destruct (n - length got)%nat as [|m] eqn:Em; try lia.
  1, 2: exists s; rewrite take_0, drop_0, app_nil_r; split_and!; try done; apply Hl.
  destruct (sys_recv_live (S m) s) as (r & s1 & Hr & Hrne & Hrl & Hst & Hl1 & Ho & Ha & Hd);
    [done | intros E; rewrite E in Hs; simpl in Hs; lia | lia |].
  rewrite (bind_Ok _ _ _ _ _ Hr). destruct r as [|b r]; [done |].
  assert (1 <= length (b :: r))%nat as H1r by (simpl; lia).
  assert (length (stream s) = length (b :: r) + length (stream s1))%nat as Hlen
    by (rewrite Hst; apply length_app).
  destruct (IH (got ++ b :: r) s1) as (s2 & H1 & H2 & H3 & H4 & H5 & H6);
    rewrite ?length_app in *; [done | lia | lia | lia |].
  exists s2. rewrite H1, Hst. replace (n - (length got + length (b :: r)))%nat
    with (S m - length (b :: r))%nat in * by lia.
  rewrite take_app_ge, drop_app_ge by lia. rewrite <-app_assoc.
  split_and!; try done; congruence.
Qed.

(** Sending never sends anything but a prefix of the data, and all of it when
    it reports success; it fails only when a send does. *)
Lemma send_loop_spec fuel data s :
  (length data <= fuel)%nat ->
  exists b n s', send_loop fuel data s = (Ok b, s') /\
    sk_out s' = sk_out s ++ take n data /\ (n <= length data)%nat /\
    (if b then n = length data else (n < length data)%nat) /\
    sk_in s' = sk_in s /\ sk_closes s' = sk_closes s /\ sk_shutdowns s' = sk_shutdowns s /\
    (sk_closes s = 0 -> Forall (fun k => 0 < k)%nat (sk_accept s) ->
     b = true /\ Forall (fun k => 0 < k)%nat (sk_accept s')).
Proof.
  revert data s. induction fuel as [|fuel IH]; intros data s Hf; destruct data as [|x data];
    simpl in Hf; try lia.
  1, 2: exists true, 0, s; simpl; rewrite app_nil_r; done.
  cbn [send_loop]. set (d := x :: data) in *. unfold sys_send, mbind, M_bind.
  destruct (0 <? sk_closes s)%nat eqn:Ec; solve_guards.
  { exists false, 0, s. simpl. rewrite app_nil_r. repeat split; try done; try lia. }
  set (n := match sk_accept s with [] => length d | k :: _ => Nat.min k (length d) end).
  assert (n <= length d)%nat as Hn by (unfold n; destruct (sk_accept s); lia).
  destruct (n =? 0)%nat eqn:En; solve_guards.
  - exists false, 0. eexists. split; [reflexivity |]. cbn [sk_out sk_in sk_closes sk_shutdowns].
    rewrite En. repeat split; try done; try (simpl; lia).
    all: destruct (sk_accept s) as [|k ks] eqn:Ea; [simpl in n; lia |].
    all: apply Forall_cons in H0 as [? _]; simpl in n, Hn; lia.
  - destruct (IH (drop n d) (mkSock (sk_in s) (tail (sk_accept s)) (sk_out s ++ take n d)
      (sk_closes s) (sk_shutdowns s))) as (b & m & s' & H1 & H2 & H3 & H4 & H5 & H6 & H7 & H8).
    { rewrite length_drop. subst d. simpl in *. lia. }
    rewrite length_drop in *.
    exists b, (n + m)%nat, s'. split; [exact H1 |]. simpl in H2, H5, H6, H7, H8.
    split; [rewrite H2, <-app_assoc; f_equal; by rewrite <-take_take_drop |].
    split; [lia |]. split; [destruct b; lia |]. do 3 (split; [done |]).
    intros Hcl Hacc. apply H8; [done |]. by destruct Hacc.
Qed.
