(* ===== verification/Http1.v ===== *)
(** * Http1: the HTTP/1.1 reader and writer of http1.cpp

    A request is read from a socket up to the blank line, at most 64 KiB of it,
    and taken apart into the method, target, path, query and headers; a
    response is formatted and written. Strings are byte strings. *)

From S2P Require Import Prelude.
From S2P Require Import Socket.

Definition CR : Ascii.ascii := code_char 13.
Definition LF : Ascii.ascii := code_char 10.
Definition TAB : Ascii.ascii := code_char 9.
Definition crlf : string := String CR (String LF "").
Definition crlf2 : string := crlf +:+ crlf.

(** [s.find(pat)] for a string [pat] *)
Fixpoint str_find_sub (pat s : string) : option nat :=
  if String.prefix pat s then Some O
  else match s with
       | EmptyString => None
       | String _ s => S <$> str_find_sub pat s
       end.

Record HttpRequest := mkHttpRequest {
  rq_method : string;
  rq_target : string;
  rq_path : string;
  rq_query : string;
  rq_headers : gmap string string;
}.

Definition lower (s : string) : string := str_lower s.

(** ** Writing *)

Definition write_all (data : string) : M Sock bool :=
  send_loop (String.length data) (bytes_of_string data).

Definition response_text (status : Z) (status_text content_type body : string) : string :=
  "HTTP/1.1 " +:+ to_string status +:+ " " +:+ status_text +:+ crlf +:+
  "Content-Type: " +:+ content_type +:+ crlf +:+
  "Content-Length: " +:+ to_string (Z.of_nat (String.length body)) +:+ crlf +:+
  "Connection: close" +:+ crlf2 +:+ body.

(** The result of write_all is dropped. *)
Definition write_http_response (status : Z) (status_text content_type body : string)
    : M Sock unit :=
  _ ← write_all (response_text status status_text content_type body);
  mret ().

(** ** Headers and query parameters *)

Definition header_get (req : HttpRequest) (name : string) : string :=
  default "" (rq_headers req !! lower name).

(** The loop of query_get over the offset [start]; every round moves it past an
    ampersand, so the length of the query is enough fuel. *)
Fixpoint query_loop (fuel : nat) (query key : string) (start : nat) : res string :=
  if negb (start <? String.length query)%nat then Ok ""
  else
    match fuel with
    | O => Ub
    | S fuel =>
        let tail := str_drop start query in
        let amp := str_find "&"%char tail in
        let part := match amp with Some n => str_take n tail | None => tail end in
        let eq := str_find "="%char part in
        let k := match eq with Some n => str_take n part | None => part end in
        if bool_decide (k = key) then
          Ok (match eq with Some n => str_drop (n + 1) part | None => "" end)
        else match amp with
             | None => Ok ""
             | Some n => query_loop fuel query key (start + n + 1)
             end
    end.

Definition query_get (query key : string) : res string :=
  query_loop (String.length query) query key 0.

(** ** Reading *)

Definition max_head : nat := 64 * 1024.

(** Receive until the blank line is there. Every round adds a byte or returns
    false, and a buffer over the limit returns false. *)
Fixpoint read_head (fuel : nat) (buf : string) : M Sock (option string) :=
  match str_find_sub crlf2 buf with
  | Some _ => mret (Some buf)
  | None =>
      match fuel with
      | O => lift Ub
      | S fuel =>
          r ← sys_recv 1024;
          match r with
          | [] => mret None
          | _ =>
              let buf := buf +:+ string_of_bytes r in
              if (max_head <? String.length buf)%nat then mret None
              else read_head fuel buf
          end
      end
  end.

(** The lines std::getline returns from a stream over [s]: a last line without
    a newline counts, an empty rest does not. *)
Definition getlines (s : string) : list string :=
  let ps := str_split LF s in
  match last ps with Some EmptyString => removelast ps | _ => ps end.

(** [if (!line.empty() && line.back() == '\r') line.pop_back();] *)
Definition pop_cr (line : string) : string :=
  match str_back line with
  | Some c => if decide (c = CR) then str_take (String.length line - 1) line else line
  | None => line
  end.

(** [in >> word] *)
Fixpoint take_word (s : string) : string * string :=
  match s with
  | EmptyString => ("", "")
  | String c s' => if is_space c then ("", s) else let '(w, r) := take_word s' in (String c w, r)
  end.

Definition next_word (s : string) : string * string := take_word (skip_spaces s).

Fixpoint skip_blanks (s : string) : string :=
  match s with
  | String c s' =>
      if decide (c = " "%char \/ c = TAB) then skip_blanks s' else s
  | EmptyString => EmptyString
  end.

Definition add_header (headers : gmap string string) (line : string) : gmap string string :=
  let line := pop_cr line in
  match str_find ":"%char line with
  | None => headers
  | Some colon =>
      <[lower (str_take colon line) := skip_blanks (str_drop (colon + 1) line)]> headers
  end.

Definition parse_head (head : string) : option HttpRequest :=
  match getlines head with
  | [] => None
  | line :: lines =>
      let '(method, rest) := next_word (pop_cr line) in
      let '(target, _) := next_word rest in
      let '(path, query) :=
        match str_find "?"%char target with
        | None => (target, "")
        | Some q => (str_take q target, str_drop (q + 1) target)
        end in
      Some (mkHttpRequest method target path query (fold_left add_header lines ∅))
  end.

(** [Some (req, extra)] is a return of true. *)
Definition read_http_request : M Sock (option (HttpRequest * string)) :=
  r ← read_head (S max_head) "";
  match r with
  | None => mret None
  | Some buf =>
      match str_find_sub crlf2 buf with
      | None => lift Ub
      | Some hdr_end =>
          let extra := str_drop (hdr_end + 4) buf in
          mret ((fun req => (req, extra)) <$> parse_head (str_take hdr_end buf))
      end
  end.

(** ** References *)

(** A query string is parameters joined by ampersands; the first whose name is
    the key gives the value. *)
Definition param_of (part : string) : string * string :=
  match str_find "="%char part with
  | Some n => (str_take n part, str_drop (n + 1) part)
  | None => (part, "")
  end.

Fixpoint query_spec (parts : list string) (key : string) : string :=
  match parts with
  | [] => ""
  | p :: ps => if bool_decide ((param_of p).1 = key) then (param_of p).2 else query_spec ps key
  end.

(** A character no line of a request contains. *)
Fixpoint no_char (p : Ascii.ascii -> bool) (s : string) : Prop :=
  match s with EmptyString => True | String c s => p c = false /\ no_char p s end.

Definition is_crlf (c : Ascii.ascii) : bool := bool_decide (c = CR) || bool_decide (c = LF).

Definition header_line (h : string * string) : string := h.1 +:+ ": " +:+ h.2.

Fixpoint render_headers (hs : list (string * string)) : string :=
  match hs with [] => "" | h :: hs => crlf +:+ header_line h +:+ render_headers hs end.

(** The text of a request up to the blank line. *)
Definition render_head (method target : string) (hs : list (string * string)) : string :=
  method +:+ " " +:+ target +:+ " HTTP/1.1" +:+ render_headers hs.

(** Words have no white space; header names no colon, values no leading blank. *)
Definition word_ok (w : string) : Prop := w <> "" /\ no_char is_space w.
Definition header_ok (h : string * string) : Prop :=
  no_char is_crlf h.1 /\ str_find ":"%char h.1 = None /\ no_char is_crlf h.2 /\
  skip_blanks h.2 = h.2.

Definition split_target (target : string) : string * string :=
  match str_find "?"%char target with
  | None => (target, "")
  | Some q => (str_take q target, str_drop (q + 1) target)
  end.

Definition headers_of (hs : list (string * string)) : gmap string string :=
  fold_left (fun m h => <[lower h.1 := h.2]> m) hs ∅.

(** ** Lemmas *)

Lemma no_char_find p c s : no_char p s -> p c = true -> str_find c s = None.
Proof.
  induction s as [|d s IH]; [done |]. intros [Hd Hs] Hc. cbn [str_find].
  rewrite decide_False by congruence. by rewrite IH.
Qed.

Lemma no_char_app p s t : no_char p (s +:+ t) <-> no_char p s /\ no_char p t.
Proof. induction s as [|c s IH]; simpl; [tauto |]. rewrite IH. tauto. Qed.

Lemma no_char_impl (p q : Ascii.ascii -> bool) s :
  (forall c, q c = true -> p c = true) -> no_char p s -> no_char q s.
Proof.
  intros H. induction s as [|c s IH]; [done |]. intros [Hc Hs]. split; [| auto].
  destruct (q c) eqn:E; [| done]. apply H in E. congruence.
Qed.

Lemma is_crlf_space c : is_crlf c = true -> is_space c = true.
Proof.
  unfold is_crlf. rewrite orb_true_iff, !bool_decide_eq_true. by intros [-> | ->].
Qed.

Lemma find_sub_skip l t : no_char is_crlf l ->
  str_find_sub crlf2 (l +:+ t) = Nat.add (String.length l) <$> str_find_sub crlf2 t.
Proof.
  induction l as [|c l IH]; intros Hl.
  - simpl. by destruct (str_find_sub crlf2 t).
  - destruct Hl as [Hc Hl]. cbn [String.append str_find_sub String.length].
    replace (String.prefix crlf2 (String c (l +:+ t))) with false.
    + rewrite IH by done. by destruct (str_find_sub crlf2 t).
    + unfold crlf2, crlf. cbn [String.append String.prefix].
      destruct (Ascii.ascii_dec CR c) as [<-|]; [| done]. by vm_compute in Hc.
Qed.

Lemma find_sub_line l t : no_char is_crlf l -> l <> "" ->
  str_find_sub crlf2 (crlf +:+ l +:+ t) =
  Nat.add (2 + String.length l) <$> str_find_sub crlf2 t.
Proof.
  intros Hl Hne. destruct l as [|c l]; [done |]. pose proof Hl as [Hc _].
  unfold crlf at 1. cbn [String.append]. cbn [str_find_sub].
  replace (String.prefix crlf2 (String CR (String LF (String c (l +:+ t))))) with false.
  - replace (String.prefix crlf2 (String LF (String c (l +:+ t)))) with false by done.
    pose proof (find_sub_skip (String c l) t Hl) as E.
    cbn [String.append str_find_sub String.length] in E. rewrite E.
    by destruct (str_find_sub crlf2 t).
  - unfold crlf2, crlf. cbn [String.append String.prefix].
    do 2 (destruct (Ascii.ascii_dec _ _); [| done]).
    destruct (Ascii.ascii_dec CR c) as [<-|]; [| done]. by vm_compute in Hc.
Qed.

(** The first occurrence in a prefix of a string. *)
Lemma str_prefix_app pat s t : String.prefix pat s = true -> String.prefix pat (s +:+ t) = true.
Proof.
  revert s. induction pat as [|c pat IH]; intros s; [by destruct s, t |].
  destruct s as [|d s]; [done |]. cbn [String.append String.prefix].
  destruct (Ascii.ascii_dec c d); [apply IH | done].
Qed.

Lemma str_prefix_length pat s : String.prefix pat s = true ->
  (String.length pat <= String.length s)%nat.
Proof.
  revert s. induction pat as [|c pat IH]; intros s; [simpl; lia |].
  destruct s as [|d s]; [done |]. cbn [String.prefix String.length].
  destruct (Ascii.ascii_dec c d); [| done]. intros H%IH. lia.
Qed.

Lemma str_prefix_app_inv pat s t : (String.length pat <= String.length s)%nat ->
  String.prefix pat (s +:+ t) = true -> String.prefix pat s = true.
Proof.
  revert s. induction pat as [|c pat IH]; intros s; [by destruct s |].
  destruct s as [|d s]; simpl; [lia |]. intros Hl.
  destruct (Ascii.ascii_dec c d); [| done]. apply IH. lia.
Qed.

Lemma find_sub_short pat s : (String.length s < String.length pat)%nat ->
  str_find_sub pat s = None.
Proof.
  induction s as [|c s IH]; intros Hl; cbn [str_find_sub].
  - destruct pat; [simpl in Hl; lia | done].
  - destruct (String.prefix pat (String c s)) eqn:E.
    + apply str_prefix_length in E. lia.
    + rewrite IH; [done | simpl in Hl; lia].
Qed.

Lemma find_sub_prefix pat s t i :
  pat <> "" -> str_find_sub pat (s +:+ t) = Some i ->
  str_find_sub pat s = if (i + String.length pat <=? String.length s)%nat then Some i else None.
Proof.
  intros Hp. revert i. induction s as [|c s IH]; intros i Hi.
  - simpl. destruct pat; [done |]. simpl. by rewrite (proj2 (Nat.leb_gt _ _)) by lia.
  - cbn [String.append] in Hi. cbn [str_find_sub] in *.
    destruct (String.prefix pat (String c s)) eqn:E1.
    + pose proof (str_prefix_length _ _ E1).
      apply (str_prefix_app _ _ t) in E1. cbn [String.append] in E1. rewrite E1 in Hi.
      injection Hi as <-. by rewrite (proj2 (Nat.leb_le _ _)).
    + destruct (String.prefix pat (String c (s +:+ t))) eqn:E2.
      * injection Hi as <-. destruct (0 + String.length pat <=? _)%nat eqn:E3; solve_guards.
        -- apply (str_prefix_app_inv pat (String c s) t) in E2; [congruence | simpl in *; lia].
        -- rewrite find_sub_short by (simpl in E3; lia). done.
      * destruct (str_find_sub pat (s +:+ t)) as [k|] eqn:E3; [| done]. injection Hi as <-.
        rewrite (IH k eq_refl). cbn [String.length].
        destruct (k + String.length pat <=? String.length s)%nat eqn:E4; solve_guards.
        -- by rewrite (proj2 (Nat.leb_le _ _)) by lia.
        -- by rewrite (proj2 (Nat.leb_gt _ _)) by lia.
Qed.

(** *** Lines *)

Lemma pop_cr_cr l : pop_cr (l +:+ String CR "") = l.
Proof.
  unfold pop_cr.
  assert (str_back (l +:+ String CR "") = Some CR) as ->.
  { induction l as [|d l IH]; [done |]. simpl. rewrite IH. by destruct l. }
  rewrite decide_True by done. rewrite length_str_app. simpl. rewrite Nat.add_sub.
  apply str_take_app.
Qed.

Lemma str_back_no_char p l c : no_char p l -> str_back l = Some c -> p c = false.
Proof.
  induction l as [|d l IH]; [done |]. intros [Hd Hl]. destruct l as [|e l]; [by intros [= <-] |].
  intros H. apply IH; done.
Qed.

Lemma pop_cr_none l : no_char is_crlf l -> pop_cr l = l.
Proof.
  intros Hl. unfold pop_cr. destruct (str_back l) as [c|] eqn:E; [| done].
  apply decide_False. intros ->. by apply (str_back_no_char _ _ _ Hl) in E.
Qed.

(** The lines after the first, each with its CRLF in front. *)
Fixpoint rest_lines (ls : list string) : string :=
  match ls with [] => "" | l :: ls => crlf +:+ l +:+ rest_lines ls end.

Lemma render_headers_rest hs : render_headers hs = rest_lines (header_line <$> hs).
Proof. induction hs as [|h hs IH]; [done |]. simpl. by rewrite IH. Qed.

Lemma getlines_lines l ls :
  no_char is_crlf l -> Forall (no_char is_crlf) ls -> Forall (fun l => l <> "") (l :: ls) ->
  exists ps, getlines (l +:+ rest_lines ls) = ps /\ pop_cr <$> ps = l :: ls.
Proof.
  intros Hl Hls Hne. eexists. split; [reflexivity |].
  assert (exists ps, str_split LF (l +:+ rest_lines ls) = ps /\ last ps <> Some "" /\
    pop_cr <$> ps = l :: ls) as (ps & Hps & Hlast & Hpop).
  { revert l Hl Hne. induction Hls as [|l2 ls Hl2 Hls IH]; intros l Hl Hne.
    - exists [l]. simpl. rewrite str_app_nil_r.
      apply Forall_cons in Hne as [Hne _].
      rewrite str_split_no_sep by (eapply no_char_find; [exact Hl | reflexivity]).
      split; [done |]. split; [simpl; congruence |]. by rewrite pop_cr_none.
    - apply Forall_cons in Hne as [_ Hne]. destruct (IH l2 Hl2 Hne) as (ps & Hps & Hlast & Hpop).
      exists ((l +:+ String CR "") :: ps).
      replace (l +:+ rest_lines (l2 :: ls))
        with ((l +:+ String CR "") +:+ String LF (l2 +:+ rest_lines ls))
        by (rewrite str_app_assoc; done).
      rewrite str_split_sep, Hps.
      + split; [done |]. split; [| by rewrite fmap_cons, pop_cr_cr, Hpop].
        destruct ps; [done | exact Hlast].
      + apply (no_char_find (fun c => bool_decide (c = LF))); [| by vm_compute].
        apply no_char_app. split; [| by split].
        revert Hl. apply no_char_impl. intros c Hc. unfold is_crlf. rewrite Hc.
        apply orb_true_r. }
  unfold getlines. rewrite Hps. by destruct (last ps) as [[]|].
Qed.

Definition add_line (m : gmap string string) (line : string) : gmap string string :=
  match str_find ":"%char line with
  | None => m
  | Some colon => <[lower (str_take colon line) := skip_blanks (str_drop (colon + 1) line)]> m
  end.

Lemma fold_add_header lines m : fold_left add_header lines m = fold_left add_line (pop_cr <$> lines) m.
Proof. revert m. induction lines as [|l lines IH]; intros m; [done |]. simpl. apply IH. Qed.

Lemma str_drop_S_app s c t : str_drop (String.length s + 1) (s +:+ String c t) = t.
Proof. induction s; simpl; [done | done]. Qed.

Lemma add_line_header h m : header_ok h -> add_line m (header_line h) = <[lower h.1 := h.2]> m.
Proof.
  intros (_ & Hc & _ & Hb). unfold add_line, header_line.
  change (h.1 +:+ ": " +:+ h.2) with (h.1 +:+ String ":" (String " " h.2)).
  rewrite str_find_app by done. rewrite str_take_app, str_drop_S_app. cbn [skip_blanks].
  rewrite decide_True by (by left). by rewrite Hb.
Qed.

Lemma fold_add_line hs m : Forall header_ok hs ->
  fold_left add_line (header_line <$> hs) m = fold_left (fun m h => <[lower h.1 := h.2]> m) hs m.
Proof.
  intros Hhs. revert m. induction Hhs as [|h hs Hh Hhs IH]; intros m; [done |].
  simpl. by rewrite add_line_header.
Qed.

Lemma take_word_app w t : no_char is_space w -> take_word (w +:+ String " " t) = (w, String " " t).
Proof.
  induction w as [|c w IH]; [done |]. intros [Hc Hw]. cbn [String.append take_word].
  by rewrite Hc, IH.
Qed.

Lemma next_word_app w t : word_ok w -> next_word (w +:+ String " " t) = (w, String " " t).
Proof.
  intros [Hne Hw]. unfold next_word. destruct w as [|c w]; [done |].
  cbn [String.append skip_spaces]. destruct Hw as [Hc Hw]. rewrite Hc.
  by apply (take_word_app (String c w)).
Qed.

Lemma word_ok_crlf w : word_ok w -> no_char is_crlf w.
Proof. intros [_ H]. revert H. apply no_char_impl, is_crlf_space. Qed.

Lemma header_line_ok h : header_ok h -> no_char is_crlf (header_line h) /\ header_line h <> "".
Proof.
  intros (H1 & _ & H2 & _). unfold header_line. rewrite !no_char_app. split; [| by destruct h.1].
  split; [done |]. split; [by vm_compute | done].
Qed.

Definition request_line (method target : string) : string :=
  method +:+ " " +:+ target +:+ " HTTP/1.1".

Lemma request_line_ok method target : word_ok method -> word_ok target ->
  no_char is_crlf (request_line method target) /\ request_line method target <> "".
Proof.
  intros Hm Ht. unfold request_line. rewrite !no_char_app.
  split; [| by destruct Hm as [Hm _]; destruct method].
  split_and!; [by apply word_ok_crlf | by vm_compute | by apply word_ok_crlf | by vm_compute].
Qed.

Lemma render_head_lines method target hs :
  render_head method target hs = request_line method target +:+ rest_lines (header_line <$> hs).
Proof. unfold render_head, request_line. by rewrite render_headers_rest, !str_app_assoc. Qed.

Lemma parse_head_render method target hs :
  word_ok method -> word_ok target -> Forall header_ok hs ->
  parse_head (render_head method target hs) =
  Some (mkHttpRequest method target (split_target target).1 (split_target target).2 (headers_of hs)).
Proof.
  intros Hm Ht Hhs. rewrite render_head_lines.
  destruct (request_line_ok method target Hm Ht) as [Hr Hrne].
  destruct (getlines_lines (request_line method target) (header_line <$> hs)) as (ps & Hps & Hpop).
  - done.
  - rewrite Forall_fmap. eapply Forall_impl; [exact Hhs | intros h Hh; by apply header_line_ok].
  - constructor; [done |]. rewrite Forall_fmap.
    eapply Forall_impl; [exact Hhs | intros h Hh; by apply header_line_ok].
  - unfold parse_head. rewrite Hps. destruct ps as [|p ps]; [done |].
    rewrite fmap_cons in Hpop. injection Hpop as Hp Hps'. rewrite Hp.
    change (request_line method target) with (method +:+ String " " (target +:+ " HTTP/1.1")).
    rewrite (next_word_app method) by done.
    assert (next_word (String " " (target +:+ " HTTP/1.1")) = (target, " HTTP/1.1")) as Hnw
      by (by apply (next_word_app target "HTTP/1.1")).
    rewrite Hnw.
    rewrite fold_add_header, Hps', fold_add_line by done.
    unfold split_target, headers_of. by destruct (str_find "?" target).
Qed.

(** *** The reading loop *)

Lemma sys_recv_length n s : exists r s', sys_recv n s = (Ok r, s') /\ (length r <= n)%nat.
Proof.
  unfold sys_recv. destruct (_ <? _)%nat; [by exists [], s; simpl; split; [| lia] |].
  destruct (sk_in s) as [|c cs]; [by exists [], s; simpl; split; [| lia] |].
  do 2 eexists. split; [reflexivity |]. rewrite length_take. lia.
Qed.

Lemma read_head_total fuel buf s :
  (String.length buf <= max_head)%nat -> (S max_head <= fuel + String.length buf)%nat ->
  exists r s', read_head fuel buf s = (Ok r, s') /\
    forall b, r = Some b -> (String.length b <= max_head)%nat /\ str_find_sub crlf2 b <> None.
Proof.
  revert buf s. induction fuel as [|fuel IH]; intros buf s Hb Hf; cbn [read_head];
    destruct (str_find_sub crlf2 buf) as [i|] eqn:Ei; try lia.
  1: eexists _, _; split; [reflexivity |]; intros b [= <-]; by rewrite Ei.
  destruct (sys_recv_length 1024 s) as (r & s1 & Hr & _). rewrite (bind_Ok _ _ _ _ _ Hr).
  destruct r as [|x r]; [by eexists _, _; split; [reflexivity |] |].
  cbv zeta. destruct (max_head <? _)%nat eqn:Em; [by eexists _, _; split; [reflexivity |] |].
  solve_guards. apply IH; [lia |].
  rewrite length_str_app, length_string_of_bytes. simpl. lia.
Qed.

Lemma read_head_spec fuel buf s i :
  live s -> str_find_sub crlf2 (buf +:+ string_of_bytes (stream s)) = Some i ->
  (i + 4 + 1024 <= max_head)%nat -> (i + 4 <= fuel + String.length buf)%nat ->
  exists buf' s', read_head fuel buf s = (Ok (Some buf'), s') /\ live s' /\
    buf +:+ string_of_bytes (stream s) = buf' +:+ string_of_bytes (stream s') /\
    str_find_sub crlf2 buf' = Some i.
Proof.
  revert buf s. induction fuel as [|fuel IH]; intros buf s Hl Hi Hmax Hf; cbn [read_head];
    pose proof (find_sub_prefix crlf2 buf (string_of_bytes (stream s)) i ltac:(done) Hi) as Hbuf;
    change (String.length crlf2) with 4%nat in Hbuf;
    destruct (i + 4 <=? String.length buf)%nat eqn:E; solve_guards; try lia; rewrite Hbuf.
  1, 2: exists buf, s; done.
  destruct (sys_recv_live 1024 s) as (r & s1 & Hr & Hrne & Hrl & Hst & Hl1 & _); [done | | lia |].
  { intros E0. rewrite E0, str_app_nil_r in Hi. congruence. }
  rewrite (bind_Ok _ _ _ _ _ Hr). destruct r as [|x r]; [done |]. cbv zeta.
  rewrite Hst, string_of_bytes_app, <-str_app_assoc in *.
  assert (String.length (buf +:+ string_of_bytes (x :: r)) <= max_head)%nat as Hm.
  { rewrite length_str_app, length_string_of_bytes. simpl in *. lia. }
  rewrite (proj2 (Nat.ltb_ge _ _) Hm). apply IH; [done | done | done |].
  rewrite length_str_app, length_string_of_bytes. simpl. lia.
Qed.

Lemma find_sub_lines ls t :
  Forall (fun l => no_char is_crlf l /\ l <> "") ls ->
  str_find_sub crlf2 (rest_lines ls +:+ crlf2 +:+ t) = Some (String.length (rest_lines ls)).
Proof.
  induction 1 as [|l ls [Hl Hne] _ IH].
  - unfold crlf2, crlf. cbn [rest_lines String.append str_find_sub String.prefix].
    by destruct t.
  - cbn [rest_lines]. rewrite !str_app_assoc, find_sub_line by done.
    rewrite IH. simpl. f_equal. rewrite length_str_app. lia.
Qed.

Lemma find_sub_render method target hs t :
  word_ok method -> word_ok target -> Forall header_ok hs ->
  str_find_sub crlf2 (render_head method target hs +:+ crlf2 +:+ t) =
  Some (String.length (render_head method target hs)).
Proof.
  intros Hm Ht Hhs. rewrite render_head_lines, str_app_assoc.
  destruct (request_line_ok method target Hm Ht) as [Hr _].
  rewrite find_sub_skip by done. rewrite find_sub_lines.
  - simpl. by rewrite length_str_app.
  - rewrite Forall_fmap. eapply Forall_impl; [exact Hhs | intros h Hh; by apply header_line_ok].
Qed.

Lemma str_app_split s1 s2 t1 t2 : s1 +:+ t1 = s2 +:+ t2 ->
  String.length s1 = String.length s2 -> s1 = s2 /\ t1 = t2.
Proof.
  revert s2. induction s1 as [|c s1 IH]; intros [|d s2] H Hl; try done.
  simpl in H. injection H as -> H. destruct (IH s2 H ltac:(simpl in Hl; lia)) as [-> ->]. done.
Qed.

(** C34: a well-formed request whose head is at least 1028 bytes shorter than the
    limit of 64 KiB is read the same way however the network cuts it up (closer
    to the limit the cuts decide whether it is accepted): for every segmentation of its text and
      what follows it, the method,
    target, path, query and headers are the ones sent (header names lowered,
    the last of several with one name), and the bytes received beyond the blank
    line are handed over in [extra], so with what is still to arrive they are
    exactly the rest of the stream. *)
Theorem read_http_request_spec method target hs rest s :
  word_ok method -> word_ok target -> Forall header_ok hs -> live s ->
  stream s = bytes_of_string (render_head method target hs +:+ crlf2 +:+ rest) ->
  (String.length (render_head method target hs) + 1028 <= max_head)%nat ->
  exists extra s', read_http_request s = (Ok (Some
      (mkHttpRequest method target (split_target target).1 (split_target target).2 (headers_of hs),
       extra)), s') /\
    extra +:+ string_of_bytes (stream s') = rest.
Proof.
  intros Hm Ht Hhs Hl Hst Hlen.
  destruct (read_head_spec (S max_head) "" s (String.length (render_head method target hs)))
    as (buf & s' & Hr & _ & Heq & Hf); [done | | lia.. |].
  { rewrite Hst, string_of_bytes_of_string. by apply find_sub_render. }
  unfold read_http_request. rewrite (bind_Ok _ _ _ _ _ Hr). rewrite Hf. cbv zeta.
  rewrite Hst, string_of_bytes_of_string in Heq. cbn [String.append] in Heq.
  set (head := render_head method target hs) in *.
  assert (String.length head + 4 <= String.length buf)%nat as Hb.
  { assert (str_find_sub crlf2 (buf +:+ "") = Some (String.length head)) as Hf'
      by (by rewrite str_app_nil_r).
    pose proof (find_sub_prefix crlf2 buf "" _ ltac:(done) Hf') as Hp.
    rewrite Hf in Hp. destruct (_ <=? _)%nat eqn:E in Hp; solve_guards; [| done].
    by change (String.length crlf2) with 4%nat in E. }
  assert ((head +:+ crlf2) +:+ rest = str_take (String.length head + 4) buf +:+
    (str_drop (String.length head + 4) buf +:+ string_of_bytes (stream s'))) as Heq'.
  { rewrite str_app_assoc, Heq. rewrite <-str_app_assoc. by rewrite str_take_drop. }
  apply str_app_split in Heq' as [H1 H2];
    [| rewrite length_str_app, str_take_length by done; done].
  assert (str_take (String.length head) buf = head) as Hhead.
  { rewrite <-(str_take_drop (String.length head + 4) buf), <-H1, str_app_assoc.
    apply str_take_app. }
  rewrite Hhead. subst head. rewrite parse_head_render by done.
  exists (str_drop (String.length (render_head method target hs) + 4) buf), s'.
  split; [reflexivity | by rewrite H2].
Qed.

(** Whatever the peer sends, or stops sending, reading a request returns:
    the loop ends within the 64 KiB limit, no byte outside the buffer is used,
    and what is handed over as [extra] is bounded by the limit too. *)
Theorem read_http_request_total s :
  exists r s', read_http_request s = (Ok r, s') /\
    forall req extra, r = Some (req, extra) -> (String.length extra + 4 <= max_head)%nat.
Proof.
  destruct (read_head_total (S max_head) "" s) as (r & s' & Hr & Hb);
    [change (String.length "") with 0; lia.. |].
  unfold read_http_request. rewrite (bind_Ok _ _ _ _ _ Hr).
  destruct r as [buf|]; [| by eexists _, _; split; [reflexivity |]].
  destruct (Hb buf eq_refl) as [Hlen Hf]. destruct (str_find_sub crlf2 buf) as [i|] eqn:Ei; [| done].
  eexists _, _. split; [reflexivity |]. intros req extra.
  destruct (parse_head _); [| done]. intros [= _ <-]. rewrite str_drop_length.
  assert (str_find_sub crlf2 (buf +:+ "") = Some i) as Hf' by (by rewrite str_app_nil_r).
  pose proof (find_sub_prefix crlf2 buf "" _ ltac:(done) Hf') as Hp.
  rewrite Ei in Hp. destruct (_ <=? _)%nat eqn:E in Hp; solve_guards; [| done].
  change (String.length crlf2) with 4%nat in E. lia.
Qed.

(** *** Query parameters *)

Lemma str_drop_drop m n s : str_drop n (str_drop m s) = str_drop (m + n) s.
Proof.
  revert m. induction s as [|c s IH]; intros [|m]; try done; [by destruct n |]. apply IH.
Qed.

Lemma query_loop_spec fuel query key start :
  (start <= String.length query)%nat -> (String.length query - start <= fuel)%nat ->
  query_loop fuel query key start = Ok (query_spec (str_split "&"%char (str_drop start query)) key).
Proof.
  revert start. induction fuel as [|fuel IH]; intros start Hs Hf; cbn [query_loop];
    pose proof (str_drop_length start query) as Hl;
    destruct (start <? String.length query)%nat eqn:E; solve_guards; cbn [negb]; try lia.
  1, 3: destruct (str_drop start query); [| simpl in Hl; lia]; simpl; by case_bool_decide.
  cbv zeta. set (tail := str_drop start query) in *.
  destruct (str_find "&" tail) as [n|] eqn:Ea.
  - destruct (str_find_Some _ _ _ Ea) as [Ht Hn]. rewrite Ht at 4.
    rewrite str_split_sep by done. cbn [query_spec]. unfold param_of.
    assert (S n <= String.length tail)%nat as Hnl.
    { by apply str_find_lt in Ea. }
    destruct (str_find "=" (str_take n tail)) as [m|]; cbn [fst snd]; case_bool_decide; try done.
    all: rewrite IH by lia; subst tail; rewrite str_drop_drop;
      by replace (start + S n)%nat with (start + n + 1)%nat by lia.
  - rewrite str_split_no_sep by done. cbn [query_spec]. unfold param_of.
    destruct (str_find "=" tail) as [m|]; cbn [fst snd]; by case_bool_decide.
Qed.

(** Query_get is the first-match lookup of the reference reading: the query
    is split at every ampersand, each part at its first equals sign, and the
    value of the first part with the name is returned, or the empty string. Its
    offset loop always ends, without reading outside the query. *)
Theorem query_get_spec query key :
  query_get query key = Ok (query_spec (str_split "&"%char query) key).
Proof. unfold query_get. apply query_loop_spec; lia. Qed.

(** *** Responses *)

Lemma write_all_result data s :
  exists b n s', write_all data s = (Ok b, s') /\
    sk_out s' = sk_out s ++ take n (bytes_of_string data) /\
    (if b then n = String.length data else (n < String.length data)%nat) /\
    (sk_closes s = 0 -> Forall (fun k => 0 < k)%nat (sk_accept s) -> b = true).
Proof.
  destruct (send_loop_spec (String.length data) (bytes_of_string data) s)
    as (b & n & s' & H1 & H2 & _ & H3 & _ & _ & _ & H4); [by rewrite length_bytes_of_string |].
  rewrite length_bytes_of_string in H3. exists b, n, s'.
  split_and!; [exact H1 | exact H2 | exact H3 |]. intros Hc Ha. by destruct (H4 Hc Ha).
Qed.

(** Writing is a prefix of the data in order, whatever sizes the sends
    take: success means all of it was sent exactly once, failure that a send
    failed before the end; sends that always make progress give success. *)
Theorem write_all_spec data s :
  exists b n s', write_all data s = (Ok b, s') /\
    sk_out s' = sk_out s ++ take n (bytes_of_string data) /\
    (if b then n = String.length data else (n < String.length data)%nat) /\
    (sk_closes s = 0 -> Forall (fun k => 0 < k)%nat (sk_accept s) -> b = true).
Proof. apply write_all_result. Qed.

Lemma digit_char_ok c : digit_value c <> None -> is_crlf c = false.
Proof.
  intros H. destruct (is_crlf c) eqn:E; [| done]. apply is_crlf_space in E.
  destruct (digit_not_space c H) as [H' _]. congruence.
Qed.

Lemma all_digits_header s : all_digits s -> no_char is_crlf s /\ skip_blanks s = s.
Proof.
  intros Hs. split.
  - induction s as [|c s IH]; [done |]. destruct Hs as [Hc Hs].
    split; [by apply digit_char_ok | auto].
  - destruct s as [|c s]; [done |]. destruct Hs as [Hc _]. cbn [skip_blanks].
    rewrite decide_False; [done |]. intros [-> | ->]; by vm_compute in Hc.
Qed.

Definition status_line (status : Z) (status_text : string) : string :=
  "HTTP/1.1 " +:+ to_string status +:+ " " +:+ status_text.

Definition response_headers (content_type body : string) : list (string * string) :=
  [("Content-Type", content_type); ("Content-Length", to_string (Z.of_nat (String.length body)));
   ("Connection", "close")].

Lemma response_text_lines status st ct body :
  response_text status st ct body =
  (status_line status st +:+ rest_lines (header_line <$> response_headers ct body)) +:+ crlf2 +:+ body.
Proof.
  unfold response_text, status_line, response_headers, header_line.
  cbn [fmap list_fmap rest_lines fst snd]. rewrite str_app_nil_r, !str_app_assoc. done.
Qed.

(** A response is framed so that the client finds its body: the first blank
    line of what is sent is the one before the body, and the Content-Length
    header, read back by the request parser's own rules, is the body's length. *)
Theorem write_http_response_framed status st ct body s :
  (0 <= status)%Z -> no_char is_crlf st -> no_char is_crlf ct -> skip_blanks ct = ct ->
  sk_closes s = 0 -> Forall (fun k => 0 < k)%nat (sk_accept s) ->
  exists head s', write_http_response status st ct body s = (Ok tt, s') /\
    sk_out s' = sk_out s ++ bytes_of_string (head +:+ crlf2 +:+ body) /\
    str_find_sub crlf2 (head +:+ crlf2 +:+ body) = Some (String.length head) /\
    fold_left add_header (tail (getlines head)) ∅ !! "content-length" =
      Some (to_string (Z.of_nat (String.length body))).
Proof.
  intros Hs Hst Hct Hcb Hc Ha.
  destruct (to_string_digits status Hs) as (Hd & _ & _).
  destruct (to_string_digits (Z.of_nat (String.length body))) as (Hdl & _ & _); [lia |].
  apply all_digits_header in Hd as [Hd _]. apply all_digits_header in Hdl as [Hdl Hdb].
  assert (Forall header_ok (response_headers ct body)) as Hok.
  { repeat constructor; try done; vm_compute; done. }
  assert (no_char is_crlf (status_line status st)) as Hl.
  { unfold status_line. rewrite !no_char_app. split_and!; try done; by vm_compute. }
  assert (Forall (no_char is_crlf) (header_line <$> response_headers ct body)) as Hls.
  { rewrite Forall_fmap. eapply Forall_impl; [exact Hok | intros h Hh; by apply header_line_ok]. }
  set (head := status_line status st +:+ rest_lines (header_line <$> response_headers ct body)).
  destruct (write_all_result (response_text status st ct body) s) as (b & n & s' & Hw & Ho & Hn & Hb).
  rewrite (Hb Hc Ha), <-length_bytes_of_string in Hn.
  rewrite take_ge in Ho by lia.
  exists head, s'. unfold write_http_response. rewrite (bind_Ok _ _ _ _ _ Hw).
  split; [done |]. rewrite Ho, response_text_lines. split; [done |]. split.
  - subst head. rewrite str_app_assoc, find_sub_skip, find_sub_lines by (done ||
      (rewrite Forall_fmap; eapply Forall_impl; [exact Hok | intros h Hh; by apply header_line_ok])).
    cbn [fmap option_fmap option_map]. by rewrite length_str_app.
  - destruct (getlines_lines (status_line status st) (header_line <$> response_headers ct body))
      as (ps & Hps & Hpop); [done | done | by repeat constructor |].
    subst head. rewrite Hps. destruct ps as [|p ps]; [done |].
    rewrite fmap_cons in Hpop. injection Hpop as _ Hpop.
    change (pop_cr <$> ps = header_line <$> response_headers ct body) in Hpop. cbn [tail].
    rewrite fold_add_header, Hpop, fold_add_line by done. cbn [fold_left response_headers fst snd].
    change (lower "Content-Type") with "content-type".
    change (lower "Content-Length") with "content-length".
    change (lower "Connection") with "connection".
    rewrite lookup_insert_ne by done. by rewrite lookup_insert_eq.
Qed.

(** ** The theorems at concrete inputs *)

Definition sample_request : string :=
  render_head "GET" "/key?v=39&x" [("Host", "hub"); ("X-Tailscale-Handshake", "AA==")].

(** The request and two bytes more, in three segments. *)
Definition sample_sock : Sock :=
  mkSock [bytes_of_string (str_take 7 sample_request);
          bytes_of_string (str_drop 7 sample_request +:+ crlf2 +:+ "h");
          bytes_of_string "2"] [5; 3] [] 0 0.

Lemma read_http_request_spec_witness :
  stream sample_sock = bytes_of_string (sample_request +:+ crlf2 +:+ "h2") /\
  exists req extra s', read_http_request sample_sock = (Ok (Some (req, extra)), s') /\
    rq_path req = "/key" /\ rq_query req = "v=39&x" /\ header_get req "hOST" = "hub" /\
    extra +:+ string_of_bytes (stream s') = "h2".
Proof.
  split; [vm_compute; reflexivity |].
  edestruct (read_http_request_spec "GET" "/key?v=39&x"
    [("Host", "hub"); ("X-Tailscale-Handshake", "AA==")] "h2" sample_sock) as (x & s' & Hr & Hx).
  - split; [done | vm_compute; tauto].
  - split; [done | vm_compute; tauto].
  - repeat constructor; vm_compute; tauto.
  - split; [reflexivity | repeat constructor; by vm_compute].
  - vm_compute. reflexivity.
  - apply Nat.leb_le. vm_compute. reflexivity.
  - eexists _, x, s'. split; [exact Hr |]. split_and!; [| | | exact Hx]; vm_compute; reflexivity.
Defined.

Lemma write_http_response_framed_witness :
  exists head s', write_http_response 200 "OK" "text/plain" "wirebone" sample_sock = (Ok tt, s') /\
    sk_out s' = [] ++ bytes_of_string (head +:+ crlf2 +:+ "wirebone").
Proof.
  edestruct (write_http_response_framed 200 "OK" "text/plain" "wirebone" sample_sock)
    as (h & s' & Hw & Ho & _).
  - lia.
  - vm_compute; tauto.
  - vm_compute; tauto.
  - reflexivity.
  - reflexivity.
  - repeat constructor.
  - exists h, s'. split; [exact Hw | exact Ho].
Defined.

Example query_get_example : query_get "a=1&b&c=x=y&a=2" "a" = Ok "1" /\
  query_get "a=1&b&c=x=y&a=2" "c" = Ok "x=y" /\ query_get "a=1&b&" "b" = Ok "".
Proof. split_and!; reflexivity. Qed.
