(* ===== verification/Noise.v ===== *)
(** * Noise: the handshake and the record layer of noise.cpp

    The Noise IK pattern over X25519, ChaCha20-Poly1305 and BLAKE2s as the
    server runs it, the client side its tests use, and [NoiseConn], which
    carries a byte stream in encrypted records over a socket. *)

From S2P Require Import Prelude.
From S2P Require Import Crypto.
From S2P Require Import Socket.

Definition kProtocolName : string := "Noise_IK_25519_ChaChaPoly_BLAKE2s".
Definition kProloguePrefix : string := "Tailscale Control Protocol v".
Definition kMsgInitiation : Z := 1.
Definition kMsgResponse : Z := 2.
Definition kMsgRecord : Z := 4.
Definition kHeaderLen : nat := 3.
Definition kInitHeaderLen : nat := 5.
Definition kInitiationLen : nat := 101.
Definition kResponseLen : nat := 51.
Definition kMaxMessage : nat := 4096.
Definition kMaxPlaintext : nat := kMaxMessage - 3 - 16.

Record NoiseResult := mkNoiseResult {
  nr_peer_machine_public : Bytes32;
  nr_protocol_version : Z;
  nr_handshake_hash : Bytes32;
  nr_tx_key : Bytes32;
  nr_rx_key : Bytes32;
}.

Definition put_be16 (v : Z) : list byte := [u8 (Z.shiftr v 8); u8 v].

(** [get_be16(p)] of bytes that are there. *)
Definition get_be16 (p : list byte) : Z :=
  match p with
  | b0 :: b1 :: _ => wrap_u16 (Z.lor (Z.shiftl (bz b0) 8) (bz b1))
  | _ => 0
  end.

(** The loop of put_be64, from the last byte to the first. *)
Fixpoint be_bytes (n : nat) (v : Z) (acc : list byte) : list byte :=
  match n with O => acc | S n => be_bytes n (Z.shiftr v 8) (u8 v :: acc) end.

Definition put_be64 (v : Z) : list byte := be_bytes 8 v [].

Definition zero_nonce : list byte := replicate 12 Byte.x00.
Definition nonce_of (counter : Z) : list byte := replicate 4 Byte.x00 ++ put_be64 counter.

(** ** The handshake *)

Section Handshake.
  Context `{OSSL : !OpenSSL}.

Definition mix_hash (h data : list byte) : res Bytes32 := blake2s256 h data.

(** [None] is a return of false: every exception is caught, and then neither
    the chaining key nor the key is changed. *)
Definition mix_dh (ck priv pub : Bytes32) : res (option (Bytes32 * Bytes32)) :=
  match (shared ← x25519_shared priv pub; hkdf_blake2s shared ck 64) with
  | Ok out => Ok (Some (take 32 out, drop 32 out))
  | Throw _ => Ok None
  | Ub => Ub
  end.

(** The ciphertext written to a span of [size] bytes, and the new hash. *)
Definition encrypt_and_hash (h k : Bytes32) (size : nat) (plaintext : list byte)
    : res (list byte * Bytes32) :=
  sealed ← aead_seal k zero_nonce h plaintext;
  if negb (length sealed =? size)%nat then Throw (RuntimeError "encrypt_and_hash size")
  else h ← mix_hash h sealed; mret (sealed, h).

Definition decrypt_and_hash (h k : Bytes32) (size : nat) (ciphertext : list byte)
    : res (option (list byte * Bytes32)) :=
  match aead_open k zero_nonce h ciphertext with
  | Some pt =>
      if negb (length pt =? size)%nat then Ok None
      else h ← mix_hash h ciphertext; mret (Some (pt, h))
  | None => Ok None
  end.

Definition split_keys (ck : Bytes32) : res (option (Bytes32 * Bytes32)) :=
  match hkdf_blake2s [] ck 64 with
  | Ok out => Ok (Some (take 32 out, drop 32 out))
  | Throw _ => Ok None
  | Ub => Ub
  end.

Definition initial_hash : res Bytes32 := blake2s256 (bytes_of_string kProtocolName) [].

Definition prologue (version : Z) : list byte :=
  bytes_of_string (kProloguePrefix +:+ to_string version).

(** [if (!step) { error = what; return false; }] *)
Definition need {S A B} (what : string) (step : res (option A)) (k : A -> M S (string + B))
    : M S (string + B) :=
  o ← lift step;
  match o with Some a => k a | None => mret (inl what) end.

(** The second half of noise_server_handshake: the reply, once the initiation
    has been accepted. *)
Definition server_reply (version : Z) (machine_key machine_eph h ck : Bytes32)
    : M nat (string + list byte * NoiseResult) :=
  control_eph ← generate_x25519_private;
  control_eph_pub ← lift (x25519_public control_eph);
  h ← lift (mix_hash h control_eph_pub);
  need "computing ee" (mix_dh ck control_eph machine_eph) (fun '(ck, k) =>
  need "computing se" (mix_dh ck control_eph machine_key) (fun '(ck, k) =>
  sealed ← lift (encrypt_and_hash h k 16 []);
  let response := [u8 kMsgResponse] ++ put_be16 48 ++ control_eph_pub ++ sealed.1 in
  need "finalizing handshake" (split_keys ck) (fun '(c1, c2) =>
  mret (inr (response, mkNoiseResult machine_key version sealed.2 c2 c1))))).

(** [inl error] is a return of false, [inr (handshake_response, out)] a return
    of true. The state is the random generator's. *)
Definition noise_server_handshake (control_private : Bytes32) (init : list byte)
    : M nat (string + list byte * NoiseResult) :=
  if negb (length init =? kInitiationLen)%nat then mret (inl "wrong handshake initiation size")
  else
    let version := get_be16 init in
    if negb (bz (default Byte.x00 (init !! 2%nat)) =? kMsgInitiation)%Z
    then mret (inl "unexpected handshake message type")
    else if negb (get_be16 (drop 3 init) =? 96)%Z
    then mret (inl "wrong handshake initiation length")
    else
      h ← lift initial_hash;
      let ck := h in
      h ← lift (mix_hash h (prologue version));
      control_pub ← lift (x25519_public control_private);
      h ← lift (mix_hash h control_pub);
      let machine_eph := take 32 (drop kInitHeaderLen init) in
      h ← lift (mix_hash h machine_eph);
      need "computing es" (mix_dh ck control_private machine_eph) (fun '(ck, k) =>
      need "decrypting machine key"
        (decrypt_and_hash h k 32 (take 48 (drop (kInitHeaderLen + 32) init)))
        (fun '(machine_key, h) =>
      need "computing ss" (mix_dh ck control_private machine_key) (fun '(ck, k) =>
      need "decrypting initiation tag"
        (decrypt_and_hash h k 0 (take 16 (drop (kInitHeaderLen + 32 + 48) init)))
        (fun '(_, h) =>
      server_reply version machine_key machine_eph h ck)))).

(** What the client keeps between its two messages. *)
Record ClientState := mkClientState {
  cs_ephemeral_priv : Bytes32; cs_h : Bytes32; cs_ck : Bytes32 }.

Definition noise_client_init (machine_private control_public : Bytes32) (protocol_version : Z)
    : M nat (list byte * ClientState) :=
  h ← lift initial_hash;
  let ck := h in
  h ← lift (mix_hash h (prologue protocol_version));
  h ← lift (mix_hash h control_public);
  ephemeral_priv ← generate_x25519_private;
  eph_pub ← lift (x25519_public ephemeral_priv);
  h ← lift (mix_hash h eph_pub);
  es ← lift (mix_dh ck ephemeral_priv control_public);
  match es with
  | None => throw (RuntimeError "client es")
  | Some (ck, k) =>
      machine_pub ← lift (x25519_public machine_private);
      c1 ← lift (encrypt_and_hash h k 48 machine_pub);
      ss ← lift (mix_dh ck machine_private control_public);
      match ss with
      | None => throw (RuntimeError "client ss")
      | Some (ck, k) =>
          c2 ← lift (encrypt_and_hash c1.2 k 16 []);
          let init := put_be16 protocol_version ++ [u8 kMsgInitiation] ++ put_be16 96 ++
                      eph_pub ++ c1.1 ++ c2.1 in
          mret (init, mkClientState ephemeral_priv c2.2 ck)
      end
  end.

Definition noise_client_finish (machine_private : Bytes32) (cs : ClientState)
    (response : list byte) (out : NoiseResult) : res (string + NoiseResult) :=
  if negb (length response =? kResponseLen)%nat
     || negb (bz (default Byte.x00 (response !! 0%nat)) =? kMsgResponse)%Z
     || negb (get_be16 (drop 1 response) =? 48)%Z
  then Ok (inl "bad handshake response")
  else
    let control_eph_pub := take 32 (drop kHeaderLen response) in
    h ← mix_hash (cs_h cs) control_eph_pub;
    ee ← mix_dh (cs_ck cs) (cs_ephemeral_priv cs) control_eph_pub;
    match ee with
    | None => Ok (inl "computing ee")
    | Some (ck, k) =>
        se ← mix_dh ck machine_private control_eph_pub;
        match se with
        | None => Ok (inl "computing se")
        | Some (ck, k) =>
            d ← decrypt_and_hash h k 0 (take 16 (drop (kHeaderLen + 32) response));
            match d with
            | None => Ok (inl "decrypting payload")
            | Some (_, h) =>
                keys ← split_keys ck;
                match keys with
                | None => Ok (inl "finalizing handshake")
                | Some (c1, c2) =>
                    Ok (inr (mkNoiseResult (nr_peer_machine_public out) 0 h c1 c2))
                end
            end
        end
    end.

End Handshake.

(** ** The record layer *)

(** [nc_fd] is negative once closed; the socket is the one of the descriptor. *)
Record NoiseConn := mkNoiseConn {
  nc_fd : Z;
  nc_sock : Sock;
  nc_tx_key : Bytes32;
  nc_rx_key : Bytes32;
  nc_tx_nonce : Z;
  nc_rx_nonce : Z;
  nc_plaintext : list byte;
}.

Definition set_sock (s : Sock) (c : NoiseConn) : NoiseConn :=
  mkNoiseConn (nc_fd c) s (nc_tx_key c) (nc_rx_key c) (nc_tx_nonce c) (nc_rx_nonce c)
    (nc_plaintext c).
Definition set_tx_nonce (n : Z) (c : NoiseConn) : NoiseConn :=
  mkNoiseConn (nc_fd c) (nc_sock c) (nc_tx_key c) (nc_rx_key c) n (nc_rx_nonce c) (nc_plaintext c).
Definition set_rx_nonce (n : Z) (c : NoiseConn) : NoiseConn :=
  mkNoiseConn (nc_fd c) (nc_sock c) (nc_tx_key c) (nc_rx_key c) (nc_tx_nonce c) n (nc_plaintext c).
Definition set_plaintext (p : list byte) (c : NoiseConn) : NoiseConn :=
  mkNoiseConn (nc_fd c) (nc_sock c) (nc_tx_key c) (nc_rx_key c) (nc_tx_nonce c) (nc_rx_nonce c) p.

Definition on_sock {A} (m : M Sock A) : M NoiseConn A := zoom nc_sock set_sock m.

Definition read_full (n : nat) : M NoiseConn (option (list byte)) := on_sock (recv_loop n n []).
Definition write_full (buf : list byte) : M NoiseConn bool :=
  on_sock (send_loop (length buf) buf).

Definition NoiseConn_new (fd : Z) (sock : Sock) (tx_key rx_key : Bytes32) : NoiseConn :=
  mkNoiseConn fd sock tx_key rx_key 0 0 [].

(** close(), which the destructor calls too. *)
Definition close : M NoiseConn unit :=
  fd ← gets nc_fd;
  if (0 <=? fd)%Z then
    _ ← on_sock sys_shutdown;
    _ ← on_sock sys_close;
    modify (fun c => mkNoiseConn (-1) (nc_sock c) (nc_tx_key c) (nc_rx_key c) (nc_tx_nonce c)
                       (nc_rx_nonce c) (nc_plaintext c))
  else mret ().

Section Records.
  Context `{OSSL : !OpenSSL}.

Definition decrypt_one : M NoiseConn bool :=
  hdr ← read_full kHeaderLen;
  match hdr with
  | None => mret false
  | Some hdr =>
      if negb (bz (default Byte.x00 (head hdr)) =? kMsgRecord)%Z then mret false
      else
        let clen := Z.to_nat (get_be16 (drop 1 hdr)) in
        if (clen <? 16)%nat || (kMaxMessage - kHeaderLen <? clen)%nat then mret false
        else
          ct ← read_full clen;
          match ct with
          | None => mret false
          | Some ct =>
              rx_key ← gets nc_rx_key;
              rx_nonce ← gets nc_rx_nonce;
              match aead_open rx_key (nonce_of rx_nonce) [] ct with
              | None => mret false
              | Some pt =>
                  _ ← modify (set_rx_nonce (wrap_u64 (rx_nonce + 1)));
                  _ ← modify (fun c => set_plaintext (nc_plaintext c ++ pt) c);
                  mret true
              end
          end
  end.

(** [while (plaintext_.empty()) if (!decrypt_one()) return 0;]: true when there
    is plaintext. Every record takes bytes off the socket, so their number is
    enough fuel. *)
Fixpoint fill (fuel : nat) : M NoiseConn bool :=
  plaintext ← gets nc_plaintext;
  match plaintext with
  | _ :: _ => mret true
  | [] =>
      match fuel with
      | O => lift Ub
      | S fuel =>
          ok ← decrypt_one;
          if negb ok then mret false else fill fuel
      end
  end.

(** read(buf, n): the bytes copied to [buf]; their number is the result. *)
Definition read (n : Z) : M NoiseConn (list byte) :=
  if (n <=? 0)%Z then mret []
  else
    c ← get;
    ok ← fill (S (length (stream (nc_sock c))));
    if negb ok then mret []
    else
      plaintext ← gets nc_plaintext;
      let take_ := Nat.min (Z.to_nat n) (length plaintext) in
      _ ← modify (set_plaintext (drop take_ plaintext));
      mret (take take_ plaintext).

(** [write_full(hdr) && write_full(ct)] *)
Definition send_record (hdr ct : list byte) : M NoiseConn bool :=
  ok ← write_full hdr;
  if negb ok then mret false else write_full ct.

(** The loop of write over what is left of the buffer, [sent] bytes being gone. *)
Fixpoint write_loop (fuel : nat) (sent : Z) (buf : list byte) : M NoiseConn Z :=
  match buf, fuel with
  | [], _ => mret sent
  | _, O => lift Ub
  | _, S fuel =>
      let chunk := Nat.min (length buf) kMaxPlaintext in
      tx_key ← gets nc_tx_key;
      tx_nonce ← gets nc_tx_nonce;
      ct ← lift (aead_seal tx_key (nonce_of tx_nonce) [] (take chunk buf));
      _ ← modify (set_tx_nonce (wrap_u64 (tx_nonce + 1)));
      let hdr := [u8 kMsgRecord] ++ put_be16 (wrap_u16 (Z.of_nat (length ct))) in
      ok ← send_record hdr ct;
      if negb ok then mret (if (sent =? 0)%Z then -1 else sent)%Z
      else write_loop fuel (sent + Z.of_nat chunk) (drop chunk buf)
  end.

Definition write (buf : list byte) : M NoiseConn Z := write_loop (length buf) 0 buf.

End Records.

(** ** The handshake: lemmas *)

Lemma get_be16_put v l : (0 <= v < 2 ^ 16)%Z -> get_be16 (put_be16 v ++ l) = v.
Proof.
  intros Hv. unfold get_be16, put_be16. cbn [app]. rewrite !bz_u8, lor_shiftl_add
    by (try lia; apply wrap_u8_range). rewrite Z.shiftr_div_pow2 by lia. wrap_lia.
Qed.

Section HandshakeFacts.
  Context `{OSSL : !OpenSSL} `{OLaws : !OpenSSLLaws}.

(** The chaining key and the key a shared secret gives. *)
Definition mix_out (ck shared : list byte) : Bytes32 * Bytes32 :=
  (take 32 (hkdf_spec shared ck 64), drop 32 (hkdf_spec shared ck 64)).

Lemma mix_dh_spec ck priv pub : mix_dh ck priv pub = Ok (mix_out ck <$> evp_x25519_derive priv pub).
Proof.
  unfold mix_dh, x25519_shared. destruct (evp_x25519_derive priv pub) as [s|] eqn:E; [| done].
  rewrite (x25519_derive_length _ _ _ E). simpl. by rewrite hkdf_blake2s_ok.
Qed.

Lemma mix_out_key ck shared : length (mix_out ck shared).2 = 32.
Proof. simpl. by rewrite length_drop, hkdf_spec_length. Qed.

Lemma split_keys_spec ck : split_keys ck = Ok (Some (mix_out ck [])).
Proof. unfold split_keys. by rewrite hkdf_blake2s_ok. Qed.

Lemma mix_hash_spec h data : mix_hash h data = Ok (digest (h ++ data)).
Proof. apply blake2s256_digest. Qed.

Lemma encrypt_and_hash_ok h k size pt :
  length k = 32 -> size = (length pt + 16)%nat ->
  exists ct, encrypt_and_hash h k size pt = Ok (ct, digest (h ++ ct)) /\ length ct = size /\
    aead_open k zero_nonce h ct = Some pt.
Proof.
  intros Hk ->. destruct (aead_seal_open k zero_nonce h pt Hk) as (ct & Hs & Hl & Ho); [done |].
  exists ct. unfold encrypt_and_hash. rewrite Hs. cbn [mbind res_bind].
  rewrite Hl, Nat.eqb_refl. cbn [negb]. by rewrite mix_hash_spec.
Qed.

Lemma decrypt_and_hash_ok h k size ct pt :
  aead_open k zero_nonce h ct = Some pt -> length pt = size ->
  decrypt_and_hash h k size ct = Ok (Some (pt, digest (h ++ ct))).
Proof.
  intros Ho Hl. unfold decrypt_and_hash. rewrite Ho, Hl, Nat.eqb_refl. cbn [negb].
  by rewrite mix_hash_spec.
Qed.

(** The hash after the prologue, the server's key and the client's ephemeral. *)
Definition hash0 : Bytes32 := digest (bytes_of_string kProtocolName ++ []).
Definition hash1 (version : Z) (cpub epub : Bytes32) : Bytes32 :=
  digest (digest (digest (hash0 ++ prologue version) ++ cpub) ++ epub).

(** An initiation as the protocol prescribes it, with the hash and the chaining
    key after it. *)
Definition honest_init (cpub mpub epub es ss : Bytes32) (version : Z) (init h ck : list byte)
    : Prop :=
  exists ct1 ct2,
    let '(ck1, k1) := mix_out hash0 es in
    let '(ck2, k2) := mix_out ck1 ss in
    let h1 := hash1 version cpub epub in
    let h2 := digest (h1 ++ ct1) in
    init = put_be16 version ++ [u8 kMsgInitiation] ++ put_be16 96 ++ epub ++ ct1 ++ ct2 /\
    length ct1 = 48 /\ length ct2 = 16 /\ length epub = 32 /\ length mpub = 32 /\
    aead_open k1 zero_nonce h1 ct1 = Some mpub /\ aead_open k2 zero_nonce h2 ct2 = Some [] /\
    h = digest (h2 ++ ct2) /\ ck = ck2.

Lemma x25519_public_Some priv : length priv = 32 ->
  exists pub, x25519_public priv = Ok pub /\ evp_x25519_public priv = Some pub /\ length pub = 32.
Proof.
  intros Hp. destruct (x25519_public_ok priv Hp) as (pub & He & Hl). exists pub.
  unfold x25519_public. by rewrite He.
Qed.

Lemma client_init_honest mpriv cpub version c init cs c1 :
  length mpriv = 32 ->
  noise_client_init mpriv cpub version c = (Ok (init, cs), c1) ->
  exists mpub epub es ss,
    length (cs_ephemeral_priv cs) = 32 /\
    evp_x25519_public mpriv = Some mpub /\
    evp_x25519_public (cs_ephemeral_priv cs) = Some epub /\
    evp_x25519_derive (cs_ephemeral_priv cs) cpub = Some es /\
    evp_x25519_derive mpriv cpub = Some ss /\
    honest_init cpub mpub epub es ss version init (cs_h cs) (cs_ck cs).
Proof.
  intros Hm H. unfold noise_client_init, initial_hash in H.
  erewrite bind_lift in H by apply blake2s256_digest. cbv zeta in H.
  do 2 erewrite bind_lift in H by apply mix_hash_spec.
  apply bind_Ok_inv in H as (eph & c2 & Heph & H). apply generate_x25519_private_length in Heph.
  destruct (x25519_public_Some eph Heph) as (epub & He & Hep & Hel).
  erewrite bind_lift in H by exact He.
  erewrite bind_lift in H by apply mix_hash_spec.
  erewrite bind_lift in H by apply mix_dh_spec.
  destruct (evp_x25519_derive eph cpub) as [es|] eqn:Hes; [| done].
  cbn [fmap option_fmap option_map] in H.
  destruct (mix_out (digest _) es) as [ck1 k1] eqn:E1.
  destruct (x25519_public_Some mpriv Hm) as (mpub & Hmp & Hmpe & Hml).
  erewrite bind_lift in H by exact Hmp.
  edestruct (encrypt_and_hash_ok (hash1 version cpub epub) k1 48 mpub) as (ct1 & Hc1 & Hl1 & Ho1).
  { pose proof (mix_out_key hash0 es) as Hk. unfold hash0 in Hk. by rewrite E1 in Hk. }
  { by rewrite Hml. }
  erewrite bind_lift in H by exact Hc1.
  erewrite bind_lift in H by apply mix_dh_spec.
  destruct (evp_x25519_derive mpriv cpub) as [ss|] eqn:Hss; [| done].
  cbn [fmap option_fmap option_map] in H.
  destruct (mix_out ck1 ss) as [ck2 k2] eqn:E2.
  edestruct (encrypt_and_hash_ok (digest (hash1 version cpub epub ++ ct1)) k2 16 [])
    as (ct2 & Hc2 & Hl2 & Ho2).
  { pose proof (mix_out_key ck1 ss) as Hk. by rewrite E2 in Hk. }
  { done. }
  erewrite bind_lift in H by exact Hc2. injection H as <- <- <-. cbn [cs_ephemeral_priv cs_h cs_ck].
  exists mpub, epub, es, ss. split_and!; try done.
  exists ct1, ct2. unfold hash0 at 1. rewrite E1, E2. by split_and!.
Qed.

(** The pieces the server takes out of an initiation. *)
Lemma init_parts version epub ct1 ct2 :
  (0 <= version < 2 ^ 16)%Z -> length epub = 32 -> length ct1 = 48 -> length ct2 = 16 ->
  let init := put_be16 version ++ [u8 kMsgInitiation] ++ put_be16 96 ++ epub ++ ct1 ++ ct2 in
  length init = kInitiationLen /\ get_be16 init = version /\ init !! 2%nat = Some (u8 kMsgInitiation) /\
  get_be16 (drop 3 init) = 96%Z /\ take 32 (drop kInitHeaderLen init) = epub /\
  take 48 (drop (kInitHeaderLen + 32) init) = ct1 /\
  take 16 (drop (kInitHeaderLen + 32 + 48) init) = ct2.
Proof.
  intros Hv He H1 H2. cbv zeta. split_and!.
  - rewrite !length_app, He, H1, H2. done.
  - by apply get_be16_put.
  - done.
  - by apply (get_be16_put 96).
  - change (take 32 (epub ++ ct1 ++ ct2) = epub). by apply take_app_length'.
  - change (take 48 (drop 32 (epub ++ ct1 ++ ct2)) = ct1).
    rewrite drop_app_length' by done. by apply take_app_length'.
  - change (take 16 (drop (32 + 48) (epub ++ ct1 ++ ct2)) = ct2).
    rewrite <-drop_drop, !drop_app_length' by done. apply take_ge. lia.
Qed.

(** The server goes on to its reply on every honest initiation. *)
Lemma server_accepts cpriv cpub mpub epub es ss version init h ck c :
  (0 <= version < 2 ^ 16)%Z -> x25519_public cpriv = Ok cpub ->
  evp_x25519_derive cpriv epub = Some es -> evp_x25519_derive cpriv mpub = Some ss ->
  honest_init cpub mpub epub es ss version init h ck ->
  noise_server_handshake cpriv init c = server_reply version mpub epub h ck c.
Proof.
  intros Hv Hcp Hes Hss (ct1 & ct2 & Hi). destruct (mix_out hash0 es) as [ck1 k1] eqn:E1.
  destruct (mix_out ck1 ss) as [ck2 k2] eqn:E2.
  destruct Hi as (-> & Hl1 & Hl2 & Hel & Hml & Ho1 & Ho2 & -> & ->).
  destruct (init_parts version epub ct1 ct2 Hv Hel Hl1 Hl2) as (P0 & P1 & P2 & P3 & P4 & P5 & P6).
  unfold noise_server_handshake, initial_hash. rewrite P0, P1, P2, P3, P4, P5, P6.
  change (bz (default Byte.x00 (Some (u8 kMsgInitiation))) =? kMsgInitiation)%Z with true.
  rewrite Nat.eqb_refl, Z.eqb_refl. cbn [negb]. unfold need.
  erewrite bind_lift by apply blake2s256_digest. cbv zeta.
  erewrite bind_lift by apply mix_hash_spec.
  erewrite bind_lift by exact Hcp.
  do 2 erewrite bind_lift by apply mix_hash_spec.
  erewrite bind_lift by (rewrite mix_dh_spec, Hes; reflexivity).
  cbn [fmap option_fmap option_map]. change (digest (bytes_of_string kProtocolName ++ [])) with hash0.
  rewrite E1. cbv beta iota.
  erewrite bind_lift by (apply decrypt_and_hash_ok; [exact Ho1 | done]). cbv beta iota.
  erewrite bind_lift by (rewrite mix_dh_spec, Hss; reflexivity).
  cbn [fmap option_fmap option_map]. rewrite E2. cbv beta iota.
  erewrite bind_lift by (apply decrypt_and_hash_ok; [exact Ho2 | done]).
  done.
Qed.

Lemma generate_outcome c :
  (exists priv c', generate_x25519_private c = (Ok priv, c') /\ length priv = 32) \/
  exists c', generate_x25519_private c = (Throw (RuntimeError "RAND_bytes"), c').
Proof.
  destruct (generate_x25519_private c) as [r c'] eqn:E. pose proof E as E'.
  unfold generate_x25519_private, random_bytes in E. cbn [Nat.eqb] in E. mstep.
  unfold mbind, M_bind, get, put, lift, mret, M_ret in E.
  destruct (rand_bytes c 32) as [raw|]; cbn in E; injection E as <- <-; [left | right; eauto].
  do 2 eexists. split; [reflexivity | by eapply generate_x25519_private_length].
Qed.

Lemma response_parts cepub sealed :
  length cepub = 32 -> length sealed = 16 ->
  let response := [u8 kMsgResponse] ++ put_be16 48 ++ cepub ++ sealed in
  length response = kResponseLen /\ response !! 0%nat = Some (u8 kMsgResponse) /\
  get_be16 (drop 1 response) = 48%Z /\ take 32 (drop kHeaderLen response) = cepub /\
  take 16 (drop (kHeaderLen + 32) response) = sealed.
Proof.
  intros Hc Hs. cbv zeta. split_and!.
  - rewrite !length_app, Hc, Hs. done.
  - done.
  - by apply (get_be16_put 48).
  - change (take 32 (cepub ++ sealed) = cepub). by apply take_app_length'.
  - change (take 16 (drop 32 (cepub ++ sealed)) = sealed).
    rewrite drop_app_length' by done. apply take_ge. lia.
Qed.

(** The two results of one handshake: what the parties must agree on. *)
Definition keys_agree (server client : NoiseResult) : Prop :=
  nr_tx_key server = nr_rx_key client /\ nr_rx_key server = nr_tx_key client /\
  nr_handshake_hash server = nr_handshake_hash client.

(** What the server answers and what the client makes of the answer. *)
Definition reply_ok (mpriv mpub : Bytes32) (version : Z) (cs : ClientState) (out0 : NoiseResult)
    (r : res (string + list byte * NoiseResult)) : Prop :=
  match r with
  | Ok (inr (response, out)) =>
      length response = kResponseLen /\ nr_peer_machine_public out = mpub /\
      nr_protocol_version out = version /\
      exists out2, noise_client_finish mpriv cs response out0 = Ok (inr out2) /\ keys_agree out out2
  | Ok (inl e) => e = "computing ee" \/ e = "computing se"
  | Throw e => e = RuntimeError "RAND_bytes"
  | Ub => False
  end.

Lemma reply_agrees version mpriv mpub cs epub out0 c :
  evp_x25519_public mpriv = Some mpub -> evp_x25519_public (cs_ephemeral_priv cs) = Some epub ->
  reply_ok mpriv mpub version cs out0 (server_reply version mpub epub (cs_h cs) (cs_ck cs) c).1.
Proof.
  intros Hm He. unfold server_reply.
  destruct (generate_outcome c) as [(ceph & c' & Hg & Hcl)|(c' & Hg)].
  2: { unfold mbind, M_bind. by rewrite Hg. }
  rewrite (bind_Ok _ _ _ _ _ Hg).
  destruct (x25519_public_Some ceph Hcl) as (cepub & Hp & Hpe & Hpl).
  erewrite bind_lift by exact Hp. erewrite bind_lift by apply mix_hash_spec. unfold need.
  erewrite bind_lift by (rewrite mix_dh_spec, (x25519_agree _ _ _ _ Hpe He); reflexivity).
  destruct (evp_x25519_derive (cs_ephemeral_priv cs) cepub) as [ee|] eqn:Eee; [| by left].
  cbn [fmap option_fmap option_map]. destruct (mix_out (cs_ck cs) ee) as [ck1 k1] eqn:E1.
  cbv beta iota.
  erewrite bind_lift by (rewrite mix_dh_spec, (x25519_agree _ _ _ _ Hpe Hm); reflexivity).
  destruct (evp_x25519_derive mpriv cepub) as [se|] eqn:Ese; [| by right].
  cbn [fmap option_fmap option_map]. destruct (mix_out ck1 se) as [ck2 k2] eqn:E2. cbv beta iota.
  edestruct (encrypt_and_hash_ok (digest (cs_h cs ++ cepub)) k2 16 []) as (ct & Hct & Hl & Ho);
    [pose proof (mix_out_key ck1 se) as Hk; by rewrite E2 in Hk | done |].
  erewrite bind_lift by exact Hct. cbv zeta. erewrite bind_lift by apply split_keys_spec.
  destruct (mix_out ck2 []) as [t1 t2] eqn:E3. cbn [fst snd reply_ok mret M_ret].
  destruct (response_parts cepub ct Hpl Hl) as (P0 & P1 & P2 & P3 & P4).
  split_and!; [exact P0 | done | done |].
  unfold noise_client_finish. rewrite P0, P1, P2, P3, P4.
  change (bz (default Byte.x00 (Some (u8 kMsgResponse))) =? kMsgResponse)%Z with true.
  rewrite Nat.eqb_refl, Z.eqb_refl. cbn [negb orb].
  rewrite mix_hash_spec. cbn [mbind res_bind]. rewrite mix_dh_spec, Eee.
  cbn [fmap option_fmap option_map]. rewrite E1. cbn [mbind res_bind].
  rewrite mix_dh_spec, Ese. cbn [fmap option_fmap option_map]. rewrite E2. cbn [mbind res_bind].
  erewrite decrypt_and_hash_ok by (exact Ho || done). cbn [mbind res_bind].
  rewrite split_keys_spec, E3. cbn [mbind res_bind]. eexists. split; [reflexivity |].
  by split_and!.
Qed.

(** C24: the two sides of the handshake agree: on an initiation its own client
    code built for the server's public key, the server learns exactly the
    client's machine key and protocol version, and its 51-byte reply makes the
    client finish with the same handshake hash and with the server's sending
    key as receiving key and the other way round. The server can only fail on
    such an initiation because its random generator fails or a Diffie-Hellman
    with its own fresh key is refused. *)
Theorem handshake_agreement cpriv cpub mpriv version c init cs c' out0 d :
  length cpriv = 32 -> length mpriv = 32 -> (0 <= version < 2 ^ 16)%Z ->
  x25519_public cpriv = Ok cpub ->
  noise_client_init mpriv cpub version c = (Ok (init, cs), c') ->
  length init = kInitiationLen /\
  exists mpub, x25519_public mpriv = Ok mpub /\
    reply_ok mpriv mpub version cs out0 (noise_server_handshake cpriv init d).1.
Proof.
  intros Hc Hm Hv Hcp Hi.
  destruct (client_init_honest _ _ _ _ _ _ _ Hm Hi) as (mpub & epub & es & ss & Hel & Hmp & Hep &
    Hes & Hss & Hh).
  destruct (x25519_public_Some cpriv Hc) as (cpub' & Hcp' & Hcpe & _).
  assert (cpub' = cpub) as -> by congruence. pose proof Hh as Hlen.
  rewrite <-(x25519_agree _ _ _ _ Hcpe Hep) in Hes. rewrite <-(x25519_agree _ _ _ _ Hcpe Hmp) in Hss.
  split.
  - destruct Hlen as (ct1 & ct2 & Hlen). destruct (mix_out hash0 es), (mix_out _ ss).
    destruct Hlen as (-> & H1 & H2 & H3 & _). by rewrite !length_app, H1, H2, H3.
  - exists mpub. split; [unfold x25519_public; by rewrite Hmp |].
    rewrite (server_accepts _ _ _ _ _ _ _ _ _ _ _ Hv Hcp Hes Hss Hh).
    by apply reply_agrees.
Qed.

End HandshakeFacts.

(** ** The record layer: what a byte stream looks like on the wire *)

Section RecordSpec.
  Context `{OSSL : !OpenSSL}.

Definition frame (ct : list byte) : list byte :=
  [u8 kMsgRecord] ++ put_be16 (Z.of_nat (length ct)) ++ ct.

(** [records key n data wire n']: [wire] is [data] cut into non-empty records
    sealed under the nonces [n], [n + 1], ..., the next nonce being [n']. *)
Inductive records (key : Bytes32) : Z -> list byte -> list byte -> Z -> Prop :=
  | records_nil n : records key n [] [] n
  | records_cons n pt ct data wire n' :
      aead_seal key (nonce_of n) [] pt = Ok ct -> pt <> [] -> (length pt <= kMaxPlaintext)%nat ->
      records key (wrap_u64 (n + 1)) data wire n' ->
      records key n (pt ++ data) (frame ct ++ wire) n'.

(** [data] is what the connection will deliver: decrypted bytes, then records
    still on the socket. *)
Definition in_flight (c : NoiseConn) (data : list byte) : Prop :=
  exists pend n', data = nc_plaintext c ++ pend /\ live (nc_sock c) /\
    records (nc_rx_key c) (nc_rx_nonce c) pend (stream (nc_sock c)) n'.

(** Read with a buffer of [n] bytes until a read returns 0. *)
Fixpoint drain (fuel : nat) (n : Z) : M NoiseConn (list byte) :=
  match fuel with
  | O => lift Ub
  | S fuel =>
      r ← read n;
      match r with [] => mret [] | _ => rest ← drain fuel n; mret (r ++ rest) end
  end.

(** The bytes of several writes. *)
Definition write_bufs (ws : list (list byte)) : M NoiseConn unit :=
  for_each ws (fun w => _ ← write w; mret ()).

(** A socket on which every send makes progress. *)
Definition sendable (s : Sock) : Prop :=
  sk_closes s = 0 /\ Forall (fun k => 0 < k)%nat (sk_accept s).

End RecordSpec.

Section RecordFacts.
  Context `{OSSL : !OpenSSL} `{OLaws : !OpenSSLLaws}.

Lemma records_app key n d w n1 d' w' n2 :
  records key n d w n1 -> records key n1 d' w' n2 -> records key n (d ++ d') (w ++ w') n2.
Proof.
  induction 1 as [|n pt ct data wire n' Hs Hne Hl _ IH]; intros H2; [done |].
  rewrite <-!app_assoc. constructor; auto.
Qed.

Lemma records_nil_inv key n d w n' : records key n d w n' -> d = [] -> w = [].
Proof. destruct 1 as [|n pt]; [done |]. by intros [-> _]%app_nil. Qed.

Lemma length_nonce n : length (nonce_of n) = 12.
Proof. done. Qed.

Lemma seal_ok key n pt : length key = 32 ->
  exists ct, aead_seal key (nonce_of n) [] pt = Ok ct /\ length ct = (length pt + 16)%nat /\
    aead_open key (nonce_of n) [] ct = Some pt.
Proof. intros Hk. by apply aead_seal_open. Qed.

Lemma write_full_spec buf c :
  exists b n s', write_full buf c = (Ok b, set_sock s' c) /\
    sk_out s' = sk_out (nc_sock c) ++ take n buf /\
    (if b then n = length buf else (n < length buf)%nat) /\
    (sendable (nc_sock c) -> b = true /\ sendable s').
Proof.
  destruct (send_loop_spec (length buf) buf (nc_sock c) (Nat.le_refl _))
    as (b & n & s' & H1 & H2 & _ & H3 & _ & H4 & _ & H5).
  exists b, n, s'. unfold write_full, on_sock, zoom. rewrite H1. split_and!; try done.
  intros [Hc Ha]. destruct (H5 Hc Ha). split; [done |]. split; [congruence | done].
Qed.

Lemma send_record_spec hdr ct c :
  exists b junk s', send_record hdr ct c = (Ok b, set_sock s' c) /\
    sk_out s' = sk_out (nc_sock c) ++ junk /\ (b = true -> junk = hdr ++ ct) /\
    (sendable (nc_sock c) -> b = true /\ sendable s').
Proof.
  unfold send_record.
  destruct (write_full_spec hdr c) as (b1 & n1 & s1 & H1 & Ho1 & Hn1 & Hs1).
  rewrite (bind_Ok _ _ _ _ _ H1). destruct b1; cbn [negb].
  - destruct (write_full_spec ct (set_sock s1 c)) as (b2 & n2 & s2 & H2 & Ho2 & Hn2 & Hs2).
    exists b2, (hdr ++ take n2 ct), s2. split; [exact H2 |]. simpl in Ho2, Hs2.
    rewrite Ho2, Ho1, take_ge by lia. split; [by rewrite app_assoc |].
    split; [intros ->; by rewrite take_ge by lia |]. intros Hg. destruct (Hs1 Hg) as [_ Hg1]. auto.
  - exists false, (take n1 hdr), s1. split_and!; [done | done | done |].
    intros Hg. by destruct (Hs1 Hg).
Qed.

(** One round of write_loop. *)
Lemma write_step fuel sent buf c :
  length (nc_tx_key c) = 32 -> buf <> [] ->
  let chunk := Nat.min (length buf) kMaxPlaintext in
  exists ct (ok : bool) junk s1,
    write_loop (S fuel) sent buf c =
      (if ok then write_loop fuel (sent + Z.of_nat chunk) (drop chunk buf)
       else (mret (if (sent =? 0)%Z then -1 else sent)%Z : M NoiseConn Z))
        (set_tx_nonce (wrap_u64 (nc_tx_nonce c + 1)) (set_sock s1 c)) /\
    aead_seal (nc_tx_key c) (nonce_of (nc_tx_nonce c)) [] (take chunk buf) = Ok ct /\
    sk_out s1 = sk_out (nc_sock c) ++ junk /\ (ok = true -> junk = frame ct) /\
    (sendable (nc_sock c) -> ok = true /\ sendable s1).
Proof.
  intros Hk Hne chunk.
  assert (chunk <= kMaxPlaintext)%nat as Hch by (unfold chunk; lia).
  destruct (seal_ok (nc_tx_key c) (nc_tx_nonce c) (take chunk buf) Hk) as (ct & Hct & Hlct & _).
  rewrite length_take in Hlct.
  assert (wrap_u16 (Z.of_nat (length ct)) = Z.of_nat (length ct)) as Hw.
  { apply wrap_u16_small. unfold kMaxPlaintext, kMaxMessage in *. lia. }
  destruct (send_record_spec ([u8 kMsgRecord] ++ put_be16 (Z.of_nat (length ct))) ct
    (set_tx_nonce (wrap_u64 (nc_tx_nonce c + 1)) c)) as (ok & junk & s1 & H1 & Ho & Hj & Hg).
  exists ct, ok, junk, s1.
  split_and!; [| exact Hct | exact Ho | | exact Hg].
  - destruct buf as [|x buf]; [done |]. cbn [write_loop]. fold chunk.
    do 2 erewrite bind_Ok by reflexivity. erewrite bind_lift by exact Hct.
    erewrite bind_Ok by reflexivity. cbv zeta. rewrite Hw.
    rewrite (bind_Ok _ _ _ _ _ H1). by destruct ok.
  - intros Hok. rewrite (Hj Hok). unfold frame. by rewrite <-!app_assoc.
Qed.

(** What write_loop does, for any behaviour of the sends: [k] bytes have gone
    out in whole records, and then perhaps part of one. *)
Lemma write_loop_spec fuel sent buf c :
  length (nc_tx_key c) = 32 -> (length buf <= fuel)%nat -> (0 <= sent)%Z ->
  exists k wire junk n' s',
    write_loop fuel sent buf c =
      (Ok (if (k =? length buf)%nat then sent + Z.of_nat (length buf)
           else if (sent + Z.of_nat k =? 0)%Z then -1 else sent + Z.of_nat k)%Z,
       set_tx_nonce n' (set_sock s' c)) /\
    (k <= length buf)%nat /\ sk_out s' = sk_out (nc_sock c) ++ wire ++ junk /\
    (k = length buf -> junk = [] /\ records (nc_tx_key c) (nc_tx_nonce c) buf wire n') /\
    (exists m, records (nc_tx_key c) (nc_tx_nonce c) (take k buf) wire m) /\
    (sendable (nc_sock c) -> k = length buf /\ sendable s').
Proof.
  revert sent buf c. induction fuel as [|fuel IH]; intros sent buf c Hk Hf Hs;
    destruct (decide (buf = [])) as [->|Hne]; try (destruct buf; simpl in Hf; [done | lia]).
  1, 2: exists 0, [], [], (nc_tx_nonce c), (nc_sock c); simpl; rewrite Z.add_0_r, app_nil_r;
    split_and!; [by destruct c | done | done | repeat constructor | by eexists; constructor | done].
  destruct (write_step fuel sent buf c Hk Hne) as (ct & ok & junk & s1 & Hw & Hct & Ho & Hj & Hg).
  set (chunk := Nat.min (length buf) kMaxPlaintext) in *. rewrite Hw.
  assert (1 <= length buf)%nat as Hb by (destruct buf; simpl; [done | lia]).
  assert (1 <= chunk <= length buf /\ chunk <= kMaxPlaintext)%nat as Hch
    by (unfold chunk, kMaxPlaintext, kMaxMessage; lia).
  destruct ok.
  - specialize (Hj eq_refl). subst junk.
    destruct (IH (sent + Z.of_nat chunk)%Z (drop chunk buf)
      (set_tx_nonce (wrap_u64 (nc_tx_nonce c + 1)) (set_sock s1 c)))
      as (k & wire & junk & n' & s' & H1 & H2 & H3 & H4 & (m & H5) & H6);
      rewrite ?length_drop in *; [done | lia | lia |].
    exists (chunk + k)%nat, (frame ct ++ wire), junk, n', s'. simpl in H3, H4, H5, H6.
    assert (forall d w m', records (nc_tx_key c) (wrap_u64 (nc_tx_nonce c + 1)) d w m' ->
      records (nc_tx_key c) (nc_tx_nonce c) (take chunk buf ++ d) (frame ct ++ w) m') as Hcons.
    { intros d w m' Hr. constructor; try done.
      - intros E. apply (f_equal length) in E. rewrite length_take in E. simpl in E. lia.
      - rewrite length_take. lia. }
    split_and!.
    + rewrite H1. f_equal. f_equal.
      destruct (k =? _)%nat eqn:E1, (chunk + k =? _)%nat eqn:E2; solve_guards; try lia.
      by rewrite Nat2Z.inj_add, Z.add_assoc.
    + lia.
    + rewrite H3, Ho, <-!app_assoc. done.
    + intros Hkl. destruct (H4 ltac:(lia)) as [-> Hr]. split; [done |].
      rewrite <-(take_drop chunk buf) at 1. by apply Hcons.
    + exists m. replace (take (chunk + k) buf) with (take chunk buf ++ take k (drop chunk buf))
        by (by rewrite take_take_drop). by apply Hcons.
    + intros Hsend. destruct (Hg Hsend) as [_ Hs1]. destruct (H6 Hs1). split; [lia | done].
  - exists 0, [], junk, (wrap_u64 (nc_tx_nonce c + 1)), s1. split_and!.
    + replace (0 =? length buf)%nat with false by (symmetry; apply Nat.eqb_neq; lia).
      by rewrite Z.add_0_r.
    + lia.
    + done.
    + lia.
    + eexists. rewrite take_0. constructor.
    + intros Hsend. by destruct (Hg Hsend).
Qed.

(** *** Reading *)

Lemma read_full_live n c : live (nc_sock c) -> (n <= length (stream (nc_sock c)))%nat ->
  exists s', read_full n c = (Ok (Some (take n (stream (nc_sock c)))), set_sock s' c) /\
    stream s' = drop n (stream (nc_sock c)) /\ live s'.
Proof.
  intros Hl Hn. destruct (recv_loop_spec n n [] (nc_sock c)) as (s' & H1 & H2 & H3 & _);
    [done | simpl; lia.. |].
  change (length (@nil byte)) with 0 in *. rewrite Nat.sub_0_r in *. exists s'.
  unfold read_full, on_sock, zoom. by rewrite H1.
Qed.

(** A record at the front of the stream is decrypted. *)
Lemma decrypt_one_frame c pt ct rest :
  live (nc_sock c) -> length (nc_rx_key c) = 32 -> (length pt <= kMaxPlaintext)%nat ->
  aead_seal (nc_rx_key c) (nonce_of (nc_rx_nonce c)) [] pt = Ok ct ->
  stream (nc_sock c) = frame ct ++ rest ->
  exists s', decrypt_one c =
      (Ok true, set_plaintext (nc_plaintext c ++ pt)
                  (set_rx_nonce (wrap_u64 (nc_rx_nonce c + 1)) (set_sock s' c))) /\
    live s' /\ stream s' = rest.
Proof.
  intros Hl Hk Hpt Hct Hst.
  destruct (seal_ok (nc_rx_key c) (nc_rx_nonce c) pt Hk) as (ct' & Hct' & Hlen & Hopen).
  assert (ct' = ct) as -> by congruence.
  unfold decrypt_one.
  destruct (read_full_live kHeaderLen c Hl) as (s1 & H1 & Hs1 & Hl1).
  { rewrite Hst. unfold kHeaderLen. simpl. lia. }
  rewrite (bind_Ok _ _ _ _ _ H1), Hst.
  change (take kHeaderLen (frame ct ++ rest))
    with ([u8 kMsgRecord] ++ put_be16 (Z.of_nat (length ct))).
  change (bz (default Byte.x00 (head ([u8 kMsgRecord] ++ put_be16 (Z.of_nat (length ct)))))
          =? kMsgRecord)%Z with true.
  cbn [negb]. cbv zeta. change (drop 1 ([u8 kMsgRecord] ++ put_be16 (Z.of_nat (length ct))))
    with (put_be16 (Z.of_nat (length ct))).
  rewrite <-(app_nil_r (put_be16 _)), get_be16_put
    by (unfold kMaxPlaintext, kMaxMessage in *; lia).
  rewrite Nat2Z.id.
  replace ((length ct <? 16)%nat || (kMaxMessage - kHeaderLen <? length ct)%nat) with false
    by (symmetry; unfold kMaxPlaintext, kMaxMessage, kHeaderLen in *;
        apply orb_false_iff; split; apply Nat.ltb_ge; lia).
  assert (stream s1 = ct ++ rest) as Hs1' by (rewrite Hs1, Hst; done).
  destruct (read_full_live (length ct) (set_sock s1 c) Hl1) as (s2 & H2 & Hs2 & Hl2).
  { simpl. rewrite Hs1', length_app. lia. }
  rewrite (bind_Ok _ _ _ _ _ H2). simpl in Hs2. simpl nc_sock. rewrite Hs1' in Hs2 |- *.
  rewrite take_app_length. do 2 erewrite bind_Ok by reflexivity. cbn [set_sock nc_rx_key nc_rx_nonce].
  rewrite Hopen. exists s2. split; [done |]. split; [done |]. by rewrite Hs2, drop_app_length.
Qed.

Lemma fill_in_flight c data fuel :
  length (nc_rx_key c) = 32 -> in_flight c data -> data <> [] ->
  exists c', fill (S fuel) c = (Ok true, c') /\ nc_plaintext c' <> [] /\
    in_flight c' data /\ nc_rx_key c' = nc_rx_key c.
Proof.
  intros Hk (pend & n' & Hd & Hl & Hr) Hne. unfold fill; fold fill.
  erewrite bind_Ok by reflexivity. destruct (nc_plaintext c) as [|x p] eqn:Ep.
  - cbn [app] in Hd. subst pend. inversion Hr as [n E1 E2 E3|n pt ct d w m Hs Hnp Hlp Hw E1 E2 E3];
      [congruence |]. subst.
    destruct (decrypt_one_frame c pt ct w Hl Hk Hlp Hs (eq_sym E3)) as (s' & H1 & Hl' & Hs').
    rewrite (bind_Ok _ _ _ _ _ H1). cbn [negb]. rewrite Ep. cbn [app].
    exists (set_plaintext pt (set_rx_nonce (wrap_u64 (nc_rx_nonce c + 1)) (set_sock s' c))).
    split; [destruct fuel; cbn [fill]; erewrite bind_Ok by reflexivity; by destruct pt |].
    split; [done |]. split; [| done]. eexists d, _. simpl. by rewrite Hs'.
  - exists c. split; [done |]. split; [congruence |]. split; [| done].
    exists pend, n'. by rewrite Ep.
Qed.

Lemma read_in_flight c data n :
  length (nc_rx_key c) = 32 -> in_flight c data -> data <> [] -> (0 < n)%Z ->
  exists r c' data', read n c = (Ok r, c') /\ r <> [] /\ (Z.of_nat (length r) <= n)%Z /\
    data = r ++ data' /\ in_flight c' data' /\ nc_rx_key c' = nc_rx_key c.
Proof.
  intros Hk Hf Hne Hn. unfold read. replace (n <=? 0)%Z with false by lia.
  erewrite bind_Ok by reflexivity.
  destruct (fill_in_flight c data (length (stream (nc_sock c))) Hk Hf Hne)
    as (c' & H1 & Hp & (pend & n' & Hd & Hl & Hr) & Hkey).
  rewrite (bind_Ok _ _ _ _ _ H1). cbn [negb]. do 2 erewrite bind_Ok by reflexivity. cbv zeta.
  set (t := Nat.min (Z.to_nat n) (length (nc_plaintext c'))).
  assert (1 <= length (nc_plaintext c'))%nat by (destruct (nc_plaintext c'); simpl; [done | lia]).
  do 2 eexists. exists (drop t (nc_plaintext c') ++ pend). split; [reflexivity |].
  split; [intros E; apply (f_equal length) in E; rewrite length_take in E; simpl in E; lia |].
  split; [rewrite length_take; lia |].
  split; [by rewrite Hd, app_assoc, take_drop |]. split; [| done]. by exists pend, n'.
Qed.

Lemma read_at_end c n : in_flight c [] -> exists c', read n c = (Ok [], c').
Proof.
  intros (pend & n' & Hd & [Ho Hl] & Hr). symmetry in Hd. apply app_nil in Hd as [Hp ->].
  unfold read. destruct (n <=? 0)%Z; [by exists c |].
  apply records_nil_inv in Hr as E2; [| done].
  assert (sk_in (nc_sock c) = []) as Hin.
  { unfold stream in E2. destruct (sk_in (nc_sock c)) as [|x l]; [done |].
    apply Forall_cons in Hl as [Hx _]. by destruct x. }
  erewrite bind_Ok by reflexivity. exists (set_sock (nc_sock c) c).
  assert (read_full kHeaderLen c = (Ok None, set_sock (nc_sock c) c)) as Hrf.
  { unfold read_full, on_sock, zoom. cbn [recv_loop kHeaderLen length Nat.sub].
    unfold mbind, M_bind, sys_recv. by rewrite Ho, Hin. }
  assert (decrypt_one c = (Ok false, set_sock (nc_sock c) c)) as Hd1.
  { unfold decrypt_one. by rewrite (bind_Ok _ _ _ _ _ Hrf). }
  assert (fill (S (length (stream (nc_sock c)))) c = (Ok false, set_sock (nc_sock c) c)) as Hfill.
  { unfold fill; fold fill. erewrite bind_Ok by reflexivity. rewrite Hp.
    by rewrite (bind_Ok _ _ _ _ _ Hd1). }
  rewrite (bind_Ok _ _ _ _ _ Hfill). done.
Qed.

Lemma drain_in_flight fuel c data n :
  length (nc_rx_key c) = 32 -> in_flight c data -> (0 < n)%Z -> (length data < fuel)%nat ->
  exists c', drain fuel n c = (Ok data, c').
Proof.
  revert c data. induction fuel as [|fuel IH]; intros c data Hk Hf Hn Hfuel; [lia |].
  cbn [drain]. destruct (decide (data = [])) as [->|Hne].
  - destruct (read_at_end c n Hf) as (c' & H). rewrite (bind_Ok _ _ _ _ _ H). by exists c'.
  - destruct (read_in_flight c data n Hk Hf Hne Hn) as (r & c1 & d' & H & Hr & _ & -> & Hf' & Hk').
    rewrite (bind_Ok _ _ _ _ _ H). destruct r as [|x r]; [done |].
    destruct (IH c1 d') as (c2 & H2); [congruence | done | done | |].
    { rewrite length_app in Hfuel. simpl in Hfuel. lia. }
    rewrite (bind_Ok _ _ _ _ _ H2). by exists c2.
Qed.

Lemma write_bufs_spec ws a :
  length (nc_tx_key a) = 32 -> sendable (nc_sock a) ->
  exists wire n' a', write_bufs ws a = (Ok tt, a') /\
    sk_out (nc_sock a') = sk_out (nc_sock a) ++ wire /\
    records (nc_tx_key a) (nc_tx_nonce a) (concat ws) wire n'.
Proof.
  revert a. induction ws as [|w ws IH]; intros a Hk Hs.
  { exists [], (nc_tx_nonce a), a. simpl. rewrite app_nil_r. by repeat constructor. }
  destruct (write_loop_spec (length w) 0 w a Hk (Nat.le_refl _) (Z.le_refl _))
    as (k & wire & junk & n1 & s1 & Hw & _ & Ho & Hall & _ & Hsend).
  destruct (Hsend Hs) as [-> Hs1]. destruct (Hall eq_refl) as [-> Hr]. rewrite app_nil_r in Ho.
  destruct (IH (set_tx_nonce n1 (set_sock s1 a)) Hk Hs1) as (wire' & n2 & a' & Hb & Ho' & Hr').
  exists (wire ++ wire'), n2, a'. split.
  - unfold write_bufs in *. cbn [for_each]. unfold write at 1.
    erewrite bind_Ok; [exact Hb |]. by rewrite (bind_Ok _ _ _ _ _ Hw).
  - simpl in Ho', Hr'. rewrite Ho', Ho, <-app_assoc. split; [done |].
    by eapply records_app.
Qed.

Lemma send_record_outcome hdr ct c :
  exists b s', send_record hdr ct c = (Ok b, set_sock s' c).
Proof.
  destruct (send_record_spec hdr ct c) as (b & junk & s' & H & _). eauto.
Qed.

(** Without a usable key a write throws; it always returns otherwise. *)
Lemma write_not_ub buf c : (write buf c).1 <> Ub.
Proof.
  unfold write. generalize (Nat.le_refl (length buf)). generalize (length buf) at 2 3 as fuel.
  generalize 0%Z as sent. intros sent fuel. revert sent buf c.
  induction fuel as [|fuel IH]; intros sent buf c Hf; destruct buf as [|x buf]; simpl in Hf; try lia;
    try done.
  cbn [write_loop]. set (b := x :: buf) in *. set (chunk := Nat.min (length b) kMaxPlaintext).
  do 2 erewrite bind_Ok by reflexivity.
  assert (aead_seal (nc_tx_key c) (nonce_of (nc_tx_nonce c)) [] (take chunk b) <> Ub) as Hub.
  { unfold aead_seal. destruct (negb _); [done |]. by destruct (evp_chacha_encrypt _ _ _ _) as [[]|]. }
  unfold mbind at 1, M_bind at 1, lift at 1.
  destruct (aead_seal _ _ _ _) as [ct|e|]; [| done | done].
  erewrite bind_Ok by reflexivity. cbv zeta.
  edestruct (send_record_outcome) as (ok & s' & H). rewrite (bind_Ok _ _ _ _ _ H).
  destruct ok; cbn [negb]; [| by destruct (sent =? 0)%Z].
  apply IH. rewrite length_drop. subst b. unfold chunk, kMaxPlaintext, kMaxMessage. simpl length. lia.
Qed.

(** C7: a NoiseConn carries a byte stream: whatever sequence of buffers one side
    writes, with sends of any size, the other side, holding the same key and
    counter, reads exactly their concatenation, for every segmentation of the
    encrypted bytes on the way and every read size, and then end of stream. *)
Theorem record_round_trip ws a :
  length (nc_tx_key a) = 32 -> sendable (nc_sock a) ->
  exists wire a', write_bufs ws a = (Ok tt, a') /\
    sk_out (nc_sock a') = sk_out (nc_sock a) ++ wire /\
    forall b n, nc_rx_key b = nc_tx_key a -> nc_rx_nonce b = nc_tx_nonce a ->
      nc_plaintext b = [] -> live (nc_sock b) -> stream (nc_sock b) = wire -> (0 < n)%Z ->
      exists b', drain (S (length (concat ws))) n b = (Ok (concat ws), b').
Proof.
  intros Hk Hs. destruct (write_bufs_spec ws a Hk Hs) as (wire & n' & a' & Hw & Ho & Hr).
  exists wire, a'. split_and!; [done | done |]. intros b n Hkey Hn Hp Hl Hst Hpos.
  apply drain_in_flight; [congruence | | done | lia].
  exists (concat ws), n'. rewrite Hp, Hkey, Hn, Hst. done.
Qed.


(** *** Any peer *)

Lemma sys_recv_stream n s : exists r s',
  sys_recv n s = (Ok r, s') /\ stream s = r ++ stream s' /\ (length r <= n)%nat.
Proof.
  unfold sys_recv, stream. destruct (_ <? _)%nat; [by exists [], s; simpl; split_and!; try lia |].
  destruct (sk_in s) as [|c cs] eqn:E; [exists [], s; rewrite E; simpl; split_and!; done || lia |].
  do 2 eexists. split; [reflexivity |]. split; [| rewrite length_take; lia]. simpl.
  rewrite <-(take_drop n c) at 1. rewrite <-app_assoc. f_equal. by destruct (drop n c).
Qed.

Lemma recv_loop_total fuel n got s : (n - length got <= fuel)%nat ->
  exists r s', recv_loop fuel n got s = (Ok r, s') /\
    (length (stream s') <= length (stream s))%nat /\
    forall l, r = Some l -> (n - length got + length (stream s') <= length (stream s))%nat.
Proof.
  revert got s. induction fuel as [|fuel IH]; intros got s Hf; cbn [recv_loop];
    destruct (n - length got)%nat as [|m] eqn:Em; try lia.
  1, 2: exists (Some got), s; split_and!; [done | lia | intros; lia].
  destruct (sys_recv_stream (S m) s) as (r & s1 & Hr & Hst & Hl).
  rewrite (bind_Ok _ _ _ _ _ Hr). apply (f_equal length) in Hst. rewrite length_app in Hst.
  destruct r as [|x r]; [exists None, s1; split_and!; [done | lia | done] |].
  destruct (IH (got ++ x :: r) s1) as (r2 & s2 & H2 & Hl2 & Hs2).
  { rewrite length_app. simpl in *. lia. }
  exists r2, s2. split_and!; [done | lia |]. intros l El. specialize (Hs2 l El).
  rewrite length_app in Hs2. simpl in *. lia.
Qed.

Lemma read_full_total n c : exists r s', read_full n c = (Ok r, set_sock s' c) /\
  (length (stream s') <= length (stream (nc_sock c)))%nat /\
  forall l, r = Some l -> (n + length (stream s') <= length (stream (nc_sock c)))%nat.
Proof.
  destruct (recv_loop_total n n [] (nc_sock c)) as (r & s' & H1 & H2 & H3); [simpl; lia |].
  exists r, s'. unfold read_full, on_sock, zoom. rewrite H1. split_and!; [done | done |].
  intros l E. specialize (H3 l E). simpl in H3. lia.
Qed.

Lemma decrypt_one_total c : exists b c', decrypt_one c = (Ok b, c') /\
  (b = true -> length (stream (nc_sock c')) < length (stream (nc_sock c)))%nat.
Proof.
  unfold decrypt_one.
  destruct (read_full_total kHeaderLen c) as (hdr & s1 & H1 & L1 & L1').
  rewrite (bind_Ok _ _ _ _ _ H1). destruct hdr as [hdr|]; [| by eexists _, _; split].
  specialize (L1' _ eq_refl).
  destruct (negb _); [by eexists _, _; split |]. cbv zeta.
  destruct (_ || _); [by eexists _, _; split |].
  destruct (read_full_total (Z.to_nat (get_be16 (drop 1 hdr))) (set_sock s1 c))
    as (ct & s2 & H2 & L2 & _).
  rewrite (bind_Ok _ _ _ _ _ H2). destruct ct as [ct|]; [| by eexists _, _; split].
  do 2 erewrite bind_Ok by reflexivity.
  destruct (aead_open _ _ _ _) as [pt|]; [| by eexists _, _; split].
  eexists _, _. split; [reflexivity |]. intros _. unfold kHeaderLen in L1'. simpl in *. lia.
Qed.

Lemma fill_total fuel c : (length (stream (nc_sock c)) < fuel)%nat ->
  exists b c', fill fuel c = (Ok b, c').
Proof.
  revert c. induction fuel as [|fuel IH]; intros c Hf; [lia |]. cbn [fill].
  erewrite bind_Ok by reflexivity. destruct (nc_plaintext c); [| by eexists _, _].
  destruct (decrypt_one_total c) as (b & c1 & H1 & Hlt). rewrite (bind_Ok _ _ _ _ _ H1).
  destruct b; cbn [negb]; [| by eexists _, _]. apply IH. specialize (Hlt eq_refl). lia.
Qed.

Lemma read_returns n c :
  exists r c', read n c = (Ok r, c') /\ (Z.of_nat (length r) <= Z.max 0 n)%Z.
Proof.
  unfold read. destruct (n <=? 0)%Z eqn:En; solve_guards.
  { eexists _, _. split; [reflexivity |]. simpl. lia. }
  erewrite bind_Ok by reflexivity.
  destruct (fill_total (S (length (stream (nc_sock c)))) c) as (b & c1 & H1); [lia |].
  rewrite (bind_Ok _ _ _ _ _ H1). destruct b; cbn [negb].
  - do 2 erewrite bind_Ok by reflexivity. eexists _, _. split; [reflexivity |].
    rewrite length_take. lia.
  - eexists _, _. split; [reflexivity |]. simpl. lia.
Qed.

(** Reading from any peer returns: a read on whatever bytes arrive, valid
    records or not, empty ones included, ends without running forever and
    returns at most the number of bytes asked for. *)
Theorem read_total n c :
  exists r c', read n c = (Ok r, c') /\ (Z.of_nat (length r) <= Z.max 0 n)%Z.
Proof. apply read_returns. Qed.

(** *** A read with a large buffer takes everything *)

Lemma recv_loop_length fuel n got s l s' :
  (length got <= n)%nat -> recv_loop fuel n got s = (Ok (Some l), s') -> length l = n.
Proof.
  revert got s. induction fuel as [|fuel IH]; intros got s Hg; cbn [recv_loop];
    destruct (n - length got)%nat as [|m] eqn:Em; try done.
  1, 2: intros [= <- _]; lia.
  destruct (sys_recv_stream (S m) s) as (r & s1 & Hr & _ & Hl). rewrite (bind_Ok _ _ _ _ _ Hr).
  destruct r as [|x r]; [done |]. apply IH. rewrite length_app. lia.
Qed.

Lemma read_full_plaintext n r c c' :
  read_full n c = (Ok r, c') ->
  nc_plaintext c' = nc_plaintext c /\ forall l, r = Some l -> length l = n.
Proof.
  intros E. destruct (read_full_total n c) as (r1 & s1 & E1 & _). pose proof E as E'.
  rewrite E1 in E. injection E as <- <-. split; [done |]. intros l ->.
  unfold read_full, on_sock, zoom in E'. destruct (recv_loop _ _ _ _) as [r s2] eqn:E2.
  injection E' as -> _. eapply recv_loop_length; [| exact E2]. simpl. lia.
Qed.

Lemma decrypt_one_plaintext c b c' :
  decrypt_one c = (Ok b, c') ->
  if b then (length (nc_plaintext c') <= length (nc_plaintext c) + kMaxPlaintext)%nat
  else nc_plaintext c' = nc_plaintext c.
Proof.
  unfold decrypt_one. intros H. apply bind_Ok_inv in H as (hdr & c1 & H1 & H).
  apply read_full_plaintext in H1 as [<- _]. destruct hdr as [hdr|]; [| by injection H as <- <-].
  destruct (negb _); [by injection H as <- <- |]. cbv zeta in H.
  destruct (_ || _) eqn:El; [by injection H as <- <- |]. solve_guards.
  apply bind_Ok_inv in H as (ct & c2 & H2 & H). apply read_full_plaintext in H2 as [<- Hct].
  destruct ct as [ct|]; [| by injection H as <- <-]. specialize (Hct ct eq_refl).
  apply bind_Ok_inv in H as (k & c3 & E3 & H). injection E3 as <- <-.
  apply bind_Ok_inv in H as (n & c4 & E4 & H). injection E4 as <- <-.
  destruct (aead_open _ _ _ _) as [pt|] eqn:Eo; [| by injection H as <- <-].
  injection H as <- <-. cbn. rewrite length_app. unfold aead_open in Eo.
  destruct (_ || _); [done |]. apply chacha_decrypt_length in Eo. rewrite length_take in Eo.
  unfold kMaxPlaintext, kMaxMessage, kHeaderLen in *. lia.
Qed.

Lemma fill_plaintext fuel c b c' :
  (length (nc_plaintext c) <= kMaxPlaintext)%nat -> fill fuel c = (Ok b, c') ->
  (length (nc_plaintext c') <= kMaxPlaintext)%nat /\ (b = false -> nc_plaintext c' = []).
Proof.
  revert c. induction fuel as [|fuel IH]; intros c Hc; cbn [fill];
    erewrite bind_Ok by reflexivity; destruct (nc_plaintext c) as [|x p] eqn:Ep.
  - done.
  - intros H. injection H as <- <-. rewrite Ep. done.
  - intros H. apply bind_Ok_inv in H as (ok & c1 & H1 & H).
    apply decrypt_one_plaintext in H1. rewrite Ep in H1. destruct ok; cbn [negb] in H.
    + by apply (IH c1).
    + injection H as <- <-. by rewrite H1.
  - intros H. injection H as <- <-. rewrite Ep. done.
Qed.

(** A read with room for a whole record leaves nothing decrypted behind. *)
Lemma read_leaves_nothing n c r c' :
  (Z.of_nat kMaxPlaintext <= n)%Z -> (length (nc_plaintext c) <= kMaxPlaintext)%nat ->
  read n c = (Ok r, c') -> nc_plaintext c' = [].
Proof.
  intros Hn Hc. unfold read. rewrite (proj2 (Z.leb_gt n 0)) by (unfold kMaxPlaintext in *; simpl in *; lia).
  intros H. apply bind_Ok_inv in H as (c0 & c1 & E0 & H). injection E0 as <- <-.
  apply bind_Ok_inv in H as (ok & c2 & E1 & H). apply fill_plaintext in E1 as [Hl Hf]; [| done].
  destruct ok; cbn [negb] in H; [| injection H as _ <-; by apply Hf].
  apply bind_Ok_inv in H as (p & c3 & E2 & H). injection E2 as <- <-. cbv zeta in H.
  injection H as _ <-. cbn. apply drop_ge. lia.
Qed.

End RecordFacts.

(** ** The theorems at concrete inputs *)

Import SampleCrypto.

Definition sample_cpriv : Bytes32 := replicate 32 (u8 7).
Definition sample_mpriv : Bytes32 := replicate 32 (u8 9).
Definition sample_cpub : Bytes32 := Eval vm_compute in default [] (evp_x25519_public sample_cpriv).
Definition sample_init : list byte * ClientState :=
  Eval vm_compute in
    match (noise_client_init sample_mpriv sample_cpub 39 0).1 with
    | Ok x => x | _ => ([], mkClientState [] [] []) end.
Definition no_result : NoiseResult := mkNoiseResult zero32 0 zero32 zero32 zero32.

Lemma handshake_agreement_witness :
  length sample_init.1 = kInitiationLen /\
  exists mpub, x25519_public sample_mpriv = Ok mpub /\
    reply_ok sample_mpriv mpub 39 sample_init.2 no_result
      (noise_server_handshake sample_cpriv sample_init.1 5).1 /\
    match (noise_server_handshake sample_cpriv sample_init.1 5).1 with
    | Ok (inr (_, out)) => nr_peer_machine_public out = mpub | _ => False end.
Proof.
  destruct (handshake_agreement sample_cpriv sample_cpub sample_mpriv 39 0 sample_init.1
    sample_init.2 1 no_result 5) as (Hl & mpub & Hm & Hr).
  - reflexivity.
  - reflexivity.
  - lia.
  - vm_compute. reflexivity.
  - vm_compute. reflexivity.
  - split; [exact Hl |]. exists mpub. split; [exact Hm |]. split; [exact Hr |].
    vm_compute in Hm. injection Hm as <-. vm_compute. reflexivity.
Defined.

Definition sample_key : Bytes32 := replicate 32 (u8 1).
Definition sample_sender : NoiseConn :=
  NoiseConn_new 3 (mkSock [] [2; 100; 1] [] 0 0) sample_key zero32.
Definition sample_bufs : list (list byte) :=
  [bytes_of_string "hello"; []; replicate 100 (u8 65)].

Lemma record_round_trip_witness :
  exists wire a', write_bufs sample_bufs sample_sender = (Ok tt, a') /\
    sk_out (nc_sock a') = [] ++ wire /\
    exists b', drain (S (length (concat sample_bufs))) 3
      (NoiseConn_new 4 (mkSock [take 1 wire; drop 1 wire] [] [] 0 0) zero32 sample_key) =
      (Ok (concat sample_bufs), b').
Proof.
  destruct (record_round_trip sample_bufs sample_sender) as (wire & a' & Hw & Ho & Hd).
  - reflexivity.
  - split; [reflexivity | repeat constructor].
  - exists wire, a'. split; [exact Hw |]. split; [exact Ho |].
    vm_compute in Hw. injection Hw as <-. vm_compute in Ho. subst wire.
    apply Hd; try reflexivity. split; [reflexivity | repeat constructor; discriminate].
Defined.

