(* ===== verification/Http2.v ===== *)
(** * Http2: the HTTP/2 server session of http2_session.cpp

    The protocol itself is nghttp2's: a session is a value of the class
    [Nghttp2], and what it does are callbacks into the code here. The streams
    are heap objects that both [streams_] and the session point to, so using
    one after it is freed is the outcome [Ub]. *)

From S2P Require Import Prelude.
From S2P Require Import Crypto.
From S2P Require Import Socket.
From S2P Require Import Noise.

Record Stream := mkStream {
  s_id : Z;
  s_method : string;
  s_path : string;
  s_body : string;
  s_out : list byte;
  s_out_off : nat;
  s_streaming : bool;
  s_ended : bool;
}.

Definition set_request (m p b : string) (s : Stream) : Stream :=
  mkStream (s_id s) m p b (s_out s) (s_out_off s) (s_streaming s) (s_ended s).
Definition set_out (out : list byte) (off : nat) (streaming ended : bool) (s : Stream) : Stream :=
  mkStream (s_id s) (s_method s) (s_path s) (s_body s) out off streaming ended.
Definition set_streaming (streaming : bool) (s : Stream) : Stream :=
  set_out (s_out s) (s_out_off s) streaming (s_ended s) s.

(** ** nghttp2: frame types, categories, flags and return values *)

Definition NGHTTP2_DATA : Z := 0.
Definition NGHTTP2_HEADERS : Z := 1.
Definition NGHTTP2_HCAT_REQUEST : Z := 0.
Definition NGHTTP2_FLAG_END_STREAM : Z := 1.
Definition NGHTTP2_ERR_WOULDBLOCK : Z := -504.
Definition NGHTTP2_ERR_CALLBACK_FAILURE : Z := -902.

(** The callbacks a session may make, with their arguments. *)
Inductive callback :=
  | CbBeginHeaders (type cat id : Z)
  | CbHeader (type id : Z) (name value : string)
  | CbData (id : Z) (data : list byte)
  | CbFrame (type flags id : Z)
  | CbClose (id : Z)
  | CbRead (id : Z) (source : nat) (length : nat)
  | CbSend (data : list byte).

(** A session: the pointer stored with each stream, the data source of each
    response, what the code calls, and when a callback may come. *)
Class Nghttp2 := {
  sess : Type;
  sess_new : sess;
  submit_settings_ : sess -> sess;
  get_user_data : sess -> Z -> option nat;
  sess_source : sess -> Z -> option nat;
  set_user_data : Z -> nat -> sess -> sess;
  submit_response_ : Z -> list (string * string) -> nat -> sess -> sess;
  resume_data : Z -> sess -> sess;
  closed_stream : Z -> sess -> sess;
  (** other work: receiving and sending frames *)
  sess_advance : sess -> sess -> Prop;
  callback_ok : sess -> callback -> Prop;
}.

(** Documented behaviour: pointers stay with their streams until they close, a
    request's headers begin on a stream that has none, and the data callback
    gets the source that was submitted. *)
Class Nghttp2Laws `{NG : !Nghttp2} := {
  new_user_data id : get_user_data sess_new id = None;
  new_source id : sess_source sess_new id = None;
  settings_user_data s id : get_user_data (submit_settings_ s) id = get_user_data s id;
  settings_source s id : sess_source (submit_settings_ s) id = sess_source s id;
  set_user_data_get id p s id' :
    get_user_data (set_user_data id p s) id' = if decide (id' = id) then Some p else get_user_data s id';
  set_user_data_source id p s id' : sess_source (set_user_data id p s) id' = sess_source s id';
  submit_user_data id h p s id' : get_user_data (submit_response_ id h p s) id' = get_user_data s id';
  submit_source id h p s id' q : sess_source (submit_response_ id h p s) id' = Some q ->
    (id' = id /\ q = p) \/ sess_source s id' = Some q;
  resume_user_data id s id' : get_user_data (resume_data id s) id' = get_user_data s id';
  resume_source id s id' : sess_source (resume_data id s) id' = sess_source s id';
  closed_user_data id s id' : get_user_data (closed_stream id s) id' =
    if decide (id' = id) then None else get_user_data s id';
  closed_source id s id' : sess_source (closed_stream id s) id' =
    if decide (id' = id) then None else sess_source s id';
  advance_user_data s s' id : sess_advance s s' -> get_user_data s' id = get_user_data s id;
  advance_source s s' id : sess_advance s s' -> sess_source s' id = sess_source s id;
  begin_fresh s type cat id : callback_ok s (CbBeginHeaders type cat id) ->
    type = NGHTTP2_HEADERS -> cat = NGHTTP2_HCAT_REQUEST ->
    get_user_data s id = None /\ sess_source s id = None;
  read_source s id p n : callback_ok s (CbRead id p n) -> sess_source s id = Some p;
}.

Section Http2.
  Context `{NG : !Nghttp2} `{OSSL : !OpenSSL}.

(** H2Server::Impl: [im_heap] holds the Stream objects by address, [im_streams]
    is the map that owns them. *)
Record Impl := mkImpl {
  im_conn : NoiseConn;
  im_sess : sess;
  im_heap : gmap nat Stream;
  im_next : nat;
  im_streams : gmap Z nat;
  im_status_buf : gmap Z string;
  im_ctype_buf : gmap Z string;
  im_alive : bool;
}.

Definition set_conn (c : NoiseConn) (i : Impl) : Impl :=
  mkImpl c (im_sess i) (im_heap i) (im_next i) (im_streams i) (im_status_buf i)
    (im_ctype_buf i) (im_alive i).
Definition set_sess (s : sess) (i : Impl) : Impl :=
  mkImpl (im_conn i) s (im_heap i) (im_next i) (im_streams i) (im_status_buf i)
    (im_ctype_buf i) (im_alive i).
Definition set_heap (h : gmap nat Stream) (i : Impl) : Impl :=
  mkImpl (im_conn i) (im_sess i) h (im_next i) (im_streams i) (im_status_buf i)
    (im_ctype_buf i) (im_alive i).
Definition set_streams (m : gmap Z nat) (i : Impl) : Impl :=
  mkImpl (im_conn i) (im_sess i) (im_heap i) (im_next i) m (im_status_buf i)
    (im_ctype_buf i) (im_alive i).
Definition set_bufs (st ct : gmap Z string) (i : Impl) : Impl :=
  mkImpl (im_conn i) (im_sess i) (im_heap i) (im_next i) (im_streams i) st ct (im_alive i).
Definition set_alive (b : bool) (i : Impl) : Impl :=
  mkImpl (im_conn i) (im_sess i) (im_heap i) (im_next i) (im_streams i) (im_status_buf i)
    (im_ctype_buf i) b.

(** The constructor up to its nghttp2_session_send; see [session_start]. *)
Definition Impl_new (conn : NoiseConn) : Impl :=
  mkImpl conn (submit_settings_ sess_new) ∅ 0 ∅ ∅ ∅ true.

(** Access through a Stream pointer. *)
Definition deref (p : nat) : M Impl Stream := fun i =>
  (match im_heap i !! p with Some s => Ok s | None => Ub end, i).
Definition assign (p : nat) (s : Stream) : M Impl unit :=
  _ ← deref p;
  modify (fun i => set_heap (<[p := s]> (im_heap i)) i).
Definition upd (p : nat) (f : Stream -> Stream) : M Impl unit := s ← deref p; assign p (f s).

(** [std::make_unique<Stream>()] *)
Definition new_stream (s : Stream) : M Impl nat := fun i =>
  (Ok (im_next i),
   mkImpl (im_conn i) (im_sess i) (<[im_next i := s]> (im_heap i)) (S (im_next i)) (im_streams i)
     (im_status_buf i) (im_ctype_buf i) (im_alive i)).

(** Removing an owner frees its object. *)
Definition free_owned (id : Z) : M Impl unit := fun i =>
  (Ok tt, match im_streams i !! id with
          | Some p => set_heap (delete p (im_heap i)) i
          | None => i
          end).

(** ** Callbacks *)

Definition on_begin_headers (type cat id : Z) : M Impl unit :=
  if negb (type =? NGHTTP2_HEADERS)%Z || negb (cat =? NGHTTP2_HCAT_REQUEST)%Z then mret ()
  else
    p ← new_stream (mkStream id "" "" "" [] 0 false false);
    _ ← modify (fun i => set_sess (set_user_data id p (im_sess i)) i);
    _ ← free_owned id;
    modify (fun i => set_streams (<[id := p]> (im_streams i)) i).

Definition on_header (type id : Z) (name value : string) : M Impl unit :=
  if negb (type =? NGHTTP2_HEADERS)%Z then mret ()
  else
    st ← gets (fun i => get_user_data (im_sess i) id);
    match st with
    | None => mret ()
    | Some p =>
        if bool_decide (name = ":method") then upd p (fun s => set_request value (s_path s) (s_body s) s)
        else if bool_decide (name = ":path") then upd p (fun s => set_request (s_method s) value
          (s_body s) s)
        else mret ()
    end.

Definition on_data (id : Z) (data : list byte) : M Impl unit :=
  st ← gets (fun i => get_user_data (im_sess i) id);
  match st with
  | None => mret ()
  | Some p => upd p (fun s => set_request (s_method s) (s_path s) (s_body s +:+ string_of_bytes data) s)
  end.

(** The arguments of the call of the request handler on_frame makes, if any. *)
Definition on_frame (type flags id : Z) : M Impl (option (Z * string * string * string)) :=
  if (negb (type =? NGHTTP2_HEADERS)%Z && negb (type =? NGHTTP2_DATA)%Z)
     || (Z.land flags NGHTTP2_FLAG_END_STREAM =? 0)%Z
  then mret None
  else
    st ← gets (fun i => get_user_data (im_sess i) id);
    match st with
    | None => mret None
    | Some p => s ← deref p; mret (Some (s_id s, s_method s, s_path s, s_body s))
    end.

(** The session drops the stream when the callback returns. *)
Definition on_close (id : Z) : M Impl unit :=
  _ ← free_owned id;
  modify (fun i => set_streams (delete id (im_streams i)) i).

Inductive read_result :=
  | Deferred
  | ReadData (data : list byte) (eof : bool).

(** data_read on the stream object. *)
Definition stream_read (length_ : nat) (st : Stream) : Stream * read_result :=
  if (length (s_out st) <=? s_out_off st)%nat then
    if s_ended st && negb (s_streaming st) then (st, ReadData [] true)
    else if s_streaming st && negb (s_ended st) then (st, Deferred)
    else (st, ReadData [] true)
  else
    let n := Nat.min length_ (length (s_out st) - s_out_off st) in
    let data := take n (drop (s_out_off st) (s_out st)) in
    let off := (s_out_off st + n)%nat in
    if (length (s_out st) <=? off)%nat then
      (set_out [] 0 (s_streaming st) (s_ended st) st,
       ReadData data (negb (s_streaming st) || s_ended st))
    else (set_out (s_out st) off (s_streaming st) (s_ended st) st, ReadData data false).

Definition data_read (source length_ : nat) : M Impl read_result :=
  st ← deref source;
  let '(st', r) := stream_read length_ st in
  _ ← assign source st';
  mret r.

Definition send_cb (data : list byte) : M Impl Z :=
  n ← zoom im_conn set_conn (write data);
  if (n <? 0)%Z then mret NGHTTP2_ERR_CALLBACK_FAILURE
  else if (n =? 0)%Z then mret NGHTTP2_ERR_WOULDBLOCK
  else mret n.

(** The end of the constructor: nghttp2_session_send hands what the session has
    to say first to send_cb, in the pieces [hello]; its result is ignored. *)
Definition session_start (hello : list (list byte)) : M Impl unit :=
  for_each hello (fun data => _ ← send_cb data; mret ()).

(** ** Responses *)

(** [ctype] is [None] for a null pointer. The previous text stays in the two
    buffers for as long as the connection. *)
Definition submit_response (id : Z) (status : Z) (ctype : option string) (streaming : bool)
    : M Impl unit :=
  it ← gets (fun i => im_streams i !! id);
  match it with
  | None => mret ()
  | Some p =>
      _ ← upd p (set_streaming streaming);
      let status_s := to_string status in
      let ctype_s := default "application/json" ctype in
      _ ← modify (fun i => set_bufs (<[id := status_s]> (im_status_buf i))
                             (<[id := ctype_s]> (im_ctype_buf i)) i);
      modify (fun i => set_sess (submit_response_ id
        [(":status", status_s); ("content-type", ctype_s)] p (im_sess i)) i)
  end.

Definition reply (id status : Z) (content_type : string) (body : list byte) : M Impl unit :=
  it ← gets (fun i => im_streams i !! id);
  match it with
  | None => mret ()
  | Some p =>
      _ ← upd p (set_out body 0 false true);
      submit_response id status (Some content_type) false
  end.

Definition reply_stream_start (id status : Z) (first : list byte) : M Impl unit :=
  it ← gets (fun i => im_streams i !! id);
  match it with
  | None => mret ()
  | Some p =>
      _ ← upd p (set_out first 0 true false);
      submit_response id status (Some "application/json") true
  end.

Definition stream_push (data : list byte) (st : Stream) : Stream :=
  set_out (s_out st ++ data) (s_out_off st) (s_streaming st) (s_ended st) st.

Definition push_data (id : Z) (data : list byte) : M Impl unit :=
  it ← gets (fun i => im_streams i !! id);
  match it with
  | None => mret ()
  | Some p =>
      _ ← upd p (stream_push data);
      modify (fun i => set_sess (resume_data id (im_sess i)) i)
  end.

Definition stream_end (st : Stream) : Stream := set_out (s_out st) (s_out_off st) false true st.

Definition end_stream (id : Z) : M Impl unit :=
  it ← gets (fun i => im_streams i !! id);
  match it with
  | None => mret ()
  | Some p =>
      _ ← upd p stream_end;
      modify (fun i => set_sess (resume_data id (im_sess i)) i)
  end.

(** ** What can happen to a session: its callbacks and the server's calls *)

Inductive h2_event :=
  | EvCallback (cb : callback)
  | EvReply (id status : Z) (content_type : string) (body : list byte)
  | EvStreamStart (id status : Z) (first : list byte)
  | EvPush (id : Z) (data : list byte)
  | EvEnd (id : Z).

Definition handle_callback (cb : callback) : M Impl (option (Z * string * string * string)) :=
  match cb with
  | CbBeginHeaders type cat id => _ ← on_begin_headers type cat id; mret None
  | CbHeader type id name value => _ ← on_header type id name value; mret None
  | CbData id data => _ ← on_data id data; mret None
  | CbFrame type flags id => on_frame type flags id
  | CbClose id =>
      _ ← on_close id;
      _ ← modify (fun i => set_sess (closed_stream id (im_sess i)) i);
      mret None
  | CbRead id source length_ => _ ← data_read source length_; mret None
  | CbSend data => _ ← send_cb data; mret None
  end.

Definition h2_handle (ev : h2_event) : M Impl (option (Z * string * string * string)) :=
  match ev with
  | EvCallback cb => handle_callback cb
  | EvReply id status ct body => _ ← reply id status ct body; mret None
  | EvStreamStart id status first => _ ← reply_stream_start id status first; mret None
  | EvPush id data => _ ← push_data id data; mret None
  | EvEnd id => _ ← end_stream id; mret None
  end.

Definition event_ok (ev : h2_event) (i : Impl) : Prop :=
  match ev with EvCallback cb => callback_ok (im_sess i) cb | _ => True end.

(** The states a server reaches, with the events so far, latest first. *)
Inductive h2_trace (conn : NoiseConn) : list h2_event -> Impl -> Prop :=
  | trace_new : h2_trace conn [] (Impl_new conn)
  | trace_advance evs i s : h2_trace conn evs i -> sess_advance (im_sess i) s ->
      h2_trace conn evs (set_sess s i)
  | trace_step evs i ev r i' : h2_trace conn evs i -> event_ok ev i ->
      h2_handle ev i = (r, i') -> h2_trace conn (ev :: evs) i'.

End Http2.

(** ** The event loop *)

Definition read_buffer : Z := 8192.

(** What one round of the loop meets outside: the result of poll, the events on
    the two descriptors, the callbacks the session makes while it takes in the
    bytes read, its result, and the same for the two times it may send. *)
Record Round := mkRound {
  rd_poll : Z;
  rd_hangup : bool;
  rd_readable : bool;
  rd_recv : list callback * Z;
  rd_want_write1 : bool;
  rd_send1 : list callback * Z;
  rd_extra_readable : bool;
  rd_want_write2 : bool;
  rd_send2 : list callback * Z;
  rd_want_read : bool;
  rd_want_write3 : bool;
}.

Section Run.
  Context `{NG : !Nghttp2} `{OSSL : !OpenSSL}.
  Context {S : Type} (get_ : S -> Impl) (set_ : Impl -> S -> S).

Definition on_h2 {A} (m : M Impl A) : M S A := zoom get_ set_ m.

Context (on_request : Z -> string -> string -> string -> M S unit)
  (extra_fd : Z) (on_extra on_tick : option (M S unit)).

(** The callbacks of one library call, the request handler being called from
    within on_frame. *)
Definition run_callbacks (cbs : list callback) : M S unit :=
  for_each cbs (fun cb =>
    o ← on_h2 (handle_callback cb);
    match o with
    | Some (id, m, p, b) => on_request id m p b
    | None => mret ()
    end).

(** [if (want_write) if (session_send(session_) != 0) break;] *)
Definition flush (want : bool) (send : list callback * Z) : M S bool :=
  if negb want then mret true
  else _ ← run_callbacks send.1; mret (send.2 =? 0)%Z.

Definition call (h : option (M S unit)) : M S unit :=
  match h with Some m => m | None => mret () end.

(** One round; false is a break. *)
Definition round (it : Round) : M S bool :=
  if (rd_poll it <? 0)%Z then mret false
  else if rd_hangup it then mret false
  else
    ok ← (if rd_readable it then
            data ← on_h2 (zoom im_conn set_conn (read read_buffer));
            match data with
            | [] => mret false
            | _ => _ ← run_callbacks (rd_recv it).1; mret (negb ((rd_recv it).2 <? 0)%Z)
            end
          else mret true);
    if negb ok then mret false
    else
      ok ← flush (rd_want_write1 it) (rd_send1 it);
      if negb ok then mret false
      else
        _ ← (if (0 <=? extra_fd)%Z && rd_extra_readable it then call on_extra else mret ());
        _ ← call on_tick;
        ok ← flush (rd_want_write2 it) (rd_send2 it);
        if negb ok then mret false
        else mret (rd_want_read it || rd_want_write3 it).

(** The loop over the rounds that happen: true when it has ended by a break. *)
Fixpoint run_loop (rounds : list Round) : M S bool :=
  match rounds with
  | [] => mret false
  | it :: rounds =>
      more ← round it;
      if (more : bool) then run_loop rounds else mret true
  end.

Definition run (rounds : list Round) : M S bool :=
  ended ← run_loop rounds;
  if (ended : bool) then
    _ ← on_h2 (modify (set_alive false));
    mret true
  else mret false.

End Run.

(** ** References *)

(** What a client sent on one stream, from that stream's events alone. *)
Definition request := (string * string * string)%type.

Definition view_header (name value : string) (v : request) : request :=
  let '(m, p, b) := v in
  if bool_decide (name = ":method") then (value, p, b)
  else if bool_decide (name = ":path") then (m, value, b)
  else v.

Definition view_step (id : Z) (ev : h2_event) (v : option request) : option request :=
  match ev with
  | EvCallback (CbBeginHeaders type cat id') =>
      if (id' =? id)%Z && (type =? NGHTTP2_HEADERS)%Z && (cat =? NGHTTP2_HCAT_REQUEST)%Z
      then Some ("", "", "") else v
  | EvCallback (CbHeader type id' name value) =>
      if (id' =? id)%Z && (type =? NGHTTP2_HEADERS)%Z then view_header name value <$> v else v
  | EvCallback (CbData id' data) =>
      if (id' =? id)%Z then (fun '(m, p, b) => (m, p, b +:+ string_of_bytes data)) <$> v else v
  | EvCallback (CbClose id') => if (id' =? id)%Z then None else v
  | _ => v
  end.

(** The events come latest first. *)
Definition view (id : Z) (evs : list h2_event) : option request := foldr (view_step id) None evs.

Definition req_of (s : Stream) : request := (s_method s, s_path s, s_body s).

(** One response as its producer and its consumer see it. *)
Inductive stream_op := OpPush (data : list byte) | OpRead (length : nat) | OpEnd.

Definition stream_op_step (st : Stream) (op : stream_op) : Stream * read_result :=
  match op with
  | OpPush data => (stream_push data st, Deferred)
  | OpRead n => stream_read n st
  | OpEnd => (stream_end st, Deferred)
  end.

Fixpoint stream_run (st : Stream) (ops : list stream_op) : Stream * list read_result :=
  match ops with
  | [] => (st, [])
  | op :: ops =>
      let '(st1, r) := stream_op_step st op in
      let '(st2, rs) := stream_run st1 ops in
      (st2, r :: rs)
  end.

Definition read_bytes (r : read_result) : list byte :=
  match r with ReadData d _ => d | Deferred => [] end.
Definition is_eof (r : read_result) : bool :=
  match r with ReadData _ e => e | Deferred => false end.
Definition op_bytes (op : stream_op) : list byte := match op with OpPush d => d | _ => [] end.

(** The bytes not yet read. *)
Definition pending (st : Stream) : list byte := drop (s_out_off st) (s_out st).

(** ** Lemmas *)

Section Http2Facts.
  Context `{NG : !Nghttp2} `{NLaws : !Nghttp2Laws} `{OSSL : !OpenSSL}.

(** The session and the stream map hold the same pointers, each to a live
    object of its own. *)
Record h2_inv (i : Impl) : Prop := {
  inv_user id : get_user_data (im_sess i) id = im_streams i !! id;
  inv_source id p : sess_source (im_sess i) id = Some p -> im_streams i !! id = Some p;
  inv_owned id p : im_streams i !! id = Some p ->
    exists s, im_heap i !! p = Some s /\ s_id s = id;
  inv_next p s : im_heap i !! p = Some s -> (p < im_next i)%nat;
}.

Lemma h2_inv_new conn : h2_inv (Impl_new conn).
Proof.
  split; simpl; intros *; rewrite ?settings_user_data, ?settings_source, ?new_user_data, ?new_source,
    ?lookup_empty; done.
Qed.

Definition stream_req (i : Impl) (id : Z) : option request :=
  p ← im_streams i !! id; s ← im_heap i !! p; Some (req_of s).

Lemma owner_unique i id1 id2 p : h2_inv i ->
  im_streams i !! id1 = Some p -> im_streams i !! id2 = Some p -> id1 = id2.
Proof.
  intros Hi H1 H2. destruct (inv_owned i Hi _ _ H1) as (s1 & E1 & <-).
  destruct (inv_owned i Hi _ _ H2) as (s2 & E2 & <-). congruence.
Qed.

Lemma upd_eq i p f s : im_heap i !! p = Some s ->
  upd p f i = (Ok tt, set_heap (<[p := f s]> (im_heap i)) i).
Proof.
  intros Hp. unfold upd, assign, deref, mbind, M_bind. by rewrite Hp.
Qed.

Lemma h2_inv_upd i id p s s' : h2_inv i -> im_streams i !! id = Some p ->
  im_heap i !! p = Some s -> s_id s' = s_id s -> h2_inv (set_heap (<[p := s']> (im_heap i)) i).
Proof.
  intros Hi Hid Hp Hs. split; simpl.
  - apply (inv_user i Hi).
  - apply (inv_source i Hi).
  - intros id' q Hq. destruct (inv_owned i Hi _ _ Hq) as (t & Ht & E).
    destruct (decide (q = p)) as [->|]; [rewrite lookup_insert_eq | rewrite lookup_insert_ne by done].
    + exists s'. split; [done |]. congruence.
    + by exists t.
  - intros q t. destruct (decide (q = p)) as [->|].
    + intros _. by eapply (inv_next i Hi).
    + rewrite lookup_insert_ne by done. apply (inv_next i Hi).
Qed.

Lemma stream_req_upd i id p s s' id' : h2_inv i -> im_streams i !! id = Some p ->
  im_heap i !! p = Some s ->
  stream_req (set_heap (<[p := s']> (im_heap i)) i) id' =
    if (id =? id')%Z then Some (req_of s') else stream_req i id'.
Proof.
  intros Hi Hid Hp. unfold stream_req. simpl. destruct (Z.eqb_spec id id') as [<-|Hne].
  - rewrite Hid. simpl. by rewrite lookup_insert_eq.
  - destruct (im_streams i !! id') as [q|] eqn:Eq; [| done]. simpl.
    rewrite lookup_insert_ne; [done |]. intros <-. by apply Hne, (owner_unique i id id' p).
Qed.

(** Changing the session without touching its pointers, the texts or the
    connection. *)
Lemma h2_inv_sess i s :
  h2_inv i -> (forall id, get_user_data s id = get_user_data (im_sess i) id) ->
  (forall id p, sess_source s id = Some p -> im_streams i !! id = Some p) ->
  h2_inv (set_sess s i).
Proof.
  intros Hi Hu Hs. split; simpl.
  - intros id. rewrite Hu. apply (inv_user i Hi).
  - done.
  - apply (inv_owned i Hi).
  - apply (inv_next i Hi).
Qed.

Lemma h2_inv_bufs i a b : h2_inv i -> h2_inv (set_bufs a b i).
Proof. intros [H1 H2 H3 H4]. by split. Qed.

Lemma h2_inv_conn i c : h2_inv i -> h2_inv (set_conn c i).
Proof. intros [H1 H2 H3 H4]. by split. Qed.

(** A step that goes well keeps the invariant and says what it does to the
    requests. *)
Definition step_ok (i : Impl) (ev : h2_event) (r : res (option (Z * string * string * string)))
    (i' : Impl) : Prop :=
  r <> Ub /\ h2_inv i' /\ forall id, stream_req i' id = view_step id ev (stream_req i id).

(** A call that updates the stream [id], if it is open, and leaves the requests
    alone. *)
Lemma guarded_ok i id (m : nat -> M Impl unit) :
  h2_inv i ->
  (forall p s, im_streams i !! id = Some p -> im_heap i !! p = Some s ->
     exists i', m p i = (Ok tt, i') /\ h2_inv i' /\ forall id', stream_req i' id' = stream_req i id') ->
  exists i', (it ← gets (fun i => im_streams i !! id);
              match it with None => mret () | Some p => m p end) i = (Ok tt, i') /\
    h2_inv i' /\ forall id', stream_req i' id' = stream_req i id'.
Proof.
  intros Hi Hm. unfold mbind at 1, M_bind at 1, gets at 1. cbv beta iota.
  destruct (im_streams i !! id) as [p|] eqn:Ep; [| by exists i].
  destruct (inv_owned i Hi _ _ Ep) as (s & Hs & _). by eapply Hm.
Qed.

Lemma submit_response_ok i id status ct streaming :
  h2_inv i -> exists i', submit_response id status ct streaming i = (Ok tt, i') /\
    h2_inv i' /\ forall id', stream_req i' id' = stream_req i id'.
Proof.
  intros Hi. apply guarded_ok; [done |]. intros p s Hid Hp.
  rewrite (bind_Ok _ _ _ _ _ (upd_eq _ _ _ _ Hp)). eexists. split; [reflexivity |]. split.
  - pose proof (h2_inv_upd i id p s (set_streaming streaming s) Hi Hid Hp eq_refl) as Hi'.
    apply h2_inv_sess; [by apply h2_inv_bufs | intros id'; apply submit_user_data |].
    intros id' q H. apply submit_source in H as [[E1 E2]|H]; [by subst | by apply (inv_source _ Hi')].
  - intros id'. pose proof (stream_req_upd i id p s (set_streaming streaming s) id' Hi Hid Hp) as E.
    unfold stream_req in *. simpl in *. rewrite E. destruct (Z.eqb_spec id id') as [E0|];
      [subst id' | done].
    rewrite Hid. simpl. by rewrite Hp.
Qed.

Lemma out_then_submit_ok i id f status ct streaming :
  (forall s, s_id (f s) = s_id s /\ req_of (f s) = req_of s) ->
  h2_inv i ->
  exists i', (it ← gets (fun i => im_streams i !! id);
              match it with
              | None => mret ()
              | Some p => _ ← upd p f; submit_response id status ct streaming
              end) i = (Ok tt, i') /\
    h2_inv i' /\ forall id', stream_req i' id' = stream_req i id'.
Proof.
  intros Hf Hi. apply guarded_ok; [done |]. intros p s Hid Hp.
  rewrite (bind_Ok _ _ _ _ _ (upd_eq _ _ _ _ Hp)). destruct (Hf s) as [Hf1 Hf2].
  pose proof (h2_inv_upd i id p s (f s) Hi Hid Hp Hf1) as Hi'.
  destruct (submit_response_ok _ id status ct streaming Hi') as (i2 & H & Hi2 & Hr).
  exists i2. split; [done |]. split; [done |]. intros id'.
  rewrite Hr, (stream_req_upd i id p s (f s) id' Hi Hid Hp), Hf2.
  destruct (Z.eqb_spec id id') as [E0|]; [subst id' | done]. unfold stream_req. rewrite Hid. simpl.
  by rewrite Hp.
Qed.

Lemma out_then_resume_ok i id f :
  (forall s, s_id (f s) = s_id s /\ req_of (f s) = req_of s) ->
  h2_inv i ->
  exists i', (it ← gets (fun i => im_streams i !! id);
              match it with
              | None => mret ()
              | Some p => _ ← upd p f; modify (fun i => set_sess (resume_data id (im_sess i)) i)
              end) i = (Ok tt, i') /\
    h2_inv i' /\ forall id', stream_req i' id' = stream_req i id'.
Proof.
  intros Hf Hi. apply guarded_ok; [done |]. intros p s Hid Hp.
  rewrite (bind_Ok _ _ _ _ _ (upd_eq _ _ _ _ Hp)). destruct (Hf s) as [Hf1 Hf2].
  pose proof (h2_inv_upd i id p s (f s) Hi Hid Hp Hf1) as Hi'.
  eexists. split; [reflexivity |]. split.
  - apply h2_inv_sess; [done | intros id'; apply resume_user_data |].
    intros id' q. rewrite resume_source. apply (inv_source _ Hi').
  - intros id'. pose proof (stream_req_upd i id p s (f s) id' Hi Hid Hp) as E.
    unfold stream_req in *. simpl in *. rewrite E, Hf2.
    destruct (Z.eqb_spec id id') as [E0|]; [subst id' | done]. rewrite Hid. simpl. by rewrite Hp.
Qed.

(** *** The callbacks *)

(** An update through the session's pointer. *)
Lemma user_upd_ok i id f :
  (forall s, s_id (f s) = s_id s) -> h2_inv i ->
  exists i', (st ← gets (fun i => get_user_data (im_sess i) id);
              match st with None => mret () | Some p => upd p f end) i = (Ok tt, i') /\
    h2_inv i' /\ forall id', stream_req i' id' =
      if (id =? id')%Z then (p ← im_streams i !! id; s ← im_heap i !! p; Some (req_of (f s)))
      else stream_req i id'.
Proof.
  intros Hf Hi. erewrite bind_Ok by reflexivity. rewrite (inv_user i Hi).
  destruct (im_streams i !! id) as [p|] eqn:Ep.
  - destruct (inv_owned i Hi _ _ Ep) as (s & Hs & _). rewrite (upd_eq _ _ _ _ Hs).
    eexists. split; [reflexivity |]. split; [by eapply h2_inv_upd |].
    intros id'. rewrite (stream_req_upd i id p s) by done. simpl. by rewrite Hs.
  - exists i. split; [done |]. split; [done |]. intros id'.
    destruct (Z.eqb_spec id id') as [E0|]; [subst id' | done]. unfold stream_req. by rewrite Ep.
Qed.

Lemma begin_headers_ok i type cat id r i' :
  h2_inv i -> callback_ok (im_sess i) (CbBeginHeaders type cat id) ->
  on_begin_headers type cat id i = (r, i') ->
  r = Ok tt /\ h2_inv i' /\ forall id', stream_req i' id' =
    if ((id =? id') && (type =? NGHTTP2_HEADERS) && (cat =? NGHTTP2_HCAT_REQUEST))%Z
    then Some ("", "", "") else stream_req i id'.
Proof.
  intros Hi Hok. unfold on_begin_headers.
  destruct (type =? NGHTTP2_HEADERS)%Z eqn:E1, (cat =? NGHTTP2_HCAT_REQUEST)%Z eqn:E2; cbn [negb orb];
    try (intros [= <- <-]; split; [done |]; split; [done |]; intros id';
         by rewrite ?andb_false_r, ?andb_false_l).
  solve_guards. destruct (begin_fresh _ _ _ _ Hok E1 E2) as [Hu Hs].
  pose proof Hu as Hn. rewrite (inv_user i Hi) in Hn.
  set (st := mkStream id "" "" "" [] 0 false false).
  erewrite bind_Ok by reflexivity. erewrite bind_Ok by reflexivity.
  erewrite (bind_Ok (free_owned id)) by (unfold free_owned; cbn [im_streams set_sess]; rewrite Hn;
    reflexivity).
  intros [= <- <-]. split; [done |]. split.
  - split; cbn [im_sess im_streams im_heap im_next set_streams set_sess].
    + intros id'. rewrite set_user_data_get. destruct (decide (id' = id)) as [->|].
      * by rewrite lookup_insert_eq.
      * rewrite lookup_insert_ne by done. apply (inv_user i Hi).
    + intros id' p. rewrite set_user_data_source. intros H.
      rewrite lookup_insert_ne by congruence. by apply (inv_source i Hi).
    + intros id' p H. destruct (decide (id' = id)) as [->|].
      * rewrite lookup_insert_eq in H. injection H as <-. exists st. by rewrite lookup_insert_eq.
      * rewrite lookup_insert_ne in H by done.
        destruct (inv_owned i Hi _ _ H) as (s & Hp & Hid). exists s. split; [| done].
        apply (inv_next i Hi) in Hp as Hlt. rewrite lookup_insert_ne by lia. done.
    + intros p s. destruct (decide (p = im_next i)) as [->|]; [lia |].
      rewrite lookup_insert_ne by done. intros H%(inv_next i Hi). lia.
  - intros id'. unfold stream_req. cbn [im_streams im_heap set_streams set_sess].
    destruct (Z.eqb_spec id id') as [E0|]; cbn [andb].
    + subst id'. rewrite lookup_insert_eq. simpl. by rewrite lookup_insert_eq.
    + rewrite lookup_insert_ne by done. destruct (im_streams i !! id') as [q|] eqn:Eq; [| done].
      simpl. destruct (inv_owned i Hi _ _ Eq) as (s & Hp & _).
      apply (inv_next i Hi) in Hp as Hlt. rewrite lookup_insert_ne by lia. done.
Qed.

Lemma close_ok i id :
  h2_inv i ->
  exists i', handle_callback (CbClose id) i = (Ok None, i') /\ h2_inv i' /\
    forall id', stream_req i' id' = if (id =? id')%Z then None else stream_req i id'.
Proof.
  intros Hi. unfold handle_callback, on_close, free_owned. eexists. split; [reflexivity |].
  set (h' := im_heap (match im_streams i !! id with
    | Some p => set_heap (delete p (im_heap i)) i | None => i end)).
  assert (forall id' p s, id' <> id -> im_streams i !! id' = Some p ->
    im_heap i !! p = Some s -> h' !! p = Some s) as Hkeep.
  { intros id' p s Hne Hp Hs. unfold h'. destruct (im_streams i !! id) as [q|] eqn:Eq; [| done].
    cbn [set_heap im_heap]. rewrite lookup_delete_ne; [done |]. intros <-.
    by apply Hne, (owner_unique i id' id q). }
  assert (forall p s, h' !! p = Some s -> im_heap i !! p = Some s) as Hsub.
  { intros p s. unfold h'. destruct (im_streams i !! id); [| done]. cbn [set_heap im_heap].
    intros H. by apply lookup_delete_Some in H as [_ H]. }
  set (i1 := match im_streams i !! id with
    | Some p => set_heap (delete p (im_heap i)) i | None => i end) in *.
  assert (im_sess i1 = im_sess i /\ im_streams i1 = im_streams i /\ im_next i1 = im_next i)
    as (Es & Em & En) by (unfold i1; by destruct (im_streams i !! id)).
  split.
  - split; cbn [im_sess im_streams im_heap im_next set_streams set_sess]; rewrite ?Es, ?Em, ?En.
    + intros id'. rewrite closed_user_data. destruct (decide (id' = id)) as [->|].
      * by rewrite lookup_delete_eq.
      * rewrite lookup_delete_ne by done. apply (inv_user i Hi).
    + intros id' p. rewrite closed_source. destruct (decide (id' = id)); [done |].
      rewrite lookup_delete_ne by done. apply (inv_source i Hi).
    + intros id' p H. apply lookup_delete_Some in H as [Hne H].
      destruct (inv_owned i Hi _ _ H) as (s & Hp & Hid). exists s. split; [| done].
      eapply Hkeep; [| exact H | exact Hp]. done.
    + intros p s H. eapply (inv_next i Hi), Hsub, H.
  - intros id'. unfold stream_req. cbn [im_streams im_heap set_streams set_sess]. rewrite Em.
    destruct (Z.eqb_spec id id') as [E0|].
    + subst id'. by rewrite lookup_delete_eq.
    + rewrite lookup_delete_ne by done. destruct (im_streams i !! id') as [p|] eqn:Ep; [| done].
      simpl. destruct (inv_owned i Hi _ _ Ep) as (s & Hp & _).
      change (im_heap i1) with h'. by rewrite (Hkeep id' p s), Hp.
Qed.

Lemma stream_read_fields n st :
  s_id (stream_read n st).1 = s_id st /\ req_of (stream_read n st).1 = req_of st.
Proof.
  unfold stream_read. cbv zeta. repeat case_match; done.
Qed.

Lemma read_ok i id p n : h2_inv i -> callback_ok (im_sess i) (CbRead id p n) ->
  exists r i', data_read p n i = (Ok r, i') /\ h2_inv i' /\
    forall id', stream_req i' id' = stream_req i id'.
Proof.
  intros Hi Hok%read_source%(inv_source i Hi).
  destruct (inv_owned i Hi _ _ Hok) as (s & Hs & _). unfold data_read.
  erewrite bind_Ok by (unfold deref; by rewrite Hs).
  destruct (stream_read n s) as [s' r] eqn:Er.
  destruct (stream_read_fields n s) as [F1 F2]. rewrite Er in F1, F2. simpl in F1, F2.
  erewrite bind_Ok by (unfold assign; erewrite bind_Ok by (unfold deref; by rewrite Hs); reflexivity).
  do 2 eexists. split; [reflexivity |]. split; [by eapply h2_inv_upd |]. intros id'.
  rewrite (stream_req_upd i id p s s') by done. rewrite F2.
  destruct (Z.eqb_spec id id') as [E0|]; [subst id' | done]. unfold stream_req. rewrite Hok. simpl.
  by rewrite Hs.
Qed.

Lemma stream_req_fmap i id (f : Stream -> Stream) (g : request -> request) :
  (forall s, req_of (f s) = g (req_of s)) ->
  (p ← im_streams i !! id; s ← im_heap i !! p; Some (req_of (f s))) = g <$> stream_req i id.
Proof.
  intros Hf. unfold stream_req. destruct (im_streams i !! id) as [p|]; [| done]. simpl.
  destruct (im_heap i !! p) as [s|]; [| done]. simpl. by rewrite Hf.
Qed.

Lemma header_ok_step i type id name value :
  h2_inv i -> exists i', on_header type id name value i = (Ok tt, i') /\ h2_inv i' /\
    forall id', stream_req i' id' =
      if ((id =? id') && (type =? NGHTTP2_HEADERS))%Z
      then view_header name value <$> stream_req i id' else stream_req i id'.
Proof.
  intros Hi. unfold on_header. destruct (type =? NGHTTP2_HEADERS)%Z; cbn [negb].
  2: { exists i. split; [done |]. split; [done |]. intros id'. by rewrite andb_false_r. }
  unfold view_header.
  destruct (bool_decide (name = ":method")) eqn:E1; [| destruct (bool_decide (name = ":path")) eqn:E2].
  - destruct (user_upd_ok i id (fun s => set_request value (s_path s) (s_body s) s))
      as (i' & H & Hi' & Hr); [done | done |].
    exists i'. split; [exact H |]. split; [done |]. intros id'. rewrite Hr, andb_true_r.
    destruct (Z.eqb_spec id id') as [E0|]; [subst id' | done]. by apply stream_req_fmap.
  - destruct (user_upd_ok i id (fun s => set_request (s_method s) value (s_body s) s))
      as (i' & H & Hi' & Hr); [done | done |].
    exists i'. split; [exact H |]. split; [done |]. intros id'. rewrite Hr, andb_true_r.
    destruct (Z.eqb_spec id id') as [E0|]; [subst id' | done]. by apply stream_req_fmap.
  - exists i. erewrite bind_Ok by reflexivity. split; [by destruct (get_user_data _ _) |].
    split; [done |]. intros id'. case_match; [| done].
    by destruct (stream_req i id') as [[[]]|].
Qed.

Lemma on_data_ok i id data :
  h2_inv i -> exists i', on_data id data i = (Ok tt, i') /\ h2_inv i' /\
    forall id', stream_req i' id' =
      if (id =? id')%Z then (fun '(m, p, b) => (m, p, b +:+ string_of_bytes data)) <$> stream_req i id'
      else stream_req i id'.
Proof.
  intros Hi. destruct (user_upd_ok i id
    (fun s => set_request (s_method s) (s_path s) (s_body s +:+ string_of_bytes data) s))
    as (i' & H & Hi' & Hr); [done | done |].
  exists i'. split; [exact H |]. split; [done |]. intros id'. rewrite Hr.
  destruct (Z.eqb_spec id id') as [E0|]; [subst id' | done]. by apply stream_req_fmap.
Qed.

Lemma frame_ok i type flags id :
  h2_inv i -> exists o, on_frame type flags id i = (Ok o, i) /\
    forall id' m p b, o = Some (id', m, p, b) -> id' = id /\ stream_req i id = Some (m, p, b).
Proof.
  intros Hi. unfold on_frame. destruct (_ || _); [by exists None |].
  erewrite bind_Ok by reflexivity. rewrite (inv_user i Hi).
  destruct (im_streams i !! id) as [p|] eqn:Ep; [| by exists None].
  destruct (inv_owned i Hi _ _ Ep) as (s & Hs & Hid).
  erewrite bind_Ok by (unfold deref; by rewrite Hs). eexists. split; [reflexivity |].
  intros id' m q b [= <- <- <- <-]. split; [done |]. unfold stream_req. rewrite Ep. simpl. by rewrite Hs.
Qed.

Lemma view_step_other id ev v :
  (forall cb, ev <> EvCallback cb) -> view_step id ev v = v.
Proof. intros H. destruct ev; try done. by destruct (H cb). Qed.

Lemma h2_handle_ok i ev r i' :
  h2_inv i -> event_ok ev i -> h2_handle ev i = (r, i') -> step_ok i ev r i'.
Proof.
  intros Hi Hok. destruct ev as [cb|id st ct body|id st first|id data|id]; simpl in Hok.
  1: destruct cb as [type cat id|type id name value|id data|type flags id|id|id p n|data].
  all: cbn [h2_handle handle_callback].
  - destruct (on_begin_headers type cat id i) as [r1 i1] eqn:E.
    destruct (begin_headers_ok _ _ _ _ _ _ Hi Hok E) as (-> & Hi' & Hr).
    rewrite (bind_Ok _ _ _ _ _ E). intros [= <- <-]. by split_and!.
  - destruct (header_ok_step i type id name value Hi) as (i1 & E & Hi' & Hr).
    rewrite (bind_Ok _ _ _ _ _ E). intros [= <- <-]. by split_and!.
  - destruct (on_data_ok i id data Hi) as (i1 & E & Hi' & Hr).
    rewrite (bind_Ok _ _ _ _ _ E). intros [= <- <-]. by split_and!.
  - destruct (frame_ok i type flags id Hi) as (o & E & _). rewrite E. intros [= <- <-]. by split_and!.
  - destruct (close_ok i id Hi) as (i1 & E & Hi' & Hr). cbn [handle_callback] in E. rewrite E.
    intros [= <- <-]. by split_and!.
  - destruct (read_ok i id p n Hi Hok) as (o & i1 & E & Hi' & Hr).
    rewrite (bind_Ok _ _ _ _ _ E). intros [= <- <-]. by split_and!.
  - unfold mbind, M_bind, send_cb, zoom. pose proof (write_not_ub data (im_conn i)) as Hub.
    unfold mbind, M_bind. destruct (write data (im_conn i)) as [[n|e|] c]; [| | by destruct Hub]; cbn.
    + intros H. assert (i' = set_conn c i /\ r <> Ub) as [-> Hr].
      { unfold mret, M_ret in H. destruct (n <? 0)%Z, (n =? 0)%Z; by injection H as <- <-. }
      split; [done |]. split; [by apply h2_inv_conn | done].
    + intros [= <- <-]. split; [done |]. split; [by apply h2_inv_conn | done].
  - destruct (out_then_submit_ok i id (set_out body 0 false true) st (Some ct) false)
      as (i1 & E & Hi' & Hr); [done | done |]. fold (reply id st ct body) in E.
    rewrite (bind_Ok _ _ _ _ _ E). intros [= <- <-]. by split_and!.
  - destruct (out_then_submit_ok i id (set_out first 0 true false) st (Some "application/json") true)
      as (i1 & E & Hi' & Hr); [done | done |]. fold (reply_stream_start id st first) in E.
    rewrite (bind_Ok _ _ _ _ _ E). intros [= <- <-]. by split_and!.
  - destruct (out_then_resume_ok i id (stream_push data)) as (i1 & E & Hi' & Hr); [done | done |].
    fold (push_data id data) in E. rewrite (bind_Ok _ _ _ _ _ E). intros [= <- <-]. by split_and!.
  - destruct (out_then_resume_ok i id stream_end) as (i1 & E & Hi' & Hr); [done | done |].
    fold (end_stream id) in E. rewrite (bind_Ok _ _ _ _ _ E). intros [= <- <-]. by split_and!.
Qed.

Lemma h2_trace_ok conn evs i : h2_trace conn evs i ->
  h2_inv i /\ forall id, stream_req i id = view id evs.
Proof.
  induction 1 as [|evs i s _ [IH1 IH2] Ha|evs i ev r i' _ [IH1 IH2] Hok Hh].
  - split; [apply h2_inv_new |]. intros id. unfold stream_req. simpl. by rewrite lookup_empty.
  - split; [| exact IH2]. apply h2_inv_sess; [done | |].
    + intros id. by apply advance_user_data.
    + intros id p. rewrite (advance_source _ _ _ Ha). apply (inv_source i IH1).
  - destruct (h2_handle_ok i ev r i' IH1 Hok Hh) as (_ & H1 & H2). split; [done |].
    intros id. by rewrite H2, IH2.
Qed.

(** C8: no Stream object is used after it is freed: in every state a connection
    can reach, every callback the session may make and every call the server
    may make leaves the memory alone that it does not own, whatever streams
    have been opened, closed or reset in between. *)
Theorem h2_memory_safe conn evs i ev :
  h2_trace conn evs i -> event_ok ev i -> (h2_handle ev i).1 <> Ub.
Proof.
  intros Ht Hok. destruct (h2_trace_ok _ _ _ Ht) as [Hi _].
  destruct (h2_handle ev i) as [r i'] eqn:E. by destruct (h2_handle_ok i ev r i' Hi Hok E).
Qed.

(** C30: streams are isolated: the request handler is called for a stream with
    exactly the method, the path and the concatenated body its own headers and
    data carried since it was opened, however the events of other streams and
    the server's own calls are interleaved with them. *)
Theorem h2_request_isolated conn evs i type flags id o i' :
  h2_trace conn evs i ->
  h2_handle (EvCallback (CbFrame type flags id)) i = (Ok o, i') ->
  i' = i /\ forall id' m p b, o = Some (id', m, p, b) -> id' = id /\ view id evs = Some (m, p, b).
Proof.
  intros Ht Hh. destruct (h2_trace_ok _ _ _ Ht) as [Hi Hv].
  destruct (frame_ok i type flags id Hi) as (o' & E & Ho). cbn [h2_handle handle_callback] in Hh.
  rewrite E in Hh. injection Hh as <- <-. split; [done |]. intros id' m p b Eo.
  destruct (Ho _ _ _ _ Eo). by rewrite <-Hv.
Qed.

End Http2Facts.

(** *** One response as a queue *)

Definition queue_wf (st : Stream) : Prop :=
  (s_out_off st <= length (s_out st))%nat /\ s_streaming st = negb (s_ended st).

Definition ended_by (st : Stream) (ops : list stream_op) : Prop :=
  s_ended st = true \/ OpEnd ∈ ops.

Lemma stream_read_spec n st : queue_wf st ->
  queue_wf (stream_read n st).1 /\ s_ended (stream_read n st).1 = s_ended st /\
  pending st = read_bytes (stream_read n st).2 ++ pending (stream_read n st).1 /\
  (is_eof (stream_read n st).2 = true -> s_ended st = true /\ pending (stream_read n st).1 = []) /\
  ((0 < n)%nat -> read_bytes (stream_read n st).2 = [] -> pending st = []) /\
  (pending st = [] -> (stream_read n st).2 = if s_ended st then ReadData [] true else Deferred).
Proof.
  intros [Hoff Hse]. unfold stream_read. destruct (_ <=? _)%nat eqn:E; solve_guards.
  - assert (pending st = []) as Hp by (by apply drop_ge).
    rewrite Hse. destruct (s_ended st) eqn:Ee; cbn [negb andb fst snd read_bytes is_eof app];
      split_and!; try done.
    all: split; [done | by rewrite Hse, Ee].
  - cbv zeta. set (n' := Nat.min n (length (s_out st) - s_out_off st)).
    assert (pending st <> []) as Hp.
    { intros Hp. apply (f_equal length) in Hp. unfold pending in Hp. rewrite length_drop in Hp.
      simpl in Hp. lia. }
    destruct (_ <=? _)%nat eqn:E2; solve_guards; cbn [fst snd read_bytes is_eof].
    + assert (take n' (drop (s_out_off st) (s_out st)) = pending st) as Ht
        by (unfold pending; apply take_ge; rewrite length_drop; lia).
      rewrite Ht. split; [by split; [apply Nat.le_0_l |] |]. split; [done |].
      split; [by rewrite app_nil_r |]. split; [| split; [done | by intros ?]].
      rewrite Hse. by destruct (s_ended st).
    + split; [split; [cbn; lia | done] |]. split; [done |].
      split; [unfold pending; simpl; by rewrite <-drop_drop, take_drop |].
      split; [done |]. split; [| by intros ?].
      intros Hn Hr. apply (f_equal length) in Hr. rewrite length_take, length_drop in Hr.
      simpl in Hr. lia.
Qed.

Lemma stream_op_step_spec st op : queue_wf st ->
  let '(st', r) := stream_op_step st op in
  queue_wf st' /\ pending st ++ op_bytes op = read_bytes r ++ pending st' /\
  (s_ended st' = true <-> s_ended st = true \/ op = OpEnd).
Proof.
  intros Hw. pose proof Hw as [Hoff Hse]. destruct op as [d|n|]; cbn [stream_op_step].
  - split; [| split].
    + split; [| done]. simpl. rewrite length_app. lia.
    + unfold pending. simpl. by rewrite drop_app_le.
    + simpl. split; [by left | by intros [|]].
  - destruct (stream_read n st) as [st' r] eqn:E.
    destruct (stream_read_spec n st Hw) as (H1 & H2 & H3 & _). rewrite E in *. simpl in *.
    rewrite app_nil_r, H2. split_and!; [done | done |]. split; [by left | by intros [|]].
  - split; [| split].
    + by split.
    + simpl. by rewrite app_nil_r.
    + simpl. split; [by right | done].
Qed.

Lemma stream_run_spec ops st st' rs : queue_wf st -> stream_run st ops = (st', rs) ->
  queue_wf st' /\
  pending st ++ concat (op_bytes <$> ops) = concat (read_bytes <$> rs) ++ pending st' /\
  (s_ended st' = true <-> ended_by st ops).
Proof.
  revert st rs. induction ops as [|op ops IH]; intros st rs Hw.
  - intros [= <- <-]. split; [done |]. simpl. split; [by rewrite app_nil_r |].
    unfold ended_by. split; [by left | intros [|H%elem_of_nil]; done].
  - cbn [stream_run]. pose proof (stream_op_step_spec st op Hw) as Hs.
    destruct (stream_op_step st op) as [st1 r]. destruct Hs as (Hw1 & Hb & He).
    destruct (stream_run st1 ops) as [st2 rs2] eqn:E. intros [= <- <-].
    destruct (IH st1 rs2 Hw1 E) as (Hw2 & Hb2 & He2). split; [done |]. split.
    + rewrite !fmap_cons. cbn [concat]. rewrite app_assoc, Hb, <-!app_assoc. by rewrite Hb2.
    + rewrite He2. unfold ended_by. rewrite He, elem_of_cons. intuition congruence.
Qed.

(** C31: a response is a queue: however the pushes of the server, the reads of
    the session, of any size, and the end are interleaved, the bytes read are
    the bytes given at the start and pushed since, in order and without loss;
    the end of the body is announced exactly when the stream has been ended
    and everything has been read, and a read that yields nothing otherwise is
    deferred. *)
Theorem response_queue st ops n st' rs :
  queue_wf st -> stream_run st ops = (st', rs) ->
  pending st ++ concat (op_bytes <$> ops) = concat (read_bytes <$> rs) ++ pending st' /\
  let '(st2, r) := stream_read n st' in
  (is_eof r = true -> ended_by st ops /\ pending st2 = []) /\
  ((0 < n)%nat -> read_bytes r = [] -> pending st' = []) /\
  (pending st' = [] -> ended_by st ops -> r = ReadData [] true) /\
  (pending st' = [] -> ~ ended_by st ops -> r = Deferred).
Proof.
  intros Hw Hr. destruct (stream_run_spec ops st st' rs Hw Hr) as (Hw' & Hb & He).
  split; [done |]. destruct (stream_read n st') as [st2 r] eqn:E.
  destruct (stream_read_spec n st' Hw') as (_ & _ & _ & H1 & H2 & H3). rewrite E in *. simpl in *.
  split_and!.
  - intros Hr'. destruct (H1 Hr') as [H4 H5]. split; [by apply He | done].
  - done.
  - intros Hp Hend. rewrite (H3 Hp). by rewrite (proj2 He Hend).
  - intros Hp Hend. rewrite (H3 Hp). destruct (s_ended st') eqn:E2; [| done].
    destruct Hend. by apply He.
Qed.

(** *** The loop leaves no decrypted data behind *)

Section RunFacts.
  Context `{NG : !Nghttp2} `{OSSL : !OpenSSL} `{OLaws : !OpenSSLLaws}.

(** A relation on the connection as one on the server. Only send_cb, and the
    read of the loop, touch the connection. *)
Definition conn_rel (R : NoiseConn -> NoiseConn -> Prop) (i i' : Impl) : Prop :=
  R (im_conn i) (im_conn i').

#[export] Instance conn_rel_preorder R `{!PreOrder R} : PreOrder (conn_rel R).
Proof.
  split; [intros i; unfold conn_rel; reflexivity |].
  intros i1 i2 i3. unfold conn_rel. intros. by etransitivity.
Qed.

Section ConnRel.
  Context (R : NoiseConn -> NoiseConn -> Prop) `{!PreOrder R}.

Lemma conn_same {A} (m : M Impl A) :
  (forall i, im_conn (m i).2 = im_conn i) -> pres (conn_rel R) m.
Proof. intros H i. unfold conn_rel. rewrite H. reflexivity. Qed.

Hint Extern 1 (pres (conn_rel R) (modify _)) => apply conn_same; done : wb.

Lemma conn_deref p : pres (conn_rel R) (deref p).
Proof. by apply conn_same. Qed.
Hint Resolve conn_deref : wb.

Lemma conn_upd p f : pres (conn_rel R) (upd p f).
Proof. unfold upd, assign. pres_steps. Qed.

Lemma conn_free id : pres (conn_rel R) (free_owned id).
Proof. apply conn_same. intros i. unfold free_owned. cbn. by destruct (im_streams i !! id). Qed.

Lemma conn_new s : pres (conn_rel R) (new_stream s).
Proof. by apply conn_same. Qed.
Hint Resolve conn_upd conn_free conn_new : wb.

Lemma conn_submit id st ct b : pres (conn_rel R) (submit_response id st ct b).
Proof. unfold submit_response. pres_steps. Qed.
Hint Resolve conn_submit : wb.

Lemma conn_reply id st ct b : pres (conn_rel R) (reply id st ct b).
Proof. unfold reply. pres_steps. Qed.

Lemma conn_stream_start id st b : pres (conn_rel R) (reply_stream_start id st b).
Proof. unfold reply_stream_start. pres_steps. Qed.

Lemma conn_push id d : pres (conn_rel R) (push_data id d).
Proof. unfold push_data. pres_steps. Qed.

Lemma conn_start hello : (forall data, pres R (write data)) -> pres (conn_rel R) (session_start hello).
Proof.
  intros Hw. apply pres_for_each. intros data. unfold send_cb. pres_steps.
  apply (pres_zoom _ _ R); [by intros i n | apply Hw].
Qed.

Lemma conn_callback cb : (forall data, pres R (write data)) -> pres (conn_rel R) (handle_callback cb).
Proof.
  intros Hw. destruct cb; cbn [handle_callback];
    unfold on_begin_headers, on_header, on_data, on_frame, on_close, data_read, assign; pres_steps.
  apply (pres_zoom _ _ R); [by intros i n | apply Hw].
Qed.

End ConnRel.

(** A computation on the session that does not touch the plaintext buffer. *)
Definition same_plaintext (c c' : NoiseConn) : Prop := nc_plaintext c' = nc_plaintext c.

#[export] Instance same_plaintext_preorder : PreOrder same_plaintext.
Proof. split; [done |]. unfold same_plaintext. intros ???; congruence. Qed.

Definition keeps_plaintext {A} (m : M Impl A) : Prop := pres (conn_rel same_plaintext) m.

Lemma write_plaintext buf c : nc_plaintext (write buf c).2 = nc_plaintext c.
Proof.
  unfold write. generalize (length buf) as fuel, 0%Z as sent. intros fuel. revert buf c.
  induction fuel as [|fuel IH]; intros buf c sent; destruct buf as [|x buf]; try done.
  cbn [write_loop]. do 2 erewrite bind_Ok by reflexivity.
  unfold mbind at 1, M_bind at 1, lift at 1.
  destruct (aead_seal _ _ _ _) as [ct|e|]; [| done | done].
  erewrite bind_Ok by reflexivity. cbv zeta.
  edestruct (send_record_outcome) as (ok & s' & H). rewrite (bind_Ok _ _ _ _ _ H).
  destruct ok; cbn [negb]; [by rewrite IH | done].
Qed.

Lemma keeps_callback cb : keeps_plaintext (handle_callback cb).
Proof. apply conn_callback; [apply _ | intros data c; apply write_plaintext]. Qed.

Lemma keeps_start hello : keeps_plaintext (session_start hello).
Proof. apply conn_start; [apply _ | intros data c; apply write_plaintext]. Qed.

Section Lens.
  Context {S : Type} (get_ : S -> Impl) (set_ : Impl -> S -> S)
    (Hlens : forall i s, get_ (set_ i s) = i).

(** The bytes decrypted and not yet given to the session. *)
Definition buffered (s : S) : list byte := nc_plaintext (im_conn (get_ s)).

Definition keeps_buffered {A} (m : M S A) : Prop := forall s, buffered (m s).2 = buffered s.

Lemma keeps_buffered_ret {A} (a : A) : keeps_buffered (mret a).
Proof. done. Qed.

Lemma keeps_buffered_bind {A B} (m : M S A) (k : A -> M S B) :
  keeps_buffered m -> (forall a, keeps_buffered (k a)) -> keeps_buffered (x ← m; k x).
Proof.
  intros Hm Hk s. unfold mbind, M_bind. specialize (Hm s).
  destruct (m s) as [[a|e|] s1]; [| done | done]. by rewrite (Hk a s1).
Qed.

Lemma keeps_buffered_for_each {A} (l : list A) (body : A -> M S unit) :
  (forall a, keeps_buffered (body a)) -> keeps_buffered (for_each l body).
Proof.
  intros Hb. induction l as [|a l IH]; [done |]. cbn [for_each]. by apply keeps_buffered_bind.
Qed.

Lemma keeps_buffered_on_h2 {A} (m : M Impl A) :
  keeps_plaintext m -> keeps_buffered (on_h2 get_ set_ m).
Proof.
  intros Hm s. unfold on_h2, zoom, buffered. specialize (Hm (get_ s)).
  unfold conn_rel, same_plaintext in Hm. destruct (m (get_ s)) as [r i]. simpl. by rewrite Hlens.
Qed.

Context (on_request : Z -> string -> string -> string -> M S unit)
  (extra_fd : Z) (on_extra on_tick : option (M S unit))
  (Hrequest : forall id m p b, keeps_buffered (on_request id m p b))
  (Hextra : keeps_buffered (call on_extra)) (Htick : keeps_buffered (call on_tick)).

Lemma keeps_run_callbacks cbs : keeps_buffered (run_callbacks get_ set_ on_request cbs).
Proof.
  apply keeps_buffered_for_each. intros cb. apply keeps_buffered_bind.
  - apply keeps_buffered_on_h2, keeps_callback.
  - intros [[[[id m] p] b]|]; [apply Hrequest | apply keeps_buffered_ret].
Qed.

Lemma keeps_flush want send : keeps_buffered (flush get_ set_ on_request want send).
Proof.
  unfold flush. destruct want; cbn [negb]; [| apply keeps_buffered_ret].
  apply keeps_buffered_bind; [apply keeps_run_callbacks | intros _; apply keeps_buffered_ret].
Qed.

(** A round that starts with nothing buffered ends so, whatever its outcome. *)
Lemma round_buffered it s :
  buffered s = [] -> buffered (round get_ set_ on_request extra_fd on_extra on_tick it s).2 = [].
Proof.
  intros Hs. unfold round. destruct (_ <? 0)%Z; [done |]. destruct (rd_hangup it); [done |].
  assert (forall ok, keeps_buffered (if negb ok then mret false
    else ok ← flush get_ set_ on_request (rd_want_write1 it) (rd_send1 it);
      if negb ok then mret false
      else _ ← (if (0 <=? extra_fd)%Z && rd_extra_readable it then call on_extra else mret ());
        _ ← call on_tick;
        ok ← flush get_ set_ on_request (rd_want_write2 it) (rd_send2 it);
        if negb ok then mret false else mret (rd_want_read it || rd_want_write3 it))) as Hrest.
  { intros [|]; cbn [negb]; [| apply keeps_buffered_ret].
    apply keeps_buffered_bind; [apply keeps_flush | intros [|]; cbn [negb]; [| apply keeps_buffered_ret]].
    apply keeps_buffered_bind; [destruct (_ && _); [done | apply keeps_buffered_ret] | intros _].
    apply keeps_buffered_bind; [done | intros _].
    apply keeps_buffered_bind; [apply keeps_flush | intros [|]; apply keeps_buffered_ret]. }
  destruct (rd_readable it).
  - destruct (read_returns read_buffer (im_conn (get_ s))) as (r & c' & Hr & _).
    assert (nc_plaintext c' = []) as Hc.
    { eapply read_leaves_nothing; [| | exact Hr]; [done |]. fold (buffered s). rewrite Hs. simpl. lia. }
    set (s1 := set_ (set_conn c' (get_ s)) s).
    assert (buffered s1 = []) as Hs1 by (unfold buffered, s1; by rewrite Hlens).
    assert (on_h2 get_ set_ (zoom im_conn set_conn (read read_buffer)) s = (Ok r, s1)) as Hread
      by (unfold on_h2, zoom; by rewrite Hr).
    unfold mbind at 1, M_bind at 1. rewrite (bind_Ok _ _ _ _ _ Hread).
    destruct r as [|x r]; cbn [mret M_ret]; [by rewrite Hrest |].
    pose proof (keeps_run_callbacks (rd_recv it).1 s1) as Hk. unfold mbind at 1, M_bind at 1.
    destruct (run_callbacks get_ set_ on_request (rd_recv it).1 s1) as [[u|e|] s2]; simpl in Hk;
      [| cbn; congruence | cbn; congruence].
    cbn [mret M_ret]. etransitivity; [apply Hrest |]. by rewrite Hk.
  - erewrite bind_Ok by reflexivity. by rewrite Hrest.
Qed.

Lemma run_loop_buffered rounds s :
  buffered s = [] -> buffered (run_loop get_ set_ on_request extra_fd on_extra on_tick rounds s).2 = [].
Proof.
  revert s. induction rounds as [|it rounds IH]; intros s Hs; [done |]. cbn [run_loop].
  pose proof (round_buffered it s Hs) as H. unfold mbind, M_bind.
  destruct (round _ _ _ _ _ _ it s) as [[[|]|e|] s1]; simpl in H; try done. by apply IH.
Qed.

End Lens.

(** The loop respects a relation that the handlers respect and that does not
    look at the HTTP/2 part. *)
Section RunPres.
  Context {S : Type} (get_ : S -> Impl) (set_ : Impl -> S -> S)
    (R : S -> S -> Prop) `{!PreOrder R} (Hset : forall s i, R s (set_ i s))
    (on_request : Z -> string -> string -> string -> M S unit)
    (extra_fd : Z) (on_extra on_tick : option (M S unit))
    (Hrequest : forall id m p b, pres R (on_request id m p b))
    (Hextra : pres R (call on_extra)) (Htick : pres R (call on_tick)).

Lemma pres_on_h2 {A} (m : M Impl A) : pres R (on_h2 get_ set_ m).
Proof. apply (pres_zoom _ _ (fun _ _ => True)); [intros s i _; apply Hset | done]. Qed.
Hint Resolve pres_on_h2 : wb.

Lemma pres_run_callbacks cbs : pres R (run_callbacks get_ set_ on_request cbs).
Proof. apply pres_for_each. intros cb. pres_steps. Qed.
Hint Resolve pres_run_callbacks : wb.

Lemma pres_flush want send : pres R (flush get_ set_ on_request want send).
Proof. unfold flush. pres_steps. Qed.
Hint Resolve pres_flush : wb.

Lemma pres_round it : pres R (round get_ set_ on_request extra_fd on_extra on_tick it).
Proof. unfold round. pres_steps. Qed.

Lemma pres_run rounds : pres R (run get_ set_ on_request extra_fd on_extra on_tick rounds).
Proof.
  apply pres_bind; [| intros []; pres_steps].
  induction rounds as [|it rounds IH]; cbn [run_loop]; [pres_steps |].
  apply pres_bind; [apply pres_round | intros []; pres_steps].
Qed.

End RunPres.

End RunFacts.

(** ** A concrete session, and the theorems at concrete inputs *)

Module SampleNghttp2.

Record session := mkSession { ss_user : gmap Z nat; ss_source : gmap Z nat }.

#[export] Instance sample_nghttp2 : Nghttp2 := {|
  sess := session;
  sess_new := mkSession ∅ ∅;
  submit_settings_ s := s;
  get_user_data s id := ss_user s !! id;
  sess_source s id := ss_source s !! id;
  set_user_data id p s := mkSession (<[id := p]> (ss_user s)) (ss_source s);
  submit_response_ id _ p s :=
    match ss_source s !! id with
    | Some _ => s
    | None => mkSession (ss_user s) (<[id := p]> (ss_source s))
    end;
  resume_data _ s := s;
  closed_stream id s := mkSession (delete id (ss_user s)) (delete id (ss_source s));
  sess_advance s s' := s' = s;
  callback_ok s cb :=
    match cb with
    | CbBeginHeaders type cat id => ss_user s !! id = None /\ ss_source s !! id = None
    | CbRead id p n => ss_source s !! id = Some p
    | _ => True
    end;
|}.

#[export] Instance sample_nghttp2_laws : Nghttp2Laws.
Proof.
  split; cbn.
  - intros id. apply lookup_empty.
  - intros id. apply lookup_empty.
  - done.
  - done.
  - intros id p s id'. case_decide as E; [subst; by rewrite lookup_insert_eq |].
    by rewrite lookup_insert_ne.
  - done.
  - intros id h p s id'. by destruct (ss_source s !! id).
  - intros id h p s id' q. destruct (ss_source s !! id) eqn:E; [by right |]. cbn.
    destruct (decide (id' = id)) as [->|].
    + rewrite lookup_insert_eq. intros [= ->]. by left.
    + rewrite lookup_insert_ne by done. by right.
  - done.
  - done.
  - intros id s id'. case_decide as E; [subst; by rewrite lookup_delete_eq |].
    by rewrite lookup_delete_ne.
  - intros id s id'. case_decide as E; [subst; by rewrite lookup_delete_eq |].
    by rewrite lookup_delete_ne.
  - by intros s s' id ->.
  - by intros s s' id ->.
  - done.
  - done.
Qed.

End SampleNghttp2.

Import SampleNghttp2 SampleCrypto.

(** Two requests interleaved on one connection, the first one answered. *)
Definition sample_events : list h2_event :=
  [EvCallback (CbBeginHeaders 1 0 1); EvCallback (CbHeader 1 1 ":method" "POST");
   EvCallback (CbBeginHeaders 1 0 3); EvCallback (CbHeader 1 3 ":path" "/machine/map");
   EvCallback (CbHeader 1 1 ":path" "/machine/register");
   EvCallback (CbData 3 (bytes_of_string "xx")); EvCallback (CbData 1 (bytes_of_string "{"));
   EvCallback (CbData 1 (bytes_of_string "}")); EvReply 1 200 "application/json" [u8 1; u8 2];
   EvCallback (CbClose 3)].

Fixpoint run_events (evs : list h2_event) (i : Impl) : Impl :=
  match evs with [] => i | ev :: evs => run_events evs (h2_handle ev i).2 end.

Fixpoint events_ok (evs : list h2_event) (i : Impl) : Prop :=
  match evs with [] => True | ev :: evs => event_ok ev i /\ events_ok evs (h2_handle ev i).2 end.

Lemma trace_run conn evs pre i :
  h2_trace conn pre i -> events_ok evs i -> h2_trace conn (rev_append evs pre) (run_events evs i).
Proof.
  revert pre i. induction evs as [|ev evs IH]; intros pre i Ht Hok; [done |].
  destruct Hok as [Hok Hoks]. cbn [rev_append run_events]. apply IH; [| done].
  eapply trace_step; [exact Ht | exact Hok |]. apply surjective_pairing.
Qed.

Definition sample_impl : Impl := Eval vm_compute in run_events sample_events (Impl_new sample_sender).
Definition sample_history : list h2_event := rev_append sample_events [].

Lemma sample_trace : h2_trace sample_sender sample_history sample_impl.
Proof.
  change sample_impl with (run_events sample_events (Impl_new sample_sender)) ||
    replace sample_impl with (run_events sample_events (Impl_new sample_sender))
      by (vm_compute; reflexivity).
  apply trace_run; [apply trace_new | vm_compute; tauto].
Qed.

Lemma h2_memory_safe_witness :
  callback_ok (im_sess sample_impl) (CbRead 1 0 100) /\
  (h2_handle (EvCallback (CbRead 1 0 100)) sample_impl).1 <> Ub.
Proof.
  split; [vm_compute; reflexivity |].
  apply (h2_memory_safe sample_sender sample_history); [apply sample_trace |].
  vm_compute. reflexivity.
Defined.

Lemma h2_request_isolated_witness :
  h2_handle (EvCallback (CbFrame 0 1 1)) sample_impl =
    (Ok (Some (1%Z, "POST", "/machine/register", "{}")), sample_impl) /\
  view 1 sample_history = Some ("POST", "/machine/register", "{}").
Proof.
  split; [vm_compute; reflexivity |].
  edestruct (h2_request_isolated sample_sender sample_history sample_impl 0 1 1
    (Some (1%Z, "POST", "/machine/register", "{}")) sample_impl) as [_ H].
  - apply sample_trace.
  - vm_compute. reflexivity.
  - exact (proj2 (H 1%Z "POST" "/machine/register" "{}" eq_refl)).
Defined.

Definition sample_stream : Stream := mkStream 1 "POST" "/" "" [u8 1; u8 2; u8 3] 0 true false.

Lemma response_queue_witness :
  let ops := [OpRead 2; OpPush [u8 4]; OpRead 5; OpRead 5; OpEnd] in
  let '(st', rs) := stream_run sample_stream ops in
  pending sample_stream ++ concat (op_bytes <$> ops) = concat (read_bytes <$> rs) ++ pending st' /\
  (stream_read 5 st').2 = ReadData [] true.
Proof.
  assert (queue_wf sample_stream) as Hw by (split; [vm_compute; lia | reflexivity]).
  pose proof (response_queue sample_stream [OpRead 2; OpPush [u8 4]; OpRead 5; OpRead 5; OpEnd] 5
    (stream_run sample_stream [OpRead 2; OpPush [u8 4]; OpRead 5; OpRead 5; OpEnd]).1
    (stream_run sample_stream [OpRead 2; OpPush [u8 4]; OpRead 5; OpRead 5; OpEnd]).2 Hw eq_refl)
    as [Hb He].
  split; [exact Hb | vm_compute; reflexivity].
Defined.
