(* ===== verification/Coordinator.v ===== *)
(** * Coordinator: the control server of coordinator.cpp

    [Co] is the Coordinator::Impl shared by all connections; [Serve] is what
    one connection's serve_h2 works on: the coordinator, the HTTP/2 session and
    the list of its open map streams. The request handlers are computations on
    it. The start and stop of the listener are in Lifecycle. *)

From S2P Require Import Prelude.
From S2P Require Import Crypto.
From S2P Require Import Keys.
From S2P Require Import IpAlloc.
From S2P Require Import Json.
From S2P Require Import State.
From S2P Require Import Netmap.
From S2P Require Import Socket.
From S2P Require Import Http1.
From S2P Require Import Noise.
From S2P Require Import Http2.

(** ** Data *)

Record Config := mkConfig {
  cf_listen : string;
  cf_server_url : string;
  cf_ip_prefix : string;
  cf_ipv6_prefix : string;
  cf_state_path : string;
  cf_domain : string;
  cf_dns_listen : string;
  cf_keepalive : Z;
}.

(** [Config{}] *)
Definition default_config : Config :=
  mkConfig "0.0.0.0:8080" "http://127.0.0.1:8080" "100.64.0.0/16" "fd7a:115c:a1e0::/48" ""
    "wirebone.local" "0.0.0.0:5353" 50.

Record PreauthOptions := mkPreauthOptions {
  po_reusable : bool;
  po_ephemeral : bool;
  po_expiration : Z;
  po_token : string;
  po_shared : option bool;
}.

(** [PreauthOptions{}] *)
Definition default_options : PreauthOptions := mkPreauthOptions true false 0 "" None.

Record NodeInfo := mkNodeInfo {
  ni_id : Z;
  ni_stable_id : string;
  ni_hostname : string;
  ni_machine_key : string;
  ni_node_key : string;
  ni_disco_key : string;
  ni_ipv4 : string;
  ni_ipv6 : string;
  ni_endpoints : list string;
  ni_online : bool;
  ni_token : string;
  ni_shared : bool;
}.

Record PreauthInfo := mkPreauthInfo {
  pi_key : string;
  pi_reusable : bool;
  pi_ephemeral : bool;
  pi_used : bool;
  pi_token : string;
  pi_shared : bool;
}.

Record LiveMap := mkLiveMap {
  lm_stream_id : Z;
  lm_machine : string;
  lm_zstd : bool;
  lm_last_gen : Z;
  lm_last_send : Z;
}.

(** [co_steady] is the steady clock, in nanoseconds; [cf_keepalive] is in seconds,
    so its comparison with a difference of clock readings converts it. *)
Record Co := mkCo {
  co_cfg : Config;
  co_st : St;
  co_bootstrap : string;
  co_map_gen : Z;
  co_steady : Z;
}.

Definition set_co_st (st : St) (c : Co) : Co :=
  mkCo (co_cfg c) st (co_bootstrap c) (co_map_gen c) (co_steady c).
Definition set_bootstrap (k : string) (c : Co) : Co :=
  mkCo (co_cfg c) (co_st c) k (co_map_gen c) (co_steady c).
Definition set_map_gen (g : Z) (c : Co) : Co :=
  mkCo (co_cfg c) (co_st c) (co_bootstrap c) g (co_steady c).

Definition on_st {A} (m : M St A) : M Co A := zoom co_st set_co_st m.

(** [lock; ++map_gen_] and [lock; return map_gen_] *)
Definition bump_map : M Co unit := modify (fun c => set_map_gen (wrap_u64 (co_map_gen c + 1)) c).
Definition map_gen : M Co Z := gets co_map_gen.

Definition preauth_info (k : PreauthKey) : PreauthInfo :=
  mkPreauthInfo (pk_key k) (pk_reusable k) (pk_ephemeral k) (pk_used k) (pk_token k) (pk_shared k).

Definition node_info (n : NodeState) : NodeInfo :=
  mkNodeInfo (ns_id n) (ns_stable_id n) (ns_hostname n) (ns_machine_key n) (ns_node_key n)
    (ns_disco_key n) (ns_ipv4 n) (ns_ipv6 n) (ns_endpoints n) (ns_online n) (ns_token n) (ns_shared n).

Section Coordinator.
  Context `{OSSL : !OpenSSL} `{Inet : !InetLib} `{JL : !JsonLib} `{ZS : !Zstd} `{NG : !Nghttp2}.

(** ** The interface of Coordinator *)

Definition create_key (opts : PreauthOptions) : M Co string :=
  on_st (create_preauth_key (po_reusable opts) (po_ephemeral opts) (po_expiration opts)
           (po_token opts) (po_shared opts)).

Definition list_preauth_keys : M Co (list PreauthInfo) :=
  ks ← on_st preauth_keys; mret (preauth_info <$> ks).

Definition list_nodes : M Co (list NodeInfo) :=
  ns ← on_st nodes; mret (node_info <$> ns).

Definition noise_public_key : M Co string := on_st noise_public_text.
Definition bootstrap_key : M Co string := gets co_bootstrap.
Definition export_state : M Co string := on_st dump_json.

Definition import_state (json : string) : M Co unit :=
  _ ← on_st (load_json json);
  keys ← on_st preauth_keys;
  modify (set_bootstrap (match keys with [] => "" | k :: _ => pk_key k end)).

Definition set_hook_of (hook : option (string -> World -> World)) : M Co unit :=
  on_st (set_persist_hook (Some (fun json w => match hook with Some h => h json w | None => w end))).

Definition persist_ : M Co unit := on_st persist.

(** The constructor; the object is discarded when it throws. *)
Definition Co_new (cfg : Config) (w : World) (steady : Z) : res Co * World :=
  let '(r, w) := Store_new (cf_state_path cfg) (cf_ip_prefix cfg) (cf_ipv6_prefix cfg) w in
  match r with
  | Ok s =>
      let c := mkCo cfg (mkSt s w) "" 1 steady in
      let '(r, c) :=
        (ks ← on_st preauth_keys;
         match ks with
         | [] => k ← create_key default_options; modify (set_bootstrap k)
         | _ => mret ()
         end) c in
      ((fun _ => c) <$> r, world (co_st c))
  | Throw e => (Throw e, w)
  | Ub => (Ub, w)
  end.

(** ** Request bodies *)

Definition hostname_from_hostinfo (req : json) : res string :=
  match json_find req "Hostinfo" with
  | Some h => if json_is_object h then json_value_string h "Hostname" "" else Ok ""
  | None => Ok ""
  end.

Fixpoint strings_of (l : list json) : res (list string) :=
  match l with
  | [] => Ok []
  | e :: l =>
      if json_is_string e then s ← json_get_string e; ss ← strings_of l; Ok (s :: ss)
      else strings_of l
  end.

Definition endpoints_from_req (req : json) : res (list string) :=
  match json_find req "Endpoints" with
  | Some e => if json_is_array e then strings_of (json_items e) else Ok []
  | None => Ok []
  end.

(** The preauth key of a register request. *)
Definition auth_of (req : json) : res string :=
  auth ← (match json_find req "Auth" with
          | Some a =>
              if json_is_object a then
                k ← json_value_string a "AuthKey" "";
                if str_empty k then json_value_string a "authKey" "" else Ok k
              else if json_is_string a then json_get_string a
              else Ok ""
          | None => Ok ""
          end);
  if str_empty auth then json_value_string req "AuthKey" "" else Ok auth.

(** [json::parse(body.empty() ? "{}" : body)] under try: [None] was caught. *)
Definition parse_body (body : string) : res (option json) :=
  match json_parse (if str_empty body then "{}" else body) with
  | Ok j => Ok (Some j)
  | Throw _ => Ok None
  | Ub => Ub
  end.

Definition denied_response : json :=
  jobj [("User", user_profile); ("Login", login_profile); ("MachineAuthorized", jbool false);
        ("Error", jstr "invalid or missing preauth key")].

(** ** One connection *)

Record Serve := mkServe { sv_co : Co; sv_h2 : Impl; sv_live : list LiveMap }.

Definition set_sv_co (c : Co) (s : Serve) : Serve := mkServe c (sv_h2 s) (sv_live s).
Definition set_sv_h2 (i : Impl) (s : Serve) : Serve := mkServe (sv_co s) i (sv_live s).
Definition set_sv_live (l : list LiveMap) (s : Serve) : Serve := mkServe (sv_co s) (sv_h2 s) l.

Definition on_co {A} (m : M Co A) : M Serve A := zoom sv_co set_sv_co m.
Definition with_h2 {A} (m : M Impl A) : M Serve A := on_h2 sv_h2 set_sv_h2 m.
Definition on_store_ {A} (m : M St A) : M Serve A := on_co (on_st m).

Definition text_reply (sid status : Z) (type text : string) : M Serve unit :=
  with_h2 (reply sid status type (bytes_of_string text)).

(** The frame of a full map for [self], as of now. *)
Definition full_map_frame (self : NodeState) (zstd : bool) : M Serve (list byte) :=
  ns ← on_store_ nodes;
  s ← get;
  let now := w_now (world (co_st (sv_co s))) in
  let domain := cf_domain (co_cfg (sv_co s)) in
  msg ← lift (build_full_map (fun _ => now) self ns domain 0).1;
  lift (encode_map_frame msg zstd).

(** on_register after the fields of the request have been read. *)
Definition register (sid : Z) (machine_key node_key host auth : string) (ephemeral : bool)
    : M Serve unit :=
  known ← on_store_ (find_by_machine machine_key);
  claim ← (match known with
           | Some _ => mret (Some (mkPreauthClaim ephemeral "" false))
           | None =>
               if str_empty auth then mret None
               else on_store_ (consume_preauth auth)
           end);
  match claim with
  | None =>
      denied ← lift (json_dump denied_response);
      text_reply sid 200 "application/json" denied
  | Some claim =>
      _ ← on_store_ (register_node machine_key node_key host (pc_ephemeral claim) (pc_token claim)
                       (pc_shared claim));
      _ ← on_co bump_map;
      ok ← lift (json_dump build_register_response);
      text_reply sid 200 "application/json" ok
  end.

Definition on_register (sid : Z) (machine_key body : string) : M Serve unit :=
  req ← lift (parse_body body);
  match req with
  | None => text_reply sid 400 "application/json" "{}"
  | Some req =>
      node_key ← lift (json_value_string req "NodeKey" "");
      host ← lift (hostname_from_hostinfo req);
      auth ← lift (auth_of req);
      ephemeral ← lift (json_value_bool req "Ephemeral" false);
      register sid machine_key node_key host auth ephemeral
  end.

(** on_map after the update of the node: the answer. *)
Definition answer_map (sid : Z) (machine_key : string) (stream omit_peers zstd : bool)
    : M Serve unit :=
  if omit_peers && negb stream then text_reply sid 200 "application/json" ""
  else
    self ← on_store_ (find_by_machine machine_key);
    match self with
    | None => text_reply sid 401 "text/plain" "unauthorized"
    | Some self =>
        first ← full_map_frame self zstd;
        if negb stream then with_h2 (reply sid 200 "application/json" first)
        else
          _ ← with_h2 (reply_stream_start sid 200 first);
          gen ← on_co map_gen;
          now ← gets (fun s => co_steady (sv_co s));
          modify (fun s => set_sv_live (sv_live s ++ [mkLiveMap sid machine_key zstd gen now]) s)
    end.

Definition on_map (sid : Z) (machine_key body : string) : M Serve unit :=
  req ← lift (parse_body body);
  match req with
  | None => text_reply sid 400 "application/json" "{}"
  | Some req =>
      version ← lift (json_value_int req "Version" 0);
      stream ← lift (json_value_bool req "Stream" false);
      omit_peers ← lift (json_value_bool req "OmitPeers" false);
      compress ← lift (json_value_string req "Compress" "");
      let zstd := bool_decide (compress = "zstd") in
      node_key ← lift (json_value_string req "NodeKey" "");
      disco_key ← lift (json_value_string req "DiscoKey" "");
      host ← lift (hostname_from_hostinfo req);
      let readonly := stream && (68 <=? version)%Z in
      _ ← (if negb readonly then
             endpoints ← lift (endpoints_from_req req);
             _ ← on_store_ (update_map_info machine_key node_key disco_key host endpoints);
             on_co bump_map
           else mret ());
      _ ← on_store_ (set_online machine_key true);
      answer_map sid machine_key stream omit_peers zstd
  end.

Definition on_request (machine_key : string) (sid : Z) (method path body : string) : M Serve unit :=
  if negb (bool_decide (method = "POST")) then text_reply sid 405 "text/plain" "method not allowed"
  else if bool_decide (path = "/machine/register") then on_register sid machine_key body
  else if bool_decide (path = "/machine/map") then on_map sid machine_key body
  else text_reply sid 404 "text/plain" "not found".

(** The body of the loop of the tick over one live map. *)
Definition tick_one (gen now : Z) (m : LiveMap) : M Serve LiveMap :=
  if negb (gen =? lm_last_gen m)%Z then
    self ← on_store_ (find_by_machine (lm_machine m));
    _ ← (match self with
         | Some self =>
             frame ← full_map_frame self (lm_zstd m);
             with_h2 (push_data (lm_stream_id m) frame)
         | None => mret ()
         end);
    mret (mkLiveMap (lm_stream_id m) (lm_machine m) (lm_zstd m) gen now)
  else
    s ← get;
    if (cf_keepalive (co_cfg (sv_co s)) * 10 ^ 9 <=? now - lm_last_send m)%Z then
      msg ← lift (build_keepalive (fun _ => w_now (world (co_st (sv_co s)))) 0).1;
      frame ← lift (encode_map_frame msg (lm_zstd m));
      _ ← with_h2 (push_data (lm_stream_id m) frame);
      mret (mkLiveMap (lm_stream_id m) (lm_machine m) (lm_zstd m) (lm_last_gen m) now)
    else mret m.

(** The loop updates the elements in place: those before an exception are done. *)
Fixpoint tick_loop (gen now : Z) (done todo : list LiveMap) : M Serve unit :=
  match todo with
  | [] => mret ()
  | m :: todo =>
      m' ← tick_one gen now m;
      _ ← modify (set_sv_live (done ++ m' :: todo));
      tick_loop gen now (done ++ [m']) todo
  end.

Definition on_tick : M Serve unit :=
  now ← gets (fun s => co_steady (sv_co s));
  gen ← on_co map_gen;
  live ← gets sv_live;
  tick_loop gen now [] live.

(** serve_h2 from h2.run on, over the rounds of its event loop. *)
Definition serve_h2 (machine_key : string) (rounds : list Round) : M Serve unit :=
  _ ← run sv_h2 set_sv_h2 (on_request machine_key) (-1) None (Some on_tick) rounds;
  _ ← on_store_ (set_online machine_key false);
  on_co bump_map.

(** All of serve_h2: the H2Server is constructed, and sends its settings. *)
Definition serve_session (hello : list (list byte)) (machine_key : string) (rounds : list Round)
    : M Serve unit :=
  _ ← with_h2 (session_start hello);
  serve_h2 machine_key rounds.

(** ** One TCP connection *)

Record Client := mkClient { cl_co : Co; cl_sock : Sock }.

Definition set_cl_sock (k : Sock) (c : Client) : Client := mkClient (cl_co c) k.
Definition cl_on_co {A} (m : M Co A) : M Client A := zoom cl_co (fun co c => mkClient co (cl_sock c)) m.
Definition cl_on_sock {A} (m : M Sock A) : M Client A := zoom cl_sock set_cl_sock m.

Definition bad_request (why : string) : M Client unit :=
  _ ← cl_on_sock (write_http_response 400 "Bad Request" "text/plain" why);
  cl_on_sock sys_close.

Definition switching : string :=
  "HTTP/1.1 101 Switching Protocols" +:+ crlf +:+ "Upgrade: tailscale-control-protocol" +:+ crlf +:+
  "Connection: upgrade" +:+ crlf2.

(** The scope of [nconn] in handle_ts2021: serve_h2, then the destructor, also
    when an exception passes. *)
Definition serve_connection (fd : Z) (machine : string) (nr : NoiseResult) (hello : list (list byte))
    (rounds : list Round) : M Client unit := fun c =>
  let nconn := NoiseConn_new fd (cl_sock c) (nr_tx_key nr) (nr_rx_key nr) in
  let '(r, s) := serve_session hello machine rounds (mkServe (cl_co c) (Impl_new nconn) []) in
  let '(_, nconn) := close (im_conn (sv_h2 s)) in
  (r, mkClient (sv_co s) (nc_sock nconn)).

Definition handle_ts2021 (fd : Z) (req : HttpRequest) (hello : list (list byte)) (rounds : list
  Round) : M Client unit :=
  let upgrade := header_get req "upgrade" in
  if negb (bool_decide (upgrade = "tailscale-control-protocol"))
  then bad_request ("missing upgrade" +:+ String LF "")
  else
    let init_b64 := header_get req "x-tailscale-handshake" in
    if str_empty init_b64 then bad_request ("missing handshake" +:+ String LF "")
    else
      match b64_decode init_b64 with
      | Throw _ => bad_request ("bad handshake" +:+ String LF "")
      | Ub => lift Ub
      | Ok init =>
          sent ← cl_on_sock (write_all switching);
          if negb sent then cl_on_sock sys_close
          else
            priv ← cl_on_co (gets (fun c => st_noise_private (store (co_st c))));
            hs ← cl_on_co (on_st (on_rng (noise_server_handshake priv init)));
            match hs with
            | inl _ => cl_on_sock sys_close
            | inr (resp, nr) =>
                sent ← cl_on_sock (write_all (string_of_bytes resp));
                if negb sent then cl_on_sock sys_close
                else serve_connection fd (format_key Machine (nr_peer_machine_public nr)) nr hello rounds
            end
      end.

(** True when the caller still owns the descriptor. *)
Definition handle_client (fd : Z) (hello : list (list byte)) (rounds : list Round) : M Client bool :=
  r ← cl_on_sock read_http_request;
  match r with
  | None => mret true
  | Some (req, _) =>
      if bool_decide (rq_path req = "/key") then
        pub ← cl_on_co noise_public_key;
        body ← lift (json_dump (jobj [("legacyPublicKey", jstr zero_machine_key);
                                      ("publicKey", jstr pub)]));
        _ ← cl_on_sock (write_http_response 200 "OK" "application/json" body);
        mret true
      else if bool_decide (rq_path req = "/healthz") then
        _ ← cl_on_sock (write_http_response 200 "OK" "text/plain" ("ok" +:+ String LF ""));
        mret true
      else if bool_decide (rq_path req = "/ts2021") then
        _ ← handle_ts2021 fd req hello rounds;
        mret false
      else
        _ ← cl_on_sock (write_http_response 404 "Not Found" "text/plain" ("not found" +:+ String LF ""));
        mret true
  end.

Definition client_thread (fd : Z) (hello : list (list byte)) (rounds : list Round) : M Client unit
  := fun c =>
  match handle_client fd hello rounds c with
  | (Ok close_fd, c) => if close_fd && (0 <=? fd)%Z then cl_on_sock sys_close c else (Ok tt, c)
  | (Throw _, c) => if (0 <=? fd)%Z then cl_on_sock sys_close c else (Ok tt, c)
  | (Ub, c) => (Ub, c)
  end.

End Coordinator.
