(* ===== verification/CoordFacts.v ===== *)
(** * Coordinator facts: what a connection can do to the registry

    A connection touches only the node of its own machine, and a machine joins
    only with a valid preauth key. *)

From S2P Require Import Prelude.
From S2P Require Import Crypto.
From S2P Require Import Keys.
From S2P Require Import IpAlloc.
From S2P Require Import Json.
From S2P Require Import State.
From S2P Require Import StateFacts.
From S2P Require Import StateSpec.
From S2P Require Import StateLife.
From S2P Require Import Netmap.
From S2P Require Import Socket.
From S2P Require Import Http1.
From S2P Require Import Noise.
From S2P Require Import Http2.
From S2P Require Import Coordinator.

(** ** What a machine's connection may do to the nodes *)

(** What a node is for the rest of the network, fixed when it joins. *)
Definition node_ident (n : NodeState) :=
  (ns_id n, ns_stable_id n, ns_machine_key n, ns_ipv4 n, ns_ipv6 n, ns_token n, ns_shared n).

Definition others (m : string) (ns : list NodeState) : list NodeState :=
  filter (fun n => ns_machine_key n <> m) ns.

(** The nodes of other machines are as before, every node keeps its identity,
    and at most one node joins, of machine [m], when [m] had none. *)
Definition confined (m : string) (ns ns' : list NodeState) : Prop :=
  others m ns' = others m ns /\
  (node_ident <$> ns' = node_ident <$> ns \/
   find_first (is_machine m) ns = None /\
   exists n, ns_machine_key n = m /\ node_ident <$> ns' = (node_ident <$> ns) ++ [node_ident n]).

Definition confined_st (m : string) (st st' : St) : Prop :=
  confined m (st_nodes (store st)) (st_nodes (store st')) /\
  fixed_part (store st') = fixed_part (store st).

(** A relation on the store as one on the coordinator and on a connection. *)
Definition co_rel (Q : St -> St -> Prop) (c c' : Co) : Prop :=
  Q (co_st c) (co_st c') /\ co_cfg c' = co_cfg c /\ co_bootstrap c' = co_bootstrap c.

Definition serve_rel `{NG : !Nghttp2} (Q : St -> St -> Prop) (s s' : Serve) : Prop :=
  co_rel Q (sv_co s) (sv_co s').

#[export] Instance co_rel_preorder Q `{!PreOrder Q} : PreOrder (co_rel Q).
Proof.
  split; [by intros c; split; [reflexivity |] |]. intros c1 c2 c3 (H1 & G1 & B1) (H2 & G2 & B2).
  split; [by etransitivity | split; congruence].
Qed.

#[export] Instance serve_rel_preorder `{NG : !Nghttp2} Q `{!PreOrder Q} : PreOrder (serve_rel Q).
Proof. split; [by intros s; apply co_rel_preorder |]. intros s1 s2 s3. by apply co_rel_preorder. Qed.

Section Confined.

Lemma find_machine_None m ns :
  find_first (is_machine m) ns = None <-> m ∉ (ns_machine_key <$> ns).
Proof.
  rewrite find_first_None, Forall_forall, list_elem_of_fmap. unfold is_machine. split.
  - intros H (n & -> & Hn). specialize (H n Hn). by rewrite bool_decide_true in H.
  - intros H n Hn. apply bool_decide_eq_false. intros <-. apply H. by exists n.
Qed.

Lemma ident_keys (ns ns' : list NodeState) : node_ident <$> ns' = node_ident <$> ns ->
  ns_machine_key <$> ns' = ns_machine_key <$> ns.
Proof.
  intros H. apply (f_equal (fmap (fun i => i.1.1.1.1.2))) in H. by rewrite <-!list_fmap_compose in H.
Qed.

#[export] Instance confined_preorder m : PreOrder (confined m).
Proof.
  split; [by intros ns; split; [| left] |].
  intros ns1 ns2 ns3 [Ho12 H12] [Ho23 H23]. split; [congruence |].
  destruct H12 as [H12|(Hf & n & Hn & H12)], H23 as [H23|(Hf2 & n2 & Hn2 & H23)].
  - left. congruence.
  - right. rewrite find_machine_None, (ident_keys _ _ H12), <-find_machine_None in Hf2.
    split; [done |]. exists n2. by rewrite H23, H12.
  - right. split; [done |]. exists n. by rewrite H23.
  - exfalso. rewrite find_machine_None in Hf2. apply Hf2.
    apply (f_equal (fmap (fun i => i.1.1.1.1.2))) in H12.
    rewrite fmap_app, <-!list_fmap_compose in H12.
    change (ns_machine_key <$> ns2 = (ns_machine_key <$> ns1) ++ [ns_machine_key n]) in H12.
    rewrite H12, Hn. set_solver.
Qed.

#[export] Instance confined_st_preorder m : PreOrder (confined_st m).
Proof.
  split; [by intros st; split |]. intros st1 st2 st3 [H1 F1] [H2 F2].
  split; [by etransitivity | congruence].
Qed.

Lemma confined_update m f ns ns' n :
  update_first (is_machine m) f ns = Some (ns', n) -> (forall x, node_ident (f x) = node_ident x) ->
  confined m ns ns'.
Proof.
  intros Hu Hf. split; [| left; by eapply update_first_fmap].
  apply update_first_Some in Hu as (l1 & x & l2 & -> & _ & Hx & _ & ->).
  unfold is_machine in Hx. apply bool_decide_eq_true in Hx.
  assert (ns_machine_key (f x) = m) as Hfx by (pose proof (Hf x) as H; unfold node_ident in H; congruence).
  unfold others. rewrite !filter_app, !filter_cons, !decide_False; [done | |]; intros []; done.
Qed.

Lemma confined_snoc m n ns :
  find_first (is_machine m) ns = None -> ns_machine_key n = m -> confined m ns (ns ++ [n]).
Proof.
  intros Hf Hn. split.
  - unfold others. rewrite filter_app, filter_cons, decide_False by (intros []; done). by rewrite app_nil_r.
  - right. split; [done |]. exists n. by rewrite fmap_app.
Qed.

End Confined.

(** ** The handlers respect what the operations of the store respect *)

Section Lifting.
  Context `{OSSL : !OpenSSL} `{Inet : !InetLib} `{JL : !JsonLib} `{ZS : !Zstd} `{NG : !Nghttp2}.
  Context (m : string) (Q : St -> St -> Prop) `{!PreOrder Q}.

Lemma pres_on_store {A} (op : M St A) : pres Q op -> pres (serve_rel Q) (on_store_ op).
Proof.
  intros H. apply (pres_zoom _ _ (co_rel Q)); [by intros s c |].
  apply (pres_zoom _ _ Q); [by intros c st | done].
Qed.

Lemma pres_bump : pres (serve_rel Q) (on_co bump_map).
Proof.
  apply (pres_zoom _ _ (co_rel Q)); [by intros s c |]. intros c. by split; [reflexivity |].
Qed.

Lemma pres_map_gen : pres (serve_rel Q) (on_co map_gen).
Proof.
  apply (pres_zoom _ _ (co_rel Q)); [by intros s c |]. intros c. by split; [reflexivity |].
Qed.

Lemma pres_with_h2 {A} (op : M Impl A) : pres (serve_rel Q) (with_h2 op).
Proof. apply pres_on_h2. intros s i. split; [reflexivity | done]. Qed.

Lemma pres_live f : pres (serve_rel Q) (modify (fun s => set_sv_live (f s) s)).
Proof. apply pres_modify. intros s. split; [reflexivity | done]. Qed.

Lemma pres_find k : pres Q (find_by_machine k).
Proof. apply pres_gets. Qed.

Lemma pres_nodes : pres Q nodes.
Proof. apply pres_gets. Qed.

Hint Resolve pres_bump pres_map_gen pres_with_h2 pres_live pres_on_store pres_find pres_nodes : wb.

Lemma pres_full_map self z : pres (serve_rel Q) (full_map_frame self z).
Proof. unfold full_map_frame. pres_steps. Qed.
Hint Resolve pres_full_map : wb.

Lemma pres_tick : pres (serve_rel Q) on_tick.
Proof.
  unfold on_tick. apply pres_bind; [pres_steps | intros now]. apply pres_bind; [pres_steps | intros gen].
  apply pres_bind; [pres_steps | intros todo]. generalize (@nil LiveMap).
  induction todo as [|l todo IH]; intros done_; cbn [tick_loop]; [pres_steps |].
  apply pres_bind; [unfold tick_one; pres_steps |]. intros l'.
  apply pres_bind; [apply pres_live |]. intros _. apply IH.
Qed.

Context (Hinfo : forall nk dk h es, pres Q (update_map_info m nk dk h es))
  (Honline : forall b, pres Q (set_online m b)).
Hint Resolve Hinfo Honline : wb.

Lemma pres_map_request sid body : pres (serve_rel Q) (on_map sid m body).
Proof. unfold on_map, answer_map, text_reply. pres_steps. Qed.
Hint Resolve pres_map_request : wb.

Context (Hconsume : forall key, pres Q (consume_preauth key))
  (Hregister : forall nk h e t sh, pres Q (register_node m nk h e t sh)).
Hint Resolve Hconsume Hregister : wb.

Lemma pres_request sid method path body : pres (serve_rel Q) (on_request m sid method path body).
Proof. unfold on_request, on_register, register, text_reply. pres_steps. Qed.

Lemma pres_serve rounds : pres (serve_rel Q) (serve_h2 m rounds).
Proof.
  unfold serve_h2. apply pres_bind; [| intros ?; pres_steps].
  apply pres_run; [apply _ | | apply pres_request | pres_steps | apply pres_tick].
  intros s i. split; [reflexivity | done].
Qed.

End Lifting.

(** ** A connection is confined to its machine *)

Section Operations.
  Context `{OSSL : !OpenSSL} `{Inet : !InetLib} `{JL : !JsonLib} `{ZS : !Zstd} `{NG : !Nghttp2}.
  Context (m : string).

Lemma keys_only_confined {A} (op : M St A) : keys_only op -> pres (confined_st m) op.
Proof.
  intros H st. unfold confined_st. destruct (H st) as [ks ->]. by split; [split; [| left] |].
Qed.

Lemma pres_consume key : pres (confined_st m) (consume_preauth key).
Proof. apply keys_only_confined, keys_only_consume. Qed.

Lemma pres_register nk h e t sh : pres (confined_st m) (register_node m nk h e t sh).
Proof.
  intros st. unfold confined_st. rewrite register_store.
  destruct (update_first_find (is_machine m) (reregister nk h e) (st_nodes (store st)))
    as [[Hu Hf]|(ns & x & Hu & Hf)]; rewrite Hu.
  - cbv zeta. destruct (address_for _ _) as [[v4 v6]|ex|]; (split; [| done]);
      [by apply confined_snoc | |]; by split; [| left].
  - split; [| done]. by eapply confined_update.
Qed.

Lemma pres_map_info nk dk h es : pres (confined_st m) (update_map_info m nk dk h es).
Proof.
  intros st. unfold confined_st. rewrite map_info_store.
  destruct (update_first _ _ _) as [[ns x]|] eqn:Hu; [| done]. split; [| done].
  by eapply confined_update.
Qed.

Lemma pres_set_online b : pres (confined_st m) (set_online m b).
Proof.
  intros st. unfold confined_st. rewrite set_online_store.
  destruct (update_first _ _ _) as [[ns x]|] eqn:Hu; [| done]. split; [| done].
  by eapply confined_update.
Qed.

(** C2: a connection is confined to its own machine. Whatever requests, frames
    and failures its rounds contain, however serve_h2 ends: every node of
    another machine is exactly as before, no node disappears or changes id,
    addresses, token group or shared flag, at most one node joins and it has
    this machine's key, and the noise key, the networks, the configuration and
    the bootstrap key are untouched. *)
Theorem connection_confined rounds s : serve_rel (confined_st m) s (serve_h2 m rounds s).2.
Proof.
  apply pres_serve; [apply _ | apply pres_map_info | apply pres_set_online | apply pres_consume |
    apply pres_register].
Qed.

End Operations.

(** ** Who joins *)

(** The preauth keys that a use of a key looks at: those of the state file when
    there is one, else those in memory. *)
Definition current_keys `{JL : !JsonLib} (st : St) : list PreauthKey :=
  st_keys (store (reload_keys_from_disk st).2).

Definition same_nodes (st st' : St) : Prop := st_nodes (store st') = st_nodes (store st).
Definition same_machines (st st' : St) : Prop :=
  ns_machine_key <$> st_nodes (store st') = ns_machine_key <$> st_nodes (store st).

#[export] Instance same_nodes_preorder : PreOrder same_nodes.
Proof. split; [done |]. unfold same_nodes. intros ???; congruence. Qed.

#[export] Instance same_machines_preorder : PreOrder same_machines.
Proof. split; [done |]. unfold same_machines. intros ???; congruence. Qed.

Section Admission.
  Context `{OSSL : !OpenSSL} `{Inet : !InetLib} `{JL : !JsonLib} `{ZS : !Zstd} `{NG : !Nghttp2}.

Definition sv_nodes (s : Serve) : list NodeState := st_nodes (store (co_st (sv_co s))).

Lemma on_store_step {A} (op : M St A) s :
  on_store_ op s =
    ((op (co_st (sv_co s))).1, set_sv_co (set_co_st (op (co_st (sv_co s))).2 (sv_co s)) s).
Proof. unfold on_store_, on_co, on_st, zoom. by destruct (op _). Qed.

Lemma consume_preauth_claim key st c st' :
  consume_preauth key st = (Ok (Some c), st') ->
  exists k, find_first (is_key key) (current_keys st) = Some k /\
    key_valid (w_now (world st)) k = true /\ c = claim_of k.
Proof.
  unfold consume_preauth, current_keys. intros ([] & st1 & Hr & H)%bind_Ok_inv.
  assert (world st1 = world st) as Hw.
  { revert Hr. unfold reload_keys_from_disk. mstep. destruct (read_keys_file st) as [j|];
    [| by intros [= <-]].
    unfold on_store, zoom. destruct (replace_keys j (store st)) as [[]]; intros [=]; by subst. }
  rewrite Hr. simpl. revert H. unfold consume_locked. mstep. rewrite consume_scan_spec, Hw.
  destruct (find_first (is_key key) _) as [k|]; [| done].
  destruct (key_valid _ k) eqn:Hv; [| done]. intros H. exists k. split; [done |]. split; [done |].
  destruct (update_first_find (is_key key) (set_pk_used true) (st_keys (store st1)))
    as [[Hu _]|(ks & x & Hu & _)]; rewrite Hu in H; [done |]. simpl in H.
  by apply bind_Ok_inv in H as ([] & st2 & _ & [= -> _]).
Qed.

Lemma map_request_machines sid m body s :
  ns_machine_key <$> sv_nodes (on_map sid m body s).2 = ns_machine_key <$> sv_nodes s.
Proof.
  assert (pres (serve_rel same_machines) (on_map sid m body)) as H; [| apply (H s)].
  apply pres_map_request; [apply _ | |].
  - intros nk dk h es st. unfold same_machines. rewrite map_info_store.
    destruct (update_first _ _ _) as [[ns x]|] eqn:Hu; [| done]. by eapply update_first_fmap.
  - intros b st. unfold same_machines. rewrite set_online_store.
    destruct (update_first _ _ _) as [[ns x]|] eqn:Hu; [| done]. by eapply update_first_fmap.
Qed.

Lemma text_reply_nodes sid status ty text s : sv_nodes (text_reply sid status ty text s).2 = sv_nodes s.
Proof. apply (pres_with_h2 same_nodes). Qed.

(** The registration itself: who can be new in the list. *)
Lemma register_node_new m nk h e t sh st n :
  n ∈ st_nodes (store (register_node m nk h e t sh st).2) -> ns_machine_key n = m ->
  m ∉ (ns_machine_key <$> st_nodes (store st)) ->
  ns_token n = t /\ ns_shared n = sh /\ ns_ephemeral n = e.
Proof.
  rewrite register_store. intros Hn Hm Hnew. pose proof Hnew as Hf.
  rewrite <-find_machine_None in Hf.
  destruct (update_first_find (is_machine m) (reregister nk h e) (st_nodes (store st)))
    as [[Hu _]|(ns & x & _ & Hx)]; [| congruence].
  rewrite Hu in Hn. cbv zeta in Hn.
  assert (n ∉ st_nodes (store st)) as Hold.
  { intros Hin. apply Hnew. rewrite <-Hm. by apply list_elem_of_fmap_2. }
  destruct (address_for _ _) as [[v4 v6]|ex|]; [| done..].
  simpl in Hn. apply elem_of_app in Hn as [Hn|Hn%list_elem_of_singleton]; [done |]. by subst.
Qed.

Lemma find_step {B} m s (k : option NodeState -> M Serve B) :
  (x ← on_store_ (find_by_machine m); k x) s = k (find_first (is_machine m) (sv_nodes s)) s.
Proof. by destruct s as [[] h2 live]. Qed.

Lemma register_admits sid m nk host auth eph s n :
  m ∉ (ns_machine_key <$> sv_nodes s) ->
  n ∈ sv_nodes (register sid m nk host auth eph s).2 -> ns_machine_key n = m ->
  auth <> "" /\ exists k,
    find_first (is_key auth) (current_keys (co_st (sv_co s))) = Some k /\
    key_valid (w_now (world (co_st (sv_co s)))) k = true /\
    ns_token n = pk_token k /\ ns_shared n = pk_shared k /\ ns_ephemeral n = pk_ephemeral k.
Proof.
  intros Hnew Hn Hm.
  assert (forall s', sv_nodes s' = sv_nodes s -> n ∉ sv_nodes s') as Hold.
  { intros s' -> Hin. apply Hnew. rewrite <-Hm. by apply list_elem_of_fmap_2. }
  revert Hn. unfold register. rewrite find_step.
  rewrite (proj2 (find_machine_None m (sv_nodes s)) Hnew).
  destruct auth as [|c auth]; cbn [str_empty].
  { erewrite bind_Ok by done. intros Hn. exfalso. revert Hn. apply Hold.
    destruct (json_dump denied_response); [apply text_reply_nodes | done..]. }
  set (key := String c auth). intros Hn. split; [done |]. revert Hn.
  unfold mbind at 1, M_bind at 1. rewrite on_store_step.
  destruct (keys_only_consume key (co_st (sv_co s))) as [ks Hks].
  destruct (consume_preauth key (co_st (sv_co s))) as [r st1] eqn:Hc. simpl in Hks.
  cbn [fst snd]. set (s1 := set_sv_co _ s).
  assert (sv_nodes s1 = sv_nodes s) as Hs1 by (unfold s1, sv_nodes; simpl; by rewrite Hks).
  destruct r as [[cl|]|e|]; [| | by intros Hn%Hold..].
  - destruct (consume_preauth_claim _ _ _ _ Hc) as (k & Hk & Hv & ->). intros Hn.
    exists k. split; [done |]. split; [done |]. revert Hn.
    destruct (bind_state_inv (on_store_ (register_node m nk host (pc_ephemeral (claim_of k))
      (pc_token (claim_of k)) (pc_shared (claim_of k))))
      (fun _ => _ ← on_co bump_map; ok ← lift (json_dump build_register_response);
                text_reply sid 200 "application/json" ok) s1) as [(a & s2 & H2 & He)|He];
                  rewrite He; clear He.
    + assert (sv_nodes ((_ ← on_co bump_map; ok ← lift (json_dump build_register_response);
                text_reply sid 200 "application/json" ok) s2).2 = sv_nodes s2) as ->.
      { apply (pres_bind (R := serve_rel same_nodes)); [apply (pres_bump same_nodes) |].
        intros _. apply pres_bind; [apply pres_lift | intros t; apply (pres_with_h2 same_nodes)]. }
      rewrite on_store_step in H2. injection H2 as _ <-. intros Hn.
      apply (register_node_new _ _ _ _ _ _ _ _ Hn Hm).
      change (m ∉ (ns_machine_key <$> sv_nodes s1)). by rewrite Hs1.
    + rewrite on_store_step. intros Hn.
      apply (register_node_new _ _ _ _ _ _ _ _ Hn Hm).
      change (m ∉ (ns_machine_key <$> sv_nodes s1)). by rewrite Hs1.
  - intros Hn. exfalso. revert Hn. apply Hold. rewrite <-Hs1.
    destruct (json_dump denied_response); [apply text_reply_nodes | done..].
Qed.

(** C3: a machine joins only with a valid preauth key. If after a request of a
    machine that had no node there is a node of that machine, the request was a
    POST to /machine/register whose body parses, the key text it carries is not
    empty, the first current key of that text (reloaded from the state file) is
    unexpired and not a used one-shot key, and the node has exactly that key's
    token, shared and ephemeral flags: nothing in the request can choose its
    group. It holds however the request ends. *)
Theorem request_admission m sid method path body s n :
  m ∉ (ns_machine_key <$> sv_nodes s) ->
  n ∈ sv_nodes (on_request m sid method path body s).2 -> ns_machine_key n = m ->
  method = "POST" /\ path = "/machine/register" /\
  exists req auth k, parse_body body = Ok (Some req) /\ auth_of req = Ok auth /\ auth <> "" /\
    find_first (is_key auth) (current_keys (co_st (sv_co s))) = Some k /\
    key_valid (w_now (world (co_st (sv_co s)))) k = true /\
    ns_token n = pk_token k /\ ns_shared n = pk_shared k /\ ns_ephemeral n = pk_ephemeral k.
Proof.
  intros Hnew Hn Hm.
  assert (forall s', sv_nodes s' = sv_nodes s -> n ∉ sv_nodes s') as Hold.
  { intros s' -> Hin. apply Hnew. rewrite <-Hm. by apply list_elem_of_fmap_2. }
  revert Hn. unfold on_request. case_bool_decide as Em; cbn [negb];
    [| intros Hn; exfalso; revert Hn; apply Hold, text_reply_nodes].
  case_bool_decide as Ep.
  2: { case_bool_decide; intros Hn; exfalso.
       - apply Hnew. rewrite <-(map_request_machines sid m body s). apply list_elem_of_fmap. by exists n.
       - revert Hn. apply Hold, text_reply_nodes. }
  intros Hn. do 2 (split; [done |]). revert Hn. unfold on_register.
  unfold mbind, M_bind, lift.
  destruct (parse_body body) as [[req|]|e|] eqn:Eb;
    [| intros Hn; exfalso; revert Hn; apply Hold, (text_reply_nodes sid 400) | by intros Hn%Hold..].
  destruct (json_value_string req "NodeKey" "") as [nk|e|]; [| by intros Hn%Hold..].
  destruct (hostname_from_hostinfo req) as [host|e|]; [| by intros Hn%Hold..].
  destruct (auth_of req) as [auth|e|] eqn:Ea; [| by intros Hn%Hold..].
  destruct (json_value_bool req "Ephemeral" false) as [eph|e|]; [| by intros Hn%Hold..].
  intros Hn. destruct (register_admits _ _ _ _ _ _ _ _ Hnew Hn Hm) as (Hne & k & H).
  by exists req, auth, k.
Qed.
End Admission.
