(* ===== verification/TickFacts.v ===== *)
(** * TickFacts: the map streams and the event loop

    What one tick sends on which stream, that it brings every stream up to the
    coordinator's generation, and that the loop never waits for the socket
    while decrypted bytes are left in the connection. *)

From S2P Require Import Prelude.
From S2P Require Import Crypto.
From S2P Require Import Keys.
From S2P Require Import IpAlloc.
From S2P Require Import Json.
From S2P Require Import State.
From S2P Require Import Netmap.
From S2P Require Import Socket.
From S2P Require Import Noise.
From S2P Require Import Http2.
From S2P Require Import Coordinator.
From S2P Require Import CoordFacts.

(** ** Specifications *)

Section TickSpec.
  Context `{JL : !JsonLib} `{ZS : !Zstd} `{NG : !Nghttp2}.

(** The full map [self] is sent when the coordinator is in the state [c]. *)
Definition map_frame_now (c : Co) (self : NodeState) (zstd : bool) : res (list byte) :=
  msg ← (build_full_map (fun _ => w_now (world (co_st c))) self (st_nodes (store (co_st c)))
           (cf_domain (co_cfg c)) 0).1;
  encode_map_frame msg zstd.

Definition keepalive_now (c : Co) (zstd : bool) : res (list byte) :=
  msg ← (build_keepalive (fun _ => w_now (world (co_st c))) 0).1;
  encode_map_frame msg zstd.

(** A live map has not yet been sent the current generation. *)
Definition stale (c : Co) (l : LiveMap) : bool := negb (co_map_gen c =? lm_last_gen l)%Z.
Definition keepalive_due (c : Co) (l : LiveMap) : bool :=
  (cf_keepalive (co_cfg c) * 10 ^ 9 <=? co_steady c - lm_last_send l)%Z.

(** What the tick sends for a live map, if anything: the current full map when
    it is stale and its machine still has a node, else a keepalive when due. *)
Definition tick_sends (c : Co) (l : LiveMap) : option (res (list byte)) :=
  if stale c l then
    (fun self => map_frame_now c self (lm_zstd l)) <$>
      find_first (is_machine (lm_machine l)) (st_nodes (store (co_st c)))
  else if keepalive_due c l then Some (keepalive_now c (lm_zstd l))
  else None.

Definition tick_next (c : Co) (l : LiveMap) : LiveMap :=
  if stale c l then mkLiveMap (lm_stream_id l) (lm_machine l) (lm_zstd l) (co_map_gen c) (co_steady c)
  else if keepalive_due c l
  then mkLiveMap (lm_stream_id l) (lm_machine l) (lm_zstd l) (lm_last_gen l) (co_steady c)
  else l.

(** The bytes the tick adds to the stream [id]. *)
Definition tick_bytes (c : Co) (id : Z) (l : LiveMap) : list byte :=
  if (lm_stream_id l =? id)%Z then
    match tick_sends c l with Some (Ok d) => d | _ => [] end
  else [].

Definition stream_at (i : Impl) (id : Z) : option Stream := p ← im_streams i !! id; im_heap i !! p.

End TickSpec.

Section TickFacts.
  Context `{JL : !JsonLib} `{ZS : !Zstd} `{NG : !Nghttp2} `{NLaws : !Nghttp2Laws}.

Lemma stream_push_nil st : stream_push [] st = st.
Proof. unfold stream_push. rewrite app_nil_r. by destruct st. Qed.

Lemma stream_push_app a b st : stream_push b (stream_push a st) = stream_push (a ++ b) st.
Proof. unfold stream_push. simpl. by rewrite <-app_assoc. Qed.

(** A push reaches its stream, if it is open, and no other. *)
Lemma push_data_spec i id d : h2_inv i ->
  exists i', push_data id d i = (Ok tt, i') /\ h2_inv i' /\
    forall id', stream_at i' id' =
      stream_push (if (id =? id')%Z then d else []) <$> stream_at i id'.
Proof.
  intros Hi.
  assert (forall id', stream_at i id' = stream_push [] <$> stream_at i id') as Hnil.
  { intros id'. destruct (stream_at i id'); simpl; [by rewrite stream_push_nil | done]. }
  unfold push_data. erewrite bind_Ok by reflexivity. cbv beta.
  destruct (im_streams i !! id) as [p|] eqn:Ep.
  - destruct (inv_owned i Hi _ _ Ep) as (s & Hs & _). rewrite (bind_Ok _ _ _ _ _ (upd_eq _ _ _ _ Hs)).
    pose proof (h2_inv_upd i id p s (stream_push d s) Hi Ep Hs eq_refl) as Hi'.
    eexists. split; [reflexivity |]. split.
    + apply h2_inv_sess; [done | intros id'; apply resume_user_data |].
      intros id' q. rewrite resume_source. apply (inv_source _ Hi').
    + intros id'. destruct (Z.eqb_spec id id') as [<-|Hne]; unfold stream_at; simpl.
      * rewrite Ep. simpl. by rewrite lookup_insert_eq, Hs.
      * etransitivity; [| exact (Hnil id')]. unfold stream_at.
        destruct (im_streams i !! id') as [q|] eqn:Eq; [| done].
        simpl. rewrite lookup_insert_ne; [done |]. intros <-. by apply Hne, (owner_unique i id id' p).
  - exists i. split; [done |]. split; [done |]. intros id'.
    destruct (Z.eqb_spec id id') as [<-|_]; [| apply Hnil]. unfold stream_at. by rewrite Ep.
Qed.

(** A response replaces what was queued on its stream, and touches no other. *)
Lemma submit_spec i id f status ct streaming : h2_inv i ->
  (forall s, s_id (f s) = s_id s /\ req_of (f s) = req_of s) ->
  exists i', (it ← gets (fun i => im_streams i !! id);
              match it with
              | None => mret ()
              | Some p => _ ← upd p f; submit_response id status ct streaming
              end) i = (Ok tt, i') /\ h2_inv i' /\
    forall id', stream_at i' id' =
      if (id =? id')%Z then (fun s => set_streaming streaming (f s)) <$> stream_at i id'
      else stream_at i id'.
Proof.
  intros Hi Hf. destruct (out_then_submit_ok i id f status ct streaming Hf Hi) as (i1 & E & Hi1 & _).
  exists i1. split; [exact E |]. split; [done |]. intros id'. revert E.
  erewrite bind_Ok by reflexivity. cbv beta. destruct (im_streams i !! id) as [p|] eqn:Ep.
  - destruct (inv_owned i Hi _ _ Ep) as (st & Hst & _). rewrite (bind_Ok _ _ _ _ _ (upd_eq _ _ _ _ Hst)).
    unfold submit_response. erewrite bind_Ok by reflexivity. simpl. rewrite Ep.
    erewrite bind_Ok by (apply upd_eq; simpl; apply lookup_insert_eq).
    intros [= <-]. unfold stream_at. simpl. destruct (Z.eqb_spec id id') as [<-|Hne].
    + rewrite Ep. simpl. by rewrite lookup_insert_eq, Hst.
    + destruct (im_streams i !! id') as [q|] eqn:Eq; [| done]. simpl.
      rewrite !lookup_insert_ne; [done | intros <-; by apply Hne, (owner_unique i id id' p)..].
  - intros [= <-]. destruct (Z.eqb_spec id id') as [<-|_]; [| done]. unfold stream_at. by rewrite Ep.
Qed.

Lemma with_h2_step {A} (op : M Impl A) s a i' :
  op (sv_h2 s) = (Ok a, i') -> with_h2 op s = (Ok a, set_sv_h2 i' s).
Proof. intros H. unfold with_h2, on_h2, zoom. by rewrite H. Qed.

Lemma full_map_frame_eq self z s : full_map_frame self z s = (map_frame_now (sv_co s) self z, s).
Proof.
  destruct s as [[cfg st bk gen steady] h2 live]. unfold full_map_frame, map_frame_now.
  mstep. simpl. by destruct (build_full_map _ _ _ _ _).1; mstep.
Qed.

(** One element of the loop. [out] is what it adds to a stream. *)
Lemma tick_one_spec s l : h2_inv (sv_h2 s) ->
  (forall f, tick_sends (sv_co s) l = Some f -> is_ok f = true) ->
  exists i', tick_one (co_map_gen (sv_co s)) (co_steady (sv_co s)) l s =
      (Ok (tick_next (sv_co s) l), set_sv_h2 i' s) /\ h2_inv i' /\
    forall id, stream_at i' id = stream_push (tick_bytes (sv_co s) id l) <$> stream_at (sv_h2 s) id.
Proof.
  intros Hi Hok. unfold tick_one, tick_next, tick_bytes, stale in *.
  assert (forall d, exists i', with_h2 (push_data (lm_stream_id l) d) s = (Ok tt, set_sv_h2 i' s) /\
    h2_inv i' /\ forall id, stream_at i' id =
      stream_push (if (lm_stream_id l =? id)%Z then d else []) <$> stream_at (sv_h2 s) id) as Hpush.
  { intros d. destruct (push_data_spec (sv_h2 s) (lm_stream_id l) d Hi) as (i' & H & Hi' & Hs).
    exists i'. split; [by apply with_h2_step | done]. }
  assert (exists i', (Ok tt, s) = (Ok tt, set_sv_h2 i' s) /\ h2_inv i' /\ forall id, stream_at i' id =
      stream_push [] <$> stream_at (sv_h2 s) id) as Hnone.
  { exists (sv_h2 s). split; [by destruct s |]. split; [done |]. intros id.
    destruct (stream_at (sv_h2 s) id); simpl; [by rewrite stream_push_nil | done]. }
  unfold tick_sends, stale in *.
  destruct (negb (co_map_gen (sv_co s) =? lm_last_gen l)%Z).
  - rewrite find_step. unfold sv_nodes.
    destruct (find_first (is_machine (lm_machine l)) _) as [self|]; simpl in Hok |- *.
    + specialize (Hok _ eq_refl). destruct (map_frame_now (sv_co s) self (lm_zstd l)) as [d|e|] eqn:Ed;
        [| done..]. destruct (Hpush d) as (i' & H & Hi' & Hs). exists i'. split; [| done].
      erewrite bind_Ok; [reflexivity |]. erewrite bind_Ok; [exact H |].
      rewrite full_map_frame_eq. by rewrite Ed.
    + destruct Hnone as (i' & H & Hi' & Hs). exists i'. split; [| split; [done |]].
      * erewrite bind_Ok by exact H. done.
      * intros id. rewrite Hs. by destruct (_ =? id)%Z.
  - erewrite bind_Ok by reflexivity. fold (keepalive_due (sv_co s) l).
    destruct (keepalive_due (sv_co s) l).
    + specialize (Hok _ eq_refl). unfold keepalive_now in *.
      destruct (build_keepalive _ _).1 as [msg|e|]; [| done..]. cbn [mbind res_bind] in Hok |- *.
      erewrite bind_Ok by reflexivity.
      destruct (encode_map_frame msg (lm_zstd l)) as [d|e|]; [| done..].
      erewrite bind_Ok by reflexivity. destruct (Hpush d) as (i' & H & Hi' & Hs). exists i'.
      split; [| done]. by erewrite bind_Ok by exact H.
    + destruct Hnone as (i' & H & Hi' & Hs). exists i'. injection H as H. rewrite <-H.
      split; [done |]. split; [done |]. intros id. rewrite Hs. by destruct (_ =? id)%Z.
Qed.

Lemma tick_loop_spec s done_ todo : h2_inv (sv_h2 s) -> sv_live s = done_ ++ todo ->
  (forall l f, l ∈ todo -> tick_sends (sv_co s) l = Some f -> is_ok f = true) ->
  exists i', tick_loop (co_map_gen (sv_co s)) (co_steady (sv_co s)) done_ todo s =
      (Ok tt, mkServe (sv_co s) i' (done_ ++ (tick_next (sv_co s) <$> todo))) /\ h2_inv i' /\
    forall id, stream_at i' id =
      stream_push (concat (tick_bytes (sv_co s) id <$> todo)) <$> stream_at (sv_h2 s) id.
Proof.
  revert s done_. induction todo as [|l todo IH]; intros s done_ Hi Hl Hok.
  - exists (sv_h2 s). simpl. rewrite app_nil_r in Hl |- *. split; [destruct s; simpl in *; by subst |].
    split; [done |]. intros id. destruct (stream_at (sv_h2 s) id); simpl;
      [by rewrite stream_push_nil | done].
  - destruct (tick_one_spec s l Hi) as (i1 & H1 & Hi1 & Hs1); [intros f; apply Hok; left |].
    set (s2 := mkServe (sv_co s) i1 (done_ ++ tick_next (sv_co s) l :: todo)).
    destruct (IH s2 (done_ ++ [tick_next (sv_co s) l])) as (i' & H & Hi' & Hs);
      [done | by rewrite <-app_assoc | intros l' f Hl'; apply Hok; by right |].
    exists i'. split; [| split; [done |]].
    + cbn [tick_loop]. rewrite (bind_Ok _ _ _ _ _ H1). erewrite bind_Ok by reflexivity.
      change (set_sv_live _ _) with s2. rewrite fmap_cons. rewrite <-app_assoc in H. exact H.
    + intros id. rewrite Hs, Hs1. destruct (stream_at (sv_h2 s) id); [| done]. simpl.
      by rewrite stream_push_app.
Qed.

(** C9: a tick brings the open maps up to date. For any open streams, when the
    messages to send can be encoded, it returns with the coordinator unchanged,
    each live map that lagged behind the generation is marked with the current
    one, and every stream has received exactly the bytes due on it and no other
    stream's: the full map of its machine's node over the nodes of that moment
    when it lagged, a keepalive when one is due, nothing else. *)
Theorem tick_up_to_date s : h2_inv (sv_h2 s) ->
  (forall l f, l ∈ sv_live s -> tick_sends (sv_co s) l = Some f -> is_ok f = true) ->
  exists i', on_tick s = (Ok tt, mkServe (sv_co s) i' (tick_next (sv_co s) <$> sv_live s)) /\
    h2_inv i' /\
    (forall l, l ∈ (tick_next (sv_co s) <$> sv_live s) -> stale (sv_co s) l = false) /\
    forall id, stream_at i' id =
      stream_push (concat (tick_bytes (sv_co s) id <$> sv_live s)) <$> stream_at (sv_h2 s) id.
Proof.
  intros Hi Hok. destruct (tick_loop_spec s [] (sv_live s) Hi eq_refl Hok) as (i' & H & Hi' & Hs).
  exists i'. split; [| split; [done | split; [| done]]].
  - unfold on_tick. erewrite bind_Ok by reflexivity. destruct s as [c h2 live].
    erewrite bind_Ok by reflexivity. erewrite bind_Ok by reflexivity. destruct c. exact H.
  - intros l (l0 & -> & _)%list_elem_of_fmap. unfold tick_next.
    destruct (stale (sv_co s) l0) eqn:E; [unfold stale; simpl; by rewrite Z.eqb_refl |].
    by destruct (keepalive_due (sv_co s) l0).
Qed.
End TickFacts.


(** ** The handlers and the connection under them *)

Definition h2_rel `{NG : !Nghttp2} (R : NoiseConn -> NoiseConn -> Prop) (s s' : Serve) : Prop :=
  conn_rel R (sv_h2 s) (sv_h2 s').

#[export] Instance h2_rel_preorder `{NG : !Nghttp2} R `{!PreOrder R} : PreOrder (h2_rel R).
Proof.
  split; [intros s; unfold h2_rel; reflexivity |].
  intros s1 s2 s3. unfold h2_rel. intros. by etransitivity.
Qed.

Section ConnLift.
  Context `{OSSL : !OpenSSL} `{Inet : !InetLib} `{JL : !JsonLib} `{ZS : !Zstd} `{NG : !Nghttp2}.
  Context (R : NoiseConn -> NoiseConn -> Prop) `{!PreOrder R}.

Lemma h2_co {A} (op : M Co A) : pres (h2_rel R) (on_co op).
Proof.
  apply (pres_zoom _ _ (fun _ _ => True)); [| done]. intros s c _. unfold h2_rel, conn_rel. reflexivity.
Qed.

Lemma h2_store {A} (op : M St A) : pres (h2_rel R) (on_store_ op).
Proof. apply h2_co. Qed.

Lemma h2_live f : pres (h2_rel R) (modify (fun s => set_sv_live (f s) s)).
Proof. apply pres_modify. intros s. unfold h2_rel, conn_rel. reflexivity. Qed.

Lemma h2_with {A} (op : M Impl A) : pres (conn_rel R) op -> pres (h2_rel R) (with_h2 op).
Proof. intros H. by apply (pres_zoom _ _ (conn_rel R)). Qed.

Lemma h2_reply id st ct b : pres (h2_rel R) (with_h2 (reply id st ct b)).
Proof. apply h2_with, conn_reply, _. Qed.
Lemma h2_start id st b : pres (h2_rel R) (with_h2 (reply_stream_start id st b)).
Proof. apply h2_with, conn_stream_start, _. Qed.
Lemma h2_push id d : pres (h2_rel R) (with_h2 (push_data id d)).
Proof. apply h2_with, conn_push, _. Qed.

Hint Resolve h2_co h2_store h2_live h2_reply h2_start h2_push : wb.

Lemma h2_frame self z : pres (h2_rel R) (full_map_frame self z).
Proof. unfold full_map_frame. pres_steps. Qed.
Hint Resolve h2_frame : wb.

Lemma h2_request m sid method path body : pres (h2_rel R) (on_request m sid method path body).
Proof. unfold on_request, on_register, register, on_map, answer_map, text_reply. pres_steps. Qed.

Lemma h2_tick : pres (h2_rel R) on_tick.
Proof.
  unfold on_tick. apply pres_bind; [pres_steps | intros now]. apply pres_bind; [pres_steps | intros gen].
  apply pres_bind; [pres_steps | intros todo]. generalize (@nil LiveMap).
  induction todo as [|l todo IH]; intros done_; cbn [tick_loop]; [pres_steps |].
  apply pres_bind; [unfold tick_one; pres_steps |]. intros l'.
  apply pres_bind; [apply (h2_live (fun _ => _)) |]. intros _. apply IH.
Qed.

(** A whole connection respects what reading and writing respect. *)
Context (Hread : forall n, pres R (read n)) (Hwrite : forall data, pres R (write data)).

Lemma h2_serve m rounds : pres (h2_rel R) (serve_h2 m rounds).
Proof.
  assert (forall cbs, pres (h2_rel R) (run_callbacks sv_h2 set_sv_h2 (on_request m) cbs)) as Hcbs.
  { intros cbs. apply pres_for_each. intros cb. apply pres_bind.
    - apply h2_with, conn_callback, Hwrite. apply _.
    - intros [[[[id me] p] b]|]; [apply h2_request | pres_steps]. }
  assert (forall want send, pres (h2_rel R) (flush sv_h2 set_sv_h2 (on_request m) want send)) as Hflush.
  { intros want send. unfold flush. pres_steps. }
  assert (forall n, pres (h2_rel R) (on_h2 sv_h2 set_sv_h2 (zoom im_conn set_conn (read n)))) as Hr.
  { intros n. apply h2_with. by apply (pres_zoom _ _ R). }
  assert (pres (h2_rel R) (call (Some on_tick))) as Htick by apply h2_tick.
  unfold serve_h2. apply pres_bind; [| intros ?; pres_steps]. unfold run. apply pres_bind.
  - induction rounds as [|it rounds IH]; cbn [run_loop]; [pres_steps |].
    apply pres_bind; [| intros []; pres_steps]. unfold round. pres_steps.
  - intros []; [| pres_steps]. apply pres_bind; [| intros ?; pres_steps].
    apply h2_with, conn_same; [apply _ | done].
Qed.

Lemma h2_session hello m rounds : pres (h2_rel R) (serve_session hello m rounds).
Proof.
  apply pres_bind; [| intros []; apply h2_serve]. apply h2_with, conn_start, Hwrite. apply _.
Qed.

End ConnLift.

(** ** Nothing decrypted is left when the loop waits *)

Section Waiting.
  Context `{OSSL : !OpenSSL} `{OLaws : !OpenSSLLaws} `{Inet : !InetLib} `{JL : !JsonLib} `{ZS : !Zstd}
    `{NG : !Nghttp2}.

(** C19: the event loop never waits with work in hand. From a fresh connection,
    once its settings are sent, after any number of rounds with any input, callbacks, requests and ticks,
    no decrypted byte is left in the connection when the loop comes back to
    poll (which only sees the socket), since a read takes a whole record. *)
Theorem poll_sees_everything m fd sock tx rx c hello rounds :
  let h2 := (session_start hello (Impl_new (NoiseConn_new fd sock tx rx))).2 in
  let s := (run_loop sv_h2 set_sv_h2 (on_request m) (-1) None (Some on_tick) rounds
              (mkServe c h2 [])).2 in
  nc_plaintext (im_conn (sv_h2 s)) = [].
Proof.
  apply (run_loop_buffered sv_h2 set_sv_h2); [done | | | | apply (keeps_start hello)].
  - intros id me p b. apply (h2_request same_plaintext).
  - by intros s.
  - apply (h2_tick same_plaintext).
Qed.

End Waiting.
