(* ===== verification/ConnFacts.v ===== *)
(** * ConnFacts: one TCP connection from accept to close

    The descriptor of an accepted connection is closed exactly once, except
    when an exception leaves serve_h2, when it is closed twice; and a request
    body that is JSON but not an object is such a case. *)

From S2P Require Import Prelude.
From S2P Require Import Crypto.
From S2P Require Import Keys.
From S2P Require Import IpAlloc.
From S2P Require Import Json.
From S2P Require Import State.
From S2P Require Import Netmap.
From S2P Require Import Socket.
From S2P Require Import Http1.
From S2P Require Import Noise.
From S2P Require Import Http2.
From S2P Require Import Coordinator.
From S2P Require Import CoordFacts.
From S2P Require Import TickFacts.

(** ** Who closes the descriptor *)

Definition same_closes (s s' : Sock) : Prop := sk_closes s' = sk_closes s.
Definition same_fd (c c' : NoiseConn) : Prop :=
  same_closes (nc_sock c) (nc_sock c') /\ nc_fd c' = nc_fd c.

#[export] Instance same_closes_preorder : PreOrder same_closes.
Proof. split; [done |]. unfold same_closes. intros ???; congruence. Qed.

#[export] Instance same_fd_preorder : PreOrder same_fd.
Proof. split; [done |]. unfold same_fd. intros ??? [H1 F1] [H2 F2].
  split; [by etransitivity | congruence]. Qed.

Lemma closes_recv n : pres same_closes (sys_recv n).
Proof. intros s. unfold sys_recv. destruct (0 <? sk_closes s)%nat; [done |]. by destruct (sk_in s). Qed.

Lemma closes_send data : pres same_closes (sys_send data).
Proof. intros s. unfold sys_send. by destruct (0 <? sk_closes s)%nat. Qed.
#[export] Hint Resolve closes_recv closes_send : wb.

Lemma closes_send_loop fuel data : pres same_closes (send_loop fuel data).
Proof.
  revert data. induction fuel as [|fuel IH]; intros [|b data]; cbn [send_loop]; pres_steps.
Qed.

Lemma closes_recv_loop fuel n got : pres same_closes (recv_loop fuel n got).
Proof.
  revert got. induction fuel as [|fuel IH]; intros got; cbn [recv_loop]; pres_steps.
Qed.
#[export] Hint Resolve closes_send_loop closes_recv_loop : wb.

Lemma closes_write_all data : pres same_closes (write_all data).
Proof. unfold write_all. pres_steps. Qed.
#[export] Hint Resolve closes_write_all : wb.

Lemma closes_response st reason ct body : pres same_closes (write_http_response st reason ct body).
Proof. unfold write_http_response. pres_steps. Qed.

Lemma closes_request : pres same_closes read_http_request.
Proof.
  unfold read_http_request. apply pres_bind; [| intros ?; pres_steps].
  generalize (S max_head), "". intros fuel.
  induction fuel as [|fuel IH]; intros buf; cbn [read_head]; pres_steps.
Qed.
#[export] Hint Resolve closes_response closes_request : wb.

Section Records.
  Context `{OSSL : !OpenSSL}.

Lemma fd_on_sock {A} (m : M Sock A) : pres same_closes m -> pres same_fd (on_sock m).
Proof. intros H. by apply (pres_zoom _ _ same_closes). Qed.

Lemma fd_modify f : (forall c, nc_sock (f c) = nc_sock c /\
  nc_fd (f c) = nc_fd c) -> pres same_fd (modify f).
Proof. intros H. apply pres_modify. intros c. destruct (H c) as [H1 H2].
  split; [unfold same_closes; congruence | done]. Qed.

Hint Resolve fd_on_sock : wb.
Hint Extern 1 (pres same_fd (modify _)) => apply fd_modify; done : wb.

Lemma fd_decrypt_one : pres same_fd decrypt_one.
Proof. unfold decrypt_one, read_full. pres_steps. Qed.
Hint Resolve fd_decrypt_one : wb.

Lemma fd_read n : pres same_fd (read n).
Proof.
  assert (forall fuel, pres same_fd (fill fuel)) as Hfill.
  { induction fuel as [|fuel IH]; cbn [fill]; pres_steps. }
  unfold read. pres_steps.
Qed.

Lemma fd_write data : pres same_fd (write data).
Proof.
  unfold write. generalize (length data) as fuel, 0%Z as sent. intros fuel. revert data.
  induction fuel as [|fuel IH]; intros [|b data] sent; cbn [write_loop]; [pres_steps.. |].
  unfold send_record, write_full. pres_steps.
Qed.

End Records.

Section Client.
  Context `{OSSL : !OpenSSL} `{Inet : !InetLib} `{JL : !JsonLib} `{ZS : !Zstd} `{NG : !Nghttp2}.

Definition closes (c : Client) : nat := sk_closes (cl_sock c).

(** serve_h2, the construction of its H2Server included, ended with [r], leaving the coordinator of [c]. *)
Definition serve_ended (hello : list (list byte)) (rounds : list Round) (r : res unit) (c : Client)
  : Prop :=
  exists machine s0 s1, serve_session hello machine rounds s0 = (r, s1) /\ cl_co c = sv_co s1.

(** What a part of the client thread may do with the descriptor it was given,
    when it takes it over: close it once, or throw before that. *)
Definition takes_fd (hello : list (list byte)) (rounds : list Round) (m : M Client unit) : Prop := forall c,
  let '(r, c') := m c in
  (r = Ok tt /\ closes c' = S (closes c)) \/
  (is_ok r = false /\ closes c' = closes c) \/
  (is_ok r = false /\ closes c' = S (closes c) /\ serve_ended hello rounds r c').

Lemma close_same_fd (c : NoiseConn) : (0 <= nc_fd c)%Z ->
  sk_closes (nc_sock (close c).2) = S (sk_closes (nc_sock c)).
Proof. intros H. unfold close. mstep. by destruct (Z.leb_spec 0 (nc_fd c)); [| lia]. Qed.

Lemma serve_connection_closes fd machine nr hello rounds c : (0 <= fd)%Z ->
  closes (serve_connection fd machine nr hello rounds c).2 = S (closes c) /\
  serve_ended hello rounds (serve_connection fd machine nr hello rounds c).1
    (serve_connection fd machine nr hello rounds c).2.
Proof.
  intros Hfd. unfold serve_connection. set (nconn := NoiseConn_new _ _ _ _).
  set (s0 := mkServe _ _ _).
  pose proof (h2_session same_fd fd_read fd_write hello machine rounds s0) as H.
  destruct (serve_session hello machine rounds s0) as [r s] eqn:Es.
  destruct H as [Hc Hf]. simpl in Hc, Hf.
  pose proof (close_same_fd (im_conn (sv_h2 s))) as Hclose.
  destruct (close (im_conn (sv_h2 s))) as [rc nconn'] eqn:Ec. simpl in Hclose |- *. split.
  - unfold closes. simpl. rewrite Hclose by (by rewrite Hf). f_equal. exact Hc.
  - by exists machine, s0, s.
Qed.

Lemma takes_fd_serve fd machine nr hello rounds : (0 <= fd)%Z ->
  takes_fd hello rounds (serve_connection fd machine nr hello rounds).
Proof.
  intros Hfd c. destruct (serve_connection_closes fd machine nr hello rounds c Hfd) as [Hc Hs].
  destruct (serve_connection fd machine nr hello rounds c) as [[[]|e|] c']; simpl in Hc, Hs;
    [by left | right; right; done..].
Qed.

(** A prefix that leaves the descriptor alone. *)
Definition keeps_fd {A} (m : M Client A) : Prop := pres (fun c c' => closes c' = closes c) m.

Lemma takes_fd_bind {A} hello rounds (m : M Client A) (k : A -> M Client unit) :
  keeps_fd m -> (forall a, takes_fd hello rounds (k a)) -> takes_fd hello rounds (x ← m; k x).
Proof.
  intros Hm Hk c. unfold mbind, M_bind. specialize (Hm c). simpl in Hm.
  destruct (m c) as [[a|e|] c1]; simpl in Hm; [| right; left; done..].
  specialize (Hk a c1). destruct (k a c1) as [r c2]. by rewrite Hm in Hk.
Qed.

Lemma keeps_sock {A} (m : M Sock A) : pres same_closes m -> keeps_fd (cl_on_sock m).
Proof. intros H. by apply (pres_zoom _ _ same_closes). Qed.

Lemma keeps_co {A} (m : M Co A) : keeps_fd (cl_on_co m).
Proof. by apply (pres_zoom _ _ (fun _ _ => True)). Qed.

Lemma takes_fd_close hello rounds : takes_fd hello rounds (cl_on_sock sys_close).
Proof. intros c. by left. Qed.

Lemma takes_fd_bad hello rounds why : takes_fd hello rounds (bad_request why).
Proof.
  apply takes_fd_bind; [apply keeps_sock, closes_response | intros _; apply takes_fd_close].
Qed.
Hint Resolve takes_fd_close takes_fd_bad : wb.

Lemma takes_fd_ts2021 fd req hello rounds : (0 <= fd)%Z ->
  takes_fd hello rounds (handle_ts2021 fd req hello rounds).
Proof.
  intros Hfd. unfold handle_ts2021. destruct (negb _); [auto with wb |].
  destruct (str_empty _); [auto with wb |].
  destruct (b64_decode _) as [init|e|]; [| auto with wb | intros c; right; left; done].
  apply takes_fd_bind; [apply keeps_sock, closes_write_all |]. intros []; cbn [negb]; [| auto with wb].
  apply takes_fd_bind; [apply keeps_co | intros priv].
  apply takes_fd_bind; [apply keeps_co | intros [err|[resp nr]]]; [auto with wb |].
  apply takes_fd_bind; [apply keeps_sock, closes_write_all |].
  intros []; cbn [negb]; [by apply takes_fd_serve | auto with wb].
Qed.

(** What handle_client may do with the descriptor: leave it to the caller and
    say so, or close it and say so, or throw in one of three ways. *)
Definition client_fd (hello : list (list byte)) (rounds : list Round) (m : M Client bool) : Prop :=
  forall c,
  let '(r, c') := m c in
  (closes c' = closes c /\ (r = Ok true \/ is_ok r = false)) \/
  (closes c' = S (closes c) /\
     (r = Ok false \/ is_ok r = false /\ serve_ended hello rounds (const tt <$> r) c')).

Lemma client_fd_bind {A} hello rounds (m : M Client A) (k : A -> M Client bool) :
  keeps_fd m -> (forall a, client_fd hello rounds (k a)) -> client_fd hello rounds (x ← m; k x).
Proof.
  intros Hm Hk c. unfold mbind, M_bind. specialize (Hm c). simpl in Hm.
  destruct (m c) as [[a|e|] c1]; simpl in Hm; [| left; auto..].
  specialize (Hk a c1). destruct (k a c1) as [r c2]. by rewrite Hm in Hk.
Qed.

Lemma client_fd_leave hello rounds : client_fd hello rounds (mret true).
Proof. intros c. left. auto. Qed.

Lemma client_fd_answer {A} hello rounds (m : M Client A) :
  keeps_fd m -> client_fd hello rounds (_ ← m; mret true).
Proof. intros H. apply client_fd_bind; [done | intros _; apply client_fd_leave]. Qed.

Lemma client_fd_take hello rounds m : takes_fd hello rounds m -> client_fd hello rounds (_ ← m; mret false).
Proof.
  intros H c. unfold mbind, M_bind. specialize (H c). destruct (m c) as [r c1].
  destruct H as [[-> H]|[[Hr H]|(Hr & H & Hs)]].
  - right. auto.
  - destruct r; [done | by left; auto..].
  - destruct r; [done | by right; auto..].
Qed.

Lemma keeps_lift {A} (r : res A) : keeps_fd (lift r).
Proof. by intros c. Qed.

Lemma handle_client_fd fd hello rounds : (0 <= fd)%Z -> client_fd hello rounds (handle_client fd
  hello rounds).
Proof.
  intros Hfd. unfold handle_client.
  apply client_fd_bind; [apply keeps_sock, closes_request |].
  intros [[req extra]|]; [| apply client_fd_leave].
  destruct (bool_decide (rq_path req = "/key")).
  { apply client_fd_bind; [apply keeps_co | intros pub].
    apply client_fd_bind; [apply keeps_lift | intros body].
    apply client_fd_answer, keeps_sock, closes_response. }
  destruct (bool_decide (rq_path req = "/healthz"));
    [apply client_fd_answer, keeps_sock, closes_response |].
  destruct (bool_decide (rq_path req = "/ts2021")); [by apply client_fd_take, takes_fd_ts2021 |].
  apply client_fd_answer, keeps_sock, closes_response.
Qed.

(** C18: the thread of an accepted connection closes its descriptor exactly
    once, whatever is received, sent or refused and whichever step throws, with
    a single exception: when serve_h2 itself throws (its session's first
    send included), the destructor of the connection has closed the descriptor, and the thread,
      whose handler did not
    return, closes the same number a second time. *)
Theorem client_thread_closes fd hello rounds c c' :
  (0 <= fd)%Z -> client_thread fd hello rounds c = (Ok tt, c') ->
  closes c' = S (closes c) \/
  (closes c' = S (S (closes c)) /\ exists e, serve_ended hello rounds (Throw e) c').
Proof.
  intros Hfd. unfold client_thread. pose proof (handle_client_fd fd hello rounds Hfd c) as H.
  apply Z.leb_le in Hfd. rewrite Hfd.
  destruct (handle_client fd hello rounds c) as [[close_fd|e|] c1]; [| | done].
  - destruct H as [[Hc [[= ->]|?]]|[Hc [[= ->]|[? _]]]]; try done; cbn [andb].
    + intros [= <-]. left. unfold closes in *. simpl. by rewrite Hc.
    + intros [= <-]. by left.
  - intros [= <-]. destruct H as [[Hc _]|[Hc [?|[_ Hs]]]]; [| done |].
    + left. unfold closes in *. simpl. by rewrite Hc.
    + right. unfold closes in *. simpl. rewrite Hc. split; [done |]. by exists e.
Qed.

End Client.

(** ** A body that is not an object *)

Section BadBody.
  Context `{OSSL : !OpenSSL} `{Inet : !InetLib} `{JL : !JsonLib} `{JLaws : !JsonLaws} `{ZS : !Zstd}
    `{NG : !Nghttp2}.

Lemma bad_body_throws m sid path body j s :
  path = "/machine/register" \/ path = "/machine/map" ->
  json_parse body = Ok j -> body <> "" -> json_is_object j = false ->
  on_request m sid "POST" path body s = (Throw TypeError, s).
Proof.
  intros Hp Hb Hne Hj.
  assert (parse_body body = Ok (Some j)) as Hpb.
  { unfold parse_body. destruct body; [done |]. cbn [str_empty]. by rewrite Hb. }
  unfold on_request. destruct Hp as [-> | ->].
  - change (on_register sid m body s = (Throw TypeError, s)). unfold on_register.
    erewrite bind_lift by exact Hpb. cbv beta iota. rewrite value_string_spec. unfold value_spec.
    by rewrite Hj.
  - change (on_map sid m body s = (Throw TypeError, s)). unfold on_map.
    erewrite bind_lift by exact Hpb. cbv beta iota. rewrite value_int_spec. unfold value_spec.
    by rewrite Hj.
Qed.

(** C20: one request ends the connection the hard way. When a round delivers a
    register or map request whose body is JSON but not an object, such as [[]]
    or [1], the type_error of nlohmann::json is not caught: it leaves the
    request handler, the callbacks of the HTTP/2 library and serve_h2, which
    skips set_online(false) and the new map generation, so the node stays
    online for its peers. *)
Theorem non_object_body_escapes m s it rounds x data conn' cb id path body j h2' :
  (0 <= rd_poll it)%Z -> rd_hangup it = false -> rd_readable it = true ->
  read read_buffer (im_conn (sv_h2 s)) = (Ok (x :: data), conn') ->
  (rd_recv it).1 = [cb] ->
  handle_callback cb (set_conn conn' (sv_h2 s)) = (Ok (Some (id, "POST", path, body)), h2') ->
  path = "/machine/register" \/ path = "/machine/map" ->
  json_parse body = Ok j -> body <> "" -> json_is_object j = false ->
  exists s', serve_h2 m (it :: rounds) s = (Throw TypeError, s') /\ sv_co s' = sv_co s.
Proof.
  intros Hpoll Hh Hr Hread Hcb Hhandle Hp Hb Hne Hj.
  exists (set_sv_h2 h2' (set_sv_h2 (set_conn conn' (sv_h2 s)) s)). split; [| done].
  unfold serve_h2, run. cbn [run_loop]. unfold round.
  destruct (Z.ltb_spec (rd_poll it) 0); [lia |]. rewrite Hh, Hr, Hcb.
  assert (on_h2 sv_h2 set_sv_h2 (zoom im_conn set_conn (read read_buffer)) s =
    (Ok (x :: data), set_sv_h2 (set_conn conn' (sv_h2 s)) s)) as Hr1
    by (unfold on_h2, zoom; by rewrite Hread).
  unfold run_callbacks, mbind, M_bind. rewrite Hr1. cbn [for_each]. unfold mbind, M_bind.
  set (s1 := set_sv_h2 _ s).
  assert (on_h2 sv_h2 set_sv_h2 (handle_callback cb) s1 =
    (Ok (Some (id, "POST", path, body)), set_sv_h2 h2' s1)) as Hc1
    by (unfold on_h2, zoom, s1; simpl; by rewrite Hhandle).
  rewrite Hc1.
  by rewrite (bad_body_throws m id path body j _ Hp Hb Hne Hj).
Qed.

End BadBody.
