(* ===== verification/CoordSamples.v ===== *)
(** * CoordSamples: the server run on concrete inputs

    A client connects, shakes hands, registers with the bootstrap key and opens
    a map stream, on the sample libraries; for each theorem of CoordFacts,
    TickFacts and ConnFacts with hypotheses, a concrete input where they hold. *)

From S2P Require Import Prelude.
From S2P Require Import Crypto.
From S2P Require Import Keys.
From S2P Require Import IpAlloc.
From S2P Require Import Json.
From S2P Require Import State.
From S2P Require Import StateFacts.
From S2P Require Import StateSpec.
From S2P Require Import StateLife.
From S2P Require Import StateSamples.
From S2P Require Import Netmap.
From S2P Require Import Socket.
From S2P Require Import Http1.
From S2P Require Import Noise.
From S2P Require Import Http2.
From S2P Require Import Coordinator.
From S2P Require Import CoordFacts.
From S2P Require Import TickFacts.
From S2P Require Import ConnFacts.
Import SampleCrypto SampleInet SampleJson SampleZstd SampleNghttp2.

(** A coordinator without a state file. *)
Definition co_start : Co :=
  Eval vm_compute in
    match Co_new default_config sample_world 0 with
    | (Ok c, _) => c
    | (_, w) => mkCo default_config (mkSt (fresh_store "" default_alloc) w) "" 1 0
    end.

Example co_start_ok : (Co_new default_config sample_world 0).1 = Ok co_start.
Proof. vm_compute. reflexivity. Qed.

Definition register_body (key : string) : string :=
  tree_text (TObj [("NodeKey", TStr "nodekey:1"); ("Hostinfo", TObj [("Hostname", TStr "alice")]);
                   ("Auth", TObj [("AuthKey", TStr key)])]).
Definition map_body : string := tree_text (TObj [("Stream", TBool true); ("Version", TNum 60)]).
Definition array_body : string := tree_text (TArr []).

(** The callbacks of one request. *)
Definition request_callbacks (id : Z) (path body : string) : list callback :=
  [CbBeginHeaders 1 0 id; CbHeader 1 id ":method" "POST"; CbHeader 1 id ":path" path;
   CbData id (bytes_of_string body); CbFrame 0 1 id].

Definition request_round (cbs : list callback) : Round :=
  mkRound 1 false true (cbs, 1%Z) false ([], 0%Z) false false ([], 0%Z) true true.
Definition hangup_round : Round :=
  mkRound 1 true false ([], 0%Z) false ([], 0%Z) false false ([], 0%Z) true true.

(** What the client sends on the connection: [n] records. *)
Definition client_wire (key : Bytes32) (n : nat) : list byte :=
  sk_out (nc_sock (write_bufs (replicate n [u8 0])
    (NoiseConn_new 3 (mkSock [] [] [] 0 0) key zero32)).2).

Definition conn_key : Bytes32 := replicate 32 (u8 1).
Definition sock_with (wire : list byte) : Sock := mkSock [wire] [] [] 0 0.

Definition serve_start (n : nat) : Serve :=
  mkServe co_start (Impl_new (NoiseConn_new 4 (sock_with (client_wire conn_key n)) zero32 conn_key)) [].

Definition serve_joined : Serve :=
  Eval vm_compute in
    (on_request "mkey:a" 1 "POST" "/machine/register" (register_body (co_bootstrap co_start))
       (serve_start 1)).2.
Definition joined_node : NodeState :=
  Eval vm_compute in default alice (head (sv_nodes serve_joined)).

Lemma request_admission_witness :
  sv_nodes (serve_start 1) = [] /\ sv_nodes serve_joined = [joined_node] /\
  exists req auth k, parse_body (register_body (co_bootstrap co_start)) = Ok (Some req) /\
    auth_of req = Ok auth /\ auth <> "" /\
    find_first (is_key auth) (current_keys (co_st co_start)) = Some k /\
    key_valid (w_now (world (co_st co_start))) k = true /\
    ns_token joined_node = pk_token k /\ ns_shared joined_node = pk_shared k /\
    ns_ephemeral joined_node = pk_ephemeral k.
Proof.
  split; [reflexivity |]. split; [reflexivity |].
  destruct (request_admission "mkey:a" 1 "POST" "/machine/register"
    (register_body (co_bootstrap co_start)) (serve_start 1) joined_node) as (_ & _ & H).
  - apply not_elem_of_nil.
  - apply (bool_decide_unpack _). vm_compute. exact I.
  - reflexivity.
  - exact H.
Defined.

(** Two machines have joined; the map stream of the first one is a generation
    behind. *)
Definition co_two : Co :=
  Eval vm_compute in
    sv_co (on_request "mkey:b" 1 "POST" "/machine/register" (register_body (co_bootstrap co_start))
             (mkServe (sv_co serve_joined) (Impl_new sample_sender) [])).2.

Definition stream_events : list h2_event :=
  (EvCallback <$> request_callbacks 3 "/machine/map" map_body) ++ [EvStreamStart 3 200 [u8 7]].

Definition serve_streaming : Serve :=
  mkServe co_two (run_events stream_events (Impl_new sample_sender))
    [mkLiveMap 3 "mkey:a" true 2 0; mkLiveMap 5 "mkey:gone" false 2 0].

Lemma streaming_inv : h2_inv (sv_h2 serve_streaming).
Proof.
  apply (h2_trace_ok sample_sender (rev_append stream_events [])). apply trace_run; [apply trace_new |].
  vm_compute. tauto.
Qed.

Definition open_stream : Stream := mkStream 3 "POST" "/machine/map" map_body [u8 7] 0 true false.

Lemma tick_up_to_date_witness :
  co_map_gen co_two = 3%Z /\ stream_at (sv_h2 serve_streaming) 3 = Some open_stream /\
  exists i', on_tick serve_streaming =
      (Ok tt, mkServe co_two i' (tick_next co_two <$> sv_live serve_streaming)) /\
    stream_at i' 3 =
      Some (stream_push (concat (tick_bytes co_two 3 <$> sv_live serve_streaming)) open_stream).
Proof.
  split; [reflexivity |].
  assert (stream_at (sv_h2 serve_streaming) 3 = Some open_stream) as Hopen by (vm_compute; reflexivity).
  split; [exact Hopen |].
  destruct (tick_up_to_date serve_streaming streaming_inv) as (i' & H & _ & _ & Hs).
  - assert (forallb (fun l => match tick_sends co_two l with Some f => is_ok f | None => true end)
      (sv_live serve_streaming) = true) as Hok by (vm_compute; reflexivity).
    rewrite forallb_forall in Hok. intros l f Hl%list_elem_of_In Hf. specialize (Hok l Hl).
    change (tick_sends co_two l = Some f) in Hf. by rewrite Hf in Hok.
  - exists i'. split; [exact H |]. rewrite Hs, Hopen. reflexivity.
Defined.

Lemma poll_sees_everything_witness :
  let s := (run_loop sv_h2 set_sv_h2 (on_request "mkey:a") (-1) None (Some on_tick)
    [request_round (request_callbacks 1 "/machine/register" (register_body (co_bootstrap co_start)))]
    (serve_start 1)).2 in
  sv_nodes s = [joined_node] /\ nc_plaintext (im_conn (sv_h2 s)) = [].
Proof.
  intros s. split; [vm_compute; reflexivity |].
  apply (poll_sees_everything "mkey:a" 4 (sock_with (client_wire conn_key 1)) zero32 conn_key co_start []
    [request_round (request_callbacks 1 "/machine/register" (register_body (co_bootstrap co_start)))]).
Defined.

Lemma non_object_body_escapes_witness :
  json_parse array_body = Ok (TArr []) /\
  exists s', serve_h2 "mkey:a" [request_round [CbFrame 0 1 3]]
      (mkServe (sv_co serve_joined)
         (run_events (EvCallback <$> take 4 (request_callbacks 3 "/machine/map" array_body))
            (sv_h2 (serve_start 1))) []) = (Throw TypeError, s') /\
    sv_co s' = sv_co serve_joined.
Proof.
  split; [vm_compute; reflexivity |].
  set (i := run_events _ _).
  destruct (read read_buffer (im_conn i)) as [r conn'] eqn:Hr.
  assert (r = Ok [u8 0]) as -> by (change r with (r, conn').1; rewrite <-Hr; vm_compute; reflexivity).
  eapply (non_object_body_escapes "mkey:a" (mkServe (sv_co serve_joined) i []) _ [] (u8 0) [] conn'
    (CbFrame 0 1 3) 3 "/machine/map" array_body (jarr [])).
  - vm_compute. discriminate.
  - reflexivity.
  - reflexivity.
  - exact Hr.
  - reflexivity.
  - vm_compute in Hr. injection Hr as <-. vm_compute. reflexivity.
  - by right.
  - vm_compute. reflexivity.
  - discriminate.
  - reflexivity.
Defined.

(** ** A whole connection *)

Definition server_pub : Bytes32 :=
  Eval vm_compute in
    match x25519_public (st_noise_private (store (co_st co_start))) with Ok p => p | _ => [] end.
Definition client_hello : list byte * ClientState :=
  Eval vm_compute in
    match (noise_client_init sample_mpriv server_pub 39 100).1 with
    | Ok x => x | _ => ([], mkClientState [] [] []) end.

Definition upgrade_request : string :=
  render_head "POST" "/ts2021"
    [("Upgrade", "tailscale-control-protocol");
     ("X-Tailscale-Handshake", b64_encode client_hello.1)] +:+ crlf2.

(** The key the client sends with, from the server's answer. *)
Definition client_tx : Bytes32 :=
  Eval vm_compute in
    let out := sk_out (cl_sock (client_thread 4 [] []
      (mkClient co_start (mkSock [bytes_of_string upgrade_request] [] [] 0 0))).2) in
    match noise_client_finish sample_mpriv client_hello.2
            (drop (String.length switching) out) no_result with
    | Ok (inr nr) => nr_tx_key nr | _ => [] end.

Definition client_start : Client :=
  mkClient co_start (mkSock [bytes_of_string upgrade_request; client_wire client_tx 1] [] [] 0 0).

(** A SETTINGS frame with the maximum of 100 streams. *)
Definition sample_hello : list (list byte) := [u8 <$> [0; 0; 6; 4; 0; 0; 0; 0; 0; 0; 3; 0; 0; 0; 100]%Z].

Definition good_rounds : list Round :=
  [request_round (request_callbacks 1 "/machine/register" (register_body (co_bootstrap co_start)));
   hangup_round].
Definition bad_rounds : list Round :=
  [request_round (request_callbacks 1 "/machine/register" array_body); hangup_round].

Definition client_machine : string :=
  Eval vm_compute in
    match x25519_public sample_mpriv with Ok p => format_key Machine p | _ => "" end.

(** The client joins and gets the first address; its descriptor is closed once. *)
Example connection_joins :
  match client_thread 4 sample_hello good_rounds client_start with
  | (Ok tt, c) =>
      (fun n => (ns_machine_key n, ns_hostname n, ns_ipv4 n,
        ns_online n)) <$> st_nodes (store (co_st (cl_co c))) =
        [(client_machine, "alice", "100.64.0.1", false)] /\ closes c = 1
  | _ => False
  end.
Proof. vm_compute. done. Qed.

(** A body [[]] closes it twice. *)
Example connection_double_close :
  match client_thread 4 sample_hello bad_rounds client_start with
  | (Ok tt, c) => closes c = 2
  | _ => False
  end.
Proof. vm_compute. done. Qed.

Lemma client_thread_closes_witness :
  exists c', client_thread 4 sample_hello good_rounds client_start = (Ok tt, c') /\
    (closes c' = 1 \/ closes c' = 2 /\ exists e, serve_ended sample_hello good_rounds (Throw e) c').
Proof.
  destruct (client_thread 4 sample_hello good_rounds client_start) as [r c'] eqn:H.
  assert (r = Ok tt) as -> by (change r with (r, c').1; rewrite <-H; vm_compute; reflexivity).
  exists c'. split; [done |]. apply (client_thread_closes 4 sample_hello good_rounds client_start
    c'); [lia | exact H].
Defined.
