(* ===== verification/Lifecycle.v ===== *)
(** * Lifecycle: starting and stopping the server

    The TCP listener of coordinator.cpp and the UDP responder of dns.cpp as
    operations on descriptors and threads, and the accept thread and the
    detached client threads as a step relation. *)

From S2P Require Import Prelude.
From S2P Require Import IpAlloc.
From S2P Require Import Dns.
From S2P Require Import Coordinator.

(** ** The operating system

    [os_plan] holds the outcomes of the coming calls that may fail (socket,
    bind, listen, thread creation); when it is used up they succeed. Descriptor
    numbers are not reused, so a close of a descriptor that is not open can be
    seen: it goes to [os_stray]. [os_shut] are the sockets that were shut down: a
    thread that waits on one is woken, while a close alone does not wake it.
    [os_name] is what getsockname finds. *)
Record Os := mkOs {
  os_next : Z;
  os_open : gset Z;
  os_shut : gset Z;
  os_stray : list Z;
  os_plan : list bool;
  os_name : Z -> list byte * Z;
}.

Definition set_os_open (fds : gset Z) (o : Os) : Os :=
  mkOs (os_next o) fds (os_shut o) (os_stray o) (os_plan o) (os_name o).
Definition set_os_shut (fds : gset Z) (o : Os) : Os :=
  mkOs (os_next o) (os_open o) fds (os_stray o) (os_plan o) (os_name o).

Definition sys_outcome : M Os bool := fun o =>
  (Ok (match os_plan o with [] => true | b :: _ => b end),
   mkOs (os_next o) (os_open o) (os_shut o) (os_stray o) (tail (os_plan o)) (os_name o)).

(** [::socket]: a new descriptor, or -1. *)
Definition new_fd : M Os Z := fun o =>
  (Ok (os_next o),
   mkOs (os_next o + 1) ({[os_next o]} ∪ os_open o) (os_shut o) (os_stray o) (os_plan o) (os_name o)).
Definition sys_socket : M Os Z :=
  ok ← sys_outcome;
  if (ok : bool) then new_fd else mret (-1)%Z.

Definition sys_close_fd (fd : Z) : M Os unit := modify (fun o =>
  if decide (fd ∈ os_open o) then set_os_open (os_open o ∖ {[fd]}) o
  else mkOs (os_next o) (os_open o) (os_shut o) (fd :: os_stray o) (os_plan o) (os_name o)).

(** [::shutdown(fd, SHUT_RDWR)]: nothing on a descriptor that is not open. *)
Definition sys_shutdown_fd (fd : Z) : M Os unit := modify (fun o =>
  if decide (fd ∈ os_open o) then set_os_shut ({[fd]} ∪ os_shut o) o else o).

Section Listening.
  Context `{Inet : !InetLib}.

(** [inet_ntop(...) + ":" + std::to_string(ntohs(port))] after getsockname *)
Definition bound_name (fd : Z) : M Os string :=
  name ← gets (fun o => os_name o fd);
  mret (inet_ntop4 name.1 +:+ ":" +:+ to_string name.2).

Definition INADDR_ANY : list byte := replicate 4 Byte.x00.

(** The address to bind: INADDR_ANY when the host is not an IPv4 address. *)
Definition bind_addr (host : string) : list byte := default INADDR_ANY (inet_pton4 host).

(** ** listen_tcp of coordinator.cpp

    coordinator.cpp has a parse_hostport of its own. The address and port only
    reach the kernel, which answers by the outcome of bind. *)
Definition parse_hostport_tcp (s : string) : res (string * Z) :=
  match str_rfind ":"%char s with
  | None => port ← stoi s; Ok ("0.0.0.0", wrap_u16 port)
  | Some colon =>
      let host := str_take colon s in
      let host := if str_empty host then "0.0.0.0" else host in
      port ← stoi (str_drop (colon + 1) s);
      Ok (host, wrap_u16 port)
  end.

Definition listen_tcp (spec : string) : M Os (Z * string) :=
  hp ← lift (parse_hostport_tcp spec);
  let addr := (bind_addr hp.1, hp.2) in
  fd ← sys_socket;
  if (fd <? 0)%Z then throw (RuntimeError "socket")
  else
    ok ← sys_outcome;
    if negb ok then _ ← sys_close_fd fd; throw (RuntimeError ("bind failed on " +:+ spec))
    else
      ok ← sys_outcome;
      if negb ok then _ ← sys_close_fd fd; throw (RuntimeError "listen")
      else
        bound ← bound_name fd;
        mret (fd, bound).

End Listening.

(** ** MagicDns: the object and its thread *)

Record MagicDns := mkMagicDns {
  md_domain : string;
  md_listen : string;
  md_bound : string;
  md_fd : Z;
  md_stop : bool;
  md_thread : bool;
}.

Definition MagicDns_new (domain listen : string) : MagicDns :=
  mkMagicDns domain listen "" (-1) false false.

(** The object with the system it calls. *)
Record DnsSys := mkDnsSys { ds_dns : MagicDns; ds_os : Os }.

Definition ds_on_os {A} (m : M Os A) : M DnsSys A :=
  zoom ds_os (fun o d => mkDnsSys (ds_dns d) o) m.
Definition set_md (f : MagicDns -> MagicDns) : M DnsSys unit :=
  modify (fun d => mkDnsSys (f (ds_dns d)) (ds_os d)).
Definition set_md_fd (fd : Z) (d : MagicDns) : MagicDns :=
  mkMagicDns (md_domain d) (md_listen d) (md_bound d) fd (md_stop d) (md_thread d).
Definition set_md_bound (b : string) (d : MagicDns) : MagicDns :=
  mkMagicDns (md_domain d) (md_listen d) b (md_fd d) (md_stop d) (md_thread d).
Definition set_md_stop (b : bool) (d : MagicDns) : MagicDns :=
  mkMagicDns (md_domain d) (md_listen d) (md_bound d) (md_fd d) b (md_thread d).
Definition set_md_thread (b : bool) (d : MagicDns) : MagicDns :=
  mkMagicDns (md_domain d) (md_listen d) (md_bound d) (md_fd d) (md_stop d) b.

(** [thread = std::thread(...)]: a failed creation throws system_error, and
    assigning over a thread that runs calls std::terminate, written [Ub]. *)
Definition spawn_over (running : bool) : M Os unit :=
  ok ← sys_outcome;
  if negb ok then throw (RuntimeError "thread")
  else if running then lift Ub else mret ().

Section Dns.
  Context `{Inet : !InetLib}.

Definition dns_start : M DnsSys unit :=
  listen ← gets (fun d => md_listen (ds_dns d));
  if str_empty listen then mret ()
  else
    hp ← lift (parse_hostport listen);
    let addr := (bind_addr hp.1, hp.2) in
    fd ← ds_on_os sys_socket;
    _ ← set_md (set_md_fd fd);
    if (fd <? 0)%Z then throw (RuntimeError "dns socket")
    else
      ok ← ds_on_os sys_outcome;
      if negb ok then
        _ ← ds_on_os (sys_close_fd fd);
        _ ← set_md (set_md_fd (-1));
        throw (RuntimeError ("dns bind failed on " +:+ listen))
      else
        bound ← ds_on_os (bound_name fd);
        _ ← set_md (set_md_bound bound);
        _ ← set_md (set_md_stop false);
        running ← gets (fun d => md_thread (ds_dns d));
        _ ← ds_on_os (spawn_over running);
        set_md (set_md_thread true).

End Dns.

(** stop up to the join of the thread, and the join's effect; the join itself
    waits in [Sys] below. *)
Definition dns_stop_signal : M DnsSys unit :=
  _ ← set_md (set_md_stop true);
  fd ← gets (fun d => md_fd (ds_dns d));
  if (0 <=? fd)%Z then
    _ ← ds_on_os (sys_shutdown_fd fd);
    _ ← ds_on_os (sys_close_fd fd);
    set_md (set_md_fd (-1))
  else mret ().

Definition dns_joined : M DnsSys unit := set_md (set_md_thread false).

(** stop, and the destructor. *)
Definition dns_stop : M DnsSys unit := _ ← dns_stop_signal; dns_joined.

(** ** The listener part of Coordinator::Impl *)

Record Listener := mkListener {
  li_cfg : Config;
  li_running : bool;
  li_stop : bool;
  li_fd : Z;
  li_bound : string;
  li_accept : bool;
  li_dns : option MagicDns;
  li_os : Os;
}.

Definition set_li_running (b : bool) (l : Listener) : Listener :=
  mkListener (li_cfg l) b (li_stop l) (li_fd l) (li_bound l) (li_accept l) (li_dns l) (li_os l).
Definition set_li_stop (b : bool) (l : Listener) : Listener :=
  mkListener (li_cfg l) (li_running l) b (li_fd l) (li_bound l) (li_accept l) (li_dns l) (li_os l).
Definition set_li_fd (fd : Z) (l : Listener) : Listener :=
  mkListener (li_cfg l) (li_running l) (li_stop l) fd (li_bound l) (li_accept l) (li_dns l) (li_os l).
Definition set_li_bound (b : string) (l : Listener) : Listener :=
  mkListener (li_cfg l) (li_running l) (li_stop l) (li_fd l) b (li_accept l) (li_dns l) (li_os l).
Definition set_li_accept (b : bool) (l : Listener) : Listener :=
  mkListener (li_cfg l) (li_running l) (li_stop l) (li_fd l) (li_bound l) b (li_dns l) (li_os l).
Definition set_li_dns (d : option MagicDns) (l : Listener) : Listener :=
  mkListener (li_cfg l) (li_running l) (li_stop l) (li_fd l) (li_bound l) (li_accept l) d (li_os l).
Definition set_li_os (o : Os) (l : Listener) : Listener :=
  mkListener (li_cfg l) (li_running l) (li_stop l) (li_fd l) (li_bound l) (li_accept l) (li_dns l) o.

Definition on_os {A} (m : M Os A) : M Listener A := zoom li_os set_li_os m.

(** A method of the object behind dns_, which must not be null. *)
Definition on_dns {A} (m : M DnsSys A) : M Listener A := fun l =>
  match li_dns l with
  | Some d =>
      let '(r, ds) := m (mkDnsSys d (li_os l)) in
      (r, set_li_os (ds_os ds) (set_li_dns (Some (ds_dns ds)) l))
  | None => (Ub, l)
  end.

(** [dns_.reset()] and the destruction of the object dns_ held. *)
Definition drop_dns : M Listener unit :=
  d ← gets li_dns;
  match d with
  | Some _ => _ ← on_dns dns_stop; modify (set_li_dns None)
  | None => mret ()
  end.

(** The constructor's part. *)
Definition Listener_new (cfg : Config) (o : Os) : Listener :=
  mkListener cfg false false (-1) "" false None o.

Section Start.
  Context `{Inet : !InetLib}.

Definition start_listen : M Listener unit :=
  was ← gets li_running;
  _ ← modify (set_li_running true);
  if (was : bool) then throw (RuntimeError "coordinator already running")
  else
    _ ← modify (set_li_stop false);
    cfg ← gets li_cfg;
    fb ← on_os (listen_tcp (cf_listen cfg));
    _ ← modify (fun l => set_li_fd fb.1 (set_li_bound fb.2 l));
    if str_empty (cf_dns_listen cfg) then mret ()
    else
      _ ← drop_dns;
      _ ← modify (set_li_dns (Some (MagicDns_new (cf_domain cfg) (cf_dns_listen cfg))));
      on_dns dns_start.

(** start_listen, then the accept thread. *)
Definition run_async : M Listener unit :=
  _ ← start_listen;
  running ← gets li_accept;
  _ ← on_os (spawn_over running);
  modify (set_li_accept true).

End Start.

(** stop up to the join of the responder's thread, from there to the join of the
    accept thread, and from there on. *)
Definition stop_signal : M Listener unit :=
  _ ← modify (set_li_stop true);
  fd ← gets li_fd;
  _ ← (if (0 <=? fd)%Z then
         _ ← on_os (sys_shutdown_fd fd);
         _ ← on_os (sys_close_fd fd);
         modify (set_li_fd (-1))
       else mret ());
  d ← gets li_dns;
  match d with
  | Some _ => on_dns dns_stop_signal
  | None => mret ()
  end.

Definition stop_dns_joined : M Listener unit :=
  d ← gets li_dns;
  match d with
  | Some _ => _ ← on_dns dns_joined; drop_dns
  | None => mret ()
  end.

Definition stop_joined : M Listener unit :=
  _ ← modify (set_li_accept false);
  modify (set_li_running false).

(** When the threads end, see [Sys] below. *)
Definition stop : M Listener unit := _ ← stop_signal; _ ← stop_dns_joined; stop_joined.

Definition running : M Listener bool := gets li_running.
Definition bound : M Listener string := gets li_bound.

(** ** Descriptors: none leaks and none is closed twice *)

Definition os_wf (o : Os) : Prop :=
  (0 <= os_next o)%Z /\ forall fd, fd ∈ os_open o -> (0 <= fd < os_next o)%Z.

(** From [o] to [o'] exactly the descriptors [fds] were opened and kept. *)
Definition grows (o o' : Os) (fds : gset Z) : Prop :=
  os_open o' = fds ∪ os_open o /\ os_stray o' = os_stray o /\ (os_next o <= os_next o')%Z /\
  forall fd, fd ∈ fds -> (os_next o <= fd < os_next o')%Z.

Definition fd_set (fd : Z) : gset Z := if (0 <=? fd)%Z then {[fd]} else ∅.
Definition dns_fds (d : option MagicDns) : gset Z :=
  match d with Some d => fd_set (md_fd d) | None => ∅ end.

(** What the listener owns. *)
Definition li_fds (l : Listener) : gset Z := fd_set (li_fd l) ∪ dns_fds (li_dns l).

(** The open descriptors are those the listener owns and [E], which the rest of
    the process owns; when it does not run it owns nothing and has no thread. *)
Record li_inv (E : gset Z) (l : Listener) : Prop := {
  li_os_wf : os_wf (li_os l);
  li_owned : os_open (li_os l) = E ∪ li_fds l;
  li_foreign : E ## li_fds l;
  li_apart : fd_set (li_fd l) ## dns_fds (li_dns l);
  li_no_stray : os_stray (li_os l) = [];
  li_idle : li_running l = false -> (li_fd l < 0)%Z /\ li_dns l = None /\ li_accept l = false;
}.

#[global] Arguments li_os_wf {_ _} _.
#[global] Arguments li_owned {_ _} _.
#[global] Arguments li_foreign {_ _} _.
#[global] Arguments li_apart {_ _} _.
#[global] Arguments li_no_stray {_ _} _.
#[global] Arguments li_idle {_ _} _ _.

Lemma fd_set_neg fd : (fd < 0)%Z -> fd_set fd = ∅.
Proof. intros H. unfold fd_set. by rewrite (proj2 (Z.leb_gt _ _)). Qed.

Lemma fd_set_nonneg fd : (0 <= fd)%Z -> fd_set fd = {[fd]}.
Proof. intros H. unfold fd_set. by rewrite (proj2 (Z.leb_le _ _)). Qed.

Lemma grows_refl o : grows o o ∅.
Proof. unfold grows. rewrite union_empty_l_L. split; [done |]. split; [done |].
  split; [lia | set_solver]. Qed.

Lemma grows_wf o o' fds : os_wf o -> grows o o' fds -> os_wf o'.
Proof.
  intros [Hn Ho] (Hopen & _ & Hle & Hf). split; [lia |]. intros fd. rewrite Hopen, elem_of_union.
  intros [H|H]; [specialize (Hf fd H) | specialize (Ho fd H)]; lia.
Qed.

Lemma sys_outcome_spec o :
  exists b o', sys_outcome o = (Ok b, o') /\ os_open o' = os_open o /\ os_stray o' = os_stray o /\
    os_next o' = os_next o.
Proof. by eexists _, _. Qed.

Lemma stoi_defined s : stoi s <> Ub.
Proof.
  unfold stoi, stoi_digits. repeat case_match; done.
Qed.

Lemma parse_hostport_defined s : parse_hostport s <> Ub.
Proof.
  unfold parse_hostport. destruct (str_rfind _ _) as [n|].
  - pose proof (stoi_defined (str_drop (n + 1) s)). by destruct (stoi _).
  - pose proof (stoi_defined s). by destruct (stoi _).
Qed.

(** Opening a descriptor and closing it again. *)
Lemma close_new fd o o' : os_wf o -> fd = os_next o -> os_open o' = {[fd]} ∪ os_open o ->
  os_stray o' = os_stray o -> (os_next o < os_next o')%Z ->
  grows o (sys_close_fd fd o').2 ∅.
Proof.
  intros [Hn Ho] -> Hopen Hstray Hnext. unfold sys_close_fd, modify. simpl.
  assert (os_next o ∉ os_open o) as Hfresh by (intros H; specialize (Ho _ H); lia).
  rewrite decide_True by (rewrite Hopen; set_solver). unfold grows. simpl. rewrite Hopen.
  split; [set_solver |]. split; [done |]. split; [lia | set_solver].
Qed.

Lemma close_owned fd o : fd ∈ os_open o ->
  sys_close_fd fd o = (Ok tt, set_os_open (os_open o ∖ {[fd]}) o).
Proof. intros H. unfold sys_close_fd, modify. by rewrite decide_True. Qed.

(** Shut down and closed, as both stops do it. *)
Lemma shut_and_close fd o : fd ∈ os_open o ->
  sys_shutdown_fd fd o = (Ok tt, set_os_shut ({[fd]} ∪ os_shut o) o) /\
  sys_close_fd fd (set_os_shut ({[fd]} ∪ os_shut o) o) =
    (Ok tt, set_os_open (os_open o ∖ {[fd]}) (set_os_shut ({[fd]} ∪ os_shut o) o)).
Proof.
  intros H. unfold sys_shutdown_fd, modify. rewrite decide_True by done. split; [done |].
  by rewrite close_owned.
Qed.

Section Facts.
  Context `{Inet : !InetLib}.

Lemma sys_socket_spec o : os_wf o ->
  let '(r, o') := sys_socket o in
  (r = Ok (-1)%Z /\ grows o o' ∅) \/
  (r = Ok (os_next o) /\ os_open o' = {[os_next o]} ∪ os_open o /\ os_stray o' = os_stray o /\
   os_next o' = (os_next o + 1)%Z).
Proof.
  intros _. unfold sys_socket. destruct (sys_outcome_spec o) as (b & o1 & H & Ho & Hs & Hn).
  rewrite (bind_Ok _ _ _ _ _ H). destruct b; simpl.
  - right. by rewrite Ho, Hs, Hn.
  - left. split; [done |]. unfold grows. rewrite Ho, Hs, Hn. split; [set_solver |].
    split; [done |]. split; [lia | set_solver].
Qed.

(** What opening a bound socket may end with. *)
Lemma listen_tcp_spec spec o : os_wf o ->
  let '(r, o') := listen_tcp spec o in
  (exists b, r = Ok (os_next o, b) /\ grows o o' {[os_next o]}) \/
  ((exists e, r = Throw e) /\ grows o o' ∅).
Proof.
  intros Hwf. pose proof (proj1 Hwf) as Hn0. unfold listen_tcp.
  pose proof (parse_hostport_defined spec : parse_hostport_tcp spec <> Ub) as Hd.
  destruct (parse_hostport_tcp spec) as [[host port]|e|] eqn:Ep; [| | done].
  2: { right. split; [by exists e | apply grows_refl]. }
  erewrite bind_Ok by reflexivity. cbv zeta.
  pose proof (sys_socket_spec o Hwf) as Hs. unfold mbind at 1, M_bind at 1.
  destruct (sys_socket o) as [r o1]. destruct Hs as [[-> Hg]|(-> & Ho1 & Hs1 & Hn1)].
  { right. split; [by eexists | exact Hg]. }
  rewrite (proj2 (Z.ltb_ge (os_next o) 0)) by lia.
  destruct (sys_outcome_spec o1) as (b & o2 & H2 & Ho2 & Hs2 & Hn2).
  rewrite (bind_Ok _ _ _ _ _ H2). destruct b; cbn [negb].
  2: { right. split; [by eexists |]. apply (close_new (os_next o) o o2);
       [done | done | congruence.. | lia]. }
  destruct (sys_outcome_spec o2) as (b & o3 & H3 & Ho3 & Hs3 & Hn3).
  rewrite (bind_Ok _ _ _ _ _ H3). destruct b; cbn [negb].
  - left. eexists. split; [reflexivity |]. simpl. unfold grows.
    rewrite Ho3, Ho2, Ho1, Hs3, Hs2, Hs1, Hn3, Hn2, Hn1. split; [done |]. split; [done |].
    split; [lia |]. intros fd ->%elem_of_singleton. lia.
  - right. split; [by eexists |]. apply (close_new (os_next o) o o3); [done | done | congruence.. | lia].
Qed.

(** The start of a responder that is not running. *)
Lemma dns_start_spec d o : os_wf o -> (md_fd d < 0)%Z -> md_thread d = false ->
  let '(r, ds) := dns_start (mkDnsSys d o) in
  r <> Ub /\ grows o (ds_os ds) (fd_set (md_fd (ds_dns ds))).
Proof.
  intros Hwf Hfd Hth. pose proof (proj1 Hwf) as Hn0.
  assert (fd_set (-1) = ∅) as Hm1 by done.
  assert (fd_set (md_fd d) = ∅) as Hmd by (by apply fd_set_neg).
  unfold dns_start. erewrite bind_Ok by reflexivity. simpl.
  destruct (str_empty (md_listen d)); [split; [done |]; simpl; rewrite Hmd; apply grows_refl |].
  pose proof (parse_hostport_defined (md_listen d)) as Hd.
  destruct (parse_hostport (md_listen d)) as [[host port]|e|] eqn:Ep; [| | done].
  2: { split; [done |]. simpl. rewrite Hmd. apply grows_refl. }
  erewrite bind_Ok by reflexivity. cbv zeta.
  pose proof (sys_socket_spec o Hwf) as Hs. unfold mbind at 1, M_bind at 1, ds_on_os at 1, zoom at 1.
  cbn [ds_os ds_dns]. destruct (sys_socket o) as [r o1]. destruct Hs as [[-> Hg]|(-> & Ho1 & Hs1 & Hn1)].
  { split; [done |]. exact Hg. }
  erewrite bind_Ok by reflexivity. cbn [ds_os ds_dns].
  rewrite (proj2 (Z.ltb_ge (os_next o) 0)) by lia.
  assert (fd_set (os_next o) = {[os_next o]}) as Hset by (by apply fd_set_nonneg).
  destruct (sys_outcome_spec o1) as (b & o2 & H2 & Ho2 & Hs2 & Hn2).
  unfold mbind at 1, M_bind at 1, ds_on_os at 1, zoom at 1. cbn [ds_os ds_dns]. rewrite H2.
  destruct b; cbn [negb].
  2: { split; [done |]. simpl. rewrite Hm1.
       apply (close_new (os_next o) o o2); [done | done | congruence.. | lia]. }
  do 4 erewrite bind_Ok by reflexivity. simpl. rewrite Hth.
  destruct (sys_outcome_spec o2) as (b & o3 & H3 & Ho3 & Hs3 & Hn3).
  unfold mbind at 1, M_bind at 1, ds_on_os at 1, zoom at 1. cbn [ds_os ds_dns]. unfold spawn_over.
  rewrite (bind_Ok _ _ _ _ _ H3).
  assert (grows o o3 {[os_next o]}) as Hg.
  { unfold grows. rewrite Ho3, Ho2, Ho1, Hs3, Hs2, Hs1, Hn3, Hn2, Hn1. split; [done |]. split; [done |].
    split; [lia |]. intros fd ->%elem_of_singleton. lia. }
  destruct b; simpl; (split; [done | by rewrite Hset]).
Qed.

(** Stopping a responder shuts down and closes what it owns. *)
Lemma dns_stop_signal_spec d o : fd_set (md_fd d) ⊆ os_open o ->
  exists d' o', dns_stop_signal (mkDnsSys d o) = (Ok tt, mkDnsSys d' o') /\ (md_fd d' < 0)%Z /\
    md_stop d' = true /\ md_thread d' = md_thread d /\
    os_open o' = os_open o ∖ fd_set (md_fd d) /\ os_shut o' = fd_set (md_fd d) ∪ os_shut o /\
    os_stray o' = os_stray o /\ os_next o' = os_next o.
Proof.
  unfold fd_set. intros Hsub. unfold dns_stop_signal. do 2 erewrite bind_Ok by reflexivity.
  cbn [ds_dns ds_os md_fd set_md_stop fst snd].
  destruct (Z.leb_spec 0 (md_fd d)).
  - destruct (shut_and_close (md_fd d) o) as [E1 E2]; [set_solver |].
    unfold mbind, M_bind, ds_on_os, zoom. cbn [ds_dns ds_os]. rewrite E1. cbn [ds_dns ds_os]. rewrite E2.
    eexists _, _. split; [reflexivity |]. simpl. split_and!; done || lia.
  - eexists _, _. split; [reflexivity |]. simpl. split_and!; done || lia || set_solver.
Qed.

Lemma dns_stop_spec d o : fd_set (md_fd d) ⊆ os_open o ->
  exists d' o', dns_stop (mkDnsSys d o) = (Ok tt, mkDnsSys d' o') /\
    os_open o' = os_open o ∖ fd_set (md_fd d) /\ os_shut o' = fd_set (md_fd d) ∪ os_shut o /\
    os_stray o' = os_stray o /\ os_next o' = os_next o.
Proof.
  intros Hsub. destruct (dns_stop_signal_spec d o Hsub) as (d' & o' & E & _ & _ & _ & H).
  unfold dns_stop. rewrite (bind_Ok _ _ _ _ _ E). eexists _, o'. split; [reflexivity | exact H].
Qed.

(** dns_.reset() on whatever dns_ holds. *)
Lemma drop_dns_spec l : dns_fds (li_dns l) ⊆ os_open (li_os l) ->
  exists o', drop_dns l = (Ok tt, set_li_os o' (set_li_dns None l)) /\
    os_open o' = os_open (li_os l) ∖ dns_fds (li_dns l) /\
    os_shut o' = dns_fds (li_dns l) ∪ os_shut (li_os l) /\
    os_stray o' = os_stray (li_os l) /\ os_next o' = os_next (li_os l).
Proof.
  intros Hsub. unfold drop_dns. erewrite bind_Ok by reflexivity. cbv beta.
  destruct (li_dns l) as [d|] eqn:Ed.
  - destruct (dns_stop_spec d (li_os l) Hsub) as (d' & o' & H & Ho & Hsh & Hs & Hn).
    exists o'. split; [| done]. unfold mbind, M_bind, on_dns. rewrite Ed, H. by destruct l.
  - exists (li_os l). split; [destruct l; simpl in *; by subst |]. simpl.
    split; [set_solver |]. split; [set_solver | done].
Qed.

Lemma li_inv_idle E l : li_inv E l -> li_running l = false ->
  os_open (li_os l) = E /\ fd_set (li_fd l) = ∅ /\ li_dns l = None /\ li_accept l = false.
Proof.
  intros Hi Hr. destruct (li_idle Hi Hr) as (Hf & Hd & Ha). rewrite (li_owned Hi).
  unfold li_fds. rewrite Hd, fd_set_neg by done. split; [simpl; set_solver | done].
Qed.

(** What belongs to the process before is apart from what was opened since. *)
Lemma wf_apart o E (fds : gset Z) : os_wf o -> E ⊆ os_open o ->
  (forall fd, fd ∈ fds -> (os_next o <= fd)%Z) -> E ## fds.
Proof. intros [_ Hw] Hs Hf fd H1%Hs%Hw H2%Hf. lia. Qed.

(** Starting, in any state the operations reach. *)
Lemma start_listen_inv E l : li_inv E l ->
  let '(r, l') := start_listen l in
  r <> Ub /\ li_inv E l' /\ li_running l' = true /\ li_accept l' = li_accept l /\
  (li_running l = true -> is_ok r = false /\ l' = l).
Proof.
  intros Hi. unfold start_listen. do 2 erewrite bind_Ok by reflexivity.
  destruct (li_running l) eqn:Hr.
  { cbn. replace (set_li_running true l) with l by (destruct l; simpl in *; by subst). done. }
  destruct (li_inv_idle E l Hi Hr) as (Hopen & Hfd & Hdns & Hacc).
  pose proof (li_os_wf Hi) as Hwf. pose proof (li_no_stray Hi) as Hstray.
  do 2 erewrite bind_Ok by reflexivity. cbn [set_li_running set_li_stop li_cfg].
  pose proof (listen_tcp_spec (cf_listen (li_cfg l)) (li_os l) Hwf) as Hl.
  set (l1 := set_li_stop false (set_li_running true l)).
  unfold mbind at 1, M_bind at 1, on_os at 1, zoom at 1.
  change (li_os l1) with (li_os l). destruct (listen_tcp _ (li_os l)) as [r o1].
  destruct Hl as [(b & -> & Hg)|[(e & ->) Hg]].
  2: { split; [done |]. split; [| done]. pose proof (grows_wf _ _ _ Hwf Hg) as Hwf1.
       destruct Hg as (Ho & Hs & _). split; unfold li_fds; simpl; rewrite ?Hfd, ?Hdns; simpl.
       - exact Hwf1.
       - rewrite Ho, Hopen. set_solver.
       - set_solver.
       - set_solver.
       - congruence.
       - done. }
  pose proof (proj1 Hwf) as Hn0.
  pose proof (fd_set_nonneg (os_next (li_os l)) Hn0) as Hset.
  pose proof (grows_wf _ _ _ Hwf Hg) as Hwf1. destruct Hg as (Ho & Hs & Hn & Hin).
  erewrite bind_Ok by reflexivity. cbn [fst snd].
  set (l2 := set_li_fd (os_next (li_os l)) (set_li_bound b (set_li_os o1 l1))).
  assert (E ## {[os_next (li_os l)]}) as HE.
  { apply (wf_apart (li_os l)); [done | by rewrite Hopen |]. by intros fd ->%elem_of_singleton. }
  assert (li_inv E l2) as Hi2.
  { split; unfold li_fds; simpl; rewrite ?Hset, ?Hdns; simpl; [done | | set_solver.. | congruence | done].
    rewrite Ho, Hopen. set_solver. }
  destruct (str_empty _); [by split |].
  erewrite bind_Ok; [| unfold drop_dns; erewrite bind_Ok by reflexivity; simpl; by rewrite Hdns].
  erewrite bind_Ok by reflexivity. unfold on_dns. simpl.
  pose proof (dns_start_spec (MagicDns_new (cf_domain (li_cfg l)) (cf_dns_listen (li_cfg l))) o1
    Hwf1 ltac:(simpl; lia) eq_refl) as Hd.
  destruct (dns_start _) as [r ds]. destruct Hd as [Hub Hg]. split; [done |].
  split; [| done]. pose proof (grows_wf _ _ _ Hwf1 Hg) as Hwf2. destruct Hg as (Ho2 & Hs2 & Hn2 & Hin2).
  assert ({[os_next (li_os l)]} ∪ E ## fd_set (md_fd (ds_dns ds))) as Hnew.
  { apply (wf_apart o1); [done | by rewrite Ho, Hopen |]. intros fd H%Hin2. lia. }
  split; unfold li_fds; simpl; rewrite ?Hset; [done | | set_solver.. | congruence | done].
  rewrite Ho2, Ho, Hopen. set_solver.
Qed.

Lemma run_async_inv E l : li_inv E l -> let '(r, l') := run_async l in
  r <> Ub /\ li_inv E l' /\ li_running l' = true.
Proof.
  intros Hi. unfold run_async. pose proof (start_listen_inv E l Hi) as Hs.
  unfold mbind at 1, M_bind at 1. destruct (start_listen l) as [[[]|e|] l1].
  2, 3: destruct Hs as (H1 & H2 & H3 & _); done.
  destruct Hs as (_ & Hi1 & Hr1 & Ha & Hno). destruct (li_running l) eqn:Hr.
  { by destruct (Hno eq_refl). }
  destruct (li_inv_idle E l Hi Hr) as (_ & _ & _ & Hacc). rewrite Hacc in Ha.
  erewrite bind_Ok by reflexivity. rewrite Ha. unfold spawn_over.
  destruct (sys_outcome_spec (li_os l1)) as (b & o2 & H2 & Ho2 & Hs2 & Hn2).
  unfold mbind at 1, M_bind at 1, on_os at 1, zoom at 1. rewrite (bind_Ok _ _ _ _ _ H2).
  assert (forall acc, li_inv E (set_li_accept acc (set_li_os o2 l1))) as Hi2.
  { intros acc. destruct Hi1 as [[W1 W2] O1 F1 A1 S1 I1]. split; simpl;
    [| by rewrite Ho2 | done | done | congruence..].
    split; [lia |]. intros fd. rewrite Ho2, Hn2. apply W2. }
  destruct b; simpl; (split; [done |]).
  - split; [apply Hi2 | done].
  - split; [| done]. specialize (Hi2 (li_accept l1)). by destruct l1.
Qed.

(** What a stop has done when it waits: everything is shut down and closed, and
    the flags are set; the threads are as before. *)
Record signalled (l l' : Listener) : Prop := {
  sg_stop : li_stop l' = true;
  sg_fd : (li_fd l' < 0)%Z;
  sg_accept : li_accept l' = li_accept l;
  sg_running : li_running l' = li_running l;
  sg_dns : match li_dns l, li_dns l' with
           | Some d, Some d' => md_stop d' = true /\ (md_fd d' < 0)%Z /\ md_thread d' = md_thread d
           | None, None => True
           | _, _ => False
           end;
  sg_shut : os_shut (li_os l') = li_fds l ∪ os_shut (li_os l);
}.

Lemma stop_listen_spec E l : li_inv E l -> exists o2 fd2,
  (if (0 <=? li_fd l)%Z then
     _ ← on_os (sys_shutdown_fd (li_fd l)); _ ← on_os (sys_close_fd (li_fd l)); modify (set_li_fd (-1))
   else mret ()) (set_li_stop true l) = (Ok tt, set_li_fd fd2 (set_li_os o2 (set_li_stop true l))) /\
  (fd2 < 0)%Z /\ os_open o2 = E ∪ dns_fds (li_dns l) /\
  os_shut o2 = fd_set (li_fd l) ∪ os_shut (li_os l) /\ os_stray o2 = [] /\ os_next o2 = os_next (li_os l).
Proof.
  intros Hi. pose proof (li_owned Hi) as Ho. pose proof (li_foreign Hi) as HE.
  pose proof (li_apart Hi) as Ha. unfold li_fds, fd_set in *. set (l1 := set_li_stop true l).
  destruct (Z.leb_spec 0 (li_fd l)).
  - destruct (shut_and_close (li_fd l) (li_os l)) as [E1 E2]; [set_solver |].
    unfold mbind, M_bind, on_os, zoom. change (li_os l1) with (li_os l). rewrite E1. cbn [li_os set_li_os].
    rewrite E2. eexists _, _. split; [reflexivity |]. simpl.
    split_and!; [lia | set_solver | done | apply (li_no_stray Hi) | done].
  - exists (li_os l), (li_fd l). split; [by destruct l |].
    split_and!; [lia | set_solver | set_solver | apply (li_no_stray Hi) | done].
Qed.

(** A listener with nothing open left. *)
Lemma li_inv_closed E l l' : li_inv E l -> (li_fd l' < 0)%Z -> dns_fds (li_dns l') = ∅ ->
  os_open (li_os l') = E -> os_stray (li_os l') = [] -> os_next (li_os l') = os_next (li_os l) ->
  (li_running l' = false -> li_dns l' = None /\ li_accept l' = false) -> li_inv E l'.
Proof.
  intros Hi Hf Hd E1 E2 E3 Hr. split; unfold li_fds; rewrite ?(fd_set_neg (li_fd l')), ?Hd by done.
  - split; [rewrite E3; apply (proj1 (li_os_wf Hi)) |]. intros fd Hfd.
    rewrite E3. apply (li_os_wf Hi). rewrite (li_owned Hi). set_solver.
  - rewrite E1. set_solver.
  - set_solver.
  - set_solver.
  - done.
  - intros H. destruct (Hr H). done.
Qed.

Lemma stop_signal_inv E l : li_inv E l -> exists l', stop_signal l = (Ok tt, l') /\ li_inv E l' /\
  os_open (li_os l') = E /\ signalled l l'.
Proof.
  intros Hi. unfold stop_signal. do 2 erewrite bind_Ok by reflexivity. cbn [set_li_stop li_fd].
  destruct (stop_listen_spec E l Hi) as (o2 & fd2 & H2 & Hf2 & Ho2 & Hsh2 & Hs2 & Hn2).
  rewrite (bind_Ok _ _ _ _ _ H2). set (l2 := set_li_fd fd2 _).
  pose proof (li_foreign Hi) as HE. unfold li_fds in HE.
  erewrite bind_Ok by reflexivity. change (li_dns l2) with (li_dns l).
  destruct (li_dns l) as [d|] eqn:Ed; cbn [dns_fds] in *.
  - destruct (dns_stop_signal_spec d o2) as (d' & o3 & H3 & Hf3 & Hst3 & Ht3 & Ho3 & Hsh3 & Hs3 & Hn3);
      [rewrite Ho2; set_solver |].
    assert (on_dns dns_stop_signal l2 = (Ok tt, set_li_os o3 (set_li_dns (Some d') l2))) as H4.
    { unfold on_dns. change (li_dns l2) with (li_dns l). rewrite Ed. change (li_os l2) with o2.
      by rewrite H3. }
    rewrite H4. eexists. split; [reflexivity |].
    assert (os_open o3 = E) as He by (rewrite Ho3, Ho2; set_solver).
    split; [| split; [exact He |]].
    + apply (li_inv_closed E l); simpl; [done | done | by apply fd_set_neg | done | congruence |
      congruence |].
      intros Hr. destruct (li_idle Hi Hr) as (_ & Hd & _). congruence.
    + split; simpl; rewrite ?Ed; try done. unfold li_fds. rewrite Ed, Hsh3, Hsh2. cbn [dns_fds]. set_solver.
  - eexists. split; [reflexivity |]. rewrite union_empty_r_L in Ho2.
    split; [| split; [exact Ho2 |]].
    + apply (li_inv_closed E l); simpl; rewrite ?Ed; try done.
      intros Hr. by destruct (li_idle Hi Hr) as (_ & _ & Hacc).
    + split; simpl; rewrite ?Ed; try done. unfold li_fds. rewrite Ed, Hsh2. cbn [dns_fds]. set_solver.
Qed.

(** Once the responder's thread has ended its object goes; it owns nothing. *)
Lemma stop_dns_joined_inv E l : li_inv E l -> os_open (li_os l) = E -> (li_fd l < 0)%Z ->
  dns_fds (li_dns l) = ∅ ->
  exists l', stop_dns_joined l = (Ok tt, l') /\ li_inv E l' /\ os_open (li_os l') = E /\
    (li_fd l' < 0)%Z /\ li_dns l' = None /\ li_stop l' = li_stop l /\ li_accept l' = li_accept l /\
    os_shut (li_os l') = os_shut (li_os l).
Proof.
  intros Hi Ho Hf Hd. unfold stop_dns_joined. erewrite bind_Ok by reflexivity. cbv beta.
  destruct (li_dns l) as [d|] eqn:Ed; cbn [dns_fds] in Hd.
  2: { exists l. split_and!; done. }
  set (l1 := set_li_os (li_os l) (set_li_dns (Some (set_md_thread false d)) l)).
  assert (on_dns dns_joined l = (Ok tt, l1)) as H1 by (unfold on_dns; by rewrite Ed).
  rewrite (bind_Ok _ _ _ _ _ H1).
  destruct (drop_dns_spec l1) as (o' & H2 & Ho' & Hsh & Hs & Hn);
    [simpl; rewrite Hd; set_solver |]. simpl in Ho', Hsh, Hs, Hn. rewrite Hd in Ho', Hsh.
  rewrite H2. eexists. split; [reflexivity |]. simpl.
  assert (os_open o' = E) as He by (rewrite Ho', Ho; set_solver).
  split; [| split_and!; try done; rewrite Hsh; set_solver].
  apply (li_inv_closed E l); simpl; try done; [rewrite Hs; apply (li_no_stray Hi) |].
  intros Hr. by destruct (li_idle Hi Hr) as (_ & Hd' & Hacc).
Qed.

(** The last part, once the accept thread has ended. *)
Lemma stop_joined_inv E l : li_inv E l -> (li_fd l < 0)%Z -> li_dns l = None ->
  li_inv E (stop_joined l).2.
Proof. intros [H1 H2 H3 H4 H5 H6] Hf Hd. by split. Qed.

End Facts.

(** ** The operations in sequence *)

Inductive li_op := LStart | LStop.

Section Sequences.
  Context `{Inet : !InetLib}.

Definition exec_li (op : li_op) : M Listener unit :=
  match op with LStart => run_async | LStop => stop end.

(** The outcomes of a sequence of calls, and the object after it. *)
Fixpoint run_ops (ops : list li_op) (l : Listener) : list (res unit) * Listener :=
  match ops with
  | [] => ([], l)
  | op :: ops =>
      let '(r, l) := exec_li op l in
      let '(rs, l) := run_ops ops l in
      (r :: rs, l)
  end.

Lemma signalled_fds l l' : signalled l l' -> dns_fds (li_dns l') = ∅.
Proof.
  intros [_ _ _ _ Hd _]. destruct (li_dns l) as [d|], (li_dns l') as [d'|]; try done.
  apply fd_set_neg, Hd.
Qed.

Lemma stop_spec E l : li_inv E l -> exists l', stop l = (Ok tt, l') /\ li_inv E l' /\
  li_running l' = false /\ os_open (li_os l') = E.
Proof.
  intros Hi. destruct (stop_signal_inv E l Hi) as (l1 & H1 & Hi1 & Ho & Hsg).
  destruct (stop_dns_joined_inv E l1 Hi1 Ho (sg_fd _ _ Hsg) (signalled_fds _ _ Hsg))
    as (l2 & H2 & Hi2 & Ho2 & Hf2 & Hd2 & _).
  unfold stop. rewrite (bind_Ok _ _ _ _ _ H1), (bind_Ok _ _ _ _ _ H2). eexists. split; [reflexivity |].
  split; [by apply (stop_joined_inv E l2) | done].
Qed.

Lemma exec_li_inv E op l : li_inv E l -> let '(r, l') := exec_li op l in r <> Ub /\ li_inv E l'.
Proof.
  intros Hi. destruct op; cbn [exec_li].
  - pose proof (run_async_inv E l Hi) as H. destruct (run_async l). naive_solver.
  - destruct (stop_spec E l Hi) as (l' & -> & H & _). done.
Qed.

Lemma Listener_new_inv cfg o : os_wf o -> os_stray o = [] -> li_inv (os_open o) (Listener_new cfg o).
Proof. intros Hwf Hs. split; unfold li_fds; simpl; [done | set_solver.. | done | done]. Qed.

(** C12: starting and stopping balance. Whatever sequence of starts and stops is
    made on a coordinator, in a process that may have other descriptors open,
    and whichever socket, bind, listen or thread creation fails, no call has
    undefined behaviour (a thread object is never assigned over a running
    one), the listener owns exactly the descriptors opened since, none is ever
    closed twice, and the stop that the destructor makes leaves open what was
    open before and nothing else. *)
Theorem descriptors_balanced cfg o ops :
  os_wf o -> os_stray o = [] ->
  let '(rs, l) := run_ops ops (Listener_new cfg o) in
  Ub ∉ rs /\ os_stray (li_os l) = [] /\
  os_open (li_os l) = os_open o ∪ li_fds l /\ os_open o ## li_fds l /\
  exists l', stop l = (Ok tt, l') /\ os_open (li_os l') = os_open o /\ os_stray (li_os l') = [].
Proof.
  intros Hwf Hs. pose proof (Listener_new_inv cfg o Hwf Hs) as Hi. revert Hi.
  generalize (Listener_new cfg o). induction ops as [|op ops IH]; intros l Hi; cbn [run_ops].
  - split; [apply not_elem_of_nil |]. split; [apply (li_no_stray Hi) |].
    split; [apply (li_owned Hi) |]. split; [apply (li_foreign Hi) |].
    destruct (stop_spec _ l Hi) as (l' & H & Hi' & _ & Ho').
    exists l'. split; [done |]. split; [done | apply (li_no_stray Hi')].
  - pose proof (exec_li_inv _ op l Hi) as H. destruct (exec_li op l) as [r l1]. destruct H as [Hub Hi1].
    specialize (IH l1 Hi1). destruct (run_ops ops l1) as [rs l2]. destruct IH as [Hrs Hrest].
    split; [| exact Hrest]. rewrite not_elem_of_cons. split; congruence.
Qed.

Lemma run_async_accept E l : li_inv E l ->
  let '(r, l') := run_async l in
  (r = Ok tt -> li_running l = false /\ li_accept l' = true) /\
  (is_ok r = false -> li_accept l' = li_accept l) /\
  (li_running l = true -> r = Throw (RuntimeError "coordinator already running") /\ l' = l).
Proof.
  intros Hi. pose proof (start_listen_inv E l Hi) as Hs.
  assert (li_running l = true ->
    start_listen l = (Throw (RuntimeError "coordinator already running"), l)) as Hrun.
  { intros Hr. unfold start_listen. do 2 erewrite bind_Ok by reflexivity. rewrite Hr. cbn.
    by replace (set_li_running true l) with l by (destruct l; simpl in *; by subst). }
  unfold run_async, mbind at 1, M_bind at 1.
  destruct (start_listen l) as [[[]|e|] l1]; destruct Hs as (Hub & Hi1 & Hr1 & Ha & Hno).
  2: { split; [done |]. split; [done |]. intros Hr. specialize (Hrun Hr). by injection Hrun as -> ->. }
  2: done.
  assert (li_running l = false) as Hr by (destruct (li_running l); [by destruct (Hno eq_refl) | done]).
  destruct (li_inv_idle E l Hi Hr) as (_ & _ & _ & Hacc).
  erewrite bind_Ok by reflexivity. rewrite Ha, Hacc. unfold spawn_over.
  destruct (sys_outcome_spec (li_os l1)) as (b & o2 & H2 & _).
  unfold mbind at 1, M_bind at 1, on_os at 1, zoom at 1. rewrite (bind_Ok _ _ _ _ _ H2).
  rewrite Hr. destruct b; simpl; (split; [done |]); (split; [| done]); [done |]. intros _. congruence.
Qed.

(** C36: a start that fails leaves the coordinator unusable until it is stopped:
    it reports itself running with no thread that accepts, and every further
    start is refused as already running and changes nothing. *)
Theorem failed_start_sticks E l e l' :
  li_inv E l -> li_running l = false -> run_async l = (Throw e, l') ->
  (running l').1 = Ok true /\ li_accept l' = false /\
  run_async l' = (Throw (RuntimeError "coordinator already running"), l').
Proof.
  intros Hi Hr Hrun. pose proof (run_async_inv E l Hi) as H1. pose proof (run_async_accept E l Hi) as H2.
  rewrite Hrun in H1, H2. destruct H1 as (_ & Hi' & Hr'), H2 as (_ & Ha & _).
  destruct (li_inv_idle E l Hi Hr) as (_ & _ & _ & Hacc).
  split; [by cbn; rewrite Hr' |]. split; [by rewrite Ha |].
  pose proof (run_async_accept E l' Hi') as H3. destruct (run_async l') as [r l2].
  by destruct (proj2 (proj2 H3) Hr') as [-> ->].
Qed.

End Sequences.

(** ** The threads

    The caller's thread, the accept thread, the responder's thread and the client
    threads. A start is one step; a stop is three, since it waits for the
    responder's thread and then for the accept thread.

    Both loops have one shape: test the flag, call accept or recvfrom on the
    socket, and test the flag again when the call fails. A call on a socket that
    is closed or shut down fails at once; on another one it blocks, and then the
    thread has no step of its own until the socket is shut down. What else may
    end the wait, a connection, a datagram or an error, is an event that may
    never come. *)
Inductive loop_pc := NoThread | AtHead | AtCall | Blocked (fd : Z) | Exited.

Inductive loop_step (stop : bool) (fd : Z) (o : Os) : loop_pc -> loop_pc -> Prop :=
  | loop_head : loop_step stop fd o AtHead (if stop then Exited else AtCall)
  | loop_blocks : fd ∈ os_open o -> fd ∉ os_shut o -> loop_step stop fd o AtCall (Blocked fd)
  | loop_fails : fd ∉ os_open o \/ fd ∈ os_shut o ->
      loop_step stop fd o AtCall (if stop then Exited else AtHead)
  | loop_woken fd' : fd' ∈ os_shut o ->
      loop_step stop fd o (Blocked fd') (if stop then Exited else AtHead).

(** A wait that ends with an error for another reason. *)
Inductive loop_error (stop : bool) : loop_pc -> loop_pc -> Prop :=
  | loop_error_intro fd : loop_error stop (Blocked fd) (if stop then Exited else AtHead).

(** [MDnsJoin] waits for the responder's thread, [MJoin] for the accept thread. *)
Inductive main_pc := MIdle | MDnsJoin (destroying : bool) | MJoin (destroying : bool).

(** [sy_clients]: the descriptors of the connections whose threads run. *)
Record Sys := mkSys {
  sy_li : Listener;
  sy_alive : bool;
  sy_main : main_pc;
  sy_acc : loop_pc;
  sy_dns : loop_pc;
  sy_clients : gset Z;
}.

Definition dns_flag (l : Listener) : bool := match li_dns l with Some d => md_stop d | None => true end.
Definition dns_fd (l : Listener) : Z := match li_dns l with Some d => md_fd d | None => -1 end.
Definition dns_thread (l : Listener) : bool :=
  match li_dns l with Some d => md_thread d | None => false end.

(** The responder's thread after a start that went from [l] to [l']. *)
Definition dns_started (l l' : Listener) (dns : loop_pc) : loop_pc :=
  if dns_thread l' then if dns_thread l then dns else AtHead else NoThread.

Section Threads.
  Context `{Inet : !InetLib}.

(** accept_loop: its own steps, and what may end its wait. *)
Inductive acc_step : Sys -> Sys -> Prop :=
  | acc_step_intro l al mn acc acc' dns cl : loop_step (li_stop l) (li_fd l) (li_os l) acc acc' ->
      acc_step (mkSys l al mn acc dns cl) (mkSys l al mn acc' dns cl).

Inductive acc_event : Sys -> Sys -> Prop :=
  | acc_conn l al mn fd dns cl : fd ∈ os_open (li_os l) -> fd ∉ os_shut (li_os l) ->
      acc_event (mkSys l al mn (Blocked fd) dns cl)
        (mkSys (set_li_os (new_fd (li_os l)).2 l) al mn AtHead dns ({[os_next (li_os l)]} ∪ cl))
  | acc_error l al mn acc acc' dns cl : loop_error (li_stop l) acc acc' ->
      acc_event (mkSys l al mn acc dns cl) (mkSys l al mn acc' dns cl).

(** MagicDns::loop, the datagrams aside (they are in Dns). *)
Inductive dns_step : Sys -> Sys -> Prop :=
  | dns_step_intro l al mn acc dns dns' cl : loop_step (dns_flag l) (dns_fd l) (li_os l) dns dns' ->
      dns_step (mkSys l al mn acc dns cl) (mkSys l al mn acc dns' cl).

Inductive dns_event : Sys -> Sys -> Prop :=
  | dns_datagram l al mn acc fd cl : fd ∈ os_open (li_os l) -> fd ∉ os_shut (li_os l) ->
      dns_event (mkSys l al mn acc (Blocked fd) cl) (mkSys l al mn acc AtHead cl)
  | dns_error l al mn acc dns dns' cl : loop_error (dns_flag l) dns dns' ->
      dns_event (mkSys l al mn acc dns cl) (mkSys l al mn acc dns' cl).

Inductive sys_step : Sys -> Sys -> Prop :=
  | step_acc s s' : acc_step s s' \/ acc_event s s' -> sys_step s s'
  | step_dns s s' : dns_step s s' \/ dns_event s s' -> sys_step s s'
  | step_start l l' acc dns cl : run_async l = (Ok tt, l') ->
      sys_step (mkSys l true MIdle acc dns cl) (mkSys l' true MIdle AtHead (dns_started l l' dns) cl)
  | step_start_fails l l' e acc dns cl : run_async l = (Throw e, l') ->
      sys_step (mkSys l true MIdle acc dns cl) (mkSys l' true MIdle acc (dns_started l l' dns) cl)
  | step_stop l l' d acc dns cl : stop_signal l = (Ok tt, l') ->
      sys_step (mkSys l true MIdle acc dns cl) (mkSys l' true (MDnsJoin d) acc dns cl)
  | step_dns_join l l' d acc dns cl : (dns_thread l = true -> dns = Exited) ->
      stop_dns_joined l = (Ok tt, l') ->
      sys_step (mkSys l true (MDnsJoin d) acc dns cl) (mkSys l' true (MJoin d) acc NoThread cl)
  | step_join l d acc dns cl : (li_accept l = true -> acc = Exited) ->
      sys_step (mkSys l true (MJoin d) acc dns cl)
        (mkSys (stop_joined l).2 (negb d) MIdle NoThread dns cl)
  | step_client_ends l al mn acc dns cl fd : fd ∈ cl ->
      sys_step (mkSys l al mn acc dns cl)
        (mkSys (set_li_os (sys_close_fd fd (li_os l)).2 l) al mn acc dns (cl ∖ {[fd]})).

Inductive reachable (cfg : Config) (o : Os) : Sys -> Prop :=
  | reach_init : reachable cfg o (mkSys (Listener_new cfg o) true MIdle NoThread NoThread ∅)
  | reach_step s s' : reachable cfg o s -> sys_step s s' -> reachable cfg o s'.

(** *** The invariant *)

(** A thread that waits does so on the socket of now, or on one shut down since. *)
Definition waits_on (o : Os) (fd : Z) (pc : loop_pc) : Prop :=
  forall fd', pc = Blocked fd' -> (0 <= fd')%Z /\ (fd' = fd \/ fd' ∈ os_shut o).

(** The thread objects are joinable exactly while the threads exist; while a
    stop waits, everything is closed and the flags are set; a destroyed
    coordinator has been stopped. [E] is what was open before. *)
Record sys_inv (E : gset Z) (s : Sys) : Prop := {
  sy_li_inv : li_inv (E ∪ sy_clients s) (sy_li s);
  sy_apart : E ## sy_clients s;
  sy_joinable : li_accept (sy_li s) = true <-> sy_acc s <> NoThread;
  sy_dns_joinable : dns_thread (sy_li s) = true <-> sy_dns s <> NoThread;
  sy_acc_waits : waits_on (li_os (sy_li s)) (li_fd (sy_li s)) (sy_acc s);
  sy_dns_waits : waits_on (li_os (sy_li s)) (dns_fd (sy_li s)) (sy_dns s);
  sy_dns_join : forall d, sy_main s = MDnsJoin d ->
    sy_alive s = true /\ li_stop (sy_li s) = true /\ (li_fd (sy_li s) < 0)%Z /\
    os_open (li_os (sy_li s)) = E ∪ sy_clients s /\ dns_flag (sy_li s) = true /\ (dns_fd (sy_li s) < 0)%Z;
  sy_join : forall d, sy_main s = MJoin d ->
    sy_alive s = true /\ li_stop (sy_li s) = true /\ (li_fd (sy_li s) < 0)%Z /\
    os_open (li_os (sy_li s)) = E ∪ sy_clients s /\ li_dns (sy_li s) = None;
  sy_dead : sy_alive s = false -> sy_main s = MIdle /\ sy_acc s = NoThread /\ sy_dns s = NoThread;
}.

(** *** Its preservation *)

Lemma loop_step_keeps stop fd o pc pc' : os_wf o -> loop_step stop fd o pc pc' ->
  pc <> NoThread /\ pc' <> NoThread /\ waits_on o fd pc'.
Proof.
  intros Hwf H. destruct H; (split; [done |]);
    try (split; [by destruct stop | intros fd1; by destruct stop]).
  split; [done |]. intros fd1 [= <-]. apply Hwf in H. split; [lia | by left].
Qed.

Lemma loop_error_keeps stop pc pc' o fd : loop_error stop pc pc' ->
  pc <> NoThread /\ pc' <> NoThread /\ waits_on o fd pc'.
Proof. intros []. split; [done |]. split; [by destruct stop | intros fd1; by destruct stop]. Qed.

Lemma waits_not_blocked o fd pc : (forall fd', pc <> Blocked fd') -> waits_on o fd pc.
Proof. intros H fd' E. by apply H in E. Qed.

Lemma waits_shut o o' fd fd2 pc : waits_on o fd pc -> fd_set fd ⊆ os_shut o' ->
  os_shut o ⊆ os_shut o' -> waits_on o' fd2 pc.
Proof.
  intros H Hfd Hs fd' E. destruct (H fd' E) as [H0 H1]. split; [done |]. right.
  destruct H1 as [->|]; [| set_solver]. rewrite fd_set_nonneg in Hfd by done. set_solver.
Qed.

(** A connection opens a descriptor of its own, and closes it. *)
Lemma li_inv_accept E l : li_inv E l ->
  li_inv ({[os_next (li_os l)]} ∪ E) (set_li_os (new_fd (li_os l)).2 l) /\
    os_next (li_os l) ∉ os_open (li_os l).
Proof.
  intros Hi. destruct (li_os_wf Hi) as [Hn Ho].
  assert (os_next (li_os l) ∉ os_open (li_os l)) as Hfresh by (intros H%Ho; lia). split; [| done].
  pose proof (li_owned Hi) as Hown. pose proof (li_foreign Hi) as Hf.
  split; unfold li_fds in *; simpl; [| set_solver | set_solver | apply (li_apart Hi) |
    apply (li_no_stray Hi) | apply (li_idle Hi)].
  split; simpl; [lia |]. intros fd [->%elem_of_singleton|H%Ho]%elem_of_union; lia.
Qed.

Lemma li_inv_client_ends E l fd : li_inv E l -> fd ∈ E ->
  li_inv (E ∖ {[fd]}) (set_li_os (sys_close_fd fd (li_os l)).2 l) /\
  os_open (sys_close_fd fd (li_os l)).2 = os_open (li_os l) ∖ {[fd]} /\
  os_shut (sys_close_fd fd (li_os l)).2 = os_shut (li_os l).
Proof.
  intros Hi Hfd. pose proof (li_owned Hi) as Hown. pose proof (li_foreign Hi) as Hf.
  destruct (li_os_wf Hi) as [Hn Ho]. rewrite close_owned by (rewrite Hown; set_solver).
  split; [| done]. split; unfold li_fds in *; simpl; [| set_solver | set_solver | apply (li_apart Hi) |
    apply (li_no_stray Hi) | apply (li_idle Hi)].
  split; simpl; [lia |]. intros x [H%Ho _]%elem_of_difference. lia.
Qed.

(** A start that is refused changes nothing; any other one begins with no thread. *)
Lemma start_cases E l : li_inv E l -> let '(r, l') := run_async l in
  li_inv E l' /\ (r = Ok tt -> li_running l = false /\ li_accept l' = true) /\
  (is_ok r = false -> li_accept l' = li_accept l) /\
  (l' = l /\ is_ok r = false \/ li_running l = false /\ li_accept l = false /\ dns_thread l = false).
Proof.
  intros Hi. pose proof (run_async_inv E l Hi) as H1. pose proof (run_async_accept E l Hi) as H2.
  destruct (run_async l) as [r l']. destruct H1 as (_ & Hi' & _), H2 as (Hok & Hno & Hrun).
  split; [done |]. split; [done |]. split; [done |]. destruct (li_running l) eqn:Hr.
  - left. destruct (Hrun eq_refl) as [-> ->]. done.
  - right. destruct (li_inv_idle E l Hi Hr) as (_ & _ & Hd & Ha). unfold dns_thread. by rewrite Hd.
Qed.

Lemma dns_started_ok l l' dns : (dns_thread l = true <-> dns <> NoThread) ->
  (dns_thread l' = true <-> dns_started l l' dns <> NoThread) /\
  (dns_thread l = false -> forall fd, dns_started l l' dns <> Blocked fd) /\
  (l' = l -> dns_started l l' dns = dns).
Proof.
  unfold dns_started. intros H. split; [| split].
  - destruct (dns_thread l'), (dns_thread l); naive_solver.
  - intros Hl fd. rewrite Hl. by destruct (dns_thread l').
  - intros ->. destruct (dns_thread l) eqn:E; [done |].
    destruct dns; [done | by assert (false = true) by (by apply H)..].
Qed.

Lemma sys_inv_acc E l al mn acc acc' dns cl : sys_inv E (mkSys l al mn acc dns cl) ->
  acc <> NoThread -> acc' <> NoThread -> waits_on (li_os l) (li_fd l) acc' ->
  sys_inv E (mkSys l al mn acc' dns cl).
Proof.
  intros [Hi Hcl Hj Hdj Hw Hdw Hmd Hm Hd] H1 H2 H3. simpl in *. split; simpl; try done.
  - rewrite Hj. done.
  - intros Ha. by destruct (Hd Ha) as (_ & ? & _).
Qed.

Lemma sys_inv_dns E l al mn acc dns dns' cl : sys_inv E (mkSys l al mn acc dns cl) ->
  dns <> NoThread -> dns' <> NoThread -> waits_on (li_os l) (dns_fd l) dns' ->
  sys_inv E (mkSys l al mn acc dns' cl).
Proof.
  intros [Hi Hcl Hj Hdj Hw Hdw Hmd Hm Hd] H1 H2 H3. simpl in *. split; simpl; try done.
  - rewrite Hdj. done.
  - intros Ha. by destruct (Hd Ha) as (_ & _ & ?).
Qed.

Lemma acc_keeps E s s' : sys_inv E s -> acc_step s s' \/ acc_event s s' -> sys_inv E s'.
Proof.
  intros Hinv [H|H].
  { destruct H as [l al mn acc acc' dns cl H].
    destruct (loop_step_keeps _ _ _ _ _ (li_os_wf (sy_li_inv _ _ Hinv)) H) as (H1 & H2 & H3).
    by apply (sys_inv_acc E l al mn acc). }
  destruct H as [l al mn fd dns cl Hopen Hshut|l al mn acc acc' dns cl H].
  2: { destruct (loop_error_keeps _ _ _ (li_os l) (li_fd l) H) as (H1 & H2 & H3).
       by apply (sys_inv_acc E l al mn acc). }
  destruct Hinv as [Hi Hcl Hj Hdj Hw Hdw Hmd Hm Hd]. simpl in *.
  assert (fd = li_fd l /\ (0 <= li_fd l)%Z) as [-> H0] by (destruct (Hw fd eq_refl) as [? [->|]]; done).
  destruct (li_inv_accept (E ∪ cl) l Hi) as [Hi' Hfresh]. pose proof (li_owned Hi) as Ho.
  split; cbn [sy_li sy_alive sy_main sy_acc sy_dns sy_clients] in *.
  - replace (E ∪ ({[os_next (li_os l)]} ∪ cl)) with ({[os_next (li_os l)]} ∪ (E ∪ cl)); [done | set_solver].
  - set_solver.
  - change (li_accept (set_li_os _ l)) with (li_accept l). by rewrite Hj.
  - exact Hdj.
  - by apply waits_not_blocked.
  - exact Hdw.
  - intros d Hd'. destruct (Hmd d Hd') as (_ & _ & ? & _). lia.
  - intros d Hd'. destruct (Hm d Hd') as (_ & _ & ? & _). lia.
  - intros Ha. by destruct (Hd Ha) as (_ & ? & _).
Qed.

Lemma dns_keeps E s s' : sys_inv E s -> dns_step s s' \/ dns_event s s' -> sys_inv E s'.
Proof.
  intros Hinv [H|H].
  { destruct H as [l al mn acc dns dns' cl H].
    destruct (loop_step_keeps _ _ _ _ _ (li_os_wf (sy_li_inv _ _ Hinv)) H) as (H1 & H2 & H3).
    by apply (sys_inv_dns E l al mn acc dns). }
  destruct H as [l al mn acc fd cl Hopen Hshut|l al mn acc dns dns' cl H].
  - by apply (sys_inv_dns E l al mn acc (Blocked fd)); [| | | apply waits_not_blocked].
  - destruct (loop_error_keeps _ _ _ (li_os l) (dns_fd l) H) as (H1 & H2 & H3).
    by apply (sys_inv_dns E l al mn acc dns).
Qed.

Lemma client_keeps E l al mn acc dns cl fd : sys_inv E (mkSys l al mn acc dns cl) -> fd ∈ cl ->
  sys_inv E (mkSys (set_li_os (sys_close_fd fd (li_os l)).2 l) al mn acc dns (cl ∖ {[fd]})).
Proof.
  intros [Hi Hcl Hj Hdj Hw Hdw Hmd Hm Hd] Hfd. simpl in *.
  destruct (li_inv_client_ends (E ∪ cl) l fd Hi) as (Hi' & Ho & Hsh); [set_solver |].
  assert ((E ∪ cl) ∖ {[fd]} = E ∪ cl ∖ {[fd]}) as HE by set_solver.
  assert (forall fd2 pc, waits_on (li_os l) fd2 pc -> waits_on (sys_close_fd fd (li_os l)).2 fd2 pc) as Hkw
    by (intros fd2 pc H; unfold waits_on; by rewrite Hsh).
  split; cbn [sy_li sy_alive sy_main sy_acc sy_dns sy_clients] in *;
    [by rewrite <-HE | set_solver | exact Hj | exact Hdj | by apply Hkw | by apply Hkw | | | exact Hd].
  - intros d Hd'. destruct (Hmd d Hd') as (? & ? & ? & Ho' & ? & ?). split_and!; try done.
    change (os_open (sys_close_fd fd (li_os l)).2 = E ∪ cl ∖ {[fd]}). by rewrite Ho, Ho', HE.
  - intros d Hd'. destruct (Hm d Hd') as (? & ? & ? & Ho' & ?). split_and!; try done.
    change (os_open (sys_close_fd fd (li_os l)).2 = E ∪ cl ∖ {[fd]}). by rewrite Ho, Ho', HE.
Qed.

(** Starting, whatever it ends with. *)
Lemma start_keeps E l l' r acc dns cl : sys_inv E (mkSys l true MIdle acc dns cl) ->
  run_async l = (r, l') -> r <> Ub ->
  sys_inv E (mkSys l' true MIdle (if is_ok r then AtHead else acc) (dns_started l l' dns) cl).
Proof.
  intros [Hi Hcl Hj Hdj Hw Hdw Hmd Hm Hd] Hr Hub. simpl in *.
  pose proof (start_cases _ l Hi) as H. rewrite Hr in H. destruct H as (Hi' & Hok & Hno & Hcase).
  destruct (dns_started_ok l l' dns Hdj) as (Hdj' & Hnew & Hsame).
  split; simpl; try done.
  - destruct r as [[]|e|]; [| | done]; simpl.
    + by rewrite (proj2 (Hok eq_refl)).
    + by rewrite (Hno eq_refl).
  - destruct Hcase as [[-> Hf]|(_ & Ha & _)]; [by rewrite Hf |].
    destruct (is_ok r); [by apply waits_not_blocked |]. apply waits_not_blocked. intros fd ->.
    by assert (li_accept l = true) by (by apply Hj); congruence.
  - destruct Hcase as [[-> _]|(_ & _ & Hdn)]; [by rewrite Hsame |]. by apply waits_not_blocked, Hnew.
Qed.

Lemma stop_keeps E l l' d acc dns cl : sys_inv E (mkSys l true MIdle acc dns cl) ->
  stop_signal l = (Ok tt, l') -> sys_inv E (mkSys l' true (MDnsJoin d) acc dns cl).
Proof.
  intros [Hi Hcl Hj Hdj Hw Hdw Hmd Hm Hd] Hr. simpl in *.
  destruct (stop_signal_inv _ l Hi) as (l1 & H1 & Hi1 & Ho & [Hst Hf Ha Hrun Hdns Hsh]).
  rewrite Hr in H1. injection H1 as ->. unfold li_fds in Hsh.
  assert (fd_set (dns_fd l) = dns_fds (li_dns l)) as Hdf by (unfold dns_fd; by destruct (li_dns l)).
  assert (dns_thread l1 = dns_thread l /\ dns_flag l1 = true /\ (dns_fd l1 < 0)%Z) as (Ht & Hfl & Hdfd).
  { unfold dns_thread, dns_flag, dns_fd. destruct (li_dns l), (li_dns l1); [| done.. | done].
    by destruct Hdns as (? & ? & ?). }
  split; simpl; try done.
  - by rewrite Ha.
  - by rewrite Ht.
  - eapply waits_shut; [exact Hw | set_solver..].
  - eapply waits_shut; [exact Hdw | set_solver..].
Qed.

Lemma dns_join_keeps E l l' d acc dns cl : sys_inv E (mkSys l true (MDnsJoin d) acc dns cl) ->
  stop_dns_joined l = (Ok tt, l') -> sys_inv E (mkSys l' true (MJoin d) acc NoThread cl).
Proof.
  intros [Hi Hcl Hj Hdj Hw Hdw Hmd Hm Hd] Hr. simpl in *.
  destruct (Hmd d eq_refl) as (_ & Hst & Hf & Ho & Hfl & Hdf).
  destruct (stop_dns_joined_inv _ l Hi Ho Hf) as (l1 & H1 & Hi1 & Ho1 & Hf1 & Hd1 & Hst1 & Ha1 & Hsh1).
  { unfold dns_fd in Hdf. destruct (li_dns l); [by apply fd_set_neg | done]. }
  rewrite Hr in H1. injection H1 as ->.
  split; simpl; try done.
  - rewrite Ha1. exact Hj.
  - unfold dns_thread. rewrite Hd1. by split.
  - intros fd Hb. destruct (Hw fd Hb) as [H0 [->|H]]; [lia |]. split; [done |]. right. by rewrite Hsh1.
  - intros _ _. by rewrite Hst1.
Qed.

Lemma join_keeps E l d acc dns cl : sys_inv E (mkSys l true (MJoin d) acc dns cl) ->
  sys_inv E (mkSys (stop_joined l).2 (negb d) MIdle NoThread dns cl).
Proof.
  intros [Hi Hcl Hj Hdj Hw Hdw Hmd Hm Hd]. simpl in *. destruct (Hm d eq_refl) as (_ & Hst & Hf & Ho & Hdn).
  assert (dns = NoThread) as ->.
  { destruct dns; [done | by assert (dns_thread l = true) as H by (by apply Hdj); unfold dns_thread in H;
      rewrite Hdn in H..]. }
  split; simpl; try done.
  - by apply (stop_joined_inv _ l).
Qed.

Lemma sys_inv_step E s s' : sys_inv E s -> sys_step s s' -> sys_inv E s'.
Proof.
  intros Hi Hstep.
  destruct Hstep as [s s' H|s s' H|l l' acc dns cl H|l l' e acc dns cl H|l l' d acc dns cl H
    |l l' d acc dns cl _ H|l d acc dns cl _|l al mn acc dns cl fd H].
  - by apply (acc_keeps E s).
  - by apply (dns_keeps E s).
  - by apply (start_keeps E l l' (Ok tt) acc).
  - by apply (start_keeps E l l' (Throw e) acc).
  - by apply (stop_keeps E l).
  - by apply (dns_join_keeps E l l' d acc dns).
  - by apply (join_keeps E l d acc).
  - by apply client_keeps.
Qed.

Lemma reachable_inv cfg o s : os_wf o -> os_stray o = [] ->
  reachable cfg o s -> sys_inv (os_open o) s.
Proof.
  intros Hwf Hs H. induction H; [| by eapply sys_inv_step].
  split; simpl; try done; try by apply waits_not_blocked.
  rewrite union_empty_r_L. by apply Listener_new_inv.
Qed.

(** A thread whose flag is set and whose socket is closed has a step of its own,
    and whatever it does next ends it. *)
Lemma loop_ends fd o pc : os_wf o -> (fd < 0)%Z -> waits_on o fd pc ->
  pc = NoThread \/ pc = Exited \/
  ((exists pc', loop_step true fd o pc pc') /\
   forall pc', loop_step true fd o pc pc' \/ loop_error true pc pc' -> pc' = Exited).
Proof.
  intros [_ Hwf] Hfd Hw.
  assert (fd ∉ os_open o) as Hopen by (intros H%Hwf; lia).
  destruct pc as [| | |fd'|]; [by left | | | | by right; left]; right; right.
  - split; [by eexists; apply loop_head |]. intros pc' [H|H]; by inv H.
  - split; [eexists; apply loop_fails; by left |]. intros pc' [H|H]; inv H; done.
  - destruct (Hw fd' eq_refl) as [H0 [->|H1]]; [lia |].
    split; [by eexists; apply loop_woken |]. intros pc' [H|H]; by inv H.
Qed.

(** While a stop waits, a thread's socket is closed, so nothing can arrive. *)
Lemma dns_moves l al mn acc dns cl s' : (dns_fd l < 0)%Z -> os_wf (li_os l) ->
  waits_on (li_os l) (dns_fd l) dns -> dns_flag l = true ->
  dns_step (mkSys l al mn acc dns cl) s' \/ dns_event (mkSys l al mn acc dns cl) s' ->
  exists dns', s' = mkSys l al mn acc dns' cl /\
    (loop_step true (dns_fd l) (li_os l) dns dns' \/ loop_error true dns dns').
Proof.
  intros Hfd Hwf Hw Hfl [H|H].
  - inv H. rewrite Hfl in *. eexists. split; [done | by left].
  - inv H.
    + destruct (Hw fd eq_refl) as [? [->|]]; [lia | done].
    + rewrite Hfl in *. eexists. split; [done | by right].
Qed.

Lemma acc_moves l al mn acc dns cl s' : (li_fd l < 0)%Z -> os_wf (li_os l) ->
  waits_on (li_os l) (li_fd l) acc -> li_stop l = true ->
  acc_step (mkSys l al mn acc dns cl) s' \/ acc_event (mkSys l al mn acc dns cl) s' ->
  exists acc', s' = mkSys l al mn acc' dns cl /\
    (loop_step true (li_fd l) (li_os l) acc acc' \/ loop_error true acc acc').
Proof.
  intros Hfd Hwf Hw Hst [H|H].
  - inv H. rewrite Hst in *. eexists. split; [done | by left].
  - inv H.
    + destruct (Hw fd eq_refl) as [? [->|]]; [lia | done].
    + rewrite Hst in *. eexists. split; [done | by right].
Qed.

(** C14: stopping ends, and joins before the object goes. In every state the
    threads can reach: while a stop waits for the responder's thread or for the
    accept thread, either that join can be taken at once, or the thread is not
    blocked: it has a step of its own, that needs no connection and no datagram,
    and after any one step of it, whichever it is, the join can be taken, no new
    connection being accepted; and once the coordinator is destroyed neither
    thread exists. What wakes a thread that waits in accept or recvfrom is the
    shutdown of its socket: a close alone does not. *)
Theorem stop_returns cfg o s :
  os_wf o -> os_stray o = [] -> reachable cfg o s ->
  (forall d, sy_main s = MDnsJoin d ->
     (exists s', sys_step s s' /\ sy_main s' = MJoin d) \/
     ((exists s', dns_step s s') /\
      forall s', dns_step s s' \/ dns_event s s' ->
        exists s2, sys_step s' s2 /\ sy_main s2 = MJoin d)) /\
  (forall d, sy_main s = MJoin d ->
     (exists s', sys_step s s' /\ sy_main s' = MIdle /\ sy_alive s' = negb d) \/
     ((exists s', acc_step s s') /\
      forall s', acc_step s s' \/ acc_event s s' -> sy_clients s' = sy_clients s /\
        exists s2, sys_step s' s2 /\ sy_main s2 = MIdle /\ sy_alive s2 = negb d)) /\
  (sy_alive s = false -> sy_acc s = NoThread /\ sy_dns s = NoThread).
Proof.
  intros Hwf Hs H. apply (reachable_inv cfg o s Hwf Hs) in H as [Hi Hcl Hj Hdj Hw Hdw Hmd Hm Hd].
  destruct s as [l al mn acc dns cl]. simpl in *. pose proof (li_os_wf Hi) as Hwf'.
  split; [| split; [| intros Ha; by destruct (Hd Ha)]].
  - intros d ->. destruct (Hmd d eq_refl) as (-> & Hst & Hf & Ho & Hfl & Hdf).
    assert (forall dns', (dns_thread l = true -> dns' = Exited) ->
      exists s2, sys_step (mkSys l true (MDnsJoin d) acc dns' cl) s2 /\ sy_main s2 = MJoin d) as Hjoin.
    { intros dns' Hex. destruct (stop_dns_joined_inv _ l Hi Ho Hf) as (l1 & H1 & _).
      - unfold dns_fd in Hdf. destruct (li_dns l); [by apply fd_set_neg | done].
      - eexists. by split; [apply (step_dns_join l l1) |]. }
    destruct (loop_ends _ _ _ Hwf' Hdf Hdw) as [->|[->|[[dns' Hstep] Hend]]].
    + left. apply Hjoin. intros Ht. by apply Hdj in Ht.
    + left. by apply Hjoin.
    + right. split; [eexists; apply dns_step_intro; rewrite Hfl; exact Hstep |].
      intros s' Hs'. destruct (dns_moves l true (MDnsJoin d) acc dns cl s' Hdf Hwf' Hdw Hfl Hs')
        as (dns2 & -> & H2). apply Hend in H2 as ->. by apply Hjoin.
  - intros d ->. destruct (Hm d eq_refl) as (-> & Hst & Hf & Ho & Hdn).
    assert (forall acc', (li_accept l = true -> acc' = Exited) ->
      exists s2, sys_step (mkSys l true (MJoin d) acc' dns cl) s2 /\ sy_main s2 = MIdle /\
        sy_alive s2 = negb d) as Hjoin.
    { intros acc' Hex. eexists. by split; [apply step_join |]. }
    destruct (loop_ends _ _ _ Hwf' Hf Hw) as [->|[->|[[acc' Hstep] Hend]]].
    + left. apply Hjoin. intros Ht. by apply Hj in Ht.
    + left. by apply Hjoin.
    + right. split; [eexists; apply acc_step_intro; rewrite Hst; exact Hstep |].
      intros s' Hs'. destruct (acc_moves l true (MJoin d) acc dns cl s' Hf Hwf' Hw Hst Hs')
        as (acc2 & -> & H2). apply Hend in H2 as ->. split; [done |]. by apply Hjoin.
Qed.

(** A system on which every call succeeds. *)
Definition calm_os : Os := mkOs 3 ∅ ∅ [] [] (fun _ => ([], 0%Z)).

(** One connection is accepted, then the coordinator is destroyed. *)
Lemma outlive_reach cfg o :
  let start := run_async (Listener_new cfg o) in
  let l1 := start.2 in
  let stopped := stop_signal (set_li_os (new_fd (li_os l1)).2 l1) in
  let l2 := stopped.2 in
  start.1 = Ok tt -> li_stop l1 = false -> dns_thread l1 = true ->
  li_fd l1 ∈ os_open (li_os l1) -> li_fd l1 ∉ os_shut (li_os l1) ->
  stopped.1 = Ok tt -> li_stop l2 = true -> dns_flag l2 = true -> (stop_dns_joined l2).1 = Ok tt ->
  reachable cfg o (mkSys (stop_joined (stop_dns_joined l2).2).2 false MIdle NoThread NoThread
    ({[os_next (li_os l1)]} ∪ ∅)).
Proof.
  intros start l1 stopped l2 H1%outcome_eq Hst1 Hd1 Hopen Hshut H2%outcome_eq Hst2 Hd2 H3%outcome_eq.
  set (l3 := (stop_dns_joined l2).2) in *. clearbody l3. fold l1 in H1. fold l2 in H2. subst start stopped.
  clearbody l1. clearbody l2.
  eapply reach_step; [| by apply (step_join l3 true Exited)].
  eapply reach_step; [| by apply (step_dns_join l2 l3 true Exited Exited)].
  eapply reach_step.
  2: { apply step_dns. left. apply (dns_step_intro l2 true (MDnsJoin true) Exited AtHead Exited).
       pose proof (loop_head (dns_flag l2) (dns_fd l2) (li_os l2)) as H. rewrite Hd2 in H |- *. exact H. }
  eapply reach_step.
  2: { apply step_acc. left. apply (acc_step_intro l2 true (MDnsJoin true) AtHead Exited).
       pose proof (loop_head (li_stop l2) (li_fd l2) (li_os l2)) as H. rewrite Hst2 in H |- *. exact H. }
  eapply reach_step; [| by apply (step_stop (set_li_os (new_fd (li_os l1)).2 l1) l2 true AtHead)].
  eapply reach_step; [| apply step_acc; right; apply (acc_conn l1 true MIdle (li_fd l1)); done].
  eapply reach_step; [| apply step_acc; left; apply (acc_step_intro l1 true MIdle AtCall);
    by apply loop_blocks].
  eapply reach_step.
  2: { apply step_acc. left. apply (acc_step_intro l1 true MIdle AtHead AtCall).
       pose proof (loop_head (li_stop l1) (li_fd l1) (li_os l1)) as H. rewrite Hst1 in H |- *. exact H. }
  eapply reach_step; [apply reach_init |].
  assert (dns_started (Listener_new cfg o) l1 NoThread = AtHead) as E
    by (unfold dns_started; by rewrite Hd1).
  pose proof (step_start (Listener_new cfg o) l1 NoThread NoThread ∅ H1) as H. rewrite E in H. exact H.
Qed.

(** Client threads are not joined. With every system call succeeding there
    are a start, a connection and a destruction of the coordinator after which
    the detached thread of the connection still runs, on an object that no
    longer exists, its descriptor open. *)
Theorem client_outlives_coordinator :
  exists s fd, reachable default_config calm_os s /\ sy_alive s = false /\
    fd ∈ sy_clients s /\ fd ∈ os_open (li_os (sy_li s)).
Proof.
  eexists _, 5%Z. split.
  - apply (outlive_reach default_config calm_os);
      [ vm_compute; reflexivity | vm_compute; reflexivity | vm_compute; reflexivity
      | apply (bool_decide_unpack _); vm_compute; exact I | apply (bool_decide_unpack _);
        vm_compute; exact I
      | vm_compute; reflexivity | vm_compute; reflexivity | vm_compute; reflexivity | vm_compute;
        reflexivity ].
  - split; [done |]. split; apply (bool_decide_unpack _); vm_compute; exact I.
Qed.

End Threads.

(** ** The theorems at concrete inputs *)

Import SampleInet.

Lemma calm_wf : os_wf calm_os.
Proof. split; [simpl; lia | intros fd []%elem_of_empty]. Qed.

(** The second start is refused, the third fails to create its thread. *)
Definition failing_os : Os :=
  mkOs 3 ∅ ∅ [] (replicate 7 true ++ [true; true; true; true; true; false]) (fun _ => ([], 0%Z)).
Definition mixed_ops : list li_op := [LStart; LStart; LStop; LStart].

Lemma descriptors_balanced_witness :
  (is_ok <$> (run_ops mixed_ops (Listener_new default_config failing_os)).1) =
    [true; false; true; false] /\
  exists l', stop (run_ops mixed_ops (Listener_new default_config failing_os)).2 = (Ok tt, l') /\
    os_open (li_os l') = ∅ /\ os_stray (li_os l') = [].
Proof.
  split; [vm_compute; reflexivity |].
  pose proof (descriptors_balanced default_config failing_os mixed_ops calm_wf eq_refl) as H.
  destruct (run_ops mixed_ops (Listener_new default_config failing_os)) as [rs l].
  exact (proj2 (proj2 (proj2 (proj2 H)))).
Defined.

Definition busy_port : Os := mkOs 3 ∅ ∅ [] [true; false] (fun _ => ([], 0%Z)).

Lemma failed_start_sticks_witness :
  exists l', run_async (Listener_new default_config busy_port) =
      (Throw (RuntimeError "bind failed on 0.0.0.0:8080"), l') /\
    (running l').1 = Ok true /\ li_accept l' = false.
Proof.
  destruct (run_async (Listener_new default_config busy_port)) as [r l'] eqn:H.
  assert (r = Throw (RuntimeError "bind failed on 0.0.0.0:8080")) as ->
    by (change r with (r, l').1; rewrite <-H; vm_compute; reflexivity).
  destruct (failed_start_sticks _ _ _ l' (Listener_new_inv default_config busy_port calm_wf eq_refl)
    eq_refl H) as (Hr & Ha & _).
  exists l'. split; [reflexivity |]. split; [exact Hr | exact Ha].
Defined.

(** A coordinator whose threads wait for a connection and for a datagram when it
    is stopped. *)
Definition started : Listener := (run_async (Listener_new default_config calm_os)).2.
Definition stopping : Sys :=
  mkSys (stop_signal started).2 true (MDnsJoin false) (Blocked 3) (Blocked 4) ∅.

Lemma stopping_reachable : reachable default_config calm_os stopping.
Proof.
  pose proof (outcome_eq (run_async (Listener_new default_config calm_os)) (Ok tt)) as H1.
  pose proof (outcome_eq (stop_signal started) (Ok tt)) as H2.
  eapply reach_step; [| apply (step_stop started _ false (Blocked 3) (Blocked 4) ∅), H2;
    vm_compute; reflexivity].
  eapply reach_step; [| apply step_dns; left; apply (dns_step_intro started true MIdle (Blocked 3) AtCall);
    apply (loop_blocks false 4); apply (bool_decide_unpack _); vm_compute; exact I].
  eapply reach_step; [| apply step_dns; left; apply (dns_step_intro started true MIdle (Blocked 3) AtHead);
    apply (loop_head false)].
  eapply reach_step; [| apply step_acc; left; apply (acc_step_intro started true MIdle AtCall);
    apply (loop_blocks false 3); apply (bool_decide_unpack _); vm_compute; exact I].
  eapply reach_step; [| apply step_acc; left; apply (acc_step_intro started true MIdle AtHead);
    apply (loop_head false)].
  eapply reach_step; [apply reach_init |].
  exact (step_start (Listener_new default_config calm_os) started NoThread NoThread ∅ (H1 eq_refl)).
Qed.

Lemma stop_returns_witness :
  reachable default_config calm_os stopping /\
  ((exists s', sys_step stopping s' /\ sy_main s' = MJoin false) \/
   ((exists s', dns_step stopping s') /\
    forall s', dns_step stopping s' \/ dns_event stopping s' ->
      exists s2, sys_step s' s2 /\ sy_main s2 = MJoin false)).
Proof.
  split; [exact stopping_reachable |].
  exact (proj1 (stop_returns default_config calm_os stopping calm_wf eq_refl stopping_reachable)
    false eq_refl).
Defined.
