(* ===== verification/Races.v ===== *)
(** * Races: the lock sections of concurrent requests, interleaved

    Connections run in threads of their own and share the store. A use of a
    preauth key is three steps, since the state file is read before the lock is
    taken and what was read is installed in a lock section of its own. Here any
    number of threads take these steps in any order. *)

From S2P Require Import Prelude.
From S2P Require Import Crypto.
From S2P Require Import Keys.
From S2P Require Import IpAlloc.
From S2P Require Import Json.
From S2P Require Import State.
From S2P Require Import StateFacts.
From S2P Require Import StateSpec.
From S2P Require Import StateLife.
From S2P Require Import StateSamples.

(** ** Threads that use the same preauth key *)

Section Consumers.
  Context `{OSSL : !OpenSSL} `{Inet : !InetLib} `{JL : !JsonLib}.

(** Where a thread is in consume_preauth: before it, with the file's keys read,
    with them installed under the lock and the lock released, returned. *)
Inductive consumer :=
  | CStart
  | CRead (file : option json)
  | CInstalled
  | CDone (r : res (option PreauthClaim)).

Definition consumer_step (key : string) (pc : consumer) (st : St) : consumer * St :=
  match pc with
  | CStart => (CRead (read_keys_file st), st)
  | CRead None => (CInstalled, st)
  | CRead (Some j) =>
      match on_store (replace_keys j) st with
      | (Ok _, st) => (CInstalled, st)
      | (Throw e, st) => (CDone (Throw e), st)
      | (Ub, st) => (CDone Ub, st)
      end
  | CInstalled => let '(r, st) := consume_locked key st in (CDone r, st)
  | CDone r => (CDone r, st)
  end.

(** The store and the threads; a schedule is the list of the threads that take
    the successive steps. *)
Definition pool := (St * list consumer)%type.

Definition pool_step (key : string) (i : nat) (p : pool) : pool :=
  match p.2 !! i with
  | Some pc => let '(pc', st) := consumer_step key pc p.1 in (st, <[i := pc']> p.2)
  | None => p
  end.

Definition run_sched (key : string) (sched : list nat) (p : pool) : pool :=
  fold_left (fun p i => pool_step key i p) sched p.

Definition granted (pc : consumer) : bool :=
  match pc with CDone (Ok (Some _)) => true | _ => false end.
Definition grants (pcs : list consumer) : nat := length (List.filter granted pcs).

Definition reading (pc : consumer) : bool := match pc with CRead _ => true | _ => false end.

(** No thread has a file in hand when another one uses the key. *)
Fixpoint serial (key : string) (sched : list nat) (p : pool) : bool :=
  match sched with
  | [] => true
  | i :: sched =>
      match p.2 !! i with
      | Some CInstalled => forallb (fun pc => negb (reading pc)) p.2
      | _ => true
      end && serial key sched (pool_step key i p)
  end.

End Consumers.

(** Every use of [key] would be of a one-shot key. *)
Definition one_shot (key : string) (ks : list PreauthKey) : Prop :=
  forall k, find_first (is_key key) ks = Some k -> pk_reusable k = false.

Section RaceFacts.
  Context `{OSSL : !OpenSSL} `{Inet : !InetLib} `{JLaws : JsonLaws}.

(** Alone, the three steps are consume_preauth. *)
Lemma consumer_alone key st : exists st',
  run_sched key [0; 0; 0] (st, [CStart]) = (st', [CDone (consume_preauth key st).1]) /\
  st' = (consume_preauth key st).2.
Proof.
  unfold run_sched, consume_preauth, reload_keys_from_disk. cbn [fold_left].
  change (pool_step key 0 (st, [CStart])) with (st, [CRead (read_keys_file st)]).
  unfold mbind at 1 3, M_bind at 1 3.
  destruct (read_keys_file st) as [j|] eqn:Er; unfold pool_step, consumer_step;
    cbn [snd fst lookup list_lookup].
  - assert ((file ← gets read_keys_file; match file with Some j => on_store (replace_keys j) | None
    => mret () end) st
      = on_store (replace_keys j) st) as -> by (erewrite bind_Ok by reflexivity; by rewrite Er).
    destruct (on_store (replace_keys j) st) as [[u|e|] st1]; cbn.
    + destruct (consume_locked key st1) as [r st2]. eexists. by split.
    + eexists. by split.
    + eexists. by split.
  - assert ((file ← gets read_keys_file; match file with Some j => on_store (replace_keys j) | None
    => mret () end) st
      = (Ok tt, st)) as -> by (erewrite bind_Ok by reflexivity; by rewrite Er).
    cbn. destruct (consume_locked key st) as [r st2]. eexists. by split.
Qed.

Lemma one_shot_closed key : keys_closed (one_shot key).
Proof.
  split.
  - intros ks H k. rewrite find_first_norm.
    destruct (find_first (is_key key) ks) as [k0|] eqn:E; [| done]. intros [= <-]. by apply (H k0).
  - intros now key' ks ks' c H. rewrite consume_scan_spec.
    destruct (find_first (is_key key') ks) as [k'|]; [| done]. destruct (key_valid now k'); [| done].
    destruct (update_first _ _ ks) as [[ks1 y]|] eqn:E; [| done]. intros [= <- _] k.
    rewrite (find_first_update_used _ _ _ _ _ E).
    destruct (find_first (is_key key) ks) as [k0|] eqn:E0; [| done]. intros [= <-].
    specialize (H k0 E0). by destruct (is_key key' k0).
Qed.

(** What a thread with a file in hand may install. *)
Definition pending (P : list PreauthKey -> Prop) (pc : consumer) : Prop :=
  match pc with
  | CRead (Some j) => exists ks, j = jarr (key_to_json <$> ks) /\ P ks
  | _ => True
  end.

Lemma consumer_step_held P key pc st : keys_closed P -> Held P st -> pending P pc ->
  Held P (consumer_step key pc st).2 /\ pending P (consumer_step key pc st).1.
Proof.
  intros HP HS Hpc. destruct pc as [|[j|]| |r]; cbn [consumer_step].
  - split; [done |]. simpl. destruct (read_keys_file st) as [j|] eqn:Er; [| done].
    destruct HS as (_ & _ & [Hp|(ks & Hks & Hk)]).
    + unfold read_keys_file in Er. by rewrite Hp in Er.
    + exists ks. split; [congruence | done].
  - destruct Hpc as (ks & -> & Hk). unfold on_store, zoom. rewrite replace_keys_jarr. simpl.
    split; [| done]. destruct HS as (Hh & Hm & Hd). split; [done |]. split; [by apply HP |].
    destruct Hd as [Hp|(ks' & Hks & Hk')]; [by left | right]. exists ks'. split; [| done].
    rewrite <-Hks. by apply read_keys_file_ext.
  - done.
  - pose proof (Held_consume_locked P key HP st HS) as H.
    destruct (consume_locked key st) as [r st']. by split.
  - done.
Qed.

Lemma granted_insert (pcs : list consumer) (i : nat) (pc pc' : consumer) : pcs !! i = Some pc ->
  granted pc = false ->
  grants (<[i := pc']> pcs) = (grants pcs + if granted pc' then 1 else 0)%nat.
Proof.
  unfold grants. revert i. induction pcs as [|p pcs IH]; intros [|i]; simpl; try done.
  - intros [= ->] ->. destruct (granted pc'); simpl; lia.
  - intros Hi Hg. specialize (IH i Hi Hg). destruct (granted p); simpl; lia.
Qed.

Lemma granted_same (pcs : list consumer) (i : nat) (pc : consumer) : pcs !! i = Some pc ->
  <[i := pc]> pcs = pcs.
Proof. apply list_insert_id. Qed.

(** Nothing granted yet, or the key spent everywhere. *)
Definition race_inv (key : string) (p : pool) : Prop :=
  (grants p.2 = 0 /\ Held (one_shot key) p.1 /\ Forall (pending (one_shot key)) p.2) \/
  (grants p.2 = 1 /\ Held (spent key) p.1 /\ Forall (pending (spent key)) p.2).

Lemma spent_refused key st : spent key (st_keys (store st)) -> (consume_locked key st).1 = Ok None.
Proof.
  intros H. unfold consume_locked. erewrite bind_Ok by done. by rewrite spent_not_consumed.
Qed.

Lemma pool_step_inv key i p : race_inv key p ->
  match p.2 !! i with Some CInstalled => forallb (fun pc => negb (reading pc)) p.2 | _ => true end = true ->
  race_inv key (pool_step key i p).
Proof.
  destruct p as [st pcs]. intros Hinv Hser. unfold pool_step. simpl in *.
  destruct (pcs !! i) as [pc|] eqn:Hi; [| done].
  destruct (granted pc) eqn:Hg.
  { destruct pc as [| | |r]; try done. cbn. by rewrite granted_same. }
  assert (forall P, keys_closed P -> Held P st -> Forall (pending P) pcs ->
    Held P (consumer_step key pc st).2 /\ Forall (pending P) (<[i :=
      (consumer_step key pc st).1]> pcs)) as Hstep.
  { intros P HP HS Hp. destruct (consumer_step_held P key pc st HP HS) as [H1 H2];
      [by eapply Forall_lookup_1 |]. split; [done |]. by apply Forall_insert. }
  destruct Hinv as [(Hn & HS & Hp)|(Hn & HS & Hp)].
  - destruct (Hstep _ (one_shot_closed key) HS Hp) as [HS' Hp'].
    destruct (consumer_step key pc st) as [pc' st'] eqn:Es. simpl in *.
    destruct (granted pc') eqn:Hg'.
    + right. simpl. rewrite (granted_insert _ _ _ _ Hi Hg), Hn, Hg'. split; [done |].
      destruct pc as [|[j|]| |r]; simpl in Es.
      * by injection Es as <- _.
      * destruct (on_store (replace_keys j) st) as [[]]; by injection Es as <- _.
      * by injection Es as <- _.
      * destruct (consume_locked key st) as [r st1] eqn:Ec. injection Es as <- <-. simpl in Hg'.
        destruct r as [[c|]|e|]; try done. destruct HS as (Hh & Hm & _).
        split; [by eapply consume_locked_spends |]. apply Forall_insert; [| done].
        rewrite forallb_forall in Hser. apply Forall_forall. intros pc Hpc%list_elem_of_In.
        apply Hser in Hpc. by destruct pc as [|[]| |].
      * injection Es as <- _. congruence.
    + left. simpl. rewrite (granted_insert _ _ _ _ Hi Hg), Hn, Hg'. by split_and!.
  - right. destruct (Hstep _ (spent_closed key) HS Hp) as [HS' Hp'].
    destruct (consumer_step key pc st) as [pc' st'] eqn:Es. simpl in *.
    rewrite (granted_insert _ _ _ _ Hi Hg), Hn.
    assert (granted pc' = false) as ->; [| by split_and!].
    destruct pc as [|[j|]| |r]; simpl in Es.
    + by injection Es as <- _.
    + destruct (on_store (replace_keys j) st) as [[]]; by injection Es as <- _.
    + by injection Es as <- _.
    + pose proof (spent_refused key st (proj1 (proj2 HS))) as Hr.
      destruct (consume_locked key st) as [r st1]. simpl in Hr. subst r. by injection Es as <- _.
    + injection Es as <- _. done.
Qed.

(** C16: however the requests of any number of threads are interleaved, a
    one-shot key is granted at most once, provided no thread stands between
    reading the state file and installing what it read while another one uses
    the key: the window before the lock is the only weakness. *)
Theorem one_shot_interleaved key n sched st :
  Held (one_shot key) st -> serial key sched (st, replicate n CStart) = true ->
  (grants (run_sched key sched (st, replicate n CStart)).2 <= 1)%nat.
Proof.
  intros HS Hser.
  assert (race_inv key (st, replicate n CStart)) as Hinv.
  { left. simpl. split; [unfold grants; clear; by induction n |]. split; [done |].
    by apply Forall_replicate. }
  assert (race_inv key (run_sched key sched (st, replicate n CStart))) as H.
  { revert Hinv Hser. generalize (st, replicate n CStart).
    induction sched as [|i sched IH]; intros p Hinv Hser; [done |]. simpl in Hser.
      apply andb_true_iff in Hser as [Hi Hser].
    cbn [run_sched fold_left]. apply IH; [| done]. by apply pool_step_inv. }
  destruct H as [(-> & _)|(-> & _)]; lia.
Qed.

(** ** The window before the lock *)

(** A file installed twice, with a use in between, gives the same keys. *)
Lemma replace_keys_set_keys j ks s : replace_keys j (set_keys ks s) = replace_keys j s.
Proof. reflexivity. Qed.

(** What a granted use does to the store and the world around it. *)
Lemma consume_locked_again key st c st1 st' :
  st_persist_hook (store st) = None -> consume_locked key st = (Ok (Some c), st1) ->
  store st' = store st -> w_now (world st') = w_now (world st) ->
  w_can_write (world st') = w_can_write (world st) ->
  w_can_rename (world st') = w_can_rename (world st) ->
  (consume_locked key st').1 = Ok (Some c).
Proof.
  destruct st as [s w], st' as [s' w']. simpl. intros Hh Hc -> Hn Hw Hr.
  unfold consume_locked in *. erewrite bind_Ok in * by done. simpl in *. rewrite Hn.
  destruct (consume_scan _ _ _) as [[ks c']|]; [| done].
  erewrite bind_Ok in * by done. apply bind_Ok_inv in Hc as ([] & s2 & Hsave & [= <- _]).
  pose proof (save_locked_again (mkSt (set_keys ks s) w) (mkSt (set_keys ks s) w') eq_refl Hw Hr Hh) as H.
  simpl in Hsave. rewrite Hsave in H. destruct (save_locked (mkSt (set_keys ks s) w')) as [r s3]
    eqn:E3. simpl in H. subst r.
  by rewrite (bind_Ok _ _ _ _ _ E3).
Qed.

Lemma consume_locked_env key st c st1 :
  st_persist_hook (store st) = None -> consume_locked key st = (Ok (Some c), st1) ->
  same_env (world st) (world st1) /\ exists ks, store st1 = set_keys ks (store st).
Proof.
  destruct st as [s w]. simpl. intros Hh Hc. unfold consume_locked in Hc.
  erewrite bind_Ok in Hc by done. simpl in Hc.
  destruct (consume_scan _ _ _) as [[ks c']|]; [| done].
  erewrite bind_Ok in Hc by done. apply bind_Ok_inv in Hc as ([] & s2 & Hsave & [= _ <-]).
  pose proof (save_locked_env (mkSt (set_keys ks s) w) Hh) as He.
  pose proof (save_locked_store (mkSt (set_keys ks s) w)) as Hs. simpl in Hsave. rewrite Hsave in He, Hs.
  split; [exact He |]. by exists ks.
Qed.

(** C17: the window between reading the state file and taking the lock is real.
    If a use of a preauth key would be granted, then two uses that overlap as
    follows are both granted, a one-shot key included: the first thread reads
    the file, the second one consumes the key, the first one installs what it
    had read, which takes the mark of the use back, and consumes the key. *)
Theorem one_shot_race key st c st1 file :
  st_persist_hook (store st) = None -> read_keys_file st = Some file ->
  consume_preauth key st = (Ok (Some c), st1) ->
  (run_sched key [0; 1; 1; 1; 0; 0] (st, [CStart; CStart])).2 =
    [CDone (Ok (Some c)); CDone (Ok (Some c))].
Proof.
  intros Hh Hf Hc. unfold consume_preauth, reload_keys_from_disk in Hc.
  apply bind_Ok_inv in Hc as ([] & sr & Hrel & Hc). erewrite bind_Ok in Hrel by done. cbv beta in Hrel.
  rewrite Hf in Hrel. unfold on_store, zoom in Hrel.
  destruct (replace_keys file (store st)) as [r s'] eqn:Er. injection Hrel as -> <-.
  destruct (replace_keys_frame file (store st)) as [ks0 Hks0]. rewrite Er in Hks0. simpl in Hks0.
  assert (st_persist_hook s' = None) as Hh' by by rewrite Hks0.
  destruct (consume_locked_env _ (mkSt s' (world st)) _ _ Hh' Hc) as [(Hn & Hw & Hr) [ks1 Hs1]].
  assert (replace_keys file (store st1) = (Ok tt, s')) as Er1.
  { simpl in Hs1. rewrite Hs1, Hks0, !replace_keys_set_keys. rewrite <-Hks0. exact Er. }
  pose proof (consume_locked_again key (mkSt s' (world st)) c st1 (mkSt s' (world st1))
    Hh' Hc eq_refl Hn Hw Hr) as Hagain.
  unfold run_sched. cbn [fold_left].
  unfold pool_step, consumer_step, on_store, zoom. cbn [fst snd lookup list_lookup].
  rewrite Hf. cbn -[replace_keys consume_locked]. rewrite Er. cbn -[replace_keys consume_locked].
  rewrite Hc. cbn -[replace_keys consume_locked]. rewrite Er1. cbn -[replace_keys consume_locked].
  destruct (consume_locked key (mkSt s' (world st1))) as [r st2]. simpl in Hagain. by subst r.
Qed.

End RaceFacts.

(** ** Samples *)

Import SampleCrypto SampleInet SampleJson.

(** One thread after the other, then two at once, on the key "beta". *)
Example one_after_the_other :
  grants (run_sched minted_key [0; 0; 0; 1; 1; 1] (st_minted, [CStart; CStart])).2 = 1.
Proof. vm_compute. reflexivity. Qed.

Lemma one_shot_interleaved_witness :
  grants (run_sched minted_key [1; 1; 0; 0; 1; 0] (st_minted, [CStart; CStart])).2 = 1 /\
  (grants (run_sched minted_key [1; 1; 0; 0; 1; 0] (st_minted, replicate 2 CStart)).2 <= 1)%nat.
Proof.
  split; [vm_compute; reflexivity |]. apply (one_shot_interleaved minted_key 2).
  - split; [reflexivity |]. split; [intros k; vm_compute; by intros [= <-] |].
    right. exists (st_keys (store st_minted)). split; [vm_compute; reflexivity |].
    intros k. vm_compute. by intros [= <-].
  - vm_compute. reflexivity.
Defined.

Lemma one_shot_race_witness :
  (pk_reusable <$> find_first (is_key minted_key) (st_keys (store st_minted))) = Some false /\
  (run_sched minted_key [0; 1; 1; 1; 0; 0] (st_minted, [CStart; CStart])).2 =
    [CDone (Ok (Some (mkPreauthClaim true "beta" false)));
     CDone (Ok (Some (mkPreauthClaim true "beta" false)))].
Proof.
  split; [vm_compute; reflexivity |].
  assert (exists f, read_keys_file st_minted = Some f) as [f Hf] by (eexists; vm_compute; reflexivity).
  eapply (one_shot_race minted_key st_minted (mkPreauthClaim true "beta" false) _ f).
  - reflexivity.
  - exact Hf.
  - vm_compute. reflexivity.
Defined.
