(* ===== verification/MapRaces.v ===== *)
(** * MapRaces: the generation of the map and the threads that change it

    Another connection may register a node, or change one, between any two uses
    of the store by a handler. Here the steps of the opening of a map stream and
    of the tick are interleaved with any such changes: the tick samples the
    generation before it builds the maps, so a change it misses is sent by the
    next one; the opening samples it after, so a change it misses is not. *)

From S2P Require Import Prelude.
From S2P Require Import Crypto.
From S2P Require Import Keys.
From S2P Require Import IpAlloc.
From S2P Require Import Json.
From S2P Require Import State.
From S2P Require Import Netmap.
From S2P Require Import Socket.
From S2P Require Import Noise.
From S2P Require Import Http2.
From S2P Require Import Coordinator.
From S2P Require Import CoordFacts.
From S2P Require Import TickFacts.
From S2P Require Import CoordSamples.

Section Among.
  Context `{OSSL : !OpenSSL} `{Inet : !InetLib} `{JL : !JsonLib} `{ZS : !Zstd} `{NG : !Nghttp2}.

(** The end of on_map for a stream, with what other threads do to the
    coordinator between the first frame and the generation. *)
Definition open_stream_among (others : Co -> Co) (sid : Z) (machine_key : string)
    (self : NodeState) (zstd : bool) : M Serve unit :=
  first ← full_map_frame self zstd;
  _ ← with_h2 (reply_stream_start sid 200 first);
  _ ← on_co (modify others);
  gen ← on_co map_gen;
  now ← gets (fun s => co_steady (sv_co s));
  modify (fun s => set_sv_live (sv_live s ++ [mkLiveMap sid machine_key zstd gen now]) s).

(** The tick, with what they do before each element of the loop; the lock of
    [live] is not theirs, the generation has been sampled. *)
Fixpoint tick_loop_among (others : nat -> Co -> Co) (gen now : Z) (done todo : list LiveMap)
    : M Serve unit :=
  match todo with
  | [] => mret ()
  | m :: todo =>
      _ ← on_co (modify (others (length todo)));
      m' ← tick_one gen now m;
      _ ← modify (set_sv_live (done ++ m' :: todo));
      tick_loop_among others gen now (done ++ [m']) todo
  end.

Definition on_tick_among (others : nat -> Co -> Co) : M Serve unit :=
  now ← gets (fun s => co_steady (sv_co s));
  gen ← on_co map_gen;
  live ← gets sv_live;
  tick_loop_among others gen now [] live.

(** Undisturbed they are the handlers. *)
Lemma open_stream_alone sid m self z s :
  find_first (is_machine m) (sv_nodes s) = Some self ->
  answer_map sid m true false z s = open_stream_among id sid m self z s.
Proof.
  intros Hf. unfold answer_map, open_stream_among. cbn [andb negb].
  rewrite find_step, Hf. unfold mbind, M_bind.
  destruct (full_map_frame self z s) as [[first|e|] s1]; [| done | done].
  destruct (with_h2 _ s1) as [[[]|e|] s2]; [| done | done]. by destruct s2 as [[]].
Qed.

End Among.

Section MapRaceFacts.
  Context `{OSSL : !OpenSSL} `{Inet : !InetLib} `{JL : !JsonLib} `{ZS : !Zstd} `{NG : !Nghttp2}
    `{NLaws : !Nghttp2Laws}.

(** C28: a change made while a map stream opens is not sent on it. Whatever other
    threads do between the first map and the sampling of the generation, the
    stream holds the map of the state before, yet is recorded as up to date with
    the state after, so that a tick finds nothing but a keepalive to send on it:
    the client keeps the old peers until the generation moves again. *)
Theorem map_stream_misses_change others sid m self z s first :
  h2_inv (sv_h2 s) -> map_frame_now (sv_co s) self z = Ok first ->
  exists i' l, open_stream_among others sid m self z s =
      (Ok tt, mkServe (others (sv_co s)) i' (sv_live s ++ [l])) /\
    lm_stream_id l = sid /\ lm_machine l = m /\
    stream_at i' sid = set_out first 0 true false <$> stream_at (sv_h2 s) sid /\
    stale (others (sv_co s)) l = false /\
    forall c, co_map_gen c = co_map_gen (others (sv_co s)) ->
      tick_sends c l = if keepalive_due c l then Some (keepalive_now c z) else None.
Proof.
  intros Hi Hf. destruct (submit_spec (sv_h2 s) sid (set_out first 0 true false) 200 (Some
    "application/json") true Hi)
    as (i' & Hr & _ & Hs); [done |]. fold (reply_stream_start sid 200 first) in Hr.
  specialize (Hs sid). rewrite Z.eqb_refl in Hs.
  exists i', (mkLiveMap sid m z (co_map_gen (others (sv_co s))) (co_steady (others (sv_co s)))).
  split; [| do 2 (split; [done |]); split; [done |]; split].
  - unfold open_stream_among.
    rewrite (bind_Ok _ _ s first s) by (by rewrite full_map_frame_eq, Hf).
    rewrite (bind_Ok _ _ _ _ _ (with_h2_step _ _ _ _ Hr)).
    destruct s as [c h2 live]. simpl. erewrite bind_Ok by reflexivity. unfold map_gen, mbind, M_bind.
    simpl. by destruct (others c).
  - unfold stale. simpl. by rewrite Z.eqb_refl.
  - intros c Hc. unfold tick_sends, stale. simpl. by rewrite Hc, Z.eqb_refl.
Qed.

Lemma tick_one_gen gen now l s l' s' :
  tick_one gen now l s = (Ok l', s') -> lm_last_gen l' = gen.
Proof.
  unfold tick_one. destruct (Z.eqb_spec gen (lm_last_gen l)) as [E|E]; cbn [negb].
  - unfold mbind at 1, M_bind at 1. simpl. destruct (_ <=? _)%Z.
    + intros H. do 3 apply bind_Ok_inv in H as (? & ? & _ & H). by injection H as <- _.
    + intros [= <- _]. done.
  - intros H. apply bind_Ok_inv in H as (? & ? & _ & H). apply bind_Ok_inv in H as (? & ? & _ & H).
    by injection H as <- _.
Qed.

Lemma tick_loop_among_gen others gen now done_ todo s s' :
  sv_live s = done_ ++ todo -> Forall (fun l => lm_last_gen l = gen) done_ ->
  tick_loop_among others gen now done_ todo s = (Ok tt, s') ->
  Forall (fun l => lm_last_gen l = gen) (sv_live s').
Proof.
  revert s done_. induction todo as [|l todo IH]; intros s done_ Hl Hd H.
  - injection H as <-. by rewrite Hl, app_nil_r.
  - cbn [tick_loop_among] in H. apply bind_Ok_inv in H as ([] & s1 & _ & H).
    apply bind_Ok_inv in H as (l' & s2 & H1 & H). apply bind_Ok_inv in H as ([] & s3 & [= <-] & H).
    apply (IH _ (done_ ++ [l'])) in H; [done | by rewrite <-app_assoc |].
    apply Forall_app. split; [done |]. constructor; [| done]. by eapply tick_one_gen.
Qed.

(** A change made while a tick runs is not lost. Whatever other threads do
    before each stream of the loop, after a tick that returns every stream is
    recorded with the generation sampled before the first map was built, so
    that it is stale, and sent again by the next tick, exactly when the
    generation has moved since. *)
Theorem tick_no_lost_change others s s' :
  on_tick_among others s = (Ok tt, s') ->
  forall l, l ∈ sv_live s' ->
    stale (sv_co s') l = negb (co_map_gen (sv_co s') =? co_map_gen (sv_co s))%Z.
Proof.
  unfold on_tick_among. intros H l Hl. do 3 apply bind_Ok_inv in H as (? & ? & [= <- <-] & H).
  assert (lm_last_gen l = co_map_gen (sv_co s)) as Hg.
  { assert (sv_live (set_sv_co (sv_co s) s) = [] ++ sv_live s) as Hs by by destruct s.
    apply (tick_loop_among_gen _ _ _ _ _ _ _ Hs (Forall_nil_2 _)) in H.
    by apply (proj1 (Forall_forall _ _) H). }
  unfold stale. by rewrite Hg.
Qed.

End MapRaceFacts.

(** ** Samples *)

Import SampleCrypto SampleInet SampleJson SampleZstd SampleNghttp2.

(** A third machine joins from another thread. *)
Definition co_three (c : Co) : Co :=
  sv_co (on_request "mkey:c" 1 "POST" "/machine/register" (register_body (co_bootstrap co_start))
           (mkServe c (Impl_new sample_sender) [])).2.

Lemma map_stream_misses_change_witness :
  length (st_nodes (store (co_st (co_three co_two)))) = 3 /\ length (sv_nodes serve_streaming) = 2 /\
  exists first i' l, map_frame_now co_two joined_node true = Ok first /\
    stream_at i' 3 = Some (set_out first 0 true false open_stream) /\
    open_stream_among co_three 3 "mkey:a" joined_node true serve_streaming =
      (Ok tt, mkServe (co_three co_two) i' (sv_live serve_streaming ++ [l])) /\
    tick_sends (co_three co_two) l =
      if keepalive_due (co_three co_two) l then Some (keepalive_now (co_three co_two) true) else None.
Proof.
  split; [vm_compute; reflexivity |]. split; [vm_compute; reflexivity |].
  assert (is_ok (map_frame_now co_two joined_node true) = true) as Hok by (vm_compute; reflexivity).
  destruct (map_frame_now co_two joined_node true) as [first|e|] eqn:Hf; try discriminate.
  destruct (map_stream_misses_change co_three 3 "mkey:a" joined_node true serve_streaming first
    streaming_inv Hf) as (i' & l & H & _ & _ & Hs & _ & Ht).
  exists first, i', l. split; [reflexivity |]. split; [| split; [exact H | by apply Ht]].
  rewrite Hs. assert (stream_at (sv_h2 serve_streaming) 3 = Some open_stream) as -> by (vm_compute;
    reflexivity).
  reflexivity.
Defined.

Lemma tick_no_lost_change_witness : exists s',
  on_tick_among (fun n => if n =? 1 then co_three else id) serve_streaming = (Ok tt, s') /\
  co_map_gen (sv_co s') <> co_map_gen co_two /\
  forall l, l ∈ sv_live s' -> stale (sv_co s') l = true.
Proof.
  destruct (on_tick_among (fun n => if n =? 1 then co_three else id) serve_streaming) as [r s'] eqn:E.
  assert (r = Ok tt) as -> by (change r with (r, s').1; rewrite <-E; vm_compute; reflexivity).
  assert (negb (co_map_gen (sv_co s') =? co_map_gen co_two)%Z = true) as Hg
    by (change s' with (Ok tt, s').2; rewrite <-E; vm_compute; reflexivity).
  exists s'. split; [reflexivity |]. split; [by apply negb_true_iff, Z.eqb_neq in Hg |].
  intros l Hl. rewrite <-Hg. exact (tick_no_lost_change _ _ _ E l Hl).
Defined.
