(* ===== verification/Minted.v ===== *)
(** * Minted: a key from create_preauth_key until its first use

    What a use of a preauth key finds after the key has been minted, here or by
    another process that shares the state file. The C interface and the command
    line rest on it. *)

From S2P Require Import Prelude.
From S2P Require Import Crypto.
From S2P Require Import Keys.
From S2P Require Import IpAlloc.
From S2P Require Import Json.
From S2P Require Import State.
From S2P Require Import StateFacts.
From S2P Require Import StateSpec.
From S2P Require Import StateLife.
From S2P Require Import CoordFacts.

(** The key that create_preauth_key appends. *)
Definition minted (key : string) (reusable ephemeral : bool) (token : string) (shared : option bool)
    : PreauthKey :=
  mkPreauthKey key reusable ephemeral false 0 token (resolve_shared token shared).

Definition NUL : Ascii.ascii := code_char 0.

Fixpoint no_nul (s : string) : bool :=
  match s with
  | "" => true
  | String c s => negb (Ascii.eqb c NUL) && no_nul s
  end.

Section Minted.
  Context `{OSSL : !OpenSSL} `{Inet : !InetLib} `{JLaws : JsonLaws}.

Lemma minted_valid now key r e t sh : key_valid now (minted key r e t sh) = true.
Proof. unfold key_valid. simpl. by destruct r. Qed.

(** With no expiry, minting fails only by the random source or the save. *)
Lemma create_steps r e t sh st key st1 :
  create_preauth_key r e 0 t sh st = (Ok key, st1) ->
  exists raw w, random_bytes 32 (w_rng (world st)) = (Ok raw, w_rng w) /\
    key = "wbkey-" +:+ hex_encode raw /\
    save_locked (mkSt (set_keys (st_keys (store st) ++ [minted key r e t sh]) (store st)) w) = (Ok tt, st1).
Proof.
  unfold create_preauth_key, random_token. intros H. apply bind_Ok_inv in H as (k & s1 & H1 & H).
  apply bind_Ok_inv in H1 as (raw & s2 & H1 & [= <- <-]). unfold on_rng, zoom in H1.
  destruct (random_bytes 32 (w_rng (world st))) as [rr c] eqn:Er. injection H1 as -> <-.
  erewrite bind_Ok in H by done. cbn [lift] in H. erewrite bind_Ok in H by done.
  erewrite bind_Ok in H by done. apply bind_Ok_inv in H as ([] & s3 & Hs & [= <- <-]).
  exists raw, (set_rng c (world st)). done.
Qed.

(** A successful mint ends in sync with the file. *)
Lemma minted_in_sync r e t sh st key st1 : st_persist_hook (store st) = None ->
  create_preauth_key r e 0 t sh st = (Ok key, st1) ->
  in_sync st1 /\ store st1 = set_keys (st_keys (store st) ++ [minted key r e t sh]) (store st).
Proof.
  intros Hh (raw & w & _ & _ & Hs)%create_steps.
  pose proof (save_locked_store (mkSt (set_keys (st_keys (store st) ++ [minted key r e t sh])
    (store st)) w)) as H.
  rewrite Hs in H. simpl in H. split; [| done]. unfold in_sync. rewrite H.
  destruct (decide (st_path (store st) = "")) as [|Hp]; [by left | right].
  eapply (read_keys_file_saved (mkSt (set_keys _ (store st)) w));
    [by apply no_hook_quiet | done | exact Hs].
Qed.

(** Any store on that file finds the key and would grant it, once it is in the
    file and no older key has its text. *)
Lemma minted_found r e t sh st key st1 st2 : st_persist_hook (store st) = None ->
  create_preauth_key r e 0 t sh st = (Ok key, st1) ->
  find_first (is_key key) (st_keys (store st)) = None ->
  (st2 = st1 \/
   (st_path (store st) <> "" /\ st_path (store st2) = st_path (store st) /\
    w_disk (world st2) = w_disk (world st1))) ->
  find_first (is_key key) (current_keys st2) = Some (minted key r e t sh).
Proof.
  intros Hh Hc Hnew Hst2. destruct (minted_in_sync _ _ _ _ _ _ _ Hh Hc) as [Hsync Hst1].
  assert (find_first (is_key key) (st_keys (store st1)) = Some (minted key r e t sh)) as Hf.
  { rewrite Hst1. simpl. rewrite find_first_app, Hnew. simpl. unfold is_key. simpl.
    by rewrite bool_decide_true. }
  assert (forall st', read_keys_file st' = Some (jarr (key_to_json <$> st_keys (store st1))) ->
    find_first (is_key key) (current_keys st') = Some (minted key r e t sh)) as Hread.
  { intros st' Hr. unfold current_keys. rewrite (reload_Some _ _ Hr). simpl. rewrite find_first_norm, Hf.
    reflexivity. }
  assert (st_path (store st1) = st_path (store st)) as Hpath by by rewrite Hst1.
  destruct Hst2 as [->|(Hp & Hp2 & Hd)].
  - destruct Hsync as [Hp|Hr]; [| by apply Hread]. unfold current_keys.
    rewrite reload_None; [done |]. unfold read_keys_file. by rewrite Hp.
  - apply Hread. destruct Hsync as [Hp1|Hr]; [congruence |]. rewrite <-Hr.
    apply read_keys_file_ext; [congruence | done].
Qed.

(** The text of a key holds no NUL. *)
Lemma hex_encode_no_nul bytes : no_nul (hex_encode bytes) = true.
Proof.
  induction bytes as [|b bytes IH]; [done |]. cbn [hex_encode no_nul]. rewrite IH.
  destruct b; reflexivity.
Qed.

Lemma minted_no_nul r e t sh st key st1 :
  create_preauth_key r e 0 t sh st = (Ok key, st1) -> no_nul key = true.
Proof. intros (raw & w & _ & -> & _)%create_steps. apply hex_encode_no_nul. Qed.

End Minted.
