(* ===== verification/CApi.v ===== *)
(** * CApi: the C interface of wirebone.h and c_api.cpp

    The functions of the C interface over the heap that malloc and free manage,
    with allocations that may fail, and over the coordinators behind the opaque
    handles. A NULL pointer is 0. A C++ exception that leaves one of these
    functions is a [Throw] of the model; a use of a block or a handle that is
    not live is [Ub]. *)

From S2P Require Import Prelude.
From S2P Require Import Crypto.
From S2P Require Import Keys.
From S2P Require Import IpAlloc.
From S2P Require Import Json.
From S2P Require Import State.
From S2P Require Import StateFacts.
From S2P Require Import StateLife.
From S2P Require Import Netmap.
From S2P Require Import Socket.
From S2P Require Import Noise.
From S2P Require Import Http2.
From S2P Require Import Dns.
From S2P Require Import Coordinator.
From S2P Require Import CoordFacts.
From S2P Require Import Lifecycle.
From S2P Require Import Minted.
From S2P Require Import StateSamples.
From S2P Require Import CoordSamples.

(** ** The heap *)

(** wirebone_node_info: the [char*] members are pointers. *)
Record CNodeInfo := mkCNodeInfo {
  wn_id : Z;
  wn_hostname : Z;
  wn_ipv4 : Z;
  wn_ipv6 : Z;
  wn_node_key : Z;
  wn_online : Z;
  wn_token : Z;
  wn_shared : Z;
}.

(** What [calloc] leaves in an element. *)
Definition zero_info : CNodeInfo := mkCNodeInfo 0 0 0 0 0 0 0 0.

Inductive block :=
  | BChars (bytes : string)
  | BNodes (infos : list CNodeInfo).

(** [m_plan] holds the outcomes of the coming allocations; when it is used up
    they succeed. *)
Record CMem := mkCMem {
  m_blocks : gmap Z block;
  m_next : Z;
  m_plan : list bool;
}.

Definition set_blocks (b : gmap Z block) (m : CMem) : CMem := mkCMem b (m_next m) (m_plan m).

(** [malloc] or [calloc] of a block with the given first contents. *)
Definition malloc (b : block) : M CMem Z := fun m =>
  if default true (head (m_plan m))
  then (Ok (m_next m), mkCMem (<[m_next m := b]> (m_blocks m)) (m_next m + 1) (tail (m_plan m)))
  else (Ok 0%Z, mkCMem (m_blocks m) (m_next m) (tail (m_plan m))).

(** [free]: nothing for NULL, undefined for a block that is not live. *)
Definition c_free (p : Z) : M CMem unit := fun m =>
  if (p =? 0)%Z then (Ok tt, m)
  else match m_blocks m !! p with
       | Some _ => (Ok tt, set_blocks (delete p (m_blocks m)) m)
       | None => (Ub, m)
       end.

(** malloc of [s.size() + 1] bytes and the memcpy of [s.c_str()] into it. *)
Definition dup_str (s : string) : M CMem Z := malloc (BChars (s +:+ String NUL "")).

(** The C string in some bytes: up to the first NUL. *)
Fixpoint c_string (bytes : string) : string :=
  match bytes with
  | "" => ""
  | String c s => if Ascii.eqb c NUL then "" else String c (c_string s)
  end.

(** What a C program reads at a pointer. *)
Definition read_c_string (p : Z) (m : CMem) : option string :=
  match m_blocks m !! p with Some (BChars b) => Some (c_string b) | _ => None end.

Definition read_info (arr : Z) (i : nat) : M CMem CNodeInfo := fun m =>
  match m_blocks m !! arr with
  | Some (BNodes infos) =>
      match infos !! i with Some x => (Ok x, m) | None => (Ub, m) end
  | _ => (Ub, m)
  end.

Definition write_info (arr : Z) (i : nat) (x : CNodeInfo) : M CMem unit := fun m =>
  match m_blocks m !! arr with
  | Some (BNodes infos) =>
      if i <? length infos
      then (Ok tt, set_blocks (<[arr := BNodes (<[i := x]> infos)]> (m_blocks m)) m)
      else (Ub, m)
  | _ => (Ub, m)
  end.

Definition c_bool (b : bool) : Z := if b then 1 else 0.

(** The loop of wirebone_list_nodes over the elements from [i]. *)
Fixpoint fill_nodes (out : Z) (i : nat) (nodes : list NodeInfo) : M CMem unit :=
  match nodes with
  | [] => mret ()
  | n :: nodes =>
      hostname ← dup_str (ni_hostname n);
      ipv4 ← dup_str (ni_ipv4 n);
      ipv6 ← dup_str (ni_ipv6 n);
      node_key ← dup_str (ni_node_key n);
      token ← dup_str (ni_token n);
      _ ← write_info out i (mkCNodeInfo (ni_id n) hostname ipv4 ipv6 node_key
                              (c_bool (ni_online n)) token (c_bool (ni_shared n)));
      fill_nodes out (S i) nodes
  end.

(** The array and the count for a list of nodes. *)
Definition pack_nodes (nodes : list NodeInfo) : M CMem (Z * Z) :=
  match nodes with
  | [] => mret (0, 0)%Z
  | _ =>
      out ← malloc (BNodes (replicate (length nodes) zero_info));
      if (out =? 0)%Z then mret (0, 0)%Z
      else
        _ ← fill_nodes out 0 nodes;
        mret (out, Z.of_nat (length nodes))
  end.

(** The loop of wirebone_free_nodes: [todo] elements from [i]. *)
Fixpoint free_infos (nodes : Z) (i todo : nat) : M CMem unit :=
  match todo with
  | 0 => mret ()
  | S todo =>
      x ← read_info nodes i;
      _ ← c_free (wn_hostname x);
      _ ← c_free (wn_ipv4 x);
      _ ← c_free (wn_ipv6 x);
      _ ← c_free (wn_node_key x);
      _ ← c_free (wn_token x);
      free_infos nodes (S i) todo
  end.

Definition wirebone_free_nodes (nodes count : Z) : M CMem unit :=
  if (nodes =? 0)%Z then mret ()
  else
    _ ← free_infos nodes 0 (Z.to_nat count);
    c_free nodes.

(** ** The coordinators behind the handles *)

(** The wirebone_config a program passes; a NULL member is [None]. *)
Record CConfig := mkCConfig {
  wc_listen : option string;
  wc_server_url : option string;
  wc_ip_prefix : option string;
  wc_ipv6_prefix : option string;
  wc_state_path : option string;
  wc_domain : option string;
  wc_dns_listen : option string;
}.

Definition or_def (v : option string) (d : string) : string :=
  match v with Some s => if str_empty s then d else s | None => d end.

(** A wirebone_coordinator: the registry and handlers, and the listener. *)
Record Obj := mkObj { ob_co : Co; ob_li : Listener }.

(** The process: the C heap, the coordinators by handle, and the one world and
    operating system they share. *)
Record CState := mkC {
  c_mem : CMem;
  c_objs : gmap Z Obj;
  c_next_obj : Z;
  c_world : World;
  c_os : Os;
  c_steady : Z;
}.

Definition on_mem {A} (m : M CMem A) : M CState A :=
  zoom c_mem (fun h c => mkC h (c_objs c) (c_next_obj c) (c_world c) (c_os c) (c_steady c)) m.

(** A method of the Coordinator behind [h]. *)
Definition on_impl {A} (h : Z) (m : M Co A) : M CState A := fun c =>
  match c_objs c !! h with
  | None => (Ub, c)
  | Some ob =>
      let co := ob_co ob in
      let '(r, co) := m (mkCo (co_cfg co) (mkSt (store (co_st co)) (c_world c)) (co_bootstrap co)
                           (co_map_gen co) (c_steady c)) in
      (r, mkC (c_mem c) (<[h := mkObj co (ob_li ob)]> (c_objs c)) (c_next_obj c)
            (world (co_st co)) (c_os c) (c_steady c))
  end.

Definition on_listener {A} (h : Z) (m : M Listener A) : M CState A := fun c =>
  match c_objs c !! h with
  | None => (Ub, c)
  | Some ob =>
      let '(r, li) := m (set_li_os (c_os c) (ob_li ob)) in
      (r, mkC (c_mem c) (<[h := mkObj (ob_co ob) li]> (c_objs c)) (c_next_obj c)
            (c_world c) (li_os li) (c_steady c))
  end.

(** [try { ... } catch (...) { return failed; }] *)
Definition guarded {A} (failed : A) (m : M CState A) : M CState A := fun c =>
  match m c with
  | (Throw _, c) => (Ok failed, c)
  | rc => rc
  end.

Section CApi.
  Context `{OSSL : !OpenSSL} `{Inet : !InetLib} `{JL : !JsonLib}.

(** [c ? dup_str(...) : nullptr] *)
Definition string_getter (h : Z) (m : M Co string) : M CState Z :=
  if (h =? 0)%Z then mret 0%Z else s ← on_impl h m; on_mem (dup_str s).

Definition config_of (cfg : option CConfig) : Config :=
  match cfg with
  | None => default_config
  | Some cfg =>
      mkConfig (or_def (wc_listen cfg) "0.0.0.0:8080")
        (or_def (wc_server_url cfg) "http://127.0.0.1:8080")
        (or_def (wc_ip_prefix cfg) "100.64.0.0/16")
        (or_def (wc_ipv6_prefix cfg) "fd7a:115c:a1e0::/48")
        (default "" (wc_state_path cfg))
        (or_def (wc_domain cfg) "wirebone.local")
        (default "0.0.0.0:5353" (wc_dns_listen cfg))
        (cf_keepalive default_config)
  end.

Definition wirebone_create (cfg : option CConfig) : M CState Z := fun c =>
  let conf := config_of cfg in
  match Co_new conf (c_world c) (c_steady c) with
  | (Ok co, w) =>
      (Ok (c_next_obj c),
       mkC (c_mem c) (<[c_next_obj c := mkObj co (Listener_new conf (c_os c))]> (c_objs c))
         (c_next_obj c + 1) w (c_os c) (c_steady c))
  | (Throw _, w) => (Ok 0%Z, mkC (c_mem c) (c_objs c) (c_next_obj c) w (c_os c) (c_steady c))
  | (Ub, w) => (Ub, mkC (c_mem c) (c_objs c) (c_next_obj c) w (c_os c) (c_steady c))
  end.

(** [delete c]: the destructor stops the server. *)
Definition wirebone_destroy (h : Z) : M CState unit :=
  if (h =? 0)%Z then mret ()
  else
    _ ← on_listener h stop;
    modify (fun c => mkC (c_mem c) (delete h (c_objs c)) (c_next_obj c) (c_world c) (c_os c) (c_steady c)).

Definition wirebone_start (h : Z) : M CState Z :=
  if (h =? 0)%Z then mret (-1)%Z
  else guarded (-1)%Z (_ ← on_listener h run_async; mret 0%Z).

Definition wirebone_stop (h : Z) : M CState unit :=
  if (h =? 0)%Z then mret () else on_listener h stop.

Definition wirebone_running (h : Z) : M CState Z :=
  if (h =? 0)%Z then mret 0%Z else r ← on_listener h running; mret (c_bool r).

Definition wirebone_bound_address (h : Z) : M CState Z :=
  if (h =? 0)%Z then mret 0%Z else s ← on_listener h bound; on_mem (dup_str s).

Definition wirebone_bootstrap_key (h : Z) : M CState Z := string_getter h bootstrap_key.
Definition wirebone_noise_public_key (h : Z) : M CState Z := string_getter h noise_public_key.
Definition wirebone_export_state (h : Z) : M CState Z := string_getter h export_state.

(** The options of the C arguments. *)
Definition options_of (reusable ephemeral : Z) (token : option string) (shared : Z) : PreauthOptions :=
  mkPreauthOptions (negb (reusable =? 0)%Z) (negb (ephemeral =? 0)%Z) 0
    (match token with Some t => if str_empty t then "" else t | None => "" end)
    (if (0 <=? shared)%Z then Some (negb (shared =? 0)%Z) else None).

Definition wirebone_create_preauth_key_ex (h reusable ephemeral : Z) (token : option string)
    (shared : Z) : M CState Z :=
  if (h =? 0)%Z then mret 0%Z
  else guarded 0%Z
    (key ← on_impl h (create_key (options_of reusable ephemeral token shared));
     on_mem (dup_str key)).

Definition wirebone_create_preauth_key (h reusable ephemeral : Z) : M CState Z :=
  wirebone_create_preauth_key_ex h reusable ephemeral None (-1).

(** [count] is the initial [*count]; a NULL count is [false]. The result is the
    array and the new [*count]. *)
Definition wirebone_list_nodes (h : Z) (count : bool) : M CState (Z * Z) :=
  if (h =? 0)%Z || negb count then mret (0, 0)%Z
  else
    nodes ← on_impl h list_nodes;
    on_mem (pack_nodes nodes).

Definition wirebone_import_state (h : Z) (json : option string) : M CState Z :=
  if (h =? 0)%Z then mret (-1)%Z
  else guarded (-1)%Z (_ ← on_impl h (import_state (default "{}" json)); mret 0%Z).

Definition wirebone_persist (h : Z) : M CState Z :=
  if (h =? 0)%Z then mret (-1)%Z
  else guarded (-1)%Z (_ ← on_impl h persist_; mret 0%Z).

(** [cb] receives the C string of the text; its [user] is part of it. *)
Definition wirebone_set_persist_callback (h : Z) (cb : option (string -> World -> World))
    : M CState unit :=
  if (h =? 0)%Z then mret ()
  else on_impl h (set_hook_of ((fun f => fun json w => f (c_string (json +:+ String NUL "")) w) <$> cb)).

End CApi.

(** ** Heap lemmas *)

Definition mem_wf (m : CMem) : Prop :=
  (0 < m_next m)%Z /\ forall p b, m_blocks m !! p = Some b -> (0 < p < m_next m)%Z.

Definition nonnull (ps : list Z) : list Z := List.filter (fun p => negb (p =? 0)%Z) ps.

(** From [m] to [m'] exactly the blocks at the non-NULL pointers of [ps] were
    allocated; the block at [out] may have been written. *)
Record allocs (out : Z) (m m' : CMem) (ps : list Z) : Prop := {
  al_next : (m_next m <= m_next m')%Z;
  al_fresh : forall p, p ∈ nonnull ps -> (m_next m <= p < m_next m')%Z /\ is_Some (m_blocks m' !! p);
  al_nodup : NoDup (nonnull ps);
  al_frame : forall q, q ∉ nonnull ps -> q <> out -> m_blocks m' !! q = m_blocks m !! q;
}.

(** NULL (the allocation failed), or the bytes of [s] and a NUL. *)
Definition holds (m : CMem) (p : Z) (s : string) : Prop :=
  p = 0%Z \/ m_blocks m !! p = Some (BChars (s +:+ String NUL "")).

Lemma nonnull_app ps qs : nonnull (ps ++ qs) = nonnull ps ++ nonnull qs.
Proof. apply List.filter_app. Qed.

Lemma elem_of_nonnull p ps : p ∈ nonnull ps <-> p ∈ ps /\ p <> 0%Z.
Proof.
  unfold nonnull. rewrite !list_elem_of_In, List.filter_In, negb_true_iff, Z.eqb_neq. done.
Qed.

Lemma allocs_nil out m : allocs out m m [].
Proof. split; [lia | by intros p ?%not_elem_of_nil | constructor | done]. Qed.

Lemma allocs_app out m1 m2 m3 ps qs : (out < m_next m1)%Z ->
  allocs out m1 m2 ps -> allocs out m2 m3 qs -> allocs out m1 m3 (ps ++ qs).
Proof.
  intros Hout [Hn1 Hf1 Hd1 Hr1] [Hn2 Hf2 Hd2 Hr2]. split; [lia | | |]; rewrite ?nonnull_app.
  - intros p [Hp|Hp]%elem_of_app.
    + destruct (Hf1 p Hp) as [Hb Hl]. split; [lia |]. rewrite Hr2; [done | | lia].
      intros Hq. destruct (Hf2 p Hq). lia.
    + destruct (Hf2 p Hp). split; [lia | done].
  - apply NoDup_app. split; [done |]. split; [| done]. intros p Hp Hq.
    destruct (Hf1 p Hp), (Hf2 p Hq). lia.
  - intros q [Hp Hq]%not_elem_of_app Ho. rewrite Hr2, Hr1; done.
Qed.

Lemma holds_later out m m' ps p s : mem_wf m -> (out < m_next m)%Z -> p <> out ->
  allocs out m m' ps -> holds m p s -> holds m' p s.
Proof.
  intros [_ Hwf] Hout Hne [_ Hf _ Hr] [->|H]; [by left | right]. rewrite Hr; [done | | done].
  intros Hp. destruct (Hf p Hp). specialize (Hwf _ _ H). lia.
Qed.

Lemma malloc_spec out b m : mem_wf m -> (out <> 0 /\ out < m_next m)%Z ->
  exists p m', malloc b m = (Ok p, m') /\ mem_wf m' /\ allocs out m m' [p] /\ p <> out /\
    (p = 0%Z \/ m_blocks m' !! p = Some b).
Proof.
  intros [Hn Hwf] Hout. unfold malloc. destruct (default true _).
  - eexists _, _. split; [reflexivity |]. simpl. split; [| split; [| split; [lia | right;
    apply lookup_insert_eq]]].
    + split; [simpl; lia |]. intros p b'. simpl. rewrite lookup_insert_Some.
      intros [[<- _]|[_ H]]; [lia | specialize (Hwf _ _ H); lia].
    + assert (nonnull [m_next m] = [m_next m]) as E by (unfold nonnull; simpl;
      by destruct (Z.eqb_spec (m_next m) 0); [lia |]).
      split; rewrite ?E; simpl; [lia | | apply NoDup_singleton |].
      * intros p ->%list_elem_of_singleton. rewrite lookup_insert_eq. split; [lia | done].
      * intros q Hq _. apply lookup_insert_ne. set_solver.
  - eexists _, _. split; [reflexivity |]. simpl. split; [done |]. split; [| split; [lia | by left]].
    split; simpl; [lia | by intros p ?%not_elem_of_nil | constructor | done].
Qed.

(** The five strings of an element. *)
Definition ptrs (x : CNodeInfo) : list Z :=
  [wn_hostname x; wn_ipv4 x; wn_ipv6 x; wn_node_key x; wn_token x].

(** What a C program sees of a node. *)
Record shows (m : CMem) (x : CNodeInfo) (n : NodeInfo) : Prop := {
  sh_id : wn_id x = ni_id n;
  sh_online : wn_online x = c_bool (ni_online n);
  sh_shared : wn_shared x = c_bool (ni_shared n);
  sh_hostname : holds m (wn_hostname x) (ni_hostname n);
  sh_ipv4 : holds m (wn_ipv4 x) (ni_ipv4 n);
  sh_ipv6 : holds m (wn_ipv6 x) (ni_ipv6 n);
  sh_node_key : holds m (wn_node_key x) (ni_node_key n);
  sh_token : holds m (wn_token x) (ni_token n);
}.

Lemma shows_later out m m' ps x n : mem_wf m -> (out < m_next m)%Z -> out ∉ ptrs x ->
  allocs out m m' ps -> shows m x n -> shows m' x n.
Proof.
  intros Hwf Hout Hx Ha []. unfold ptrs in Hx. rewrite !not_elem_of_cons in Hx.
  destruct Hx as (? & ? & ? & ? & ? & _). split; try done; eapply (holds_later out); eauto.
Qed.

Lemma write_info_spec out i x m infos : m_blocks m !! out = Some (BNodes infos) -> i < length infos ->
  write_info out i x m =
    (Ok tt, set_blocks (<[out := BNodes (<[i := x]> infos)]> (m_blocks m)) m).
Proof. intros H Hi. unfold write_info. rewrite H. by rewrite (proj2 (Nat.ltb_lt _ _) Hi). Qed.

Lemma mem_wf_write out b b' m : mem_wf m -> m_blocks m !! out = Some b ->
  mem_wf (set_blocks (<[out := b']> (m_blocks m)) m).
Proof.
  intros [Hn Hwf] H. split; [done |]. intros p c. simpl. rewrite lookup_insert_Some.
  intros [[<- _]|[_ Hp]]; by eapply Hwf.
Qed.

Lemma allocs_write out b m m' ps : allocs out m m' ps -> out ∉ nonnull ps ->
  allocs out m (set_blocks (<[out := b]> (m_blocks m')) m') ps.
Proof.
  intros [Hn Hf Hd Hr] Ho. split; simpl; [done | | done |].
  - intros p Hp. rewrite lookup_insert_ne by (intros ->; done). by apply Hf.
  - intros q Hq Hne. rewrite lookup_insert_ne by done. by apply Hr.
Qed.

(** One dup_str of a sequence that started in [m0]. *)
Lemma dup_str_step out b m0 m ps s : (0 < out < m_next m0)%Z ->
  mem_wf m -> allocs out m0 m ps -> m_blocks m !! out = Some b ->
  exists p m', dup_str s m = (Ok p, m') /\ mem_wf m' /\ allocs out m0 m' (ps ++ [p]) /\
    m_blocks m' !! out = Some b /\ p <> out /\ holds m' p s /\
    forall q t, q <> out -> holds m q t -> holds m' q t.
Proof.
  intros Hout Hwf Ha Hb. pose proof (al_next _ _ _ _ Ha).
  destruct (malloc_spec out (BChars (s +:+ String NUL "")) m) as (p & m' & E & Hwf' & Ha' & Hne &
    Hh); [done | lia |].
  exists p, m'. split; [done |]. split; [done |].
  split; [eapply allocs_app; [lia | done | done] |]. split; [| split; [done | split; [done |]]].
  - rewrite <-Hb. revert E. unfold malloc. destruct (default true _); intros [= <- <-]; simpl; [| done].
    apply lookup_insert_ne. lia.
  - intros q t Hq. eapply (holds_later out); [done | lia | done | done].
Qed.

(** Take the next dup_str of the goal's computation. *)
Ltac dup_next Hout :=
  match goal with
  | Hw : mem_wf ?m, Ha : allocs _ _ ?m _, Hb : m_blocks ?m !! _ = Some _
    |- context [mbind _ (dup_str ?s) ?m] =>
      let E := fresh "E" in
      destruct (dup_str_step _ _ _ m _ s Hout Hw Ha Hb)
        as (?p & ?m & E & ?Hw & ?Ha & ?Hb & ?Hn & ?Hh & ?Hk);
      rewrite (bind_Ok _ _ _ _ _ E); clear E Hw Ha Hb
  end.

Lemma fill_nodes_spec out nodes m0 m ps infos i : (0 < out < m_next m0)%Z ->
  mem_wf m -> allocs out m0 m ps -> m_blocks m !! out = Some (BNodes infos) ->
  out ∉ nonnull ps -> i + length nodes = length infos ->
  exists m' xs, fill_nodes out i nodes m = (Ok tt, m') /\ mem_wf m' /\
    allocs out m0 m' (ps ++ concat (ptrs <$> xs)) /\
    m_blocks m' !! out = Some (BNodes (take i infos ++ xs)) /\
    Forall2 (shows m') xs nodes /\ out ∉ nonnull (concat (ptrs <$> xs)) /\
    (forall q t, q <> out -> holds m q t -> holds m' q t).
Proof.
  intros Hout. revert m ps infos i. induction nodes as [|n nodes IH];
    intros m ps infos i Hwf Ha Hb Hps Hlen.
  - exists m, []. rewrite !app_nil_r. simpl in Hlen. rewrite take_ge by lia.
    split; [done |]. do 5 (split; [done || constructor || set_solver |]). done.
  - cbn [fill_nodes]. simpl in Hlen.
    do 5 dup_next Hout.
    match goal with
    | Hw : mem_wf ?m, Ha : allocs _ _ ?m _, Hb : m_blocks ?m !! _ = Some _ |- context [write_info _ _ ?y] =>
        rename Hw into Hw5; rename Ha into Ha5; rename Hb into Hb5; rename m into m5; set (x := y)
    end.
    rewrite <-!app_assoc in Ha5. simpl in Ha5.
    match type of Ha5 with allocs _ _ _ (ps ++ ?l) => change l with (ptrs x) in Ha5 end.
    assert (out ∉ ptrs x) as Hx by (unfold ptrs; simpl; rewrite !not_elem_of_cons; repeat split;
      try done; apply not_elem_of_nil).
    assert (out ∉ nonnull (ps ++ ptrs x)) as Hpx
      by (rewrite nonnull_app, not_elem_of_app, (elem_of_nonnull out (ptrs x)); tauto).
    rewrite (bind_Ok _ _ _ _ _ (write_info_spec out i x m5 infos Hb5 ltac:(lia))).
    set (m6 := set_blocks _ m5).
    assert (forall q t, q <> out -> holds m5 q t -> holds m6 q t) as Hk6.
    { intros q t Hq [->|H]; [by left | right]. simpl. by rewrite lookup_insert_ne. }
    destruct (IH m6 (ps ++ ptrs x) (<[i := x]> infos) (S i)) as (m' & xs & E & Hw' & Ha' & Hb' & Hs
      & Ho & Hkeep);
      [by eapply mem_wf_write | by apply allocs_write | apply lookup_insert_eq | done | rewrite
        length_insert; lia |].
    exists m', (x :: xs). rewrite E. split; [done |]. split; [done |].
    rewrite fmap_cons. cbn [concat]. rewrite <-app_assoc in Ha'. split; [done |]. split.
    { rewrite Hb', (take_S_r _ _ x) by (apply list_lookup_insert_eq; lia).
      rewrite take_insert_ge by lia. by rewrite <-app_assoc. }
    split; [| split].
    + constructor; [| done]. split; try done; simpl; auto 10.
    + rewrite nonnull_app, not_elem_of_app, elem_of_nonnull. tauto.
    + auto 10.
Qed.

(** ** Freeing *)

Lemma nonnull_cons p ps : nonnull (p :: ps) = if (p =? 0)%Z then nonnull ps else p :: nonnull ps.
Proof. unfold nonnull. simpl. by destruct (p =? 0)%Z. Qed.

Lemma c_free_live p b m : p <> 0%Z -> m_blocks m !! p = Some b ->
  c_free p m = (Ok tt, set_blocks (delete p (m_blocks m)) m).
Proof. intros Hp Hb. unfold c_free. by rewrite (proj2 (Z.eqb_neq p 0) Hp), Hb. Qed.

(** Freeing live blocks, each once. *)
Lemma free_all_spec ps m : NoDup (nonnull ps) ->
  (forall p, p ∈ nonnull ps -> is_Some (m_blocks m !! p)) ->
  exists m', for_each ps c_free m = (Ok tt, m') /\
    (forall q, q ∈ nonnull ps -> m_blocks m' !! q = None) /\
    (forall q, q ∉ nonnull ps -> m_blocks m' !! q = m_blocks m !! q).
Proof.
  revert m. induction ps as [|p ps IH]; intros m Hd Hl.
  - exists m. split; [done |]. split; [by intros q ?%not_elem_of_nil | done].
  - cbn [for_each]. rewrite nonnull_cons in *. destruct (Z.eqb_spec p 0) as [->|Hp0].
    { rewrite (bind_Ok _ _ m tt m) by done. by apply IH. }
    apply NoDup_cons in Hd as [Hp Hd]. destruct (Hl p) as [b Hb]; [set_solver |].
    rewrite (bind_Ok _ _ _ _ _ (c_free_live p b m Hp0 Hb)).
    destruct (IH (set_blocks (delete p (m_blocks m)) m) Hd) as (m' & E & Hn & Hf).
    { intros q Hq. simpl. rewrite lookup_delete_ne by (intros ->; done). apply Hl. set_solver. }
    exists m'. split; [exact E |]. split; intros q Hq.
    + apply elem_of_cons in Hq as [->|Hq]; [| by apply Hn]. rewrite Hf by done. apply lookup_delete_eq.
    + apply not_elem_of_cons in Hq as [Hq1 Hq2]. rewrite Hf by done. simpl. by apply lookup_delete_ne.
Qed.

(** The loop of wirebone_free_nodes frees the strings of the elements in order. *)
Lemma free_infos_spec arr infos i todo m : m_blocks m !! arr = Some (BNodes infos) ->
  i + todo = length infos ->
  let ps := concat (ptrs <$> drop i infos) in
  NoDup (nonnull ps) -> (forall p, p ∈ nonnull ps -> is_Some (m_blocks m !! p)) -> arr ∉ nonnull ps ->
  free_infos arr i todo m = for_each ps c_free m.
Proof.
  simpl. revert i m. induction todo as [|todo IH]; intros i m Ha Hlen Hd Hl Ho.
  - by rewrite drop_ge by lia.
  - destruct (lookup_lt_is_Some_2 infos i) as [x Hx]; [lia |].
    rewrite (drop_S _ _ _ Hx) in *. rewrite fmap_cons in *. cbn [concat] in *.
    rewrite nonnull_app in Hd, Ho, Hl. apply NoDup_app in Hd as (Hd1 & Hd2 & Hd3).
    apply not_elem_of_app in Ho as [Ho1 Ho2].
    destruct (free_all_spec (ptrs x) m Hd1) as (m' & E & Hn & Hf); [intros p Hp; apply Hl; set_solver |].
    assert (for_each (ptrs x ++ concat (ptrs <$> drop (S i) infos)) c_free m =
      for_each (concat (ptrs <$> drop (S i) infos)) c_free m') as ->.
    { rewrite for_each_app. by rewrite (bind_Ok _ _ _ _ _ E). }
    cbn [free_infos]. rewrite (bind_Ok _ _ m x m) by (unfold read_info; by rewrite Ha, Hx).
    rewrite <-(IH (S i) m'); [| by rewrite Hf | lia | done | | done].
    + unfold ptrs in E. cbn [for_each] in E. apply bind_Ok_inv in E as ([] & m1 & E1 & E).
      do 4 (rewrite (bind_Ok _ _ _ _ _ E1); clear E1; apply bind_Ok_inv in E as ([] & ?m & E1 & E)).
      rewrite (bind_Ok _ _ _ _ _ E1). by injection E as <-.
    + intros p Hp. rewrite Hf; [apply Hl; set_solver |]. intros Hp'. by apply (Hd2 p).
Qed.

(** ** Listing and freeing *)

Lemma mem_wf_None m q : mem_wf m -> (q <= 0 \/ m_next m <= q)%Z -> m_blocks m !! q = None.
Proof.
  intros [Hn Hwf] Hq. destruct (m_blocks m !! q) as [b|] eqn:E; [| done]. specialize (Hwf _ _ E). lia.
Qed.

Lemma pack_nodes_spec nodes m : mem_wf m ->
  exists p n m1 ps, pack_nodes nodes m = (Ok (p, n), m1) /\
    (p = 0%Z -> n = 0%Z /\ m_blocks m1 = m_blocks m) /\
    (p <> 0%Z -> n = Z.of_nat (length nodes) /\ (m_next m <= p)%Z /\
       exists infos, m_blocks m1 !! p = Some (BNodes infos) /\ Forall2 (shows m1) infos nodes /\
         ps = concat (ptrs <$> infos) /\ NoDup (nonnull ps) /\ p ∉ nonnull ps /\
         (forall q, q ∈ nonnull ps -> (m_next m <= q)%Z /\ is_Some (m_blocks m1 !! q)) /\
         (forall q, q ∉ nonnull ps -> q <> p -> m_blocks m1 !! q = m_blocks m !! q)).
Proof.
  intros Hwf. destruct nodes as [|n0 nodes]; [by exists 0%Z, 0%Z, m, [] |].
  unfold pack_nodes. generalize (n0 :: nodes). clear n0 nodes. intros nodes.
  set (b := BNodes (replicate (length nodes) zero_info)).
  destruct (malloc_spec (-1) b m Hwf) as (p & m1 & E & Hwf1 & Ha & _ & Hp); [destruct Hwf; lia |].
  rewrite (bind_Ok _ _ _ _ _ E). destruct (Z.eqb_spec p 0) as [->|Hp0].
  { exists 0%Z, 0%Z, m1, []. split; [done |]. split; [| done]. intros _. split; [done |].
    revert E. unfold malloc. destruct (default true _); [| by intros [= <-]].
    intros [= E _]. destruct Hwf; lia. }
  destruct Hp as [|Hb]; [done |].
  assert (p ∈ nonnull [p]) as Hin by (apply elem_of_nonnull; split;
    [by apply list_elem_of_singleton | done]).
  destruct (al_fresh _ _ _ _ Ha p Hin) as [Hfresh _]. pose proof (proj1 Hwf) as Hn.
  destruct (fill_nodes_spec p nodes m1 m1 [] (replicate (length nodes) zero_info) 0)
    as (m2 & xs & E2 & _ & Ha2 & Hb2 & Hs & Ho & _);
    [lia | done | apply allocs_nil | done | apply not_elem_of_nil | by rewrite length_replicate |].
  rewrite (bind_Ok _ _ _ _ _ E2). exists p, (Z.of_nat (length nodes)), m2, (concat (ptrs <$> xs)).
  split; [done |]. split; [done |]. intros _. split; [done |]. split; [lia |]. exists xs.
  split; [done |]. split; [done |]. split; [done |]. destruct Ha2 as [Hn2 Hf2 Hd2 Hr2].
    simpl in Hf2, Hd2, Hr2.
  split; [done |]. split; [done |]. split.
  - intros q Hq. destruct (Hf2 q Hq). split; [lia | done].
  - intros q Hq Hne. rewrite Hr2 by done. destruct (decide (q = -1)%Z) as [->|Hq1].
    + rewrite !mem_wf_None by (done || lia). done.
    + apply (al_frame _ _ _ _ Ha); [| done].
      rewrite elem_of_nonnull. intros [->%list_elem_of_singleton _]. done.
Qed.

(** No coming allocation fails. *)
Definition calm_mem (m : CMem) : Prop := Forall (fun ok => ok = true) (m_plan m).

Lemma calm_malloc b m : calm_mem m -> exists m', malloc b m = (Ok (m_next m), m') /\ calm_mem m' /\
  m_next m' = (m_next m + 1)%Z /\ m_blocks m' = <[m_next m := b]> (m_blocks m).
Proof.
  intros Hc. unfold malloc, calm_mem in *. destruct Hc as [|ok plan -> Hc]; by eexists.
Qed.

Lemma calm_fill out nodes m infos i : (0 < out < m_next m)%Z -> calm_mem m ->
  m_blocks m !! out = Some (BNodes infos) -> i + length nodes = length infos ->
  Forall (fun x => 0%Z ∉ ptrs x) (take i infos) ->
  exists m' infos', fill_nodes out i nodes m = (Ok tt, m') /\
    m_blocks m' !! out = Some (BNodes infos') /\ Forall (fun x => 0%Z ∉ ptrs x) infos'.
Proof.
  revert m infos i. induction nodes as [|n nodes IH]; intros m infos i Hout Hc Hb Hlen Hf.
  - exists m, infos. simpl in Hlen. rewrite take_ge in Hf by lia. done.
  - cbn [fill_nodes]. simpl in Hlen. unfold dup_str.
    assert (exists m5, calm_mem m5 /\ m_blocks m5 !! out = Some (BNodes infos) /\
      m_next m5 = (m_next m + 5)%Z /\ forall k : Z -> Z -> Z -> Z -> Z -> M CMem unit,
        (a ← malloc (BChars (ni_hostname n +:+ String NUL ""));
          b ← malloc (BChars (ni_ipv4 n +:+ String NUL ""));
         c ← malloc (BChars (ni_ipv6 n +:+ String NUL ""));
           d ← malloc (BChars (ni_node_key n +:+ String NUL ""));
         e ← malloc (BChars (ni_token n +:+ String NUL "")); k a b c d e) m =
        k (m_next m) (m_next m + 1)%Z (m_next m + 2)%Z (m_next m + 3)%Z (m_next m + 4)%Z m5)
      as (m5 & Hc5 & Hb5 & Hn5 & Hk).
    { destruct (calm_malloc (BChars (ni_hostname n +:+ String NUL "")) m Hc) as (m1 & E1 & H1 & N1 & B1).
      destruct (calm_malloc (BChars (ni_ipv4 n +:+ String NUL "")) m1 H1) as (m2 & E2 & H2 & N2 & B2).
      destruct (calm_malloc (BChars (ni_ipv6 n +:+ String NUL "")) m2 H2) as (m3 & E3 & H3 & N3 & B3).
      destruct (calm_malloc (BChars (ni_node_key n +:+ String NUL "")) m3 H3) as (m4 & E4 & H4 & N4 & B4).
      destruct (calm_malloc (BChars (ni_token n +:+ String NUL "")) m4 H4) as (m5 & E5 & H5 & N5 & B5).
      exists m5. split; [done |]. split; [| split; [lia |]].
      - rewrite B5, B4, B3, B2, B1, !lookup_insert_ne by lia. done.
      - intros k. rewrite (bind_Ok _ _ _ _ _ E1), (bind_Ok _ _ _ _ _ E2), (bind_Ok _ _ _ _ _ E3),
          (bind_Ok _ _ _ _ _ E4), (bind_Ok _ _ _ _ _ E5). f_equal; lia. }
    rewrite Hk. set (x := mkCNodeInfo _ _ _ _ _ _ _ _).
    rewrite (bind_Ok _ _ _ _ _ (write_info_spec out i x m5 infos Hb5 ltac:(lia))).
    apply (IH _ (<[i := x]> infos)).
    + simpl. lia.
    + done.
    + apply lookup_insert_eq.
    + rewrite length_insert. lia.
    + rewrite (take_S_r _ _ x) by (apply list_lookup_insert_eq; lia). rewrite take_insert_ge by lia.
      apply Forall_app. split; [done |]. constructor; [| constructor].
      unfold x, ptrs. simpl. rewrite !not_elem_of_cons. repeat split; try lia. apply not_elem_of_nil.
Qed.

Lemma calm_pack nodes m : mem_wf m -> calm_mem m -> nodes <> [] ->
  exists p infos m1, pack_nodes nodes m = (Ok (p, Z.of_nat (length nodes)), m1) /\ p <> 0%Z /\
    m_blocks m1 !! p = Some (BNodes infos) /\ Forall (fun x => 0%Z ∉ ptrs x) infos.
Proof.
  intros [Hn _] Hc Hne. destruct nodes as [|n nodes]; [done |]. unfold pack_nodes.
  set (l := n :: nodes). clearbody l. 
  destruct (calm_malloc (BNodes (replicate (length l) zero_info)) m Hc) as (m1 & E1 & H1 & N1 & B1).
  rewrite (bind_Ok _ _ _ _ _ E1), (proj2 (Z.eqb_neq (m_next m) 0)) by lia.
  destruct (calm_fill (m_next m) l m1 (replicate (length l) zero_info) 0) as (m' & infos & E & Hb & Hf).
  - lia.
  - done.
  - rewrite B1. apply lookup_insert_eq.
  - by rewrite length_replicate.
  - constructor.
  - rewrite (bind_Ok _ _ _ _ _ E). exists (m_next m), infos, m'. split; [done |]. split; [lia | done].
Qed.

(** C10: wirebone_list_nodes and wirebone_free_nodes are memory safe whichever
    allocations fail. On a live handle the listing returns: NULL and a count of
    0, or an array with one element per registered node, in order, with its id
    and flags, each string of which is NULL or a copy of the node's; when no
    allocation fails it is an array, if there are nodes, with no NULL.
      Freeing what was returned, with the count that was returned,
    frees every block once and leaves the heap as it was before the listing. *)
Theorem list_then_free h c ob : mem_wf (c_mem c) -> h <> 0%Z -> c_objs c !! h = Some ob ->
  let nodes : list NodeInfo := node_info <$> st_nodes (store (co_st (ob_co ob))) in
  exists (p n : Z) (c1 : CState), wirebone_list_nodes h true c = (Ok (p, n), c1) /\
    (p = 0%Z -> n = 0%Z /\ m_blocks (c_mem c1) = m_blocks (c_mem c)) /\
    (p <> 0%Z -> n = Z.of_nat (length nodes) /\ exists infos,
       m_blocks (c_mem c1) !! p = Some (BNodes infos) /\ Forall2 (shows (c_mem c1)) infos nodes) /\
    (calm_mem (c_mem c) -> nodes <> [] -> p <> 0%Z /\
       exists infos, m_blocks (c_mem c1) !! p = Some (BNodes infos) /\
         Forall (fun x => 0%Z ∉ ptrs x) infos) /\
    exists c2, on_mem (wirebone_free_nodes p n) c1 = (Ok tt, c2) /\
      m_blocks (c_mem c2) = m_blocks (c_mem c).
Proof.
  intros Hwf Hh Hob nodes. destruct (pack_nodes_spec nodes (c_mem c) Hwf) as (p & n & m1 & ps & E &
    Hnull & Hlive).
  assert (exists c1, wirebone_list_nodes h true c = (Ok (p, n), c1) /\ c_mem c1 = m1) as (c1 & Hlist & <-).
  { unfold wirebone_list_nodes. rewrite (proj2 (Z.eqb_neq h 0) Hh). cbn [orb negb].
    assert (exists c', on_impl h list_nodes c = (Ok nodes, c') /\ c_mem c' = c_mem c) as (c' & E' & Hc')
      by (unfold on_impl; rewrite Hob; by eexists).
    rewrite (bind_Ok _ _ _ _ _ E'). unfold on_mem, zoom. rewrite Hc', E. by eexists. }
  exists p, n, c1. split; [done |]. split; [exact Hnull |].
  assert (calm_mem (c_mem c) -> nodes <> [] -> p <> 0%Z /\
    exists infos, m_blocks (c_mem c1) !! p = Some (BNodes infos) /\ Forall (fun x => 0%Z ∉ ptrs x) infos)
    as Hcalm.
  { intros Hc Hne. destruct (calm_pack nodes (c_mem c) Hwf Hc Hne) as (p' & infos & m1 & E' & Hp & Hb & Hf).
    rewrite E in E'. injection E' as -> _ <-. split; [done |]. by exists infos. }
  destruct (Z.eqb_spec p 0) as [->|Hp].
  - split; [done |]. split; [done |]. exists c1. destruct (Hnull eq_refl) as [-> Hb].
    split; [by destruct c1 | done].
  - destruct (Hlive Hp) as (-> & Hpn & infos & Hb & Hs & -> & Hd & Ho & Hl & Hf).
    split; [by eauto |]. split; [exact Hcalm |].
    destruct (free_all_spec (concat (ptrs <$> infos)) (c_mem c1) Hd) as (m' & E' & Hn & Hk);
      [intros q Hq; by apply Hl |].
    assert (wirebone_free_nodes p (Z.of_nat (length nodes)) (c_mem c1) =
      (Ok tt, set_blocks (delete p (m_blocks m')) m')) as Hfree.
    { unfold wirebone_free_nodes. rewrite (proj2 (Z.eqb_neq p 0) Hp).
      rewrite (bind_Ok _ _ _ tt m'); [by apply c_free_live with (BNodes infos); [| rewrite Hk] |].
      rewrite (free_infos_spec p infos); [exact E' | done | | exact Hd | intros q Hq;
        by apply Hl | exact Ho].
      rewrite Nat2Z.id. symmetry. by eapply Forall2_length. }
    eexists. split; [unfold on_mem, zoom; rewrite Hfree; reflexivity |]. simpl.
    apply map_eq. intros q. destruct (decide (q = p)) as [->|Hqp].
    + rewrite lookup_delete_eq. symmetry. by apply mem_wf_None; [| right].
    + rewrite lookup_delete_ne by done. destruct (decide (q ∈ nonnull (concat (ptrs <$> infos))))
      as [Hq|Hq].
      * rewrite Hn by done. symmetry. apply mem_wf_None; [done |]. right. by apply Hl.
      * by rewrite Hk, Hf.
Qed.

(** ** Keys through the C interface *)

(** The registry behind a handle, in the world of now. *)
Definition c_registry (h : Z) (c : CState) : option St :=
  (fun ob => mkSt (store (co_st (ob_co ob))) (c_world c)) <$> c_objs c !! h.

(** [shared] as the header documents it. *)
Definition c_shared (token : string) (shared : Z) : bool :=
  if (shared <? 0)%Z then str_empty token else negb (shared =? 0)%Z.

Lemma c_string_dup s : no_nul s = true -> c_string (s +:+ String NUL "") = s.
Proof.
  induction s as [|a s IH]; simpl; [done |]. intros [Ha Hs]%andb_true_iff.
  apply negb_true_iff in Ha. by rewrite Ha, IH.
Qed.

Section CKeys.
  Context `{OSSL : !OpenSSL} `{Inet : !InetLib} `{JLaws : JsonLaws}.

Lemma on_impl_step {A} h (m : M Co A) c ob : c_objs c !! h = Some ob -> exists co' c',
  m (mkCo (co_cfg (ob_co ob)) (mkSt (store (co_st (ob_co ob))) (c_world c)) (co_bootstrap (ob_co ob))
       (co_map_gen (ob_co ob)) (c_steady c)) = ((on_impl h m c).1, co') /\
  on_impl h m c = ((on_impl h m c).1, c') /\ c_mem c' = c_mem c /\
  c_registry h c' = Some (co_st co').
Proof.
  intros Hob. unfold on_impl. rewrite Hob. destruct (m _) as [r co']. exists co'. eexists.
  split; [done |]. split; [done |]. split; [done |].
  unfold c_registry. simpl. rewrite lookup_insert_eq. simpl. by destruct (co_st co').
Qed.

(** C26: a key minted through the C interface is usable. When
    wirebone_create_preauth_key_ex returns a pointer, the C string at it is the
    text of a key that the registry now finds, that is valid at any time, is
    reusable and ephemeral as the integer arguments say, and carries the token
    and the sharing that the header documents ([shared] negative: shared when
    there is no token), unless an older key happens to have the same text. *)
Theorem c_key_usable h reusable ephemeral token shared c c1 st p :
  mem_wf (c_mem c) -> c_registry h c = Some st -> st_persist_hook (store st) = None ->
  wirebone_create_preauth_key_ex h reusable ephemeral token shared c = (Ok p, c1) -> p <> 0%Z ->
  exists key st1, read_c_string p (c_mem c1) = Some key /\ c_registry h c1 = Some st1 /\
    (find_first (is_key key) (st_keys (store st)) = None ->
     exists k, find_first (is_key key) (current_keys st1) = Some k /\
       (forall now, key_valid now k = true) /\
       pk_reusable k = negb (reusable =? 0)%Z /\
       claim_of k = mkPreauthClaim (negb (ephemeral =? 0)%Z) (default "" token)
                      (c_shared (default "" token) shared)).
Proof.
  intros Hwf Hreg Hh Hc Hp. unfold wirebone_create_preauth_key_ex in Hc.
  destruct (h =? 0)%Z; [by injection Hc as <- _ |].
  unfold c_registry in Hreg. destruct (c_objs c !! h) as [ob|] eqn:Hob; [| done]. injection Hreg as <-.
  destruct (on_impl_step h (create_key (options_of reusable ephemeral token shared)) c ob Hob)
    as (co' & c' & Hm & Hi & Hmem & Hreg).
  unfold guarded, mbind, M_bind in Hc.
  destruct (on_impl h (create_key _) c) as [r c2]. injection Hi as <-. simpl in Hm.
  destruct r as [key|e|]; [| simpl in Hc; congruence | simpl in Hc; congruence].
  unfold on_mem, zoom in Hc. destruct (malloc_spec (-1) (BChars (key +:+ String NUL "")) (c_mem c2))
    as (q & m' & E & _ & _ & _ & Hq); [by rewrite Hmem | rewrite Hmem; destruct Hwf; lia |].
  unfold dup_str in Hc. rewrite E in Hc. injection Hc as -> <-. destruct Hq as [|Hq]; [done |].
  unfold create_key, on_st, zoom in Hm. simpl in Hm.
  set (st := mkSt (store (co_st (ob_co ob))) (c_world c)) in *.
  destruct (create_preauth_key _ _ 0 _ _ st) as [r st1] eqn:Ec. injection Hm as -> <-. simpl in Hreg.
  exists key, st1. split; [| split; [exact Hreg |]].
  - unfold read_c_string. simpl. rewrite Hq. f_equal. apply c_string_dup. by eapply minted_no_nul.
  - intros Hnew. eexists. split; [by eapply minted_found; [exact Hh | exact Ec | | left] |].
    split; [intros now; apply minted_valid |]. split; [done |]. unfold claim_of. simpl.
    assert (match token with Some t => if str_empty t then "" else t | None => "" end = default ""
      token) as ->
      by by destruct token as [[]|].
    f_equal. unfold c_shared, resolve_shared. by destruct (Z.leb_spec 0 shared),
      (Z.ltb_spec shared 0); [lia | | | lia].
Qed.

(** A token whose text makes dump() throw, in any state that has a key with it:
    nlohmann's documented behaviour for text that is not UTF-8. *)
Definition undumpable (token : string) : Prop := forall s, token ∈ (pk_token <$> st_keys s) ->
  json_dump (snapshot_locked s) = Throw TypeError /\ json_dump2 (snapshot_locked s) = Throw TypeError.

Lemma save_undumpable st e : st_path (store st) <> "" ->
  json_dump2 (snapshot_locked (store st)) = Throw e ->
  exists e' st', save_locked st = (Throw e', st').
Proof.
  intros Hp Hd. unfold save_locked. mstep. destruct (str_empty _) eqn:E;
    [by destruct (st_path (store st)) |].
  unfold write_state_file. mstep. destruct (negb (w_can_write _ _)); mstep; [by eexists _, _ |].
  rewrite Hd. mstep. by eexists _, _.
Qed.

(** A key whose state cannot be saved is not returned, but it stays in memory. *)
Lemma create_undumpable r x t sh st tok : st_path (store st) <> "" -> undumpable tok ->
  t = tok \/ tok ∈ (pk_token <$> st_keys (store st)) ->
  exists e st', create_preauth_key r x 0 t sh st = (Throw e, st') /\
    (st_keys (store st') = st_keys (store st) \/ t ∈ (pk_token <$> st_keys (store st'))).
Proof.
  intros Hp Hu Ht. unfold create_preauth_key, random_token. unfold mbind, M_bind, on_rng, zoom.
  unfold random_bytes. cbn [Nat.eqb]. mstep.
  destruct (rand_bytes _ 32) as [raw|]; cbn; [| eexists _, _; split; [reflexivity | by left]].
  set (k := mkPreauthKey _ _ _ _ _ _ _). set (st1 := mkSt _ _).
  destruct (save_undumpable st1 TypeError Hp) as (e & st' & E).
  { apply Hu. simpl. rewrite fmap_app, elem_of_app. simpl. rewrite list_elem_of_singleton.
    destruct Ht as [->|]; auto. }
  rewrite E. eexists _, _. split; [reflexivity |]. right.
  pose proof (save_locked_store st1) as Hst. rewrite E in Hst. simpl in Hst. rewrite Hst. simpl.
  rewrite fmap_app, elem_of_app. right. simpl. by rewrite list_elem_of_singleton.
Qed.


End CKeys.

(** ** Samples *)

Module CSamples.
Import SampleCrypto SampleInet SampleJson.

(** A program with a live coordinator of two nodes, whose third string and
    sixth block cannot be allocated. *)
Definition c_two : CState :=
  mkC (mkCMem ∅ 1 [true; true; true; false; true; true; false])
    {[100%Z := mkObj co_two (Listener_new default_config calm_os)]} 101 (world (co_st co_two)) calm_os 0.

Lemma two_wf : mem_wf (c_mem c_two).
Proof. split; [done |]. intros p b. simpl. by rewrite lookup_empty. Qed.

Lemma list_then_free_witness :
  (wirebone_list_nodes 100 true c_two).1 = Ok (1%Z, 2%Z) /\
  exists c1 c2, wirebone_list_nodes 100 true c_two = (Ok (1%Z, 2%Z), c1) /\
    on_mem (wirebone_free_nodes 1 2) c1 = (Ok tt, c2) /\ m_blocks (c_mem c2) = ∅.
Proof.
  assert ((wirebone_list_nodes 100 true c_two).1 = Ok (1%Z, 2%Z)) as H1 by (vm_compute; reflexivity).
  split; [exact H1 |].
  destruct (list_then_free 100 c_two (mkObj co_two (Listener_new default_config calm_os)) two_wf
    ltac:(discriminate) (lookup_singleton_eq _ _)) as (p & n & c1 & E & _ & _ & _ & c2 & E2 & Hb).
  rewrite E in H1. injection H1 as -> ->. exists c1, c2.
  split; [exact E | split; [exact E2 | exact Hb]].
Defined.

Definition beta_key : string :=
  Eval vm_compute in
    default "" (read_c_string 1 (c_mem (wirebone_create_preauth_key_ex 100 0 1 (Some "beta") (-1)
      c_two).2)).

Lemma c_key_usable_witness : exists c1 st1 k,
  wirebone_create_preauth_key_ex 100 0 1 (Some "beta") (-1) c_two = (Ok 1%Z, c1) /\
  c_registry 100 c1 = Some st1 /\ find_first (is_key beta_key) (current_keys st1) = Some k /\
  pk_reusable k = false /\ claim_of k = mkPreauthClaim true "beta" false.
Proof.
  destruct (wirebone_create_preauth_key_ex 100 0 1 (Some "beta") (-1) c_two) as [r c1] eqn:E.
  assert (r = Ok 1%Z) as -> by (change r with (r, c1).1; rewrite <-E; vm_compute; reflexivity).
  assert (read_c_string 1 (c_mem c1) = Some beta_key) as Hbeta
    by (change c1 with (Ok 1%Z, c1).2; rewrite <-E; vm_compute; reflexivity).
  destruct (c_key_usable 100 0 1 (Some "beta") (-1) c_two c1 (co_st co_two) 1 two_wf
    ltac:(vm_compute; reflexivity) ltac:(reflexivity) E ltac:(discriminate)) as (key & st1 & Hk & Hr & H).
  rewrite Hbeta in Hk. injection Hk as <-.
  destruct H as (k & Hf & _ & Hre & Hcl); [vm_compute; reflexivity |].
  by exists c1, st1, k.
Defined.

(** A JSON library that refuses to dump the byte 255, which no UTF-8 text has. *)
Fixpoint utf8_only (s : string) : bool :=
  match s with "" => true | String c s => negb (char_code c =? 255)%Z && utf8_only s end.

Fixpoint utf8_tree (t : tree) : bool :=
  match t with
  | TStr s => utf8_only s
  | TArr l => forallb utf8_tree l
  | TObj l => forallb (fun kv => utf8_only kv.1 && utf8_tree kv.2) l
  | _ => true
  end.

#[local] Instance strict_json : JsonLib := {|
  json := tree;
  jbool := jbool; jint := jint; jstr := jstr; jarr := jarr; jobj := jobj;
  json_find := json_find; json_is_object := json_is_object; json_is_array := json_is_array;
  json_is_string := json_is_string; json_items := json_items;
  json_get_string := json_get_string; json_get_bool := json_get_bool; json_get_int := json_get_int;
  json_get_strings := json_get_strings;
  json_value_string := json_value_string; json_value_bool := json_value_bool;
  json_value_int := json_value_int;
  json_dump := fun t => if utf8_tree t then Ok (tree_text t) else Throw TypeError;
  json_dump2 := fun t => if utf8_tree t then Ok (tree_text t) else Throw TypeError;
  json_parse := json_parse; json_read := json_read |}.

Definition bad_token : string := String (code_char 255) "".

Lemma bad_token_undumpable : undumpable bad_token.
Proof.
  intros st (k & Hk & Hin)%list_elem_of_fmap.
  assert (utf8_tree (snapshot_locked st) = false) as E.
  { apply not_true_iff_false. unfold snapshot_locked. simpl.
    rewrite !andb_true_iff. intros (_ & H & _). rewrite forallb_forall in H.
    specialize (H (key_to_json k)). rewrite <-list_elem_of_In in H.
    specialize (H (list_elem_of_fmap_2 key_to_json _ _ Hin)). simpl in H. rewrite <-Hk in H.
    rewrite !andb_true_iff in H. destruct H as (_ & H & _). discriminate H. }
  assert ((if utf8_tree (snapshot_locked st) then Ok (tree_text (snapshot_locked st)) else Throw
    TypeError) =
    Throw TypeError) as H by by rewrite E.
  split; exact H.
Qed.

(** A coordinator with a state file, before and after a key with the token. *)
Definition c_filed : CState :=
  (wirebone_create (Some (mkCConfig None None None None (Some "s") None None)) c_two).2.
Definition c_bad : CState := (wirebone_create_preauth_key_ex 101 1 0 (Some bad_token) (-1) c_filed).2.


End CSamples.
