(* ===== verification/Cli.v ===== *)
(** * Cli: the command line of main.cpp

    The program as a function of its arguments, over the world its coordinator
    uses and the text it writes to standard output. An exception that reaches
    the end of main is a [Throw]. *)

From S2P Require Import Prelude.
From S2P Require Import Crypto.
From S2P Require Import Keys.
From S2P Require Import IpAlloc.
From S2P Require Import Json.
From S2P Require Import State.
From S2P Require Import StateFacts.
From S2P Require Import StateSpec.
From S2P Require Import StateLife.
From S2P Require Import Netmap.
From S2P Require Import Socket.
From S2P Require Import Http1.
From S2P Require Import Noise.
From S2P Require Import Http2.
From S2P Require Import Dns.
From S2P Require Import Coordinator.
From S2P Require Import CoordFacts.
From S2P Require Import Lifecycle.
From S2P Require Import Minted.
From S2P Require Import StateSamples.

(** ** Arguments *)

(** The value after the first [name] that is not the last argument. *)
Fixpoint opt (argv : list string) (name def : string) : string :=
  match argv with
  | a :: ((b :: _) as argv) => if bool_decide (a = name) then b else opt argv name def
  | _ => def
  end.

Definition flag (argv : list string) (name : string) : bool :=
  existsb (fun a => bool_decide (a = name)) argv.

Definition cfg_from_args (argv : list string) : Config :=
  mkConfig (opt argv "--listen" "0.0.0.0:8080") (opt argv "--url" "http://127.0.0.1:8080")
    (cf_ip_prefix default_config) (cf_ipv6_prefix default_config)
    (opt argv "--state" "wirebone.state.json") (opt argv "--domain" "wirebone.local")
    (opt argv "--dns" "0.0.0.0:5353") (cf_keepalive default_config).

(** [argc >= 3 && argv[2] == name] *)
Definition subcommand (argv : list string) (name : string) : bool :=
  match argv with _ :: _ :: a :: _ => bool_decide (a = name) | _ => false end.

(** ** The process *)

Record Proc := mkProc {
  pr_world : World;
  pr_os : Os;
  pr_steady : Z;
  pr_out : string;
  pr_err : string;
}.

Definition set_pr_world (w : World) (p : Proc) : Proc :=
  mkProc w (pr_os p) (pr_steady p) (pr_out p) (pr_err p).
Definition cout (s : string) : M Proc unit :=
  modify (fun p => mkProc (pr_world p) (pr_os p) (pr_steady p) (pr_out p +:+ s) (pr_err p)).
Definition cerr (s : string) : M Proc unit :=
  modify (fun p => mkProc (pr_world p) (pr_os p) (pr_steady p) (pr_out p) (pr_err p +:+ s)).

(** How main ends: with a code, or in the accept loop of the server. *)
Inductive ending :=
  | Exit (code : Z)
  | Serving (co : Co) (li : Listener).

Definition newline : string := String (code_char 10) "".
Definition TAB : string := String (code_char 9) "".

Definition usage_text : string :=
  "wirebone — embeddable Tailscale/Headscale-compatible coordinator" +:+ newline +:+ newline +:+
  "Usage:" +:+ newline +:+
  "  wirebone serve [--listen HOST:PORT] [--url URL] [--state PATH]" +:+ newline +:+
  "                 [--domain NAME] [--dns HOST:PORT]" +:+ newline +:+
  "  wirebone preauth create [--state PATH] [--one-shot] [--ephemeral]" +:+ newline +:+
  "                          [--token ID] [--shared|--no-shared]" +:+ newline +:+
  "  wirebone nodes list [--state PATH]" +:+ newline.

Definition usage : M Proc unit := cerr usage_text.

Section Cli.
  Context `{OSSL : !OpenSSL} `{Inet : !InetLib} `{JL : !JsonLib}.

(** [wirebone::Coordinator coord(cfg)] *)
Definition new_coord (cfg : Config) : M Proc Co := fun p =>
  let '(r, w) := Co_new cfg (pr_world p) (pr_steady p) in (r, set_pr_world w p).

(** A method of [coord]; the coordinator after it. *)
Definition call_coord {A} (co : Co) (m : M Co A) : M Proc (A * Co) := fun p =>
  let '(r, co) := m (set_co_st (mkSt (store (co_st co)) (pr_world p)) co) in
  ((fun a => (a, co)) <$> r, set_pr_world (world (co_st co)) p).

(** The listening half of [coord.run()]; the accept loop is in Lifecycle. *)
Definition listen_coord (cfg : Config) : M Proc Listener := fun p =>
  let '(r, l) := start_listen (Listener_new cfg (pr_os p)) in
  ((fun _ => l) <$> r, mkProc (pr_world p) (li_os l) (pr_steady p) (pr_out p) (pr_err p)).

Definition serve_command (argv : list string) : M Proc ending :=
  let cfg := cfg_from_args argv in
  co ← new_coord cfg;
  _ ← cout ("wirebone listening on http://" +:+ cf_listen cfg +:+ newline);
  _ ← cout ("control_url  " +:+ cf_server_url cfg +:+ newline);
  _ ← cout ("magicdns     " +:+ cf_domain cfg +:+ " via udp " +:+ cf_dns_listen cfg +:+ newline);
  nk ← call_coord co noise_public_key;
  let '(pub, co) := nk in
  _ ← cout ("noise key    " +:+ pub +:+ newline);
  bk ← call_coord co bootstrap_key;
  let '(boot, co) := bk in
  ks ← call_coord co list_preauth_keys;
  let '(keys, co) := ks in
  _ ← (if negb (str_empty boot) then cout ("preauth key  " +:+ boot +:+ newline)
       else match keys with
            | k :: _ => cout ("preauth key  " +:+ pi_key k +:+ newline)
            | [] => mret ()
            end);
  _ ← cout ("QuackScale:" +:+ newline +:+
            "  CALL quackscale_serve(...)  -- coordinator + client in one process" +:+ newline +:+
            "  CALL tailscale_up(control_url => '" +:+ cf_server_url cfg +:+
            "', authkey => '<preauth>', hostname => 'node-a');" +:+ newline);
  li ← listen_coord cfg;
  mret (Serving co li).

(** The options of [preauth create]. *)
Definition create_options (argv : list string) : PreauthOptions :=
  mkPreauthOptions (negb (flag argv "--one-shot")) (flag argv "--ephemeral") 0 (opt argv "--token" "")
    (if flag argv "--shared" then Some true
     else if flag argv "--no-shared" then Some false else None).

Definition create_command (argv : list string) : M Proc ending :=
  co ← new_coord (cfg_from_args argv);
  kc ← call_coord co (create_key (create_options argv));
  _ ← cout (kc.1 +:+ newline);
  mret (Exit 0).

Definition node_line (n : NodeInfo) : string :=
  to_string (ni_id n) +:+ TAB +:+ ni_hostname n +:+ TAB +:+ ni_ipv4 n +:+ TAB +:+ ni_ipv6 n +:+ TAB +:+
  ni_node_key n +:+ TAB +:+ ni_token n +:+ TAB +:+ (if ni_shared n then "shared" else "") +:+ newline.

Definition list_command (argv : list string) : M Proc ending :=
  co ← new_coord (cfg_from_args argv);
  ns ← call_coord co list_nodes;
  _ ← for_each ns.1 (fun n => cout (node_line n));
  mret (Exit 0).

Definition main (argv : list string) : M Proc ending :=
  match argv with
  | _ :: cmd :: _ =>
      if bool_decide (cmd = "serve") then serve_command argv
      else if bool_decide (cmd = "preauth") && subcommand argv "create" then create_command argv
      else if bool_decide (cmd = "nodes") && subcommand argv "list" then list_command argv
      else _ ← usage; mret (Exit 2)
  | _ => _ ← usage; mret (Exit 2)
  end.

End Cli.

(** ** What the commands do *)

Section CliFacts.
  Context `{OSSL : !OpenSSL} `{OLaws : !OpenSSLLaws} `{Inet : !InetLib} `{JLaws : JsonLaws}.

(** A new coordinator is on the path of its configuration and has no callback;
    its world is the one it was built in. *)
Lemma Co_new_frame cfg w steady co w' : Co_new cfg w steady = (Ok co, w') ->
  world (co_st co) = w' /\ st_persist_hook (store (co_st co)) = None /\
  st_path (store (co_st co)) = cf_state_path cfg.
Proof.
  unfold Co_new. destruct (Store_new _ _ _ w) as [[s|e|] w1] eqn:En; [| done | done].
  destruct (Store_new_frame _ _ _ _ _ _ En) as (Hh & Hp & _).
  erewrite bind_Ok by done. cbv beta. cbn [co_st set_co_st store].
  destruct (st_keys s) as [|k ks] eqn:Ek; rewrite ?Ek.
  - unfold create_key, on_st, zoom, mbind, M_bind. simpl.
    destruct (keys_only_create true false 0 "" None (mkSt s w1)) as [ks Hks].
    destruct (create_preauth_key _ _ _ _ _ _) as [[key|e|] st1]; simpl in *; try (intros; discriminate).
    intros [= <- <-]. simpl. rewrite Hks. simpl. by rewrite Hh, Hp.
  - simpl. intros [= <- <-]. simpl. by rewrite Hh, Hp.
Qed.


Lemma for_each_cout (l : list NodeInfo) p :
  for_each l (fun n => cout (node_line n)) p =
    (Ok tt, mkProc (pr_world p) (pr_os p) (pr_steady p)
              (fold_left (fun s n => s +:+ node_line n) l (pr_out p)) (pr_err p)).
Proof.
  revert p. induction l as [|n l IH]; intros p; [by destruct p |]. cbn [for_each].
  erewrite bind_Ok by reflexivity. by rewrite IH.
Qed.

Lemma fold_append l out : fold_left (fun s n => s +:+ node_line n) l out = out +:+ String.concat ""
  (node_line <$> l).
Proof.
  revert out. induction l as [|n l IH]; intros out; [by rewrite str_app_nil_r |].
  cbn [fold_left fmap list_fmap]. rewrite IH, str_app_assoc. f_equal.
  destruct l as [|n2 l]; [by rewrite str_app_nil_r | done].
Qed.

(** C27: [wirebone nodes list] prints what the server has saved. On the state
    file of a registry with the default networks whose last save succeeded, that
    has a preauth key, and whose ids, counters and expiry times fit a C++ int,
    the command changes nothing in the world and prints, for each registered
    node in order, one line of seven columns separated by tabs: id, hostname,
    IPv4 address, IPv6 address, node key, token, and "shared" or nothing, each
    as it is in the server's memory. *)
Theorem nodes_list_shows prog args p st st' :
  let argv := prog :: "nodes" :: "list" :: args in
  opt argv "--state" "wirebone.state.json" = st_path (store st) -> st_path (store st) <> "" ->
  IpAllocator_new (cf_ip_prefix default_config) (cf_ipv6_prefix default_config) =
    Ok (st_alloc (store st)) ->
  st_persist_hook (store st) = None -> length (st_noise_private (store st)) = 32 ->
  st_noise_private (store st) <> zero32 -> int_range (store st) -> st_keys (store st) <> [] ->
  persist st = (Ok tt, st') -> pr_world p = world st' ->
  exists lines,
    main argv p = (Ok (Exit 0),
      mkProc (pr_world p) (pr_os p) (pr_steady p) (pr_out p +:+ String.concat "" lines) (pr_err p)) /\
    Forall2 (fun line n => exists columns,
      columns = [to_string (ns_id n); ns_hostname n; ns_ipv4 n; ns_ipv6 n; ns_node_key n; ns_token n;
                 if ns_shared n then "shared" else ""] /\
      line = String.concat (String (code_char 9) "") columns +:+ String (code_char 10) "")
      lines (st_nodes (store st)).
Proof.
  intros argv Hpath Hne Ha Hh Hlen Hnz Hr Hks Hsave Hw. exists (node_line <$> (node_info <$>
    st_nodes (store st))).
  split.
  2: { clear. induction (st_nodes (store st)) as [|n l IH]; constructor; [| exact IH].
       eexists. split; [reflexivity |]. unfold node_line. cbn.
       repeat progress (rewrite ?str_app_assoc; cbn [String.append]). reflexivity. }
  assert (exists co, Co_new (cfg_from_args argv) (pr_world p) (pr_steady p) = (Ok co, pr_world p) /\
    st_nodes (store (co_st co)) = st_nodes (store st)) as (co & Ec & Hns).
  { unfold Co_new. cbn [cf_state_path cf_ip_prefix cf_ipv6_prefix cfg_from_args].
    rewrite Hpath, Hw, (reopen_saved _ _ _ _ Ha Hh Hne Hlen Hnz Hr Hsave).
    erewrite bind_Ok by done. cbv beta. cbn [co_st set_co_st store].
    destruct (st_keys (store st)) as [|k ks] eqn:Ek; rewrite ?Ek; [done |].
    eexists. split; reflexivity. }
  unfold main, argv. fold argv. change (list_command argv p = (Ok (Exit 0),
    mkProc (pr_world p) (pr_os p) (pr_steady p)
      (pr_out p +:+ String.concat "" (node_line <$> (node_info <$> st_nodes (store st)))) (pr_err p))).
  unfold list_command. rewrite (bind_Ok _ _ p co p).
  2: { unfold new_coord. rewrite Ec. by destruct p. }
  unfold call_coord. erewrite bind_Ok by reflexivity. cbn [fst].
  rewrite (bind_Ok _ _ _ _ _ (for_each_cout _ _)). simpl. by rewrite Hns, fold_append.
Qed.

End CliFacts.

(** ** Samples *)

Module CliSamples.
Import SampleCrypto SampleInet SampleJson.

Definition sample_proc : Proc := mkProc sample_world calm_os 0 "" "".
Definition create_args : list string := ["--state"; "s"; "--one-shot"; "--token"; "beta"; "--no-shared"].

Example usage_code : main ["wirebone"; "preauth"; "delete"] sample_proc =
  (Ok (Exit 2), mkProc sample_world calm_os 0 "" usage_text).
Proof. reflexivity. Qed.

(** The text of the key that the command prints. *)
Definition printed_key : string :=
  Eval vm_compute in
    let out := pr_out (main ("wirebone" :: "preauth" :: "create" :: create_args) sample_proc).2 in
    str_take (String.length out - 1) out.


(** The registry of StateSamples with one node, listed from its file. *)
Definition st_listed : St := Eval vm_compute in (persist st_registered).2.

Lemma nodes_list_shows_witness :
  st_nodes (store st_registered) <> [] /\
  exists lines, length lines = length (st_nodes (store st_registered)) /\
    main ["wirebone"; "nodes"; "list"; "--state"; "s"] (mkProc (world st_listed) calm_os 0 "" "") =
      (Ok (Exit 0), mkProc (world st_listed) calm_os 0 (String.concat "" lines) "").
Proof.
  split; [discriminate |].
  assert (persist st_registered = (Ok tt, st_listed)) as Hs by (vm_compute; reflexivity).
  destruct (nodes_list_shows "wirebone" ["--state"; "s"] (mkProc (world st_listed) calm_os 0 "" "")
    st_registered st_listed) as (lines & E & Hl).
  - reflexivity.
  - discriminate.
  - vm_compute. reflexivity.
  - reflexivity.
  - reflexivity.
  - vm_compute. discriminate.
  - in_range.
  - discriminate.
  - exact Hs.
  - reflexivity.
  - exists lines. split; [exact (Forall2_length _ _ _ Hl) | exact E].
Defined.

End CliSamples.
