(* ===== verification/Handlers.v ===== *)
(** * Handlers: what each request is answered with

    The handlers of coordinator.cpp on every branch, a failing save included:
    the bytes queued on the request's stream, the nodes and the generation
    after it. *)

From S2P Require Import Prelude.
From S2P Require Import Crypto.
From S2P Require Import Keys.
From S2P Require Import IpAlloc.
From S2P Require Import Json.
From S2P Require Import State.
From S2P Require Import StateFacts.
From S2P Require Import StateSpec.
From S2P Require Import StateLife.
From S2P Require Import Netmap.
From S2P Require Import Socket.
From S2P Require Import Noise.
From S2P Require Import Http2.
From S2P Require Import Coordinator.
From S2P Require Import CoordFacts.
From S2P Require Import TickFacts.
From S2P Require Import StateSamples.
From S2P Require Import CoordSamples.

(** ** The operations the handlers use *)

Section Saving.
  Context `{OSSL : !OpenSSL} `{Inet : !InetLib} `{JL : !JsonLib}.

(** The key a use finds, if it is valid. *)
Definition grantable (auth : string) (st : St) : option PreauthKey :=
  match find_first (is_key auth) (current_keys st) with
  | Some k => if key_valid (w_now (world st)) k then Some k else None
  | None => None
  end.

Lemma reload_world st st1 : reload_keys_from_disk st = (Ok tt, st1) -> world st1 = world st.
Proof.
  unfold reload_keys_from_disk. mstep. destruct (read_keys_file st) as [j|]; [| by intros [= <-]].
  unfold on_store, zoom. destruct (replace_keys j (store st)) as [[]]; intros [=]; by subst.
Qed.

(** A use grants the key it finds, or ends with the failure to save the mark. *)
Lemma consume_outcome auth st : (reload_keys_from_disk st).1 = Ok tt ->
  let '(r, st') := consume_preauth auth st in
  (exists ks, store st' = set_keys ks (store st)) /\
  (r = Ok (claim_of <$> grantable auth st) \/ is_ok r = false /\ grantable auth st <> None).
Proof.
  intros Hr. destruct (keys_only_consume auth st) as [ks' Hks']. unfold consume_preauth in *.
  unfold grantable, current_keys. destruct (reload_keys_from_disk st) as [r st1] eqn:E.
    simpl in Hr. subst r.
  rewrite (bind_Ok _ _ _ _ _ E) in *. cbn [snd]. pose proof (reload_world st st1 E) as Hw.
  unfold consume_locked in *. erewrite bind_Ok in * by done. rewrite consume_scan_spec in *.
    rewrite Hw in *.
  destruct (update_first_find (is_key auth) (set_pk_used true) (st_keys (store st1)))
    as [[Hu Hf]|(ks & k & Hu & Hf)]; rewrite Hu, Hf in *.
  { split; [by eexists | by left]. }
  destruct (key_valid _ k); [| split; [by eexists | by left]]. cbn [fmap option_fmap option_map fst] in *.
  revert Hks'. unfold upd_store. mstep.
  destruct (save_locked _) as [[[]|e|] st']; simpl; intros H; (split; [by eexists |]);
    [by left | by right..].
Qed.

(** What a registration makes of the nodes; [None] is the allocator's failure. *)
Definition after_register (m nk host : string) (e : bool) (t : string) (sh : bool) (s : Store)
    : option (Store * NodeState) :=
  match update_first (is_machine m) (reregister nk host e) (st_nodes s) with
  | Some (ns, n) => Some (set_nodes ns s, n)
  | None =>
      match address_for (st_alloc s) (st_next_ip_index s) with
      | Ok (v4, v6) =>
          let id := st_next_node_id s in
          let n := mkNodeState id (to_string id)
            (if str_empty host then "node-" +:+ to_string id else host) m nk "" v4 v6 [] false e t sh in
          Some (set_nodes (st_nodes s ++ [n])
                  (set_counters (wrap_u64 (id + 1)) (wrap_u32 (st_next_ip_index s + 1)) s), n)
      | _ => None
      end
  end.

(** A registration is that and a save, or the allocator's failure. *)
Lemma register_node_eq m nk host e t sh st :
  match after_register m nk host e t sh (store st) with
  | Some (s', n) => register_node m nk host e t sh st =
      let '(r, st') := save_locked (mkSt s' (world st)) in ((fun _ => n) <$> r, st')
  | None => is_ok (register_node m nk host e t sh st).1 = false /\
      st_nodes (store (register_node m nk host e t sh st).2) = st_nodes (store st)
  end.
Proof.
  unfold after_register, register_node. erewrite bind_Ok by done. cbv beta.
  assert (forall f n st0, (_ ← upd_store f; _ ← save_locked; mret n) st0 =
    let '(r, st') := save_locked (mkSt (f (store st0)) (world st0)) in ((fun _ : unit => n :
      NodeState) <$> r, st'))
    as Hsave.
  { intros f n st0. unfold upd_store. erewrite bind_Ok by reflexivity. unfold mbind, M_bind.
    by destruct (save_locked _) as [[[]|ex|] st']. }
  destruct (update_first (is_machine m) _ _) as [[ns x]|]; [apply Hsave |].
  cbv zeta. erewrite bind_Ok by reflexivity.
  destruct (address_for _ _) as [[v4 v6]|ex|]; [| done..].
  erewrite bind_Ok by reflexivity. etransitivity; [apply Hsave | reflexivity].
Qed.

Lemma map_info_eq m nk dk h es st :
  update_map_info m nk dk h es st =
    match update_first (is_machine m) (map_info nk dk h es) (st_nodes (store st)) with
    | Some (ns, _) => save_locked (mkSt (set_nodes ns (store st)) (world st))
    | None => (Ok tt, st)
    end.
Proof.
  unfold update_map_info. erewrite bind_Ok by done. cbv beta.
  destruct (update_first (is_machine m) _ _) as [[ns x]|]; [| done].
  unfold upd_store. by erewrite bind_Ok by reflexivity.
Qed.

End Saving.

(** ** The answers *)

(** The stream of the request holds the whole answer, and will end after it; no
    other stream is touched. *)
Definition answered `{NG : !Nghttp2} (sid : Z) (body : list byte) (i i' : Impl) : Prop :=
  h2_inv i' /\ forall id, stream_at i' id =
    if (sid =? id)%Z then set_out body 0 false true <$> stream_at i id else stream_at i id.

(** The stream holds a first frame and stays open. *)
Definition streaming `{NG : !Nghttp2} (sid : Z) (first : list byte) (i i' : Impl) : Prop :=
  h2_inv i' /\ forall id, stream_at i' id =
    if (sid =? id)%Z then set_out first 0 true false <$> stream_at i id else stream_at i id.

Section Answers.
  Context `{OSSL : !OpenSSL} `{Inet : !InetLib} `{JL : !JsonLib} `{ZS : !Zstd} `{NG : !Nghttp2}
    `{NLaws : !Nghttp2Laws}.

Lemma reply_ok sid status ct body s : h2_inv (sv_h2 s) ->
  exists i', with_h2 (reply sid status ct body) s = (Ok tt, set_sv_h2 i' s) /\
    answered sid body (sv_h2 s) i'.
Proof.
  intros Hi. destruct (submit_spec (sv_h2 s) sid (set_out body 0 false true) status (Some ct) false Hi)
    as (i' & E & Hi' & Hs); [done |]. exists i'. split; [by apply with_h2_step | by split].
Qed.

Lemma start_ok sid first s : h2_inv (sv_h2 s) ->
  exists i', with_h2 (reply_stream_start sid 200 first) s = (Ok tt, set_sv_h2 i' s) /\
    streaming sid first (sv_h2 s) i'.
Proof.
  intros Hi. destruct (submit_spec (sv_h2 s) sid (set_out first 0 true false) 200
    (Some "application/json") true Hi) as (i' & E & Hi' & Hs); [done |].
  exists i'. split; [by apply with_h2_step | by split].
Qed.

(** A store operation inside a handler: its end, or the exception that leaves it. *)
Lemma on_store_ok {A B} (op : M St A) (k : A -> M Serve B) s a st' :
  op (co_st (sv_co s)) = (Ok a, st') ->
  (x ← on_store_ op; k x) s = k a (set_sv_co (set_co_st st' (sv_co s)) s).
Proof. intros H. rewrite (bind_Ok _ _ s a (set_sv_co (set_co_st st' (sv_co s)) s)); [done |].
  by rewrite on_store_step, H. Qed.

Lemma on_store_throw {A B} (op : M St A) (k : A -> M Serve B) s e st' :
  op (co_st (sv_co s)) = (Throw e, st') ->
  (x ← on_store_ op; k x) s = (Throw e, set_sv_co (set_co_st st' (sv_co s)) s).
Proof. intros H. apply bind_Throw. by rewrite on_store_step, H. Qed.

Lemma on_store_fail {A B} (op : M St A) (k : A -> M Serve B) s :
  is_ok (op (co_st (sv_co s))).1 = false ->
  is_ok ((x ← on_store_ op; k x) s).1 = false /\
  ((x ← on_store_ op; k x) s).2 = set_sv_co (set_co_st (op (co_st (sv_co s))).2 (sv_co s)) s.
Proof.
  intros H. unfold mbind, M_bind. rewrite on_store_step.
  by destruct (op (co_st (sv_co s))) as [[a|e|] st'].
Qed.

(** Nothing was sent, and no stream was told of a change. *)
Definition unanswered (s s' : Serve) : Prop :=
  sv_h2 s' = sv_h2 s /\ sv_live s' = sv_live s /\ co_map_gen (sv_co s') = co_map_gen (sv_co s).

(** The end of the registration: the node, the generation, the answer, or the
    exception of the save, with the node in memory. *)
Lemma register_claimed sid m nk host c s s2 n otext : h2_inv (sv_h2 s) ->
  after_register m nk host (pc_ephemeral c) (pc_token c) (pc_shared c) (store (co_st (sv_co s))) =
    Some (s2, n) ->
  json_dump build_register_response = Ok otext ->
  let reg : M Serve unit :=
    (_ ← on_store_ (register_node m nk host (pc_ephemeral c) (pc_token c) (pc_shared c));
     _ ← on_co bump_map;
     ok ← lift (json_dump build_register_response);
     text_reply sid 200 "application/json" ok) in
  match (save_locked (mkSt s2 (world (co_st (sv_co s))))).1 with
  | Ok _ => exists s', reg s = (Ok tt, s') /\
      answered sid (bytes_of_string otext) (sv_h2 s) (sv_h2 s') /\ sv_nodes s' = st_nodes s2 /\
      co_map_gen (sv_co s') = wrap_u64 (co_map_gen (sv_co s) + 1)
  | Throw e => exists s', reg s = (Throw e, s') /\ unanswered s s' /\ sv_nodes s' = st_nodes s2
  | Ub => True
  end.
Proof.
  intros Hi Ha Ho reg. pose proof (register_node_eq m nk host (pc_ephemeral c) (pc_token c) (pc_shared c)
    (co_st (sv_co s))) as E. rewrite Ha in E.
  pose proof (save_locked_store (mkSt s2 (world (co_st (sv_co s))))) as Hst.
  destruct (save_locked _) as [[[]|e|] st'] eqn:Es; simpl in E, Hst |- *; [| | done].
  - subst reg. rewrite (on_store_ok _ _ _ _ _ E). erewrite bind_Ok by reflexivity. rewrite Ho.
    erewrite bind_Ok by reflexivity. set (s1 := set_sv_co _ _).
    destruct (reply_ok sid 200 "application/json" (bytes_of_string otext) s1 Hi) as (i' & Er & Hr).
    exists (set_sv_h2 i' s1). split; [exact Er |]. split; [exact Hr |].
    split; [unfold sv_nodes; simpl; by rewrite Hst | done].
  - subst reg. rewrite (on_store_throw _ _ _ _ _ E). eexists. split; [reflexivity |].
    split; [done |]. unfold sv_nodes. simpl. by rewrite Hst.
Qed.

(** The same with the allocator's failure. *)
Lemma register_end sid m nk host c s otext : h2_inv (sv_h2 s) ->
  json_dump build_register_response = Ok otext ->
  let reg : M Serve unit :=
    (_ ← on_store_ (register_node m nk host (pc_ephemeral c) (pc_token c) (pc_shared c));
     _ ← on_co bump_map;
     ok ← lift (json_dump build_register_response);
     text_reply sid 200 "application/json" ok) in
  match after_register m nk host (pc_ephemeral c) (pc_token c) (pc_shared c) (store (co_st (sv_co s))) with
  | None => is_ok (reg s).1 = false /\ unanswered s (reg s).2 /\ sv_nodes (reg s).2 = sv_nodes s
  | Some (s2, n) =>
      match (save_locked (mkSt s2 (world (co_st (sv_co s))))).1 with
      | Ok _ => exists s', reg s = (Ok tt, s') /\
          answered sid (bytes_of_string otext) (sv_h2 s) (sv_h2 s') /\ sv_nodes s' = st_nodes s2 /\
          co_map_gen (sv_co s') = wrap_u64 (co_map_gen (sv_co s) + 1)
      | Throw e => exists s', reg s = (Throw e, s') /\ unanswered s s' /\ sv_nodes s' = st_nodes s2
      | Ub => True
      end
  end.
Proof.
  intros Hi Ho reg.
  destruct (after_register m nk host _ _ _ (store (co_st (sv_co s)))) as [[s2 n]|] eqn:Ha;
    [by apply (register_claimed sid m nk host c s s2 n otext Hi) |].
  pose proof (register_node_eq m nk host (pc_ephemeral c) (pc_token c) (pc_shared c)
    (co_st (sv_co s))) as E. rewrite Ha in E. destruct E as [Hr Hn]. subst reg.
  match goal with |- context [mbind ?k (on_store_ ?op) s] =>
    destruct (on_store_fail op k s Hr) as [H1 H2] end.
  split; [exact H1 |]. rewrite H2. split; [done | exact Hn].
Qed.


End Answers.

(** ** Map requests *)

(** The fields of a map request, read in the order of the code. *)
Record MapFields := mkMapFields {
  mf_version : Z;
  mf_stream : bool;
  mf_omit_peers : bool;
  mf_zstd : bool;
  mf_node_key : string;
  mf_disco_key : string;
  mf_host : string;
}.

Definition map_fields `{JL : !JsonLib} (req : json) : res MapFields :=
  version ← json_value_int req "Version" 0;
  stream ← json_value_bool req "Stream" false;
  omit_peers ← json_value_bool req "OmitPeers" false;
  compress ← json_value_string req "Compress" "";
  node_key ← json_value_string req "NodeKey" "";
  disco_key ← json_value_string req "DiscoKey" "";
  host ← hostname_from_hostinfo req;
  Ok (mkMapFields version stream omit_peers (bool_decide (compress = "zstd")) node_key disco_key host).

(** A stream of version 68 or later does not update its node. *)
Definition mf_readonly (f : MapFields) : bool := mf_stream f && (68 <=? mf_version f)%Z.

(** The nodes after a map request: the machine's node updated, unless read-only,
    and then online. *)
Definition nodes_updated (m : string) (f : MapFields) (es : list string) (ns : list NodeState)
    : list NodeState :=
  if mf_readonly f then ns
  else match update_first (is_machine m) (map_info (mf_node_key f) (mf_disco_key f) (mf_host f) es) ns with
       | Some (ns', _) => ns'
       | None => ns
       end.

Definition nodes_seen (m : string) (f : MapFields) (es : list string) (ns : list NodeState)
    : list NodeState :=
  let ns := nodes_updated m f es ns in
  match update_first (is_machine m) (set_ns_online true) ns with Some (ns', _) => ns' | None => ns end.

(** What a map request is answered with, in the coordinator [c] that it leaves. *)
Definition map_answer `{NG : !Nghttp2} (sid : Z) (m : string) (f : MapFields) (c : Co)
    (first : list byte) (live : list LiveMap) (i i' : Impl) (live' : list LiveMap) : Prop :=
  if mf_omit_peers f && negb (mf_stream f) then answered sid [] i i' /\ live' = live
  else
    match find_first (is_machine m) (st_nodes (store (co_st c))) with
    | None => answered sid (bytes_of_string "unauthorized") i i' /\ live' = live
    | Some _ =>
        if mf_stream f then
          streaming sid first i i' /\
          live' = live ++ [mkLiveMap sid m (mf_zstd f) (co_map_gen c) (co_steady c)]
        else answered sid first i i' /\ live' = live
    end.

Section MapRequests.
  Context `{OSSL : !OpenSSL} `{Inet : !InetLib} `{JL : !JsonLib} `{ZS : !Zstd} `{NG : !Nghttp2}
    `{NLaws : !Nghttp2Laws}.

Lemma res_bind_inv {A B} (r : res A) (k : A -> res B) b :
  (x ← r; k x) = Ok b -> exists a, r = Ok a /\ k a = Ok b.
Proof. destruct r as [a|e|]; [by exists a | done..]. Qed.

Lemma answer_map_spec sid m f s first : h2_inv (sv_h2 s) ->
  (forall self, find_first (is_machine m) (sv_nodes s) = Some self ->
     map_frame_now (sv_co s) self (mf_zstd f) = Ok first) ->
  exists i' live', answer_map sid m (mf_stream f) (mf_omit_peers f) (mf_zstd f) s =
      (Ok tt, mkServe (sv_co s) i' live') /\
    map_answer sid m f (sv_co s) first (sv_live s) (sv_h2 s) i' live'.
Proof.
  intros Hi Hf. unfold answer_map, map_answer. fold (sv_nodes s).
  assert (forall status ct body, exists i' live',
    with_h2 (reply sid status ct body) s = (Ok tt, mkServe (sv_co s) i' live') /\
    answered sid body (sv_h2 s) i' /\ live' = sv_live s) as Hreply.
  { intros status ct body. destruct (reply_ok sid status ct body s Hi) as (i' & E & Ha).
    exists i', (sv_live s). by destruct s. }
  destruct (mf_omit_peers f && negb (mf_stream f)); [apply Hreply |]. rewrite find_step.
  destruct (find_first (is_machine m) (sv_nodes s)) as [self|]; [| apply Hreply].
  rewrite (bind_Ok _ _ s first s) by (by rewrite full_map_frame_eq, (Hf self)).
  destruct (mf_stream f); cbn [negb]; [| apply Hreply].
  destruct (start_ok sid first s Hi) as (i' & E & Ha). rewrite (bind_Ok _ _ _ _ _ E).
  exists i', (sv_live s ++ [mkLiveMap sid m (mf_zstd f) (co_map_gen (sv_co s)) (co_steady (sv_co s))]).
  split; [| by split]. by destruct s as [[] h2 live].
Qed.

(** on_map once its body and its fields are read. *)
Definition map_upd (m : string) (f : MapFields) (req : json) : M Serve unit :=
  if negb (mf_readonly f) then
    endpoints ← lift (endpoints_from_req req);
    _ ← on_store_ (update_map_info m (mf_node_key f) (mf_disco_key f) (mf_host f) endpoints);
    on_co bump_map
  else mret ().

Lemma on_map_eq sid m body s req f : parse_body body = Ok (Some req) -> map_fields req = Ok f ->
  on_map sid m body s =
    (_ ← map_upd m f req; _ ← on_store_ (set_online m true);
     answer_map sid m (mf_stream f) (mf_omit_peers f) (mf_zstd f)) s.
Proof.
  intros Hb Hf. unfold on_map. rewrite Hb. erewrite bind_Ok by reflexivity. cbv beta. revert Hf.
  unfold map_fields. intros Hf. repeat (apply res_bind_inv in Hf as (? & ?H & Hf)). injection Hf as <-.
  repeat match goal with
         | H : ?r = Ok _ |- context [mbind _ (lift ?r)] => rewrite (bind_lift r _ _ _ H); clear H
         end.
  reflexivity.
Qed.

Lemma set_online_nodes m b st : exists st', set_online m b st = (Ok tt, st') /\
  world st' = world st /\
  st_nodes (store st') = match update_first (is_machine m) (set_ns_online b) (st_nodes (store st)) with
                         | Some (ns, _) => ns | None => st_nodes (store st) end.
Proof.
  unfold set_online. erewrite bind_Ok by done. cbv beta.
  destruct (update_first _ _ _) as [[ns x]|]; eexists; split_and!; reflexivity.
Qed.

(** The store part of a map request: nothing when read-only. *)
Definition map_update (m : string) (f : MapFields) (es : list string) : M St unit :=
  if mf_readonly f then mret ()
  else update_map_info m (mf_node_key f) (mf_disco_key f) (mf_host f) es.

Lemma map_update_nodes m f es st :
  st_nodes (store (map_update m f es st).2) = nodes_updated m f es (st_nodes (store st)).
Proof.
  unfold map_update, nodes_updated. destruct (mf_readonly f); [done |]. rewrite map_info_store.
  by destruct (update_first _ _ _) as [[ns x]|].
Qed.


End MapRequests.

(** ** Samples *)

Module HandlerSamples.
Import SampleCrypto SampleInet SampleJson SampleZstd SampleNghttp2.

(** A request whose body has arrived on stream 3. *)
Definition asked (path body : string) : list h2_event := EvCallback <$> request_callbacks 3 path body.
Definition with_request (c : Co) (path body : string) : Serve :=
  mkServe c (run_events (asked path body) (Impl_new sample_sender)) [].

Lemma asked_inv c path body : h2_inv (sv_h2 (with_request c path body)).
Proof.
  apply (h2_trace_ok sample_sender (rev_append (asked path body) [])). apply trace_run; [apply trace_new |].
  vm_compute. tauto.
Qed.

(** A coordinator with a state file. *)
Definition co_file : Co :=
  Eval vm_compute in
    match Co_new (mkConfig "" "" "100.64.0.0/16" "fd7a:115c:a1e0::/48" "s" "wirebone.local" "" 50)
            sample_world 0 with
    | (Ok c, _) => c
    | (_, w) => mkCo default_config (mkSt (fresh_store "" default_alloc) w) "" 1 0
    end.

Definition denied_text : string := tree_text denied_response.
Definition accepted_text : string := tree_text build_register_response.
Definition joining : Serve := with_request co_file "/machine/register" "".

(** What a joining machine makes of the registry: whether it can be saved, and
    the nodes. *)
Definition join_result : option (bool * list NodeState) :=
  let '(used, st1) := consume_preauth (co_bootstrap co_file) (co_st co_file) in
  match used, after_register "mkey:a" "nodekey:1" "alice" false "" true (store st1) with
  | Ok _, Some (s2, _) => Some (is_ok (save_locked (mkSt s2 (world st1))).1, st_nodes s2)
  | _, _ => None
  end.
Definition join_node : NodeState :=
  Eval vm_compute in match join_result with Some (_, n :: _) => n | _ => alice end.


(** The same with a disk on which the state file cannot be replaced. *)
Definition co_readonly : Co :=
  set_co_st (mkSt (store (co_st co_file))
    (mkWorld (w_disk (world (co_st co_file))) 1000 9 (fun _ => true) (fun _ _ => false) [])) co_file.

Example register_unsaved :
  let '(r, s') := register 3 "mkey:a" "nodekey:1" "alice" (co_bootstrap co_file) true
    (with_request co_readonly "/machine/register" "") in
  r = Throw (RuntimeError "cannot replace state file s") /\ sv_nodes s' = [].
Proof. vm_compute. done. Qed.

(** The machine "mkey:a" has a node in [co_joined]; it asks for a stream. *)
Definition co_joined : Co :=
  Eval vm_compute in
    sv_co (on_request "mkey:a" 1 "POST" "/machine/register" (register_body (co_bootstrap co_file))
             (with_request co_file "/machine/register" "")).2.
Definition asking : Serve := with_request co_joined "/machine/map" map_body.

Definition map_req : json :=
  Eval vm_compute in match parse_body map_body with Ok (Some r) => r | _ => jobj [] end.
Definition stream_fields : MapFields := mkMapFields 60 true false false "" "" "".
Definition seen_node : NodeState :=
  Eval vm_compute in
    default alice (find_first (is_machine "mkey:a")
      (nodes_seen "mkey:a" stream_fields [] (st_nodes (store (co_st co_joined))))).


End HandlerSamples.
