(* ===== verification/Handles.v ===== *)
(** * Handles: many coordinators in one process

    A program may hold any number of handles of the C interface at once. Their
    listeners and responders share the process's descriptors with the
    connections they accept; [run_steps] interleaves C calls with accepts and the
    ends of connections, and the theorem says that every socket belongs to one
    handle at most and goes with it, while a connection's descriptor is its
    thread's. *)

From S2P Require Import Prelude.
From S2P Require Import Crypto.
From S2P Require Import IpAlloc.
From S2P Require Import Json.
From S2P Require Import State.
From S2P Require Import Coordinator.
From S2P Require Import Lifecycle.
From S2P Require Import CApi.
From S2P Require Import CoordSamples.

(** ** The calls a C program makes

    The strings a call returns are not used here, so its result is dropped;
    wirebone_create_preauth_key is the call of the longer function with no
    token and -1. *)
Inductive c_call :=
  | KCreate (cfg : option CConfig)
  | KDestroy (h : Z)
  | KStart (h : Z)
  | KStop (h : Z)
  | KRunning (h : Z)
  | KBoundAddress (h : Z)
  | KBootstrapKey (h : Z)
  | KNoisePublicKey (h : Z)
  | KExportState (h : Z)
  | KImportState (h : Z) (json : option string)
  | KPersist (h : Z)
  | KSetPersistCallback (h : Z) (cb : option (string -> World -> World))
  | KCreatePreauthKey (h reusable ephemeral : Z) (token : option string) (shared : Z)
  | KListNodes (h : Z) (count : bool)
  | KFreeNodes (nodes count : Z)
  | KFree (p : Z).

(** The handle of a call; 0 when it has none. *)
Definition call_handle (k : c_call) : Z :=
  match k with
  | KCreate _ | KFreeNodes _ _ | KFree _ => 0
  | KDestroy h | KStart h | KStop h | KRunning h | KBoundAddress h | KBootstrapKey h
  | KNoisePublicKey h | KExportState h | KImportState h _ | KPersist h | KSetPersistCallback h _
  | KCreatePreauthKey h _ _ _ _ | KListNodes h _ => h
  end.

Definition drop_result {A} (m : M CState A) : M CState unit := _ ← m; mret ().

Section Calls.
  Context `{OSSL : !OpenSSL} `{Inet : !InetLib} `{JL : !JsonLib}.

Definition exec_call (k : c_call) : M CState unit :=
  match k with
  | KCreate cfg => drop_result (wirebone_create cfg)
  | KDestroy h => wirebone_destroy h
  | KStart h => drop_result (wirebone_start h)
  | KStop h => wirebone_stop h
  | KRunning h => drop_result (wirebone_running h)
  | KBoundAddress h => drop_result (wirebone_bound_address h)
  | KBootstrapKey h => drop_result (wirebone_bootstrap_key h)
  | KNoisePublicKey h => drop_result (wirebone_noise_public_key h)
  | KExportState h => drop_result (wirebone_export_state h)
  | KImportState h json => drop_result (wirebone_import_state h json)
  | KPersist h => drop_result (wirebone_persist h)
  | KSetPersistCallback h cb => wirebone_set_persist_callback h cb
  | KCreatePreauthKey h reusable ephemeral token shared =>
      drop_result (wirebone_create_preauth_key_ex h reusable ephemeral token shared)
  | KListNodes h count => drop_result (wirebone_list_nodes h count)
  | KFreeNodes nodes count => on_mem (wirebone_free_nodes nodes count)
  | KFree p => on_mem (c_free p)
  end.

(** A call on NULL or on a handle that is live. *)
Definition call_ok (k : c_call) (c : CState) : bool :=
  (call_handle k =? 0)%Z || bool_decide (is_Some (c_objs c !! call_handle k)).

(** ** The process

    Beside the calls, an accept thread may take a connection from its listener's
    socket, a new descriptor, and the thread of a connection may end and close
    it. The threads are detached: they belong to no handle, and a destroy leaves
    them. *)
Inductive p_step := PCall (k : c_call) | PAccept (h : Z) | PClose (fd : Z).

(** The handles, and the descriptors of the connections being served. *)
Record Process := mkProcess { pr_c : CState; pr_conns : gset Z }.

Definition set_c_os (o : Os) (c : CState) : CState :=
  mkC (c_mem c) (c_objs c) (c_next_obj c) (c_world c) o (c_steady c).

(** The socket the handle's accept thread waits on is open. *)
Definition accepting (h : Z) (c : CState) : bool :=
  match c_objs c !! h with
  | Some ob => li_accept (ob_li ob) && bool_decide (li_fd (ob_li ob) ∈ os_open (c_os c))
  | None => false
  end.

(** [None]: the call is made on a handle that is not live or is undefined for
    another reason, or the step cannot happen. *)
Definition exec_step (s : p_step) (p : Process) : option Process :=
  let c := pr_c p in
  match s with
  | PCall k =>
      if call_ok k c then
        match exec_call k c with
        | (Ub, _) => None
        | (_, c) => Some (mkProcess c (pr_conns p))
        end
      else None
  | PAccept h =>
      if accepting h c then
        Some (mkProcess (set_c_os (new_fd (c_os c)).2 c) ({[os_next (c_os c)]} ∪ pr_conns p))
      else None
  | PClose fd =>
      if decide (fd ∈ pr_conns p) then
        Some (mkProcess (set_c_os (sys_close_fd fd (c_os c)).2 c) (pr_conns p ∖ {[fd]}))
      else None
  end.

Fixpoint run_steps (ss : list p_step) (p : Process) : option Process :=
  match ss with
  | [] => Some p
  | s :: ss => match exec_step s p with Some p => run_steps ss p | None => None end
  end.

End Calls.

(** ** Who owns a descriptor *)

Definition listeners (c : CState) : gmap Z Listener := ob_li <$> c_objs c.

(** The descriptor belongs to the coordinator behind the handle. *)
Definition owns (c : CState) (h fd : Z) : Prop :=
  exists li, listeners c !! h = Some li /\ fd ∈ li_fds li.

(** A listener by itself: it holds no descriptor twice, and none when idle. *)
Definition li_ok (li : Listener) : Prop :=
  fd_set (li_fd li) ## dns_fds (li_dns li) /\
  (li_running li = false -> (li_fd li < 0)%Z /\ li_dns li = None /\ li_accept li = false).

(** [E]: what the process had open before its first call. *)
Record handles_inv (E : gset Z) (c : CState) : Prop := {
  hi_wf : os_wf (c_os c);
  hi_stray : os_stray (c_os c) = [];
  hi_open : forall fd, fd ∈ os_open (c_os c) <-> fd ∈ E \/ exists h, owns c h fd;
  hi_foreign : forall h fd, owns c h fd -> fd ∉ E;
  hi_apart : forall h h' fd, owns c h fd -> owns c h' fd -> h = h';
  hi_ok : forall h li, listeners c !! h = Some li -> li_ok li;
  hi_fresh : (0 < c_next_obj c)%Z /\ forall h, is_Some (listeners c !! h) -> (0 < h < c_next_obj c)%Z;
}.

(** A step that keeps the invariant, whatever the process had open before. *)
Definition held (c c' : CState) : Prop := forall E, handles_inv E c -> handles_inv E c'.

#[export] Instance held_preorder : PreOrder held.
Proof. split; [by intros c E |]. intros c1 c2 c3 H1 H2 E H. by apply H2, H1. Qed.

(** A step after which the handles own what they owned. *)
Lemma handles_inv_owns E c c' : handles_inv E c -> c_os c' = c_os c ->
  (forall h fd, owns c' h fd <-> owns c h fd) ->
  (forall h li, listeners c' !! h = Some li -> li_ok li) ->
  (0 < c_next_obj c')%Z -> (forall h, is_Some (listeners c' !! h) -> (0 < h < c_next_obj c')%Z) ->
  handles_inv E c'.
Proof.
  intros Hi Ho Hown Hok Hn Hf. split; [rewrite Ho; apply Hi | rewrite Ho; apply Hi | | | | done | done].
  - intros fd. rewrite Ho, (hi_open E c Hi). by setoid_rewrite Hown.
  - intros h fd. rewrite Hown. apply Hi.
  - intros h h' fd. rewrite !Hown. apply Hi.
Qed.

(** A step that changes neither descriptors nor handles. *)
Lemma held_same c c' : c_os c' = c_os c -> listeners c' = listeners c ->
  c_next_obj c' = c_next_obj c -> held c c'.
Proof.
  intros Ho Hl Hn E Hi. apply (handles_inv_owns E c); rewrite ?Hl, ?Hn; try done.
  - intros h fd. unfold owns. by rewrite Hl.
  - apply (hi_ok E c Hi).
  - apply (proj1 (hi_fresh E c Hi)).
  - apply (proj2 (hi_fresh E c Hi)).
Qed.

(** A new handle is one that was never used; its listener owns nothing yet. *)
Lemma held_new c c' li : listeners c' = <[c_next_obj c := li]> (listeners c) -> c_os c' = c_os c ->
  c_next_obj c' = (c_next_obj c + 1)%Z -> li_fds li = ∅ -> li_ok li -> held c c'.
Proof.
  intros Hl Ho Hn Hnone Hok E Hi. destruct (hi_fresh E c Hi) as [H0 Hf].
  assert (listeners c !! c_next_obj c = None) as Hnew
    by (apply eq_None_not_Some; intros H%Hf; lia).
  apply (handles_inv_owns E c); rewrite ?Hl, ?Hn; try done || lia.
  - intros h fd. unfold owns. rewrite Hl. destruct (decide (h = c_next_obj c)) as [->|Hne].
    + rewrite lookup_insert_eq, Hnew. split; [| naive_solver]. intros (x & [= <-] & Hfd). set_solver.
    + by rewrite lookup_insert_ne.
  - intros h x. rewrite lookup_insert_Some. intros [[<- <-]|[_ H]]; [done | by eapply (hi_ok E c Hi)].
  - intros h. rewrite lookup_insert_is_Some. intros [<-|[_ H%Hf]]; lia.
Qed.

(** A handle that owns nothing goes. *)
Lemma held_gone c c' h li : listeners c' = delete h (listeners c) -> c_os c' = c_os c ->
  c_next_obj c' = c_next_obj c -> listeners c !! h = Some li -> li_fds li = ∅ -> held c c'.
Proof.
  intros Hl' Ho Hn Hl Hnone E Hi.
  apply (handles_inv_owns E c); rewrite ?Hl', ?Hn; try done.
  - intros h' fd. unfold owns. rewrite Hl'. destruct (decide (h' = h)) as [->|Hne].
    + rewrite lookup_delete_eq, Hl. split; [naive_solver |]. intros (x & [= <-] & Hfd). set_solver.
    + by rewrite lookup_delete_ne.
  - intros h' x. rewrite lookup_delete_Some. intros [_ Hx]. by eapply (hi_ok E c Hi).
  - apply (proj1 (hi_fresh E c Hi)).
  - intros h'. rewrite lookup_delete_is_Some. intros [_ Hx]. by apply (proj2 (hi_fresh E c Hi)).
Qed.

(** The invariant of Lifecycle for the listener of a handle: the rest of the
    process is what the other handles own, and [E]. *)
Lemma handle_li_inv E c h ob : handles_inv E c -> c_objs c !! h = Some ob ->
  li_inv (os_open (c_os c) ∖ li_fds (ob_li ob)) (set_li_os (c_os c) (ob_li ob)).
Proof.
  intros Hi Hob. assert (listeners c !! h = Some (ob_li ob)) as Hl
    by (unfold listeners; by rewrite lookup_fmap, Hob).
  destruct (hi_ok E c Hi h _ Hl) as [Hd Hr].
  assert (li_fds (ob_li ob) ⊆ os_open (c_os c)) as Hsub.
  { intros fd Hfd. apply (hi_open E c Hi). right. exists h. by exists (ob_li ob). }
  split; [apply Hi | | | exact Hd | apply Hi | exact Hr].
  - change (li_fds (set_li_os _ _)) with (li_fds (ob_li ob)). simpl.
    rewrite (union_comm_L _ (li_fds _)). by apply union_difference_L.
  - change (li_fds (set_li_os _ _)) with (li_fds (ob_li ob)). set_solver.
Qed.

(** ** One listener is replaced together with the descriptors it owns *)

Section Update.
  Context (E : gset Z) (c c' : CState) (h : Z) (li li' : Listener).
  Context (Hi : handles_inv E c) (Hl : listeners c !! h = Some li)
    (Hl' : listeners c' = <[h := li']> (listeners c)) (Ho : c_os c' = li_os li')
    (Hn : c_next_obj c' = c_next_obj c) (Hli : li_inv (os_open (c_os c) ∖ li_fds li) li').

Lemma owns_before fd : fd ∈ li_fds li <-> owns c h fd.
Proof. unfold owns. rewrite Hl. naive_solver. Qed.

Lemma owns_after h' fd : owns c' h' fd <-> if decide (h' = h) then fd ∈ li_fds li' else owns c h' fd.
Proof.
  unfold owns. rewrite Hl'. destruct (decide (h' = h)) as [->|Hne].
  - rewrite lookup_insert_eq. naive_solver.
  - by rewrite lookup_insert_ne.
Qed.

Lemma open_after fd : fd ∈ os_open (c_os c') <->
  (fd ∈ os_open (c_os c) /\ ~ owns c h fd) \/ fd ∈ li_fds li'.
Proof. rewrite Ho, (li_owned Hli), elem_of_union, elem_of_difference, owns_before. tauto. Qed.

(** What the listener owns now it owned before, or nobody had it open. *)
Lemma owned_new fd : fd ∈ li_fds li' -> owns c h fd \/ fd ∉ os_open (c_os c).
Proof.
  intros Hfd. destruct (decide (fd ∈ li_fds li)) as [H|H]; [left; by apply owns_before | right].
  intros Hopen. apply (li_foreign Hli fd); [set_solver | done].
Qed.

Lemma owned_new_apart h' fd : fd ∈ li_fds li' -> owns c h' fd -> h' = h.
Proof.
  intros [H|H]%owned_new Hown; [by eapply (hi_apart E c Hi) |].
  destruct H. apply (hi_open E c Hi). right. by exists h'.
Qed.

Lemma handles_inv_update : handles_inv E c'.
Proof.
  split.
  - rewrite Ho. apply (li_os_wf Hli).
  - rewrite Ho. apply (li_no_stray Hli).
  - intros fd. rewrite open_after, (hi_open E c Hi). setoid_rewrite owns_after. split.
    + intros [[[HE|[h' H]] Hno]|H].
      * by left.
      * right. exists h'. rewrite decide_False; [done |]. by intros ->.
      * right. exists h. by rewrite decide_True.
    + intros [HE|[h' H]].
      * left. split; [by left |]. intros Hown. by apply (hi_foreign E c Hi) in Hown.
      * case_decide as Hd; [by right | left]. split; [right; by exists h' |].
        intros Hown. apply Hd. by eapply (hi_apart E c Hi).
  - intros h' fd. rewrite owns_after. case_decide; [| apply Hi]. intros [H1|H1]%owned_new HE.
    + by apply (hi_foreign E c Hi) in H1.
    + apply H1, (hi_open E c Hi). by left.
  - intros h1 h2 fd. rewrite !owns_after. do 2 case_decide; subst; [done | | | apply Hi].
    + intros H1 H2. symmetry. by eapply owned_new_apart.
    + intros H1 H2. by eapply owned_new_apart.
  - intros h' x. rewrite Hl', lookup_insert_Some. intros [[<- <-]|[_ H1]]; [| by eapply (hi_ok E c Hi)].
    split; [apply (li_apart Hli) | apply (li_idle Hli)].
  - rewrite Hn. split; [apply (proj1 (hi_fresh E c Hi)) |]. intros h'. rewrite Hl', lookup_insert_is_Some.
    intros [<-|[_ H1]]; apply (proj2 (hi_fresh E c Hi)); [by eexists | done].
Qed.
End Update.

(** ** Every call keeps the invariant *)

Section Held.
  Context `{OSSL : !OpenSSL} `{Inet : !InetLib} `{JL : !JsonLib}.

Lemma held_on_mem {A} (m : M CMem A) : pres held (on_mem m).
Proof. intros c. unfold on_mem, zoom. destruct (m (c_mem c)). by apply held_same. Qed.

(** A registry has no descriptors. *)
Lemma held_on_impl {A} h (m : M Co A) : pres held (on_impl h m).
Proof.
  intros c. unfold on_impl. destruct (c_objs c !! h) as [ob|] eqn:Hob; [| reflexivity].
  destruct (m _) as [r co]. apply held_same; [done | | done]. unfold listeners. simpl.
  rewrite fmap_insert. simpl. apply insert_id. by rewrite lookup_fmap, Hob.
Qed.

Lemma held_guarded {A} (failed : A) (m : M CState A) : pres held m -> pres held (guarded failed m).
Proof.
  intros Hm c. specialize (Hm c). unfold guarded. by destruct (m c) as [[a|e|] c'].
Qed.

(** What on_listener leaves, when the listener keeps its own invariant. *)
Lemma on_listener_inv {A} E h (m : M Listener A) c ob : handles_inv E c -> c_objs c !! h = Some ob ->
  let '(r, li) := m (set_li_os (c_os c) (ob_li ob)) in
  li_inv (os_open (c_os c) ∖ li_fds (ob_li ob)) li ->
  (on_listener h m c).1 = r /\ handles_inv E (on_listener h m c).2 /\
  c_objs (on_listener h m c).2 = <[h := mkObj (ob_co ob) li]> (c_objs c) /\
  c_os (on_listener h m c).2 = li_os li.
Proof.
  intros Hi Hob. unfold on_listener. rewrite Hob. destruct (m _) as [r li]. intros Hli.
  split; [done |]. split; [| done].
  eapply (handles_inv_update E c _ h (ob_li ob) li); simpl; [done | | | done | done | done].
  - unfold listeners. by rewrite lookup_fmap, Hob.
  - unfold listeners. simpl. by rewrite fmap_insert.
Qed.

Lemma held_on_listener {A} h (m : M Listener A) :
  (forall E l, li_inv E l -> li_inv E (m l).2) -> pres held (on_listener h m).
Proof.
  intros Hm c E Hi. destruct (c_objs c !! h) as [ob|] eqn:Hob; [| unfold on_listener; by rewrite Hob].
  pose proof (Hm _ _ (handle_li_inv E c h ob Hi Hob)) as Hli.
  pose proof (on_listener_inv E h m c ob Hi Hob) as H. destruct (m _) as [r li]. by apply H.
Qed.

Lemma held_run_async h : pres held (on_listener h run_async).
Proof.
  apply held_on_listener. intros E l H%run_async_inv. destruct (run_async l) as [r l']. apply H.
Qed.

Lemma held_stop h : pres held (on_listener h stop).
Proof. apply held_on_listener. intros E l (l' & -> & H & _)%stop_spec. exact H. Qed.

Lemma held_look {A} h (f : Listener -> A) : pres held (on_listener h (gets f)).
Proof. by apply held_on_listener. Qed.

Lemma held_create cfg : pres held (wirebone_create cfg).
Proof.
  intros c. unfold wirebone_create. destruct (Co_new _ _ _) as [[co|e|] w]; [| by apply held_same..].
  apply (held_new c _ (Listener_new (config_of cfg) (c_os c))); [| done | done | | done].
  - unfold listeners. simpl. by rewrite fmap_insert.
  - unfold li_fds. simpl. set_solver.
Qed.

(** Destroying a handle: the stop closes what it owns, and the handle goes. *)
Lemma destroy_spec E c h ob : handles_inv E c -> h <> 0%Z -> c_objs c !! h = Some ob ->
  exists c', wirebone_destroy h c = (Ok tt, c') /\ handles_inv E c' /\
    c_objs c' = delete h (c_objs c) /\ os_open (c_os c') = os_open (c_os c) ∖ li_fds (ob_li ob).
Proof.
  intros Hi Hh Hob. unfold wirebone_destroy. rewrite (proj2 (Z.eqb_neq h 0) Hh).
  destruct (stop_spec _ _ (handle_li_inv E c h ob Hi Hob)) as (li & Hst & Hli & Hr & Hopen).
  pose proof (on_listener_inv E h stop c ob Hi Hob) as H. rewrite Hst in H.
  destruct (H Hli) as (H1 & H2 & H3 & H4). destruct (on_listener h stop c) as [r c1] eqn:Ec.
  simpl in H1, H2, H3, H4. subst r. rewrite (bind_Ok _ _ _ _ _ Ec). eexists. split; [reflexivity |].
  simpl. rewrite H3, H4, Hopen, delete_insert_eq. split; [| done].
  destruct (li_inv_idle _ li Hli Hr) as (_ & Hf & Hd & _).
  eapply (held_gone c1 _ h li); [| done | done | | | exact H2].
  - unfold listeners. simpl. by rewrite <-fmap_delete, H3, delete_insert_eq.
  - unfold listeners. rewrite H3, fmap_insert. apply lookup_insert_eq.
  - unfold li_fds. rewrite Hf, Hd. simpl. set_solver.
Qed.

Lemma held_destroy h : pres held (wirebone_destroy h).
Proof.
  intros c E Hi. destruct (Z.eqb_spec h 0) as [->|Hh]; [done |].
  destruct (c_objs c !! h) as [ob|] eqn:Hob.
  - by destruct (destroy_spec E c h ob Hi Hh Hob) as (c' & -> & H & _).
  - unfold wirebone_destroy, mbind, M_bind, on_listener. by rewrite (proj2 (Z.eqb_neq h 0) Hh), Hob.
Qed.

Hint Resolve held_on_mem held_on_impl held_guarded held_run_async held_stop held_look held_create
  held_destroy : wb.

Lemma held_call k : pres held (exec_call k).
Proof.
  destruct k; cbn [exec_call]; unfold drop_result, wirebone_start, wirebone_stop, wirebone_running,
    wirebone_bound_address, wirebone_bootstrap_key, wirebone_noise_public_key, wirebone_export_state,
    string_getter, wirebone_import_state, wirebone_persist, wirebone_set_persist_callback,
    wirebone_create_preauth_key_ex, wirebone_list_nodes, running, bound; pres_steps.
  all: apply held_guarded; pres_steps.
Qed.

(** A connection's descriptor is nobody's socket. *)
Lemma handles_inv_accept E c : handles_inv E c ->
  handles_inv ({[os_next (c_os c)]} ∪ E) (set_c_os (new_fd (c_os c)).2 c) /\
  os_next (c_os c) ∉ os_open (c_os c).
Proof.
  intros Hi. destruct (hi_wf E c Hi) as [H0 Hwf].
  assert (os_next (c_os c) ∉ os_open (c_os c)) as Hfresh by (intros H%Hwf; lia). split; [| done].
  assert (forall h fd, owns c h fd -> fd ∈ os_open (c_os c)) as Hopen
    by (intros h fd H; apply (hi_open E c Hi); right; by exists h).
  split; [| apply (hi_stray E c Hi) | | | apply (hi_apart E c Hi) | apply (hi_ok E c Hi) | apply
    (hi_fresh E c Hi)].
  - split; simpl; [lia |]. intros fd [->%elem_of_singleton|H%Hwf]%elem_of_union; lia.
  - intros fd. simpl. rewrite !elem_of_union, (hi_open E c Hi). tauto.
  - intros h fd Hown [->%elem_of_singleton|H]%elem_of_union.
    + by apply Hfresh, (Hopen h).
    + by apply (hi_foreign E c Hi h fd).
Qed.

Lemma handles_inv_close E c fd : handles_inv E c -> fd ∈ E ->
  handles_inv (E ∖ {[fd]}) (set_c_os (sys_close_fd fd (c_os c)).2 c).
Proof.
  intros Hi Hfd. destruct (hi_wf E c Hi) as [H0 Hwf].
  rewrite close_owned by (apply (hi_open E c Hi); by left).
  split; [| apply (hi_stray E c Hi) | | | apply (hi_apart E c Hi) | apply (hi_ok E c Hi) | apply
    (hi_fresh E c Hi)].
  - split; simpl; [lia |]. intros x [H%Hwf _]%elem_of_difference. lia.
  - intros x. simpl. rewrite !elem_of_difference, (hi_open E c Hi), elem_of_singleton.
    split; [tauto |]. intros [H|[h H]]; [tauto |]. split; [right; by exists h |].
    intros ->. by apply (hi_foreign E c Hi h fd).
  - intros h x Hown [Hx _]%elem_of_difference. by apply (hi_foreign E c Hi h x).
Qed.

(** [E]: what was open before; the rest are the connections. *)
Definition process_inv (E : gset Z) (p : Process) : Prop :=
  handles_inv (E ∪ pr_conns p) (pr_c p) /\ E ## pr_conns p.

Lemma exec_step_inv E s p p' : process_inv E p -> exec_step s p = Some p' -> process_inv E p'.
Proof.
  intros [Hi Hd]. destruct p as [c cl], s as [k|h|fd]; cbn [exec_step pr_c pr_conns] in *.
  - destruct (call_ok k c); [| done]. pose proof (held_call k c _ Hi) as H.
    destruct (exec_call k c) as [[a|e|] c1]; by intros [= <-].
  - destruct (accepting h c); [| done]. intros [= <-]. cbn [pr_c pr_conns].
    destruct (handles_inv_accept _ c Hi) as [Hi' Hfresh]. split; cbn [pr_c pr_conns].
    + replace (E ∪ ({[os_next (c_os c)]} ∪ cl)) with ({[os_next (c_os c)]} ∪ (E ∪ cl)); [done | set_solver].
    + assert (os_next (c_os c) ∉ E); [| set_solver]. intros HE. apply Hfresh, (hi_open _ c Hi). set_solver.
  - destruct (decide (fd ∈ cl)) as [Hfd|]; [| done]. intros [= <-].
    split; cbn [pr_c pr_conns]; [| set_solver].
    replace (E ∪ cl ∖ {[fd]}) with ((E ∪ cl) ∖ {[fd]}) by set_solver. apply handles_inv_close; set_solver.
Qed.

Lemma run_steps_inv E ss p p' : process_inv E p -> run_steps ss p = Some p' -> process_inv E p'.
Proof.
  revert p. induction ss as [|s ss IH]; intros p Hi; cbn [run_steps]; [by intros [= <-] |].
  destruct (exec_step s p) as [p1|] eqn:E1; [| done]. apply IH. by apply (exec_step_inv E s p).
Qed.

(** Before the first call. *)
Record fresh_process (c : CState) : Prop := {
  fp_wf : os_wf (c_os c);
  fp_stray : os_stray (c_os c) = [];
  fp_none : c_objs c = ∅;
  fp_next : (0 < c_next_obj c)%Z;
}.

Lemma fresh_inv c : fresh_process c -> process_inv (os_open (c_os c)) (mkProcess c ∅).
Proof.
  intros [Hwf Hs Hn H0]. split; cbn [pr_c pr_conns]; [rewrite union_empty_r_L | set_solver].
  assert (forall h, listeners c !! h = None) as Hl
    by (intros h; unfold listeners; by rewrite lookup_fmap, Hn, lookup_empty).
  assert (forall h fd, ~ owns c h fd) as Hown by (intros h fd (x & Hx & _); by rewrite Hl in Hx).
  split; [done | done | | | | | split; [done |]].
  - intros fd. split; [by left |]. intros [H|[h H]]; [done | by apply Hown in H].
  - intros h fd H. by apply Hown in H.
  - intros h h' fd H. by apply Hown in H.
  - intros h li. by rewrite Hl.
  - intros h. by rewrite Hl, is_Some_alt.
Qed.

(** A start on a live handle reports success or failure, and a stop returns. *)
Lemma start_stop_return E c h ob : handles_inv E c -> h <> 0%Z -> c_objs c !! h = Some ob ->
  ((wirebone_start h c).1 = Ok 0%Z \/ (wirebone_start h c).1 = Ok (-1)%Z) /\
  (wirebone_stop h c).1 = Ok tt.
Proof.
  intros Hi Hh Hob. pose proof (handle_li_inv E c h ob Hi Hob) as Hli.
  unfold wirebone_start, wirebone_stop. rewrite (proj2 (Z.eqb_neq h 0) Hh). split.
  - pose proof (on_listener_inv E h run_async c ob Hi Hob) as H. apply run_async_inv in Hli.
    destruct (run_async _) as [r li]. destruct Hli as (Hub & Hli & _), (H Hli) as (H1 & _).
    unfold guarded, mbind, M_bind. destruct (on_listener h run_async c) as [r' c1]. simpl in H1. subst r'.
    destruct r as [[]|e|]; [by left | by right | done].
  - pose proof (on_listener_inv E h stop c ob Hi Hob) as H.
    destruct (stop_spec _ _ Hli) as (li & Hst & Hli' & _). rewrite Hst in H. apply (H Hli').
Qed.

(** C13: the coordinators of a process do not disturb each other's sockets. After
    any calls of the C interface on any number of handles, made on NULL or on
    live handles, interleaved with any accepts of connections by their accept
    threads and any ends of connections, each closed once by its thread, and
    whichever system calls fail: no descriptor was closed twice; the open ones
    are those open before the first call, the listener's and responder's sockets
    that the live handles own, each owned by one handle, and the connections
    being served, which no handle owns; on every live handle a start reports
    success or failure, a stop returns, and a destroy returns, removes the
    handle and closes exactly the sockets it owned, so it leaves its connections
    open; and when no handle is left, only connections are. *)
Theorem handles_balanced ss c p : fresh_process c -> run_steps ss (mkProcess c ∅) = Some p ->
  let c' := pr_c p in
  os_stray (c_os c') = [] /\
  (forall fd, fd ∈ os_open (c_os c') <->
     fd ∈ os_open (c_os c) \/ fd ∈ pr_conns p \/ exists h, owns c' h fd) /\
  (forall h fd, owns c' h fd ->
     fd ∉ os_open (c_os c) /\ fd ∉ pr_conns p /\ forall h', owns c' h' fd -> h' = h) /\
  os_open (c_os c) ## pr_conns p /\
  (c_objs c' = ∅ -> os_open (c_os c') = os_open (c_os c) ∪ pr_conns p) /\
  (forall h, h <> 0%Z -> is_Some (c_objs c' !! h) ->
     ((wirebone_start h c').1 = Ok 0%Z \/ (wirebone_start h c').1 = Ok (-1)%Z) /\
     (wirebone_stop h c').1 = Ok tt /\
     exists c2, wirebone_destroy h c' = (Ok tt, c2) /\ c_objs c2 = delete h (c_objs c') /\
       forall fd, fd ∈ os_open (c_os c2) <-> fd ∈ os_open (c_os c') /\ ~ owns c' h fd).
Proof.
  intros Hf Hrun. pose proof (run_steps_inv _ ss _ p (fresh_inv c Hf) Hrun) as [Hi Hd].
  destruct p as [c' cl]. cbn [pr_c pr_conns] in *. cbv zeta.
  split; [apply Hi |]. split; [| split; [| split; [done | split]]].
  - intros fd. rewrite (hi_open _ c' Hi), elem_of_union. tauto.
  - intros h fd H. pose proof (hi_foreign _ c' Hi h fd H) as Hno. rewrite not_elem_of_union in Hno.
    destruct Hno. split; [done |]. split; [done |]. intros h' H'. by eapply (hi_apart _ c' Hi).
  - intros Hnone. apply set_eq. intros fd. rewrite (hi_open _ c' Hi). split; [| by left].
    intros [H|(h & x & Hx & _)]; [done |]. unfold listeners in Hx. by rewrite lookup_fmap, Hnone in Hx.
  - intros h Hh [ob Hob]. destruct (start_stop_return _ c' h ob Hi Hh Hob) as [H1 H2].
    split; [done |]. split; [done |].
    destruct (destroy_spec _ c' h ob Hi Hh Hob) as (c2 & E2 & _ & Ho & Hopen). exists c2.
    split; [done |]. split; [done |]. intros fd. rewrite Hopen, elem_of_difference.
    unfold owns, listeners. rewrite lookup_fmap, Hob. simpl. naive_solver.
Qed.

End Held.

(** ** The theorem at a concrete program *)

Module HandleCallSamples.
Import SampleCrypto SampleInet SampleJson.

(** Two coordinators with responders; the second's responder cannot be bound
    at its first start. The first accepts two connections, one of which outlives
    it. *)
Definition two_handles : list p_step :=
  [PCall (KCreate None); PCall (KCreate None); PCall (KStart 100); PAccept 100; PCall (KStart 101);
   PCall (KStop 101); PCall (KStart 101); PAccept 100; PClose 5; PCall (KDestroy 100)].

Definition empty_process : CState :=
  mkC (mkCMem ∅ 1 []) ∅ 100 (world (co_st co_two))
    (mkOs 3 (list_to_set [0; 1; 2]%Z) ∅ [] (replicate 11 true ++ [false]) (fun _ => ([], 0%Z))) 0.

Lemma empty_fresh : fresh_process empty_process.
Proof.
  split; [| done | done | done]. split; [done |]. intros fd. simpl. set_solver by lia.
Qed.

(** What the witness looks at. *)
Definition seen (p : Process) : list Z * list Z * bool * option bool :=
  (elements (os_open (c_os (pr_c p))), elements (pr_conns p),
   bool_decide (is_Some (c_objs (pr_c p) !! 101%Z)),
   (fun l => bool_decide (8%Z ∈ li_fds l)) <$> listeners (pr_c p) !! 101%Z).

Lemma handles_balanced_witness : exists p c2,
  run_steps two_handles (mkProcess empty_process ∅) = Some p /\
  elements (os_open (c_os (pr_c p))) = [9; 10; 8; 2; 1; 0]%Z /\ elements (pr_conns p) = [10]%Z /\
  owns (pr_c p) 101 8 /\
  wirebone_destroy 101 (pr_c p) = (Ok tt, c2) /\ ~ (8 ∈ os_open (c_os c2))%Z.
Proof.
  destruct (run_steps two_handles (mkProcess empty_process ∅)) as [p|] eqn:Hrun;
    [| vm_compute in Hrun; discriminate].
  destruct (handles_balanced two_handles empty_process p empty_fresh Hrun)
    as (_ & _ & _ & _ & _ & Hlive).
  assert (seen <$> Some p = Some ([9; 10; 8; 2; 1; 0]%Z, [10]%Z, true, Some true)) as H
    by (rewrite <-Hrun; vm_compute; reflexivity).
  clear Hrun. injection H as He Hcl Hh Hl. apply bool_decide_eq_true in Hh.
  assert (owns (pr_c p) 101 8) as Hown.
  { unfold owns. destruct (listeners (pr_c p) !! 101%Z) as [l|]; [| done].
    injection Hl as Hl%bool_decide_eq_true. exists l. split; [reflexivity | exact Hl]. }
  destruct (Hlive 101%Z ltac:(discriminate) Hh) as (_ & _ & c2 & Hd & _ & Hc2).
  exists p, c2. split; [reflexivity |]. split; [exact He |]. split; [exact Hcl |]. split; [exact Hown |].
  split; [exact Hd |]. rewrite Hc2. intros [_ Hno]. by apply Hno.
Defined.

End HandleCallSamples.
